(** * SkyMesh-AI: the allocation decision engine

    A shallow embedding of the scoring utility, the matching engine, the
    conflict engine, the reassignment engine, the coordinator agent (its
    lookups, its reading of a message and its state-changing handlers) and
    the rows the entities are read from and written to, followed by the
    properties proved about them.

    Conventions of the embedding:
    - Python [str] is [string]; [lower] and [strip] act on the ASCII range
      (letters A-Z, the whitespace characters of [str.isspace] below 128),
      and what is proved of the comparison of tags and of the ids read off a
      message is stated for texts of that range.
    - Python [float] is modelled twice.  [Module Binary64] has the scores as
      the interpreter computes them: IEEE 754 binary64 numbers given by
      their exact values, every operation rounded to the nearest number,
      ties to the even mantissa, with the infinities, the NaN and the
      exceptions of [/], [int] and [round]; what depends on the value of a
      score (the risk, the ranking, the floor of a displacement) is proved
      there.  The functions of the same names outside the module compute the
      same formulas on exact rationals [Q], without rounding.
    - [Optional[x]] is [option x]; a [datetime.date] is its
      (year, month, day) triple, ordered lexicographically.
    - A [dict] built from a list keeps its last binding per key ([gmap]);
      a [dict] that is iterated keeps its insertion order (association list).
    - Lists of entities are mutated in place by the source; the embedding
      threads the snapshot (pilots, drones, missions) explicitly.
    - The regular expressions of the agent and of [strptime] are matched on
      the ASCII range: [\d] is a digit 0-9, [\w] a letter, a digit or an
      underscore, [\s] a character that [strip] removes; a prefix spliced
      into an expression stands for itself when it is made of such [\w]
      characters.
    - A row is a [gmap] from column names to cells, the cells being text. *)

From Stdlib Require Import QArith Qround Qabs Lqa Qpower.
From stdpp Require Import gmap strings list pretty sorting.

Open Scope string_scope.
Open Scope Z_scope.

(* ------------------------------------------------------------------ *)
(** ** Strings *)

Definition is_upper (c : Ascii.ascii) : bool :=
  let n := Ascii.N_of_ascii c in ((65 <=? n) && (n <=? 90))%N.

Definition lower_char (c : Ascii.ascii) : Ascii.ascii :=
  if is_upper c then Ascii.ascii_of_N (Ascii.N_of_ascii c + 32) else c.

(** A character of the ASCII range. *)
Definition is_ascii (c : Ascii.ascii) : bool := (Ascii.N_of_ascii c <? 128)%N.

(** [str.lower] *)
Fixpoint lower (s : string) : string :=
  match s with
  | EmptyString => EmptyString
  | String c s' => String (lower_char c) (lower s')
  end.

(** The characters [str.strip] removes: tab, newline, vertical tab, form
    feed, carriage return, the four separators 28-31 and the space. *)
Definition is_space (c : Ascii.ascii) : bool :=
  let n := Ascii.N_of_ascii c in
  (((9 <=? n) && (n <=? 13)) || ((28 <=? n) && (n <=? 32)))%N.

Fixpoint lstrip (s : string) : string :=
  match s with
  | EmptyString => EmptyString
  | String c s' => if is_space c then lstrip s' else s
  end.

Fixpoint rstrip (s : string) : string :=
  match s with
  | EmptyString => EmptyString
  | String c s' =>
      match rstrip s' with
      | EmptyString => if is_space c then EmptyString else String c EmptyString
      | r => String c r
      end
  end.

(** [str.strip] *)
Definition strip (s : string) : string := rstrip (lstrip s).

(** [sub in s] on strings *)
Fixpoint contains (sub s : string) : bool :=
  String.prefix sub s ||
  match s with
  | EmptyString => false
  | String _ s' => contains sub s'
  end.

(** Truth value of a string: non-empty. *)
Definition truthy (s : string) : bool :=
  match s with EmptyString => false | _ => true end.

(** [sep.join(l)] *)
Fixpoint join (sep : string) (l : list string) : string :=
  match l with
  | [] => ""
  | [x] => x
  | x :: r => x ++ sep ++ join sep r
  end.

(* ------------------------------------------------------------------ *)
(** ** Dates *)

Record date := mkdate { year : N; month : N; day : N }.

Definition date_leb (a b : date) : bool :=
  ((year a <? year b) ||
   ((year a =? year b) &&
    ((month a <? month b) ||
     ((month a =? month b) && (day a <=? day b)))))%N.

Definition date_ltb (a b : date) : bool := negb (date_leb b a).

Definition zero_pad (width : nat) (s : string) : string :=
  String.concat "" (replicate (width - String.length s) "0") ++ s.

(** [str(d)] for a date: ISO format YYYY-MM-DD. *)
Definition date_iso (d : date) : string :=
  zero_pad 4 (pretty (year d)) ++ "-" ++ zero_pad 2 (pretty (month d))
  ++ "-" ++ zero_pad 2 (pretty (day d)).

(** [str(x)] for an optional date, as an f-string prints it. *)
Definition date_str (d : option date) : string :=
  match d with
  | Some d => date_iso d
  | None => "None"
  end.

(* ------------------------------------------------------------------ *)
(** ** Entity model (models/pilot.py, models/drone.py, models/mission.py) *)

Module Pilot.
Record t := mk {
  pilot_id : string;
  name : string;
  skills : list string;
  certifications : list string;
  location : string;
  status : string;
  current_assignment : string;
  available_from : option date
}.

Definition is_available (p : t) : bool := String.eqb (status p) "Available".

Definition set_status (v : string) (p : t) : t :=
  mk (pilot_id p) (name p) (skills p) (certifications p) (location p)
     v (current_assignment p) (available_from p).

Definition set_current_assignment (v : string) (p : t) : t :=
  mk (pilot_id p) (name p) (skills p) (certifications p) (location p)
     (status p) v (available_from p).
End Pilot.

Module Drone.
Record t := mk {
  drone_id : string;
  model : string;
  capabilities : list string;
  status : string;
  location : string;
  current_assignment : string;
  maintenance_due : option date
}.

Definition is_available (d : t) : bool := String.eqb (status d) "Available".

Definition set_status (v : string) (d : t) : t :=
  mk (drone_id d) (model d) (capabilities d) v (location d)
     (current_assignment d) (maintenance_due d).

Definition set_current_assignment (v : string) (d : t) : t :=
  mk (drone_id d) (model d) (capabilities d) (status d) (location d)
     v (maintenance_due d).
End Drone.

Module Mission.
Record t := mk {
  project_id : string;
  client : string;
  location : string;
  required_skills : list string;
  required_certs : list string;
  start_date : option date;
  end_date : option date;
  priority : string;
  assigned_pilot : string;
  assigned_drone : string
}.

(** [PRIORITY_RANK.get(self.priority, 3)] *)
Definition priority_rank (m : t) : Z :=
  if String.eqb (priority m) "Urgent" then 1
  else if String.eqb (priority m) "High" then 2
  else if String.eqb (priority m) "Standard" then 3
  else if String.eqb (priority m) "Low" then 4
  else 3.

Definition overlaps_with (self other : t) : bool :=
  match start_date self, end_date self, start_date other, end_date other with
  | Some s1, Some e1, Some s2, Some e2 => date_leb s1 e2 && date_leb s2 e1
  | _, _, _, _ => false
  end.

Definition set_assigned_pilot (v : string) (m : t) : t :=
  mk (project_id m) (client m) (location m) (required_skills m)
     (required_certs m) (start_date m) (end_date m) (priority m)
     v (assigned_drone m).

Definition set_assigned_drone (v : string) (m : t) : t :=
  mk (project_id m) (client m) (location m) (required_skills m)
     (required_certs m) (start_date m) (end_date m) (priority m)
     (assigned_pilot m) v.
End Mission.

(* ------------------------------------------------------------------ *)
(** ** Scoring utility (utils/scoring.py) *)

(** [{x.lower().strip() for x in s}] *)
Definition norm_tag (s : string) : string := strip (lower s).

Definition norm_set (s : gset string) : gset string :=
  set_map norm_tag s.

Definition set_overlap_ratio (required available : gset string) : Q :=
  if decide (required = ∅) then 1%Q
  else
    let req_lower := norm_set required in
    let avail_lower := norm_set available in
    let matched := req_lower ∩ avail_lower in
    (Z.of_nat (size matched) # Pos.of_nat (size req_lower))%Q.

Definition location_match_score (location_a location_b : string) : Q :=
  if negb (truthy location_a) || negb (truthy location_b) then 0%Q
  else if String.eqb (lower (strip location_a)) (lower (strip location_b))
       then 1%Q else 0%Q.

Record weights := mkweights {
  w_skill : Q; w_cert : Q; w_location : Q; w_availability : Q
}.

Definition default_weights : weights :=
  mkweights (40 # 100) (30 # 100) (15 # 100) (15 # 100).

Definition weighted_score (skill_score cert_score location_score
                           availability_score : Q)
                          (w : option weights) : Q :=
  let w := default default_weights w in
  (skill_score * w_skill w + cert_score * w_cert w
   + location_score * w_location w
   + availability_score * w_availability w)%Q.

(* ------------------------------------------------------------------ *)
(** ** Python list primitives *)

(** [list.sort] is stable.  [before x y] tells that [x] may stay in front
    of [y]: [key x <= key y] for an ascending sort, [key y <= key x] with
    [reverse=True] (which keeps the original order of equal keys too). *)
Section StableSort.
Context {A : Type} (before : A → A → bool).

Fixpoint insert_sorted (x : A) (l : list A) : list A :=
  match l with
  | [] => [x]
  | y :: l' => if before x y then x :: l else y :: insert_sorted x l'
  end.

Definition stable_sort (l : list A) : list A := foldr insert_sorted [] l.
End StableSort.

(** The slice [l[:n]]; a negative [n] counts from the end. *)
Definition slice_to {A : Type} (l : list A) (n : Z) : list A :=
  if n <? 0 then take (length l - Z.to_nat (- n)) l
  else take (Z.to_nat n) l.

(** [int(x)] of a float: truncation toward zero. *)
Definition int_of_Q (q : Q) : Z := Z.quot (Qnum q) (Z.pos (Qden q)).

(** [round(x)]: to the nearest integer, ties to the even one. *)
Definition round_half_even (q : Q) : Z :=
  let f := Qfloor q in
  match Qcompare (q - inject_Z f) (1 # 2) with
  | Lt => f
  | Gt => f + 1
  | Eq => if Z.even f then f else f + 1
  end.

(** [round(x, 2)] *)
Definition round2 (q : Q) : Q := (round_half_even (q * 100) # 100)%Q.

(* ------------------------------------------------------------------ *)
(** ** Matching engine (engines/matching_engine.py) *)

Definition breakdown := list (string * Q).

Definition score_pilot_for_mission (pilot : Pilot.t) (mission : Mission.t)
  : Q * breakdown :=
  let skill_s := set_overlap_ratio (list_to_set (Mission.required_skills mission))
                                   (list_to_set (Pilot.skills pilot)) in
  let cert_s := set_overlap_ratio (list_to_set (Mission.required_certs mission))
                                  (list_to_set (Pilot.certifications pilot)) in
  let loc_s := location_match_score (Pilot.location pilot)
                                    (Mission.location mission) in
  let avail_s :=
    match Pilot.available_from pilot, Mission.start_date mission with
    | Some a, Some s => if date_leb a s then 1%Q else 0%Q
    | _, _ => (1 # 2)%Q
    end in
  let total := weighted_score skill_s cert_s loc_s avail_s None in
  (total,
   [("skill_match", round2 skill_s); ("cert_match", round2 cert_s);
    ("location_match", round2 loc_s); ("availability", round2 avail_s);
    ("total_score", round2 total)]).

Definition score_drone_for_mission (drone : Drone.t) (mission : Mission.t)
  : Q * breakdown :=
  let cap_s := set_overlap_ratio (list_to_set (Mission.required_skills mission))
                                 (list_to_set (Drone.capabilities drone)) in
  let loc_s := location_match_score (Drone.location drone)
                                    (Mission.location mission) in
  let maint_s :=
    match Drone.maintenance_due drone, Mission.end_date mission with
    | Some d, Some e => if date_ltb e d then 1%Q else 0%Q
    | _, _ => (1 # 2)%Q
    end in
  let total := (cap_s * (50 # 100) + loc_s * (30 # 100)
                + maint_s * (20 # 100))%Q in
  (total,
   [("capability_match", round2 cap_s); ("location_match", round2 loc_s);
    ("maintenance_safe", round2 maint_s); ("total_score", round2 total)]).

(** A ranked candidate: the entity, its raw score, its breakdown. *)
Definition candidate (E : Type) : Type := E * Q * breakdown.

Definition cand_entity {E} (c : candidate E) : E := c.1.1.
Definition cand_score {E} (c : candidate E) : Q := c.1.2.

(** [key=lambda x: x[1], reverse=True] *)
Definition score_desc {E} (x y : candidate E) : bool :=
  Qle_bool (cand_score y) (cand_score x).

(** The loop that collects the candidates. *)
Fixpoint collect_candidates {E} (is_available : E → bool)
    (score : E → Q * breakdown) (l : list E) : list (candidate E) :=
  match l with
  | [] => []
  | e :: l' =>
      if negb (is_available e) then collect_candidates is_available score l'
      else
        let '(s, bd) := score e in
        (e, s, bd) :: collect_candidates is_available score l'
  end.

Definition find_best_pilots (pilots : list Pilot.t) (mission : Mission.t)
    (top_n : Z) : list (candidate Pilot.t) :=
  let candidates :=
    collect_candidates Pilot.is_available
      (λ p, score_pilot_for_mission p mission) pilots in
  slice_to (stable_sort score_desc candidates) top_n.

Definition find_best_drones (drones : list Drone.t) (mission : Mission.t)
    (top_n : Z) : list (candidate Drone.t) :=
  let candidates :=
    collect_candidates Drone.is_available
      (λ d, score_drone_for_mission d mission) drones in
  slice_to (stable_sort score_desc candidates) top_n.

(* ------------------------------------------------------------------ *)
(** ** Reassignment engine (engines/reassignment_engine.py) *)

Record SwapPlan := mkSwapPlan {
  urgent_mission_id : string;
  suggested_pilot : option Pilot.t;
  pilot_score : Q;
  pilot_breakdown : breakdown;
  suggested_drone : option Drone.t;
  drone_score : Q;
  drone_breakdown : breakdown;
  displaced_from_mission : option string;
  displaced_mission_priority : option string;
  risk_score : Z;
  justification : string;
  warnings : list string
}.

Definition _compute_risk_score (pilot_score drone_score : Q) (is_swap : bool)
    (displaced_priority : option string) : Z :=
  let base_risk :=
    int_of_Q ((1 - (pilot_score + drone_score) / 2) * 50)%Q in
  let base_risk :=
    if is_swap then
      let base_risk := base_risk + 20 in
      if bool_decide (displaced_priority = Some "High") then base_risk + 20
      else if bool_decide (displaced_priority = Some "Urgent")
           then base_risk + 30
      else if bool_decide (displaced_priority = Some "Standard")
              || bool_decide (displaced_priority = Some "Low")
           then base_risk + 5
      else base_risk
    else base_risk in
  Z.max 0 (Z.min 100 base_risk).

(** [{p.pilot_id: p for p in pilots}]: a later pilot replaces an earlier
    one with the same id. *)
Definition pilot_map_of (pilots : list Pilot.t) : gmap string Pilot.t :=
  foldl (λ acc p, <[Pilot.pilot_id p := p]> acc) ∅ pilots.

Definition drone_map_of (drones : list Drone.t) : gmap string Drone.t :=
  foldl (λ acc d, <[Drone.drone_id d := d]> acc) ∅ drones.

(** Phase 1: the available pilots and drones. *)
Definition phase1_plans (urgent_mission : Mission.t)
    (best_pilots : list (candidate Pilot.t))
    (best_drones : list (candidate Drone.t)) : list SwapPlan :=
  match best_pilots, best_drones with
  | _ :: _, (drone, d_score, d_bd) :: _ =>
      map (λ '(pilot, p_score, p_bd),
             let risk := _compute_risk_score p_score d_score false None in
             mkSwapPlan (Mission.project_id urgent_mission)
               (Some pilot) p_score p_bd (Some drone) d_score d_bd
               None None risk
               ("Available pilot " ++ Pilot.name pilot ++ " and drone "
                ++ Drone.model drone ++ " match the mission requirements.")
               [])
          (slice_to best_pilots 2)
  | _, _ => []
  end.

(** The missions a pilot can be taken from, lowest priority first. *)
Definition reassignable (missions : list Mission.t) : list Mission.t :=
  stable_sort
    (λ x y, Mission.priority_rank y <=? Mission.priority_rank x)
    (filter (λ m, truthy (Mission.assigned_pilot m) = true
                  ∧ (Mission.priority m = "Low"
                     ∨ Mission.priority m = "Standard"))
            missions).

(** One turn of the phase 2 loop. *)
Definition displacement_plan (urgent_mission : Mission.t)
    (pilot_map : gmap string Pilot.t)
    (best_drones : list (candidate Drone.t)) (m : Mission.t)
  : option SwapPlan :=
  match pilot_map !! Mission.assigned_pilot m with
  | None => None
  | Some candidate =>
      let '(p_score, p_bd) := score_pilot_for_mission candidate urgent_mission in
      if negb (Qle_bool (3 # 10) p_score) then None
      else
        let drone_for_plan := head best_drones in
        let d_score := from_option cand_score 0%Q drone_for_plan in
        let d_bd := from_option snd [] drone_for_plan in
        let drone_obj := cand_entity <$> drone_for_plan in
        let risk := _compute_risk_score p_score d_score true
                      (Some (Mission.priority m)) in
        Some (mkSwapPlan (Mission.project_id urgent_mission)
                (Some candidate) p_score p_bd drone_obj d_score d_bd
                (Some (Mission.project_id m)) (Some (Mission.priority m))
                risk
                ("Swap pilot " ++ Pilot.name candidate ++ " from "
                 ++ Mission.project_id m ++ " (Priority: "
                 ++ Mission.priority m ++ ") to urgent mission "
                 ++ Mission.project_id urgent_mission ++ ".")
                ["Mission " ++ Mission.project_id m ++ " ("
                 ++ Mission.client m ++ ") will be left without a pilot."])
  end.

(** Phase 2: runs when phase 1 found no available pilot. *)
Definition phase2_plans (urgent_mission : Mission.t)
    (pilots : list Pilot.t) (missions : list Mission.t)
    (best_pilots : list (candidate Pilot.t))
    (best_drones : list (candidate Drone.t)) : list SwapPlan :=
  match best_pilots with
  | [] =>
      omap (displacement_plan urgent_mission (pilot_map_of pilots) best_drones)
           (reassignable missions)
  | _ :: _ => []
  end.

(** The closing loop over the plans when no drone is available. *)
Definition no_drone_penalty (plan : SwapPlan) : SwapPlan :=
  mkSwapPlan (urgent_mission_id plan) (suggested_pilot plan)
    (pilot_score plan) (pilot_breakdown plan) (suggested_drone plan)
    (drone_score plan) (drone_breakdown plan) (displaced_from_mission plan)
    (displaced_mission_priority plan)
    (Z.min 100 (risk_score plan + 15)) (justification plan)
    (warnings plan
     ++ ["No available drones found. Manual drone assignment needed."]).

Definition risk_asc (x y : SwapPlan) : bool := risk_score x <=? risk_score y.

Definition suggest_reassignment (urgent_mission : Mission.t)
    (pilots : list Pilot.t) (drones : list Drone.t)
    (missions : list Mission.t) : list SwapPlan :=
  let best_pilots := find_best_pilots pilots urgent_mission 3 in
  let best_drones := find_best_drones drones urgent_mission 3 in
  let plans := (phase1_plans urgent_mission best_pilots best_drones
                ++ phase2_plans urgent_mission pilots missions
                                best_pilots best_drones)%list in
  let plans :=
    match best_drones with
    | [] => map no_drone_penalty plans
    | _ :: _ => plans
    end in
  stable_sort risk_asc plans.

(* ------------------------------------------------------------------ *)
(** ** Conflict engine (engines/conflict_engine.py) *)

Record Conflict := mkConflict {
  conflict_type : string;
  severity : string;
  entity_id : string;
  entity_name : string;
  mission_id : string;
  description : string
}.

(** [d.setdefault(k, []).append(v)] on a dict that is iterated later:
    the keys keep the order of their first insertion. *)
Fixpoint setdefault_append {V : Type} (k : string) (v : V)
    (d : list (string * list V)) : list (string * list V) :=
  match d with
  | [] => [(k, [v])]
  | (k', l) :: d' =>
      if String.eqb k' k then (k', (l ++ [v])%list) :: d'
      else (k', l) :: setdefault_append k v d'
  end.

(** The two nested loops [for i in range(len(l)): for j in range(i+1, len(l))]. *)
Fixpoint pair_loop {C : Type} (body : Mission.t → Mission.t → option C)
    (m_list : list Mission.t) : list C :=
  match m_list with
  | [] => []
  | mi :: rest => (omap (body mi) rest ++ pair_loop body rest)%list
  end.

Section DoubleBooking.
(** The pilot and the drone scan differ in the mission field that is read,
    in the map of known entities and in the wording of the conflict. *)
Context {E : Type}.
Variable assigned : Mission.t → string.
Variable entity_map : gmap string E.
Variable conflict_of : string → E → Mission.t → Mission.t → Conflict.

(** Group the missions by assigned entity. *)
Definition group_missions (missions : list Mission.t)
  : list (string * list Mission.t) :=
  foldl (λ acc m,
           if truthy (assigned m)
              && bool_decide (is_Some (entity_map !! assigned m))
           then setdefault_append (assigned m) m acc
           else acc)
        [] missions.

(** The body of the inner loop; the lookup cannot fail, the groups hold
    known ids only. *)
Definition booking_body (eid : string) (mi mj : Mission.t)
  : option Conflict :=
  if Mission.overlaps_with mi mj then
    match entity_map !! eid with
    | Some e => Some (conflict_of eid e mi mj)
    | None => None
    end
  else None.

Definition scan_double_bookings (missions : list Mission.t)
  : list Conflict :=
  flat_map (λ '(eid, m_list), pair_loop (booking_body eid) m_list)
           (group_missions missions).
End DoubleBooking.

Definition pilot_booking_conflict (pid : string) (p : Pilot.t)
    (mi mj : Mission.t) : Conflict :=
  mkConflict "Double Booking" "Critical" pid (Pilot.name p)
    (Mission.project_id mi ++ " & " ++ Mission.project_id mj)
    ("Pilot " ++ Pilot.name p ++ " (" ++ pid
     ++ ") is assigned to overlapping missions "
     ++ Mission.project_id mi ++ " (" ++ date_str (Mission.start_date mi)
     ++ "–" ++ date_str (Mission.end_date mi) ++ ") and "
     ++ Mission.project_id mj ++ " (" ++ date_str (Mission.start_date mj)
     ++ "–" ++ date_str (Mission.end_date mj) ++ ").").

Definition drone_booking_conflict (did : string) (d : Drone.t)
    (mi mj : Mission.t) : Conflict :=
  mkConflict "Double Booking" "Critical" did (Drone.model d)
    (Mission.project_id mi ++ " & " ++ Mission.project_id mj)
    ("Drone " ++ Drone.model d ++ " (" ++ did
     ++ ") assigned to overlapping missions "
     ++ Mission.project_id mi ++ " and " ++ Mission.project_id mj ++ ".").

Definition detect_double_bookings (pilots : list Pilot.t)
    (missions : list Mission.t) : list Conflict :=
  scan_double_bookings Mission.assigned_pilot (pilot_map_of pilots)
    pilot_booking_conflict missions.

Definition detect_drone_double_bookings (drones : list Drone.t)
    (missions : list Mission.t) : list Conflict :=
  scan_double_bookings Mission.assigned_drone (drone_map_of drones)
    drone_booking_conflict missions.

Definition norm_tags (l : list string) : gset string :=
  list_to_set (norm_tag <$> l).

Definition detect_skill_mismatches (pilots : list Pilot.t)
    (missions : list Mission.t) : list Conflict :=
  let pilot_map := pilot_map_of pilots in
  flat_map
    (λ m,
       if negb (truthy (Mission.assigned_pilot m)) then []
       else
         match pilot_map !! Mission.assigned_pilot m with
         | None => []
         | Some p =>
             let p_skills := norm_tags (Pilot.skills p) in
             let p_certs := norm_tags (Pilot.certifications p) in
             let missing_skills :=
               filter (λ s, norm_tag s ∉ p_skills) (Mission.required_skills m) in
             let missing_certs :=
               filter (λ c, norm_tag c ∉ p_certs) (Mission.required_certs m) in
             ((match missing_skills with
               | [] => []
               | _ :: _ =>
                   [mkConflict "Skill Mismatch" "Critical" (Pilot.pilot_id p)
                      (Pilot.name p) (Mission.project_id m)
                      ("Pilot " ++ Pilot.name p
                       ++ " is missing required skills: "
                       ++ join ", " missing_skills ++ " for "
                       ++ Mission.project_id m ++ ".")]
               end)
              ++
              (match missing_certs with
               | [] => []
               | _ :: _ =>
                   [mkConflict "Skill Mismatch" "Critical" (Pilot.pilot_id p)
                      (Pilot.name p) (Mission.project_id m)
                      ("Pilot " ++ Pilot.name p
                       ++ " is missing required certifications: "
                       ++ join ", " missing_certs ++ " for "
                       ++ Mission.project_id m ++ ".")]
               end))%list
         end)
    missions.

Definition detect_maintenance_conflicts (drones : list Drone.t)
    (missions : list Mission.t) : list Conflict :=
  let drone_map := drone_map_of drones in
  flat_map
    (λ m,
       if negb (truthy (Mission.assigned_drone m)) then []
       else
         match drone_map !! Mission.assigned_drone m with
         | None => []
         | Some d =>
             if String.eqb (Drone.status d) "Maintenance" then
               [mkConflict "Maintenance" "Critical" (Drone.drone_id d)
                  (Drone.model d) (Mission.project_id m)
                  ("Drone " ++ Drone.model d ++ " (" ++ Drone.drone_id d
                   ++ ") is currently in Maintenance and cannot be assigned to "
                   ++ Mission.project_id m ++ ".")]
             else
               match Drone.maintenance_due d, Mission.end_date m with
               | Some due, Some e =>
                   if date_leb due e then
                     [mkConflict "Maintenance" "Warning" (Drone.drone_id d)
                        (Drone.model d) (Mission.project_id m)
                        ("Drone " ++ Drone.model d ++ " (" ++ Drone.drone_id d
                         ++ ") has maintenance due on " ++ date_iso due
                         ++ " but mission " ++ Mission.project_id m
                         ++ " ends on " ++ date_iso e ++ ".")]
                   else []
               | _, _ => []
               end
         end)
    missions.

Definition detect_location_mismatches (pilots : list Pilot.t)
    (drones : list Drone.t) (missions : list Mission.t) : list Conflict :=
  let pilot_map := pilot_map_of pilots in
  let drone_map := drone_map_of drones in
  flat_map
    (λ m,
       if negb (truthy (Mission.location m)) then []
       else
         ((if truthy (Mission.assigned_pilot m) then
             match pilot_map !! Mission.assigned_pilot m with
             | Some p =>
                 if truthy (Pilot.location p)
                    && negb (String.eqb (strip (lower (Pilot.location p)))
                                        (strip (lower (Mission.location m))))
                 then
                   [mkConflict "Location Mismatch" "Warning" (Pilot.pilot_id p)
                      (Pilot.name p) (Mission.project_id m)
                      ("Pilot " ++ Pilot.name p ++ " is in "
                       ++ Pilot.location p ++ " but mission "
                       ++ Mission.project_id m ++ " is in "
                       ++ Mission.location m ++ ".")]
                 else []
             | None => []
             end
           else [])
          ++
          (if truthy (Mission.assigned_drone m) then
             match drone_map !! Mission.assigned_drone m with
             | Some d =>
                 if truthy (Drone.location d)
                    && negb (String.eqb (strip (lower (Drone.location d)))
                                        (strip (lower (Mission.location m))))
                 then
                   [mkConflict "Location Mismatch" "Warning" (Drone.drone_id d)
                      (Drone.model d) (Mission.project_id m)
                      ("Drone " ++ Drone.model d ++ " (" ++ Drone.drone_id d
                       ++ ") is in " ++ Drone.location d ++ " but mission "
                       ++ Mission.project_id m ++ " is in "
                       ++ Mission.location m ++ ".")]
                 else []
             | None => []
             end
           else []))%list)
    missions.

(** [conflicts = []] followed by five [conflicts.extend(...)]. *)
Definition detect_all_conflicts (pilots : list Pilot.t)
    (drones : list Drone.t) (missions : list Mission.t) : list Conflict :=
  foldl (λ conflicts found, (conflicts ++ found)%list) []
    [detect_double_bookings pilots missions;
     detect_drone_double_bookings drones missions;
     detect_skill_mismatches pilots missions;
     detect_maintenance_conflicts drones missions;
     detect_location_mismatches pilots drones missions].

(* ------------------------------------------------------------------ *)
(** ** The snapshot and the code that writes to it *)

(** The three lists every mutator receives (the fields of [DataStore]). *)
Module DataStore.
Record t := mk {
  pilots : list Pilot.t;
  drones : list Drone.t;
  missions : list Mission.t
}.
End DataStore.

(** How a call ends: with a value, or with an exception that escapes. *)
Inductive outcome (A : Type) : Type :=
  | Returned (a : A)
  | Raised (exn : string).
Arguments Returned {A} a.
Arguments Raised {A} exn.

(** A computation on the snapshot.  The writes made before an exception
    stay in the snapshot, as they do in the entities of the source. *)
Definition Store (A : Type) : Type := DataStore.t → DataStore.t * outcome A.

#[export] Instance Store_ret : MRet Store := λ A a s, (s, Returned a).

#[export] Instance Store_bind : MBind Store := λ A B f m s,
  match m s with
  | (s', Returned a) => f a s'
  | (s', Raised e) => (s', Raised e)
  end.

Definition raise {A : Type} (exn : string) : Store A := λ s, (s, Raised exn).

Definition gets {A : Type} (f : DataStore.t → A) : Store A :=
  λ s, (s, Returned (f s)).

(** Writes to the object stored at a position of one of the lists. *)
Definition write_pilot (i : nat) (f : Pilot.t → Pilot.t) : Store unit :=
  λ s, (DataStore.mk (alter f i (DataStore.pilots s)) (DataStore.drones s)
          (DataStore.missions s), Returned ()).

Definition write_drone (i : nat) (f : Drone.t → Drone.t) : Store unit :=
  λ s, (DataStore.mk (DataStore.pilots s) (alter f i (DataStore.drones s))
          (DataStore.missions s), Returned ()).

Definition write_mission (i : nat) (f : Mission.t → Mission.t) : Store unit :=
  λ s, (DataStore.mk (DataStore.pilots s) (DataStore.drones s)
          (alter f i (DataStore.missions s)), Returned ()).

Definition newline : string := String (Ascii.ascii_of_N 10) EmptyString.

(** [next((m for m in missions if m.project_id == mid), None)], with the
    position of the object that was found. *)
Definition find_mission_by_id (mid : string) (missions : list Mission.t)
  : option (nat * Mission.t) :=
  list_find (λ m, Mission.project_id m = mid) missions.

(** engines/reassignment_engine.py, [execute_reassignment].  The two
    [next(...)] without a default raise [StopIteration] when nothing
    matches. *)
Definition execute_reassignment (plan : SwapPlan) : Store string :=
  missions ← gets DataStore.missions;
  match find_mission_by_id (urgent_mission_id plan) missions with
  | None =>
      mret ("❌ Mission " ++ urgent_mission_id plan ++ " not found.")
  | Some (ui, urgent) =>
      changes ←
        match suggested_pilot plan with
        | None => mret []
        | Some plan_pilot =>
            changes ←
              match displaced_from_mission plan with
              | None => mret []
              | Some displaced =>
                  if truthy displaced then
                    missions ← gets DataStore.missions;
                    match find_mission_by_id displaced missions with
                    | Some (oi, old_mission) =>
                        write_mission oi (Mission.set_assigned_pilot "");;
                        mret ["Removed " ++ Pilot.name plan_pilot ++ " from "
                              ++ Mission.project_id old_mission]
                    | None => mret []
                    end
                  else mret []
              end;
            pilots ← gets DataStore.pilots;
            match list_find (λ p, Pilot.pilot_id p = Pilot.pilot_id plan_pilot)
                            pilots with
            | None => raise "StopIteration"
            | Some (pi, pilot) =>
                write_pilot pi (Pilot.set_status "Assigned");;
                write_pilot pi
                  (Pilot.set_current_assignment (urgent_mission_id plan));;
                write_mission ui
                  (Mission.set_assigned_pilot (Pilot.pilot_id pilot));;
                let line := "Assigned pilot " ++ Pilot.name pilot ++ " ("
                            ++ Pilot.pilot_id pilot ++ ") to "
                            ++ Mission.project_id urgent in
                mret (changes ++ [line])%list
            end
        end;
      changes ←
        match suggested_drone plan with
        | None => mret changes
        | Some plan_drone =>
            drones ← gets DataStore.drones;
            match list_find (λ d, Drone.drone_id d = Drone.drone_id plan_drone)
                            drones with
            | None => raise "StopIteration"
            | Some (di, drone) =>
                write_drone di (Drone.set_status "Assigned");;
                write_drone di
                  (Drone.set_current_assignment (urgent_mission_id plan));;
                write_mission ui
                  (Mission.set_assigned_drone (Drone.drone_id drone));;
                let line := "Assigned drone " ++ Drone.model drone ++ " ("
                            ++ Drone.drone_id drone ++ ") to "
                            ++ Mission.project_id urgent in
                mret (changes ++ [line])%list
            end
        end;
      mret (match changes with
            | [] => "No changes were made."
            | _ :: _ => join newline changes
            end)
  end.

(** agent/coordinator_agent.py, [DataStore.find_pilot] and
    [DataStore.find_drone]: an exact match on id or name first, then the
    first name that contains the identifier. *)
Definition find_pilot (identifier : string) (pilots : list Pilot.t)
  : option (nat * Pilot.t) :=
  let identifier := lower (strip identifier) in
  match list_find (λ p, lower (Pilot.pilot_id p) = identifier
                        ∨ lower (Pilot.name p) = identifier) pilots with
  | Some r => Some r
  | None =>
      list_find (λ p, contains identifier (lower (Pilot.name p)) = true) pilots
  end.

Definition find_drone (identifier : string) (drones : list Drone.t)
  : option (nat * Drone.t) :=
  let identifier := lower (strip identifier) in
  match list_find (λ d, lower (Drone.drone_id d) = identifier
                        ∨ lower (Drone.model d) = identifier) drones with
  | Some r => Some r
  | None =>
      list_find (λ d, contains identifier (lower (Drone.model d)) = true) drones
  end.

(** agent/coordinator_agent.py, [_handle_update_status].  [params] carries
    the two keys [pilot_name] and [new_status]; saving the lists and the
    decision log leave the snapshot as it is and are left out. *)
Definition _handle_update_status (pilot_name new_status : option string)
  : Store string :=
  match pilot_name with
  | None | Some "" =>
      mret "Please specify who to update. Example: `Mark Arjun as On Leave`"
  | Some name =>
      match new_status with
      | None | Some "" =>
          mret ("Please specify the new status. Example: `Mark " ++ name
                ++ " as Available`")
      | Some new_status =>
          pilots ← gets DataStore.pilots;
          match find_pilot name pilots with
          | Some (pi, pilot) =>
              let old_status := Pilot.status pilot in
              write_pilot pi (Pilot.set_status new_status);;
              (if bool_decide (new_status = "On Leave")
                  || bool_decide (new_status = "Available")
               then write_pilot pi (Pilot.set_current_assignment "")
               else mret ());;
              mret ("### ✅ Status Updated" ++ newline ++ "**"
                    ++ Pilot.name pilot ++ "** (" ++ Pilot.pilot_id pilot
                    ++ "): " ++ old_status ++ " → **" ++ new_status ++ "**"
                    ++ newline ++ "📝 Decision logged.")
          | None =>
              drones ← gets DataStore.drones;
              match find_drone name drones with
              | Some (di, drone) =>
                  let old_status := Drone.status drone in
                  write_drone di (Drone.set_status new_status);;
                  mret ("### ✅ Drone Status Updated" ++ newline ++ "**"
                        ++ Drone.model drone ++ "** (" ++ Drone.drone_id drone
                        ++ "): " ++ old_status ++ " → **" ++ new_status
                        ++ "**")
              | None =>
                  mret ("❌ Could not find pilot or drone matching '" ++ name
                        ++ "'.")
              end
          end
      end
  end.

(** [DataStore.find_mission]: an exact match on the id first, then the
    first mission whose id or client contains the identifier. *)
Definition find_mission (identifier : string) (missions : list Mission.t)
  : option (nat * Mission.t) :=
  let identifier := lower (strip identifier) in
  match list_find (λ m, lower (Mission.project_id m) = identifier) missions with
  | Some r => Some r
  | None =>
      list_find (λ m, contains identifier (lower (Mission.project_id m)) = true
                      ∨ contains identifier (lower (Mission.client m)) = true)
                missions
  end.

(** A parameter that is present and not empty. *)
Definition given (param : option string) : option string :=
  match param with
  | Some s => if truthy s then Some s else None
  | None => None
  end.

(** The reply that lists the changes: a title, one bullet per change and
    the closing line, joined by newlines. *)
Definition bullet (c : string) : string := "- " ++ c.

Definition change_report (title : string) (changes : list string) : string :=
  let closing := newline ++ "📝 Decision logged. Data synced." in
  join newline ([title] ++ (bullet <$> changes) ++ [closing])%list.

(** The line that reports a release. *)
Definition released_line (kind label ident old_assignment : string) : string :=
  kind ++ " **" ++ label ++ "** (" ++ ident ++ ") released from "
  ++ (if truthy old_assignment then old_assignment else "assignment")
  ++ " → Available".

(** agent/coordinator_agent.py, [_handle_unassign].  [params] carries the
    keys [pilot_name], [pilot_id] and [drone_id].  The result of each half
    is the list of changes or the reply of an early return. *)
Definition unassign_pilot (pi : nat) (pilot : Pilot.t)
  : Store (list string + string) :=
  let old_assignment := Pilot.current_assignment pilot in
  if String.eqb (Pilot.status pilot) "Assigned" || truthy old_assignment then
    (if truthy old_assignment then
       missions ← gets DataStore.missions;
       match find_mission old_assignment missions with
       | Some (mi, mission) =>
           if String.eqb (Mission.assigned_pilot mission) (Pilot.pilot_id pilot)
           then write_mission mi (Mission.set_assigned_pilot "")
           else mret ()
       | None => mret ()
       end
     else mret ());;
    write_pilot pi (Pilot.set_status "Available");;
    write_pilot pi (Pilot.set_current_assignment "");;
    mret (inl [released_line "Pilot" (Pilot.name pilot) (Pilot.pilot_id pilot)
                 old_assignment])
  else
    mret (inr ("ℹ️ Pilot **" ++ Pilot.name pilot ++ "** is already "
               ++ Pilot.status pilot ++ " with no assignment.")).

Definition unassign_drone (di : nat) (drone : Drone.t)
  : Store (list string + string) :=
  let old_assignment := Drone.current_assignment drone in
  if String.eqb (Drone.status drone) "Assigned" || truthy old_assignment then
    (if truthy old_assignment then
       missions ← gets DataStore.missions;
       match find_mission old_assignment missions with
       | Some (mi, mission) =>
           if String.eqb (Mission.assigned_drone mission) (Drone.drone_id drone)
           then write_mission mi (Mission.set_assigned_drone "")
           else mret ()
       | None => mret ()
       end
     else mret ());;
    write_drone di (Drone.set_status "Available");;
    write_drone di (Drone.set_current_assignment "");;
    mret (inl [released_line "Drone" (Drone.model drone) (Drone.drone_id drone)
                 old_assignment])
  else
    mret (inr ("ℹ️ Drone **" ++ Drone.model drone ++ "** is already "
               ++ Drone.status drone ++ " with no assignment.")).

Definition _handle_unassign (pilot_name pilot_id drone_id : option string)
  : Store string :=
  let name := given pilot_name in
  let pid := given pilot_id in
  let did := given drone_id in
  pilots ← gets DataStore.pilots;
  let pilot :=
    match pid, name with
    | Some pid, _ => find_pilot pid pilots
    | None, Some name => find_pilot name pilots
    | None, None => None
    end in
  pilot_part ←
    match pilot return Store (list string + string) with
    | Some (pi, p) => unassign_pilot pi p
    | None => mret (inl [])
    end;
  match pilot_part with
  | inr reply => mret reply
  | inl pilot_changes =>
      drones ← gets DataStore.drones;
      let drone :=
        match did, pilot, name with
        | Some did, _, _ => find_drone did drones
        | None, None, Some name => find_drone name drones
        | None, _, _ => None
        end in
      drone_part ←
        match drone return Store (list string + string) with
        | Some (di, d) => unassign_drone di d
        | None => mret (inl [])
        end;
      match drone_part with
      | inr reply => mret reply
      | inl drone_changes =>
          match (pilot_changes ++ drone_changes)%list with
          | [] =>
              let identifier :=
                match pid, did, name with
                | Some x, _, _ | None, Some x, _ | None, None, Some x => x
                | None, None, None => "unknown"
                end in
              mret ("❌ Could not find pilot or drone matching '" ++ identifier
                    ++ "'.")
          | changes =>
              mret (change_report "### ✅ Unassignment Complete" changes)
          end
      end
  end.

(** agent/coordinator_agent.py, [_handle_cancel_mission]; [params] carries
    the key [mission_id]. *)
Definition _handle_cancel_mission (mission_id : option string) : Store string :=
  match given mission_id with
  | None =>
      mret "Please specify the mission to cancel. Example: `Cancel mission PRJ001`"
  | Some mid =>
      missions ← gets DataStore.missions;
      match find_mission mid missions with
      | None =>
          mret ("❌ Mission **" ++ mid ++ "** not found. Available: "
                ++ join ", " (Mission.project_id <$> missions))
      | Some (mi, mission) =>
          pilot_changes ←
            (if truthy (Mission.assigned_pilot mission) then
               pilots ← gets DataStore.pilots;
               changes ←
                 match find_pilot (Mission.assigned_pilot mission) pilots with
                 | Some (pi, pilot) =>
                     write_pilot pi (Pilot.set_status "Available");;
                     write_pilot pi (Pilot.set_current_assignment "");;
                     mret ["Pilot **" ++ Pilot.name pilot ++ "** ("
                           ++ Pilot.pilot_id pilot ++ ") → Available"]
                 | None => mret []
                 end;
               write_mission mi (Mission.set_assigned_pilot "");;
               mret changes
             else mret []);
          drone_changes ←
            (if truthy (Mission.assigned_drone mission) then
               drones ← gets DataStore.drones;
               changes ←
                 match find_drone (Mission.assigned_drone mission) drones with
                 | Some (di, drone) =>
                     write_drone di (Drone.set_status "Available");;
                     write_drone di (Drone.set_current_assignment "");;
                     mret ["Drone **" ++ Drone.model drone ++ "** ("
                           ++ Drone.drone_id drone ++ ") → Available"]
                 | None => mret []
                 end;
               write_mission mi (Mission.set_assigned_drone "");;
               mret changes
             else mret []);
          match (pilot_changes ++ drone_changes)%list with
          | [] =>
              mret ("ℹ️ Mission **" ++ mid
                    ++ "** has no active assignments to cancel.")
          | changes =>
              mret (change_report
                      ("### ✅ Mission " ++ mid ++ " Assignments Cleared")
                      changes)
          end
      end
  end.

(** The conflict scan as the handlers run it: it reads the three lists. *)
Definition run_detect_all_conflicts : Store (list Conflict) :=
  pilots ← gets DataStore.pilots;
  drones ← gets DataStore.drones;
  missions ← gets DataStore.missions;
  mret (detect_all_conflicts pilots drones missions).

(** The bidirectional invariant of the snapshot, mission side first: an
    assigned pilot (drone) is present, points back at the mission and has
    status Assigned. *)
Definition pilot_link_ok (s : DataStore.t) (m : Mission.t) : Prop :=
  Mission.assigned_pilot m ≠ "" →
  Exists (λ p, Pilot.pilot_id p = Mission.assigned_pilot m
               ∧ Pilot.current_assignment p = Mission.project_id m
               ∧ Pilot.status p = "Assigned") (DataStore.pilots s).

Definition drone_link_ok (s : DataStore.t) (m : Mission.t) : Prop :=
  Mission.assigned_drone m ≠ "" →
  Exists (λ d, Drone.drone_id d = Mission.assigned_drone m
               ∧ Drone.current_assignment d = Mission.project_id m
               ∧ Drone.status d = "Assigned") (DataStore.drones s).

Definition bidirectional_invariant (s : DataStore.t) : Prop :=
  Forall (λ m, pilot_link_ok s m ∧ drone_link_ok s m) (DataStore.missions s).

(* ------------------------------------------------------------------ *)
(** ** Binary64: the scores as Python computes them

    A Python [float] is an IEEE 754 binary64 number.  A finite one is given
    by its exact rational value; the sign of a zero is not kept (no
    function of the program tells the two zeros apart).  Every operation
    returns the binary64 number nearest to the exact result, ties to the
    even mantissa, and an infinity when that number is 2^1024 or more in
    magnitude. *)

(** How an expression ends: with a value, or with an exception. *)
#[export] Instance outcome_ret : MRet outcome := λ A a, Returned a.

#[export] Instance outcome_bind : MBind outcome := λ A B f m,
  match m with
  | Returned a => f a
  | Raised e => Raised e
  end.

Module Binary64.

Definition pow2 (z : Z) : Q := (2 ^ z)%Q.

(** For [q > 0], the exponent [e] with [2^e <= q < 2^(e+1)]. *)
Definition floor_log2 (q : Q) : Z :=
  let e := Z.log2 (Qnum q) - Z.log2 (Z.pos (Qden q)) in
  if Qle_bool (pow2 e) q then e else e - 1.

(** The exponent of the unit in the last place at [q > 0]: 53 bits of
    mantissa, and no exponent below that of the subnormal numbers. *)
Definition ulp_exponent (q : Q) : Z := Z.max (floor_log2 q - 52) (-1074).

(** The multiple of the unit in the last place nearest to [q > 0]. *)
Definition nearest_pos (q : Q) : Q :=
  let unit := pow2 (ulp_exponent q) in
  Qred (inject_Z (round_half_even (q / unit)) * unit).

(** Round to nearest, ties to even, with no bound on the exponent. *)
Definition nearest (q : Q) : Q :=
  match Qcompare q 0 with
  | Eq => 0%Q
  | Gt => nearest_pos q
  | Lt => Qred (- nearest_pos (- q))
  end.

Inductive float : Type :=
  | Finite (value : Q)
  | Infinity (negative : bool)
  | NaN.

Definition is_negative (q : Q) : bool :=
  match Qcompare q 0 with Lt => true | _ => false end.

(** The binary64 number that stands for the exact result [q]. *)
Definition round64 (q : Q) : float :=
  let r := nearest q in
  if Qle_bool (pow2 1024) (Qabs r) then Infinity (is_negative r)
  else Finite r.

(** A literal such as [0.35], and an [int] made a float. *)
Definition literal (q : Q) : float := round64 q.
Definition of_int (z : Z) : float := round64 (inject_Z z).

Definition is_zero (x : float) : bool :=
  match x with Finite q => Qeq_bool q 0 | _ => false end.

Definition fneg (x : float) : float :=
  match x with
  | Finite q => Finite (Qred (- q))
  | Infinity s => Infinity (negb s)
  | NaN => NaN
  end.

Definition fadd (x y : float) : float :=
  match x, y with
  | Finite a, Finite b => round64 (a + b)
  | Finite _, Infinity s | Infinity s, Finite _ => Infinity s
  | Infinity s, Infinity t => if Bool.eqb s t then Infinity s else NaN
  | NaN, _ | _, NaN => NaN
  end.

Definition fsub (x y : float) : float := fadd x (fneg y).

Definition fmul (x y : float) : float :=
  match x, y with
  | Finite a, Finite b => round64 (a * b)
  | Finite a, Infinity s | Infinity s, Finite a =>
      if Qeq_bool a 0 then NaN else Infinity (xorb s (is_negative a))
  | Infinity s, Infinity t => Infinity (xorb s t)
  | NaN, _ | _, NaN => NaN
  end.

(** [x / y]: Python raises on a zero divisor. *)
Definition fdiv (x y : float) : outcome float :=
  if is_zero y then Raised "ZeroDivisionError"
  else
    Returned
      match x, y with
      | Finite a, Finite b => round64 (a / b)
      | Finite _, Infinity _ => Finite 0
      | Infinity s, Finite b => Infinity (xorb s (is_negative b))
      | Infinity _, Infinity _ => NaN
      | NaN, _ | _, NaN => NaN
      end.

(** [a / b] on two [int]s: the quotient is rounded once. *)
Definition int_truediv (a : Z) (b : positive) : float := round64 (a # b).

(** [x < y], [x <= y] and [x == y]: false when one side is a NaN. *)
Definition flt (x y : float) : bool :=
  match x, y with
  | Finite a, Finite b => is_negative (a - b)
  | Finite _, Infinity s => negb s
  | Infinity s, Finite _ => s
  | Infinity s, Infinity t => s && negb t
  | NaN, _ | _, NaN => false
  end.

Definition feq (x y : float) : bool :=
  match x, y with
  | Finite a, Finite b => Qeq_bool a b
  | Infinity s, Infinity t => Bool.eqb s t
  | _, _ => false
  end.

Definition fle (x y : float) : bool := flt x y || feq x y.

(** [int(x)]: truncation toward zero; no integer for an infinity or a NaN. *)
Definition int_of_float (x : float) : outcome Z :=
  match x with
  | Finite q => Returned (int_of_Q q)
  | Infinity _ => Raised "OverflowError"
  | NaN => Raised "ValueError"
  end.

(** [round(x, 2)]: the exact value is rounded to two decimals, ties to
    even, and the binary64 number nearest to that decimal is returned. *)
Definition round2 (x : float) : float :=
  match x with
  | Finite q => round64 (round_half_even (q * 100) # 100)
  | _ => x
  end.

(** *** utils/scoring.py *)

Definition set_overlap_ratio (required available : gset string) : float :=
  if decide (required = ∅) then Finite 1
  else
    let req_lower := norm_set required in
    let avail_lower := norm_set available in
    let matched := req_lower ∩ avail_lower in
    int_truediv (Z.of_nat (size matched)) (Pos.of_nat (size req_lower)).

Definition location_match_score (location_a location_b : string) : float :=
  if negb (truthy location_a) || negb (truthy location_b) then Finite 0
  else if String.eqb (lower (strip location_a)) (lower (strip location_b))
       then Finite 1 else Finite 0.

Record weights := mkweights {
  w_skill : float; w_cert : float; w_location : float; w_availability : float
}.

Definition default_weights : weights :=
  mkweights (literal (40 # 100)) (literal (30 # 100)) (literal (15 # 100))
    (literal (15 # 100)).

Definition weighted_score (skill_score cert_score location_score
                           availability_score : float)
                          (w : option weights) : float :=
  let w := default default_weights w in
  fadd (fadd (fadd (fmul skill_score (w_skill w))
                   (fmul cert_score (w_cert w)))
             (fmul location_score (w_location w)))
       (fmul availability_score (w_availability w)).

(** *** engines/matching_engine.py *)

Definition breakdown := list (string * float).

Definition score_pilot_for_mission (pilot : Pilot.t) (mission : Mission.t)
  : float * breakdown :=
  let skill_s := set_overlap_ratio (list_to_set (Mission.required_skills mission))
                                   (list_to_set (Pilot.skills pilot)) in
  let cert_s := set_overlap_ratio (list_to_set (Mission.required_certs mission))
                                  (list_to_set (Pilot.certifications pilot)) in
  let loc_s := location_match_score (Pilot.location pilot)
                                    (Mission.location mission) in
  let avail_s :=
    match Pilot.available_from pilot, Mission.start_date mission with
    | Some a, Some s => if date_leb a s then Finite 1 else Finite 0
    | _, _ => literal (5 # 10)
    end in
  let total := weighted_score skill_s cert_s loc_s avail_s None in
  (total,
   [("skill_match", round2 skill_s); ("cert_match", round2 cert_s);
    ("location_match", round2 loc_s); ("availability", round2 avail_s);
    ("total_score", round2 total)]).

Definition score_drone_for_mission (drone : Drone.t) (mission : Mission.t)
  : float * breakdown :=
  let cap_s := set_overlap_ratio (list_to_set (Mission.required_skills mission))
                                 (list_to_set (Drone.capabilities drone)) in
  let loc_s := location_match_score (Drone.location drone)
                                    (Mission.location mission) in
  let maint_s :=
    match Drone.maintenance_due drone, Mission.end_date mission with
    | Some d, Some e => if date_ltb e d then Finite 1 else Finite 0
    | _, _ => literal (5 # 10)
    end in
  let total :=
    fadd (fadd (fmul cap_s (literal (50 # 100)))
               (fmul loc_s (literal (30 # 100))))
         (fmul maint_s (literal (20 # 100))) in
  (total,
   [("capability_match", round2 cap_s); ("location_match", round2 loc_s);
    ("maintenance_safe", round2 maint_s); ("total_score", round2 total)]).

(** A ranked candidate: the entity, its raw score, its breakdown. *)
Definition candidate (E : Type) : Type := E * float * breakdown.

Definition cand_entity {E} (c : candidate E) : E := c.1.1.
Definition cand_score {E} (c : candidate E) : float := c.1.2.

(** [key=lambda x: x[1], reverse=True]: an element stays in front of
    another unless its score is less. *)
Definition score_desc {E} (x y : candidate E) : bool :=
  negb (flt (cand_score x) (cand_score y)).

Fixpoint collect_candidates {E} (is_available : E → bool)
    (score : E → float * breakdown) (l : list E) : list (candidate E) :=
  match l with
  | [] => []
  | e :: l' =>
      if negb (is_available e) then collect_candidates is_available score l'
      else
        let '(s, bd) := score e in
        (e, s, bd) :: collect_candidates is_available score l'
  end.

Definition find_best_pilots (pilots : list Pilot.t) (mission : Mission.t)
    (top_n : Z) : list (candidate Pilot.t) :=
  let candidates :=
    collect_candidates Pilot.is_available
      (λ p, score_pilot_for_mission p mission) pilots in
  slice_to (stable_sort score_desc candidates) top_n.

Definition find_best_drones (drones : list Drone.t) (mission : Mission.t)
    (top_n : Z) : list (candidate Drone.t) :=
  let candidates :=
    collect_candidates Drone.is_available
      (λ d, score_drone_for_mission d mission) drones in
  slice_to (stable_sort score_desc candidates) top_n.

(** *** engines/reassignment_engine.py *)

Definition _compute_risk_score (pilot_score drone_score : float)
    (is_swap : bool) (displaced_priority : option string) : outcome Z :=
  half ← fdiv (fadd pilot_score drone_score) (of_int 2);
  base_risk ← int_of_float (fmul (fsub (Finite 1) half) (of_int 50));
  let base_risk :=
    if is_swap then
      let base_risk := base_risk + 20 in
      if bool_decide (displaced_priority = Some "High") then base_risk + 20
      else if bool_decide (displaced_priority = Some "Urgent")
           then base_risk + 30
      else if bool_decide (displaced_priority = Some "Standard")
              || bool_decide (displaced_priority = Some "Low")
           then base_risk + 5
      else base_risk
    else base_risk in
  mret (Z.max 0 (Z.min 100 base_risk)).

(** A loop whose body may raise: the first exception ends it. *)
Fixpoint for_each {A B : Type} (body : A → outcome B) (l : list A)
  : outcome (list B) :=
  match l with
  | [] => mret []
  | a :: l' => b ← body a; bs ← for_each body l'; mret (b :: bs)
  end.

Record SwapPlan := mkSwapPlan {
  urgent_mission_id : string;
  suggested_pilot : option Pilot.t;
  pilot_score : float;
  pilot_breakdown : breakdown;
  suggested_drone : option Drone.t;
  drone_score : float;
  drone_breakdown : breakdown;
  displaced_from_mission : option string;
  displaced_mission_priority : option string;
  risk_score : Z;
  justification : string;
  warnings : list string
}.

(** Phase 1: the available pilots and drones. *)
Definition phase1_plans (urgent_mission : Mission.t)
    (best_pilots : list (candidate Pilot.t))
    (best_drones : list (candidate Drone.t)) : outcome (list SwapPlan) :=
  match best_pilots, best_drones with
  | _ :: _, (drone, d_score, d_bd) :: _ =>
      for_each
        (λ '(pilot, p_score, p_bd),
           risk ← _compute_risk_score p_score d_score false None;
           mret (mkSwapPlan (Mission.project_id urgent_mission)
                   (Some pilot) p_score p_bd (Some drone) d_score d_bd
                   None None risk
                   ("Available pilot " ++ Pilot.name pilot ++ " and drone "
                    ++ Drone.model drone
                    ++ " match the mission requirements.")
                   []))
        (slice_to best_pilots 2)
  | _, _ => mret []
  end.

(** One turn of the phase 2 loop; [None] stands for [continue]. *)
Definition displacement_plan (urgent_mission : Mission.t)
    (pilot_map : gmap string Pilot.t)
    (best_drones : list (candidate Drone.t)) (m : Mission.t)
  : outcome (option SwapPlan) :=
  match pilot_map !! Mission.assigned_pilot m with
  | None => mret None
  | Some candidate =>
      let '(p_score, p_bd) := score_pilot_for_mission candidate urgent_mission in
      if flt p_score (literal (3 # 10)) then mret None
      else
        let drone_for_plan := head best_drones in
        let d_score := from_option cand_score (Finite 0) drone_for_plan in
        let d_bd := from_option snd [] drone_for_plan in
        let drone_obj := cand_entity <$> drone_for_plan in
        risk ← _compute_risk_score p_score d_score true
                 (Some (Mission.priority m));
        mret (Some (mkSwapPlan (Mission.project_id urgent_mission)
                (Some candidate) p_score p_bd drone_obj d_score d_bd
                (Some (Mission.project_id m)) (Some (Mission.priority m))
                risk
                ("Swap pilot " ++ Pilot.name candidate ++ " from "
                 ++ Mission.project_id m ++ " (Priority: "
                 ++ Mission.priority m ++ ") to urgent mission "
                 ++ Mission.project_id urgent_mission ++ ".")
                ["Mission " ++ Mission.project_id m ++ " ("
                 ++ Mission.client m ++ ") will be left without a pilot."]))
  end.

(** Phase 2: runs when phase 1 found no available pilot. *)
Definition phase2_plans (urgent_mission : Mission.t)
    (pilots : list Pilot.t) (missions : list Mission.t)
    (best_pilots : list (candidate Pilot.t))
    (best_drones : list (candidate Drone.t)) : outcome (list SwapPlan) :=
  match best_pilots with
  | [] =>
      found ← for_each (displacement_plan urgent_mission (pilot_map_of pilots)
                          best_drones)
                       (reassignable missions);
      mret (omap id (found : list (option SwapPlan)))
  | _ :: _ => mret []
  end.

(** The closing loop over the plans when no drone is available. *)
Definition no_drone_penalty (plan : SwapPlan) : SwapPlan :=
  mkSwapPlan (urgent_mission_id plan) (suggested_pilot plan)
    (pilot_score plan) (pilot_breakdown plan) (suggested_drone plan)
    (drone_score plan) (drone_breakdown plan) (displaced_from_mission plan)
    (displaced_mission_priority plan)
    (Z.min 100 (risk_score plan + 15)) (justification plan)
    (warnings plan
     ++ ["No available drones found. Manual drone assignment needed."]).

Definition risk_asc (x y : SwapPlan) : bool := risk_score x <=? risk_score y.

Definition suggest_reassignment (urgent_mission : Mission.t)
    (pilots : list Pilot.t) (drones : list Drone.t)
    (missions : list Mission.t) : outcome (list SwapPlan) :=
  let best_pilots := find_best_pilots pilots urgent_mission 3 in
  let best_drones := find_best_drones drones urgent_mission 3 in
  phase1 ← phase1_plans urgent_mission best_pilots best_drones;
  phase2 ← phase2_plans urgent_mission pilots missions best_pilots best_drones;
  let plans := (phase1 ++ phase2)%list in
  let plans :=
    match best_drones with
    | [] => map no_drone_penalty plans
    | _ :: _ => plans
    end in
  mret (stable_sort risk_asc plans).


End Binary64.

(* ------------------------------------------------------------------ *)
(** ** The conflict scan as it runs on the snapshot

    An entity of the source is an object, and a list, a dict or a loop
    variable holds a reference to it.  Here a reference is the position of
    the object in its list of the snapshot, and the object is read through
    the reference where the code reads its attributes.  A scan that wrote
    to an entity would leave another snapshot behind. *)

Module Scan.

Definition pilot_at (r : nat) : Store Pilot.t :=
  λ s, match DataStore.pilots s !! r with
       | Some p => (s, Returned p)
       | None => (s, Raised "IndexError")
       end.

Definition drone_at (r : nat) : Store Drone.t :=
  λ s, match DataStore.drones s !! r with
       | Some d => (s, Returned d)
       | None => (s, Raised "IndexError")
       end.

Definition mission_at (r : nat) : Store Mission.t :=
  λ s, match DataStore.missions s !! r with
       | Some m => (s, Returned m)
       | None => (s, Raised "IndexError")
       end.

(** What [for x in pilots] goes through: the references to the objects of
    the list. *)
Definition pilot_refs : Store (list nat) :=
  gets (λ s, seq 0 (length (DataStore.pilots s))).

Definition drone_refs : Store (list nat) :=
  gets (λ s, seq 0 (length (DataStore.drones s))).

Definition mission_refs : Store (list nat) :=
  gets (λ s, seq 0 (length (DataStore.missions s))).

(** A loop whose body appends what it finds to [conflicts]. *)
Fixpoint for_each {A B : Type} (l : list A) (body : A → Store (list B))
  : Store (list B) :=
  match l with
  | [] => mret []
  | a :: l' =>
      found ← body a; more ← for_each l' body; mret (found ++ more)%list
  end.

(** A loop whose body updates a local dict. *)
Fixpoint fold_each {A S : Type} (l : list A) (body : S → A → Store S)
    (acc : S) : Store S :=
  match l with
  | [] => mret acc
  | a :: l' => acc' ← body acc a; fold_each l' body acc'
  end.

(** [{p.pilot_id: p for p in pilots}] and [{d.drone_id: d for d in drones}] *)
Definition pilot_map : Store (gmap string nat) :=
  refs ← pilot_refs;
  fold_each refs
    (λ acc r, p ← pilot_at r; mret (<[Pilot.pilot_id p := r]> acc)) ∅.

Definition drone_map : Store (gmap string nat) :=
  refs ← drone_refs;
  fold_each refs
    (λ acc r, d ← drone_at r; mret (<[Drone.drone_id d := r]> acc)) ∅.

(** The two nested loops [for i in range(len(l)): for j in range(i+1, len(l))]. *)
Fixpoint pair_loop (body : nat → nat → Store (list Conflict))
    (m_list : list nat) : Store (list Conflict) :=
  match m_list with
  | [] => mret []
  | ri :: rest =>
      found ← for_each rest (body ri);
      more ← pair_loop body rest;
      mret (found ++ more)%list
  end.

Section DoubleBooking.
Context {E : Type}.
Variable assigned : Mission.t → string.
Variable entity_at : nat → Store E.
Variable entity_map : gmap string nat.
Variable conflict_of : string → E → Mission.t → Mission.t → Conflict.

Definition group_missions : Store (list (string * list nat)) :=
  refs ← mission_refs;
  fold_each refs
    (λ acc r,
       m ← mission_at r;
       if truthy (assigned m)
          && bool_decide (is_Some (entity_map !! assigned m))
       then mret (setdefault_append (assigned m) r acc)
       else mret acc)
    [].

Definition booking_body (eid : string) (ri rj : nat) : Store (list Conflict) :=
  mi ← mission_at ri;
  mj ← mission_at rj;
  if Mission.overlaps_with mi mj then
    match entity_map !! eid with
    | Some r => e ← entity_at r; mret [conflict_of eid e mi mj]
    | None => raise "KeyError"
    end
  else mret [].

Definition scan_double_bookings : Store (list Conflict) :=
  groups ← group_missions;
  for_each groups (λ '(eid, m_list), pair_loop (booking_body eid) m_list).
End DoubleBooking.

Definition detect_double_bookings : Store (list Conflict) :=
  pilot_map ← pilot_map;
  scan_double_bookings Mission.assigned_pilot pilot_at pilot_map
    pilot_booking_conflict.

Definition detect_drone_double_bookings : Store (list Conflict) :=
  drone_map ← drone_map;
  scan_double_bookings Mission.assigned_drone drone_at drone_map
    drone_booking_conflict.

(** The two conflicts a pilot and a mission can give rise to. *)
Definition skill_conflicts (p : Pilot.t) (m : Mission.t) : list Conflict :=
  let p_skills := norm_tags (Pilot.skills p) in
  let p_certs := norm_tags (Pilot.certifications p) in
  let missing_skills :=
    filter (λ s, norm_tag s ∉ p_skills) (Mission.required_skills m) in
  let missing_certs :=
    filter (λ c, norm_tag c ∉ p_certs) (Mission.required_certs m) in
  ((match missing_skills with
    | [] => []
    | _ :: _ =>
        [mkConflict "Skill Mismatch" "Critical" (Pilot.pilot_id p)
           (Pilot.name p) (Mission.project_id m)
           ("Pilot " ++ Pilot.name p
            ++ " is missing required skills: "
            ++ join ", " missing_skills ++ " for "
            ++ Mission.project_id m ++ ".")]
    end)
   ++
   (match missing_certs with
    | [] => []
    | _ :: _ =>
        [mkConflict "Skill Mismatch" "Critical" (Pilot.pilot_id p)
           (Pilot.name p) (Mission.project_id m)
           ("Pilot " ++ Pilot.name p
            ++ " is missing required certifications: "
            ++ join ", " missing_certs ++ " for "
            ++ Mission.project_id m ++ ".")]
    end))%list.

Definition detect_skill_mismatches : Store (list Conflict) :=
  pilot_map ← pilot_map;
  refs ← mission_refs;
  for_each refs
    (λ r,
       m ← mission_at r;
       if negb (truthy (Mission.assigned_pilot m)) then mret []
       else
         match pilot_map !! Mission.assigned_pilot m with
         | None => mret []
         | Some rp => p ← pilot_at rp; mret (skill_conflicts p m)
         end).

Definition maintenance_conflicts (d : Drone.t) (m : Mission.t)
  : list Conflict :=
  if String.eqb (Drone.status d) "Maintenance" then
    [mkConflict "Maintenance" "Critical" (Drone.drone_id d)
       (Drone.model d) (Mission.project_id m)
       ("Drone " ++ Drone.model d ++ " (" ++ Drone.drone_id d
        ++ ") is currently in Maintenance and cannot be assigned to "
        ++ Mission.project_id m ++ ".")]
  else
    match Drone.maintenance_due d, Mission.end_date m with
    | Some due, Some e =>
        if date_leb due e then
          [mkConflict "Maintenance" "Warning" (Drone.drone_id d)
             (Drone.model d) (Mission.project_id m)
             ("Drone " ++ Drone.model d ++ " (" ++ Drone.drone_id d
              ++ ") has maintenance due on " ++ date_iso due
              ++ " but mission " ++ Mission.project_id m
              ++ " ends on " ++ date_iso e ++ ".")]
        else []
    | _, _ => []
    end.

Definition detect_maintenance_conflicts : Store (list Conflict) :=
  drone_map ← drone_map;
  refs ← mission_refs;
  for_each refs
    (λ r,
       m ← mission_at r;
       if negb (truthy (Mission.assigned_drone m)) then mret []
       else
         match drone_map !! Mission.assigned_drone m with
         | None => mret []
         | Some rd => d ← drone_at rd; mret (maintenance_conflicts d m)
         end).

Definition pilot_location_conflicts (p : Pilot.t) (m : Mission.t)
  : list Conflict :=
  if truthy (Pilot.location p)
     && negb (String.eqb (strip (lower (Pilot.location p)))
                         (strip (lower (Mission.location m))))
  then
    [mkConflict "Location Mismatch" "Warning" (Pilot.pilot_id p)
       (Pilot.name p) (Mission.project_id m)
       ("Pilot " ++ Pilot.name p ++ " is in "
        ++ Pilot.location p ++ " but mission "
        ++ Mission.project_id m ++ " is in "
        ++ Mission.location m ++ ".")]
  else [].

Definition drone_location_conflicts (d : Drone.t) (m : Mission.t)
  : list Conflict :=
  if truthy (Drone.location d)
     && negb (String.eqb (strip (lower (Drone.location d)))
                         (strip (lower (Mission.location m))))
  then
    [mkConflict "Location Mismatch" "Warning" (Drone.drone_id d)
       (Drone.model d) (Mission.project_id m)
       ("Drone " ++ Drone.model d ++ " (" ++ Drone.drone_id d
        ++ ") is in " ++ Drone.location d ++ " but mission "
        ++ Mission.project_id m ++ " is in "
        ++ Mission.location m ++ ".")]
  else [].

Definition detect_location_mismatches : Store (list Conflict) :=
  pilot_map ← pilot_map;
  drone_map ← drone_map;
  refs ← mission_refs;
  for_each refs
    (λ r,
       m ← mission_at r;
       if negb (truthy (Mission.location m)) then mret []
       else
         of_pilot ←
           (if truthy (Mission.assigned_pilot m) then
              match pilot_map !! Mission.assigned_pilot m with
              | Some rp => p ← pilot_at rp; mret (pilot_location_conflicts p m)
              | None => mret []
              end
            else mret []);
         of_drone ←
           (if truthy (Mission.assigned_drone m) then
              match drone_map !! Mission.assigned_drone m with
              | Some rd => d ← drone_at rd; mret (drone_location_conflicts d m)
              | None => mret []
              end
            else mret []);
         mret (of_pilot ++ of_drone)%list).

(** [conflicts = []] followed by five [conflicts.extend(...)]. *)
Definition detect_all_conflicts : Store (list Conflict) :=
  fold_each
    [detect_double_bookings; detect_drone_double_bookings;
     detect_skill_mismatches; detect_maintenance_conflicts;
     detect_location_mismatches]
    (λ conflicts scan, found ← scan; mret (conflicts ++ found)%list)
    [].

End Scan.

(* ------------------------------------------------------------------ *)
(** ** The agent reads a message (agent/coordinator_agent.py) *)

Definition is_lower (c : Ascii.ascii) : bool :=
  let n := Ascii.N_of_ascii c in ((97 <=? n) && (n <=? 122))%N.

Definition upper_char (c : Ascii.ascii) : Ascii.ascii :=
  if is_lower c then Ascii.ascii_of_N (Ascii.N_of_ascii c - 32) else c.

(** [str.upper] *)
Fixpoint upper (s : string) : string :=
  match s with
  | EmptyString => EmptyString
  | String c s' => String (upper_char c) (upper s')
  end.

(** [str.title]: a letter that follows a letter is lower-cased, any other
    letter is upper-cased. *)
Fixpoint title_from (after_letter : bool) (s : string) : string :=
  match s with
  | EmptyString => EmptyString
  | String c s' =>
      String (if after_letter then lower_char c else upper_char c)
             (title_from (is_upper c || is_lower c) s')
  end.

Definition title (s : string) : string := title_from false s.

(** [\d] and [\w] *)
Definition is_digit (c : Ascii.ascii) : bool :=
  let n := Ascii.N_of_ascii c in ((48 <=? n) && (n <=? 57))%N.

Definition is_word (c : Ascii.ascii) : bool :=
  is_digit c || is_upper c || is_lower c
  || (Ascii.N_of_ascii c =? 95)%N.

(** The longest prefix of characters of a class, and the rest: a greedy
    [\d+], [\s+] or [\w+] that nothing makes give characters back. *)
Fixpoint span (class : Ascii.ascii → bool) (s : string) : string * string :=
  match s with
  | EmptyString => (EmptyString, EmptyString)
  | String c s' =>
      if class c then let '(run, rest) := span class s' in (String c run, rest)
      else (EmptyString, s)
  end.

(** A literal under [re.IGNORECASE], at the start of [s]: the text that
    matched and the rest. *)
Fixpoint match_literal (lit s : string) : option (string * string) :=
  match lit, s with
  | EmptyString, _ => Some (EmptyString, s)
  | String a lit', String b s' =>
      if Ascii.eqb (lower_char a) (lower_char b) then
        '(m, rest) ← match_literal lit' s'; Some (String b m, rest)
      else None
  | String _ _, EmptyString => None
  end.

(** [\b] between the character before a position and the one at it. *)
Definition word_boundary (before : option Ascii.ascii) (s : string) : bool :=
  xorb (from_option is_word false before)
       (match s with String c _ => is_word c | EmptyString => false end).

Fixpoint last_char (s : string) : option Ascii.ascii :=
  match s with
  | EmptyString => None
  | String c EmptyString => Some c
  | String _ s' => last_char s'
  end.

(** [\b({p}\d+)\b] at one position. *)
Definition match_id_at (p : string) (before : option Ascii.ascii) (s : string)
  : option string :=
  if word_boundary before s then
    '(m, rest) ← match_literal p s;
    let '(digits, after) := span is_digit rest in
    if truthy digits && word_boundary (last_char digits) after
    then Some (m ++ digits) else None
  else None.

(** [re.search]: the match at the leftmost position that has one. *)
Fixpoint search_id (p : string) (before : option Ascii.ascii) (s : string)
  : option string :=
  match match_id_at p before s with
  | Some m => Some m
  | None =>
      match s with
      | EmptyString => None
      | String c s' => search_id p (Some c) s'
      end
  end.

Fixpoint _extract_id (msg : string) (prefix : list string) : option string :=
  match prefix with
  | [] => None
  | p :: prefix' =>
      match search_id p None msg with
      | Some m => Some (upper m)
      | None => _extract_id msg prefix'
      end
  end.

(** [{pat}\s+(\w+)] at one position, and its search. *)
Definition match_name_at (pat s : string) : option string :=
  '(_, rest) ← match_literal pat s;
  let '(blanks, after) := span is_space rest in
  let '(name, _) := span is_word after in
  if truthy blanks && truthy name then Some name else None.

Fixpoint search_name (pat s : string) : option string :=
  match match_name_at pat s with
  | Some name => Some name
  | None =>
      match s with
      | EmptyString => None
      | String _ s' => search_name pat s'
      end
  end.

Definition not_a_name : list string :=
  ["as"; "to"; "the"; "status"; "a"; "an"; "is"].

Fixpoint extract_name_from (patterns : list string) (msg : string)
  : option string :=
  match patterns with
  | [] => None
  | pat :: patterns' =>
      match search_name pat msg with
      | Some name =>
          if bool_decide (lower name ∈ not_a_name)
          then extract_name_from patterns' msg
          else Some name
      | None => extract_name_from patterns' msg
      end
  end.

Definition _extract_name (msg : string) : option string :=
  extract_name_from ["pilot"; "mark"; "update"] msg.

Module Filters.
Record t := mk {
  location : option string;
  skills : list string;
  certifications : list string;
  status : option string
}.
Definition empty : t := mk None [] [] None.
End Filters.

(** [for x in l: if x in msg: ...; break] *)
Definition first_in (l : list string) (msg : string) : option string :=
  snd <$> list_find (λ x, contains x msg = true) l.

Definition _extract_query_filters (msg : string) : Filters.t :=
  let cities := ["bangalore"; "mumbai"; "delhi"; "chennai"; "hyderabad";
                 "pune"; "kolkata"] in
  let skills := ["mapping"; "survey"; "inspection"; "thermal"; "lidar";
                 "rgb"; "photogrammetry"] in
  let certs := ["dgca"; "night ops"; "beyond vlos"; "bvlos"] in
  Filters.mk
    (title <$> first_in cities (lower msg))
    (title <$> filter (λ s, contains s (lower msg) = true) skills)
    ((λ c, if String.eqb c "dgca" then upper c else title c)
       <$> filter (λ c, contains c (lower msg) = true) certs)
    (title <$> first_in ["available"; "assigned"; "on leave"; "maintenance"]
                 (lower msg)).

Inductive Intent : Set :=
  | QUERY_PILOTS | QUERY_DRONES | QUERY_MISSIONS | ASSIGN | CONFLICTS
  | URGENT_REASSIGN | UPDATE_STATUS | CANCEL_MISSION | UNASSIGN
  | RESOLVE_CONFLICT | HELP | UNKNOWN.

(** The [params] dict: a key that is absent reads as [None] (the handlers
    read it with [params.get]); [filters] is absent outside the queries. *)
Module Params.
Record t := mk {
  raw : string;
  mission_id : option string;
  pilot_name : option string;
  pilot_id : option string;
  drone_id : option string;
  new_status : option string;
  filters : option Filters.t
}.
Definition of_raw (message : string) : t :=
  mk message None None None None None None.
End Params.

(** [any(kw in msg for kw in l)] *)
Definition any_in (l : list string) (msg : string) : bool :=
  existsb (λ kw, contains kw msg) l.

Definition mission_prefixes : list string := ["prj"; "m"; "mission"].

Definition detect_intent (message : string) : Intent * Params.t :=
  let msg := strip (lower message) in
  let with_mission :=
    Params.mk message (_extract_id msg mission_prefixes) None None None None
      None in
  let with_filters :=
    Params.mk message None None None None None
      (Some (_extract_query_filters msg)) in
  if any_in ["cancel mission"; "cancel assignment"; "unassign mission";
             "remove assignment"; "clear assignment"; "abort mission"] msg
  then (CANCEL_MISSION, with_mission)
  else if any_in ["unassign"; "free up"; "release"] msg
  then (UNASSIGN,
        Params.mk message None (_extract_name msg) (_extract_id msg ["p"])
          (_extract_id msg ["d"]) None None)
  else if any_in ["resolve"; "fix conflict"; "handle conflict"] msg
  then (RESOLVE_CONFLICT, with_mission)
  else if any_in ["urgent"; "reassign"; "swap"; "emergency"] msg
  then (URGENT_REASSIGN, with_mission)
  else if any_in ["conflict"; "overlap"; "double book"; "mismatch"; "issue"] msg
  then (CONFLICTS, Params.of_raw message)
  else if any_in ["assign"; "match"; "best pilot"; "best drone"; "recommend"] msg
  then (ASSIGN, with_mission)
  else if any_in ["mark"; "update"; "set"; "change status"] msg
  then (UPDATE_STATUS,
        Params.mk message None (_extract_name msg) None None
          (title <$> first_in ["on leave"; "available"; "assigned"; "inactive"]
                       msg)
          None)
  else if any_in ["pilot"; "roster"] msg then (QUERY_PILOTS, with_filters)
  else if any_in ["drone"; "fleet"; "uav"] msg then (QUERY_DRONES, with_filters)
  else if any_in ["mission"; "project"; "prj"] msg
  then (QUERY_MISSIONS, with_filters)
  else if any_in ["help"; "what can you"; "how to"; "commands"] msg
  then (HELP, Params.of_raw message)
  else (UNKNOWN, Params.of_raw message).

(** [[c for c in all_conflicts if c.mission_id == mid]] when [mid] is
    given, all the conflicts otherwise. *)
Definition relevant_conflicts (mid : option string)
    (all_conflicts : list Conflict) : list Conflict :=
  match given mid with
  | Some mid => filter (λ c, mission_id c = mid) all_conflicts
  | None => all_conflicts
  end.

(** The lines the loop appends for the conflict numbered [i]. *)
Definition resolution_lines (i : nat) (c : Conflict) : list string :=
  let cancel := "`Cancel mission " ++ mission_id c ++ "`" in
  let reassign :=
    "   - " ++ cancel ++ " then `Assign best pilot to " ++ mission_id c ++ "`" in
  let head_line :=
    "**" ++ pretty i ++ ". " ++ conflict_type c ++ "** (" ++ severity c ++ ")" in
  let description_line := "   " ++ description c ++ newline in
  let cancel_line := "   - " ++ cancel in
  let unassign_line := "   - `Unassign " ++ entity_id c ++ "`" in
  let mark_line := "   - Or: `Mark " ++ entity_id c ++ " as Maintenance`" in
  let other_line := "   **Fix:** " ++ cancel ++ " and re-assign." in
  let fix_lines :=
    if String.eqb (conflict_type c) "Double Booking" then
      ["   **Fix:** Cancel one of the overlapping assignments:";
       cancel_line; unassign_line]
    else if String.eqb (conflict_type c) "Skill Mismatch" then
      ["   **Fix:** Reassign to a qualified pilot/drone:"; reassign]
    else if String.eqb (conflict_type c) "Maintenance" then
      ["   **Fix:** Swap the drone or reschedule maintenance:"; reassign;
       mark_line]
    else if String.eqb (conflict_type c) "Location Mismatch" then
      ["   **Fix:** Reassign to local resources:"; reassign]
    else [other_line] in
  "---" :: head_line :: description_line :: fix_lines.

(** agent/coordinator_agent.py, [_handle_resolve_conflict]; [params]
    carries the key [mission_id]. *)
Definition _handle_resolve_conflict (mission_id : option string)
  : Store string :=
  all_conflicts ← run_detect_all_conflicts;
  let relevant := relevant_conflicts mission_id all_conflicts in
  match relevant with
  | [] =>
      let target :=
        match given mission_id with
        | Some mid => " for **" ++ mid ++ "**"
        | None => ""
        end in
      mret ("### ✅ No conflicts found" ++ target ++ newline
            ++ "Everything looks clean!")
  | _ :: _ =>
      let title_line :=
        "### 🔧 Conflict Resolution"
        ++ match given mission_id with
           | Some mid => " for " ++ mid
           | None => ""
           end in
      let count_line :=
        "Found **" ++ pretty (length relevant)
        ++ "** conflict(s). Here are resolution steps:" ++ newline in
      mret (join newline
              (title_line :: count_line
               :: mjoin (imap (λ i c, resolution_lines (S i) c) relevant)))
  end.

(** [\b([pd]\d+|prj\d+)\b] at one position: the alternatives in order. *)
Definition match_any_id_at (before : option Ascii.ascii) (s : string)
  : option string :=
  match match_id_at "p" before s with
  | Some m => Some m
  | None =>
      match match_id_at "d" before s with
      | Some m => Some m
      | None => match_id_at "prj" before s
      end
  end.

(** [re.findall]: the matches from left to right, the search resuming
    after each match; [skip] counts the characters of the last match that
    are still to be passed. *)
Fixpoint findall_ids (skip : nat) (before : option Ascii.ascii) (s : string)
  : list string :=
  match s with
  | EmptyString => []
  | String c s' =>
      match skip with
      | S k => findall_ids k (Some c) s'
      | O =>
          match match_any_id_at before s with
          | Some m => m :: findall_ids (String.length m - 1) (Some c) s'
          | None => findall_ids 0 (Some c) s'
          end
      end
  end.

(** agent/coordinator_agent.py, [handle_confirm_assign]; the result is
    [None] when the message is not a confirmation.  Saving the lists and
    the decision log leave the snapshot as it is and are left out. *)
Definition handle_confirm_assign (message : string) : Store (option string) :=
  let msg := strip (lower message) in
  if negb (String.prefix "confirm assign" msg) then mret None
  else
    match findall_ids 0 None msg with
    | id0 :: id1 :: id2 :: _ =>
        let pilot_id := upper id0 in
        let drone_id := upper id1 in
        let mission_id := upper id2 in
        pilots ← gets DataStore.pilots;
        drones ← gets DataStore.drones;
        missions ← gets DataStore.missions;
        match find_pilot pilot_id pilots, find_drone drone_id drones,
              find_mission mission_id missions with
        | Some (pi, pilot), Some (di, drone), Some (mi, mission) =>
            write_pilot pi (Pilot.set_status "Assigned");;
            write_pilot pi
              (Pilot.set_current_assignment (Mission.project_id mission));;
            write_drone di (Drone.set_status "Assigned");;
            write_drone di
              (Drone.set_current_assignment (Mission.project_id mission));;
            write_mission mi (Mission.set_assigned_pilot (Pilot.pilot_id pilot));;
            write_mission mi (Mission.set_assigned_drone (Drone.drone_id drone));;
            mret (Some ("### ✅ Assignment Confirmed" ++ newline ++ "**"
                        ++ Pilot.name pilot ++ "** (" ++ Pilot.pilot_id pilot
                        ++ ") + **" ++ Drone.model drone ++ "** ("
                        ++ Drone.drone_id drone ++ ") → **"
                        ++ Mission.project_id mission ++ "** ("
                        ++ Mission.client mission ++ ")" ++ newline
                        ++ "📝 Decision logged. Data synced."))
        | pilot, drone, mission =>
            let no_pilot := "Pilot " ++ pilot_id ++ " not found" in
            let no_drone := "Drone " ++ drone_id ++ " not found" in
            let no_mission := "Mission " ++ mission_id ++ " not found" in
            let errors :=
              ((if pilot is None then [no_pilot] else [])
               ++ (if drone is None then [no_drone] else [])
               ++ (if mission is None then [no_mission] else []))%list in
            mret (Some ("❌ " ++ join ", " errors))
        end
    | _ =>
        mret (Some "Usage: `confirm assign <pilot_id> <drone_id> to <mission_id>`")
    end.

(* ------------------------------------------------------------------ *)
(** ** Rows of the data source (models/pilot.py, models/drone.py, models/mission.py) *)

(** A CSV or sheet row, its cells already turned into text by [str]. *)
Definition row := gmap string string.

(** [str(row.get(key, default))] *)
Definition cell (r : row) (key dflt : string) : string :=
  default dflt (r !! key).

(** The cells that stand for nothing. *)
Definition placeholders : list string := [""; "–"; "-"; "nan"; "None"].

Definition is_blank (raw : string) : bool :=
  negb (truthy raw) || bool_decide (strip raw ∈ placeholders).

(** [str.split(sep)] on a one-character separator. *)
Fixpoint split_on (sep : Ascii.ascii) (s : string) : list string :=
  match s with
  | EmptyString => [EmptyString]
  | String c s' =>
      if Ascii.eqb c sep then EmptyString :: split_on sep s'
      else
        match split_on sep s' with
        | x :: r => String c x :: r
        | [] => [String c EmptyString]
        end
  end.

Definition comma : Ascii.ascii := Ascii.ascii_of_N 44.

Definition dash : Ascii.ascii := Ascii.ascii_of_N 45.

(** models/*.py, [_parse_list] *)
Definition _parse_list (raw : string) : list string :=
  if is_blank raw then []
  else filter (λ item, truthy item = true) (strip <$> split_on comma raw).

(** The value of a digit. *)
Definition digit_val (c : Ascii.ascii) : N := (Ascii.N_of_ascii c - 48)%N.

Definition in_range (lo hi : N) (c : Ascii.ascii) : bool :=
  ((lo <=? Ascii.N_of_ascii c) && (Ascii.N_of_ascii c <=? hi))%N.

(** The alternatives of [%m], [1[0-2]|0[1-9]|[1-9]], in their order: the
    month each one reads and the text left. *)
Definition month_alternatives (s : string) : list (N * string) :=
  match s with
  | String a rest1 =>
      ((match rest1 with
        | String b rest2 =>
            (if in_range 49 49 a && in_range 48 50 b
             then [(10 + digit_val b, rest2)%N] else [])
            ++ (if in_range 48 48 a && in_range 49 57 b
                then [(digit_val b, rest2)] else [])
        | EmptyString => []
        end)
       ++ (if in_range 49 57 a then [(digit_val a, rest1)] else []))%list
  | EmptyString => []
  end.

(** The alternatives of [%d], [3[01]|[12]\d|0[1-9]|[1-9]| [1-9]]. *)
Definition day_alternatives (s : string) : list (N * string) :=
  match s with
  | String a rest1 =>
      ((match rest1 with
        | String b rest2 =>
            (if in_range 51 51 a && in_range 48 49 b
             then [(30 + digit_val b, rest2)%N] else [])
            ++ (if in_range 49 50 a && is_digit b
                then [(10 * digit_val a + digit_val b, rest2)%N] else [])
            ++ (if in_range 48 48 a && in_range 49 57 b
                then [(digit_val b, rest2)] else [])
        | EmptyString => []
        end)
       ++ (if in_range 49 57 a then [(digit_val a, rest1)] else [])
       ++ (match rest1 with
           | String b rest2 =>
               if in_range 32 32 a && in_range 49 57 b
               then [(digit_val b, rest2)] else []
           | EmptyString => []
           end))%list
  | EmptyString => []
  end.

Definition is_leap (y : N) : bool :=
  ((y mod 4 =? 0) && (negb (y mod 100 =? 0) || (y mod 400 =? 0)))%N.

Definition days_in_month (y m : N) : N :=
  if (m =? 2)%N then (if is_leap y then 29 else 28)%N
  else if bool_decide (m ∈ [4; 6; 9; 11]%N) then 30%N
  else 31%N.

(** A date of the calendar, years 1 to 9999. *)
Definition valid_date (d : date) : Prop :=
  (1 <= year d <= 9999 ∧ 1 <= month d <= 12
   ∧ 1 <= day d <= days_in_month (year d) (month d))%N.

(** The first way to match [-%m-%d] after the year: the alternatives of
    the month in order, each followed by a dash and the first alternative
    of the day that matches. *)
Definition match_month_day (s : string) : option (N * N * string) :=
  head (mjoin ((λ '(m, rest),
                  match rest with
                  | String c rest' =>
                      if Ascii.eqb c dash
                      then (λ '(d, remaining), (m, d, remaining))
                             <$> day_alternatives rest'
                      else []
                  | EmptyString => []
                  end) <$> month_alternatives s)).

(** [datetime.strptime(s, "%Y-%m-%d").date()], [None] for a
    [ValueError]: the text must match [\d\d\d\d-%m-%d] with nothing left,
    and the numbers must make a date. *)
Definition strptime_ymd (s : string) : option date :=
  match s with
  | String y1 (String y2 (String y3 (String y4 (String c rest)))) =>
      if is_digit y1 && is_digit y2 && is_digit y3 && is_digit y4
         && Ascii.eqb c dash
      then
        match match_month_day rest with
        | Some (m, d, EmptyString) =>
            let y := (1000 * digit_val y1 + 100 * digit_val y2
                      + 10 * digit_val y3 + digit_val y4)%N in
            if ((1 <=? y) && (d <=? days_in_month y m))%N
            then Some (mkdate y m d) else None
        | _ => None
        end
      else None
  | _ => None
  end.

(** models/*.py, [_parse_date] *)
Definition _parse_date (raw : string) : option date :=
  if is_blank raw then None else strptime_ymd (strip raw).

(** A cell that holds an assignment. *)
Definition parse_assignment (raw : string) : string :=
  let assignment := strip raw in
  if bool_decide (assignment ∈ ["–"; "-"; ""; "nan"; "None"]) then ""
  else assignment.

Definition pilot_from_dict (r : row) : Pilot.t :=
  Pilot.mk (strip (cell r "pilot_id" "")) (strip (cell r "name" ""))
    (_parse_list (cell r "skills" ""))
    (_parse_list (cell r "certifications" ""))
    (strip (cell r "location" "")) (strip (cell r "status" "Available"))
    (parse_assignment (cell r "current_assignment" ""))
    (_parse_date (cell r "available_from" "")).

Definition or_dash (s : string) : string := if truthy s then s else "–".

Definition iso_or_empty (d : option date) : string :=
  match d with Some d => date_iso d | None => "" end.

Definition pilot_to_dict (p : Pilot.t) : row :=
  list_to_map
    [("pilot_id", Pilot.pilot_id p); ("name", Pilot.name p);
     ("skills", join ", " (Pilot.skills p));
     ("certifications", join ", " (Pilot.certifications p));
     ("location", Pilot.location p); ("status", Pilot.status p);
     ("current_assignment", or_dash (Pilot.current_assignment p));
     ("available_from", iso_or_empty (Pilot.available_from p))].

Definition drone_from_dict (r : row) : Drone.t :=
  Drone.mk (strip (cell r "drone_id" "")) (strip (cell r "model" ""))
    (_parse_list (cell r "capabilities" ""))
    (strip (cell r "status" "Available")) (strip (cell r "location" ""))
    (parse_assignment (cell r "current_assignment" ""))
    (_parse_date (cell r "maintenance_due" "")).

Definition drone_to_dict (d : Drone.t) : row :=
  list_to_map
    [("drone_id", Drone.drone_id d); ("model", Drone.model d);
     ("capabilities", join ", " (Drone.capabilities d));
     ("status", Drone.status d); ("location", Drone.location d);
     ("current_assignment", or_dash (Drone.current_assignment d));
     ("maintenance_due", iso_or_empty (Drone.maintenance_due d))].

Definition mission_from_dict (r : row) : Mission.t :=
  Mission.mk (strip (cell r "project_id" "")) (strip (cell r "client" ""))
    (strip (cell r "location" ""))
    (_parse_list (cell r "required_skills" ""))
    (_parse_list (cell r "required_certs" ""))
    (_parse_date (cell r "start_date" ""))
    (_parse_date (cell r "end_date" ""))
    (strip (cell r "priority" "Standard"))
    (parse_assignment (cell r "assigned_pilot" ""))
    (parse_assignment (cell r "assigned_drone" "")).

Definition mission_to_dict (m : Mission.t) : row :=
  list_to_map
    [("project_id", Mission.project_id m); ("client", Mission.client m);
     ("location", Mission.location m);
     ("required_skills", join ", " (Mission.required_skills m));
     ("required_certs", join ", " (Mission.required_certs m));
     ("start_date", iso_or_empty (Mission.start_date m));
     ("end_date", iso_or_empty (Mission.end_date m));
     ("priority", Mission.priority m);
     ("assigned_pilot", or_dash (Mission.assigned_pilot m));
     ("assigned_drone", or_dash (Mission.assigned_drone m))].

(* ------------------------------------------------------------------ *)
(** ** Notions used to state the properties *)

(** *** Ranking *)

(** The available entities with their scores, in the order of the collection. *)
Definition available_candidates {E : Type} (is_available : E → bool)
    (score : E → Q * breakdown) (l : list E) : list (candidate E) :=
  (λ e, (e, (score e).1, (score e).2)) <$> filter (λ e, is_available e = true) l.

Definition score_ge {E : Type} (x y : candidate E) : Prop :=
  (cand_score y <= cand_score x)%Q.

(** [out] holds the [top_n] best of [cands]: it has the right length, what
    is left out scores no better than what is kept, it is sorted by
    descending score, and candidates with equal scores come in the order of
    [cands], the earliest ones first. *)
Definition ranked_top {E : Type} (cands out : list (candidate E)) (top_n : Z)
  : Prop :=
  length out = Nat.min (Z.to_nat top_n) (length cands)
  ∧ (∃ rest, (out ++ rest)%list ≡ₚ cands
             ∧ ∀ x y, x ∈ out → y ∈ rest → score_ge x y)
  ∧ StronglySorted score_ge out
  ∧ ∀ k : Q, filter (λ x, Qeq_bool (cand_score x) k = true) out
             `prefix_of` filter (λ x, Qeq_bool (cand_score x) k = true) cands.

(** *** Risk *)

(** The risk before it is made an integer. *)
Definition raw_risk (pilot_score drone_score : Q) : Q :=
  ((1 - (pilot_score + drone_score) / 2) * 50)%Q.

Definition priority_surcharge (displaced_priority : option string) : Z :=
  if decide (displaced_priority = Some "High") then 20
  else if decide (displaced_priority = Some "Urgent") then 30
  else if decide (displaced_priority = Some "Standard"
                  ∨ displaced_priority = Some "Low") then 5
  else 0.

Definition swap_surcharge (is_swap : bool) (displaced_priority : option string)
  : Z :=
  if is_swap then 20 + priority_surcharge displaced_priority else 0.

Definition clamp_0_100 (z : Z) : Z := Z.max 0 (Z.min 100 z).

(** [t] is [q] truncated toward zero. *)
Definition truncation_of (q : Q) (t : Z) : Prop :=
  (Qabs (inject_Z t) <= Qabs q)%Q
  ∧ (Qabs q < Qabs (inject_Z t) + 1)%Q
  ∧ (0 <= inject_Z t * q)%Q.

(** *** Displacement *)

Definition in_swap_pool (m : Mission.t) : Prop :=
  Mission.assigned_pilot m ≠ ""
  ∧ (Mission.priority m = "Standard" ∨ Mission.priority m = "Low").

(** [plan] takes pilot [p] away from mission [m]. *)
Definition displaces (plan : SwapPlan) (m : Mission.t) (p : Pilot.t) : Prop :=
  displaced_from_mission plan = Some (Mission.project_id m)
  ∧ displaced_mission_priority plan = Some (Mission.priority m)
  ∧ suggested_pilot plan = Some p.

(** The plans before the closing sort. *)
Definition unsorted_plans (urgent_mission : Mission.t)
    (pilots : list Pilot.t) (drones : list Drone.t)
    (missions : list Mission.t) : list SwapPlan :=
  let best_pilots := find_best_pilots pilots urgent_mission 3 in
  let best_drones := find_best_drones drones urgent_mission 3 in
  let plans := (phase1_plans urgent_mission best_pilots best_drones
                ++ phase2_plans urgent_mission pilots missions
                                best_pilots best_drones)%list in
  match best_drones with
  | [] => no_drone_penalty <$> plans
  | _ :: _ => plans
  end.

(** *** Double booking *)

(** All pairs of positions i < j of a list, in the order of the two loops. *)
Fixpoint ordered_pairs {A : Type} (l : list A) : list (A * A) :=
  match l with
  | [] => []
  | a :: r => (pair a <$> r) ++ ordered_pairs r
  end%list.

(** The number of unordered pairs among [k] elements. *)
Definition choose2 (k : nat) : nat := (k * (k - 1) / 2)%nat.

Definition overlapping (ab : Mission.t * Mission.t) : Prop :=
  Mission.overlaps_with ab.1 ab.2 = true.

(** Among [found], the conflicts of entity [eid] are one per overlapping
    pair of the missions [shared] by that entity, in the order of the pairs;
    each is a critical double booking; when all pairs overlap there are
    C(k,2) of them. *)
Definition once_per_pair (conflict : Mission.t → Mission.t → Conflict)
    (eid : string) (shared : list Mission.t) (found : list Conflict) : Prop :=
  let hits := filter (λ c, entity_id c = eid) found in
  hits = (λ ab, conflict ab.1 ab.2) <$> filter overlapping (ordered_pairs shared)
  ∧ Forall (λ c, conflict_type c = "Double Booking" ∧ severity c = "Critical")
           hits
  ∧ (Forall overlapping (ordered_pairs shared) →
     length hits = choose2 (length shared)).

(** All the conflicts of a list have the given type. *)
Definition of_type (kind : string) (found : list Conflict) : Prop :=
  Forall (λ c, conflict_type c = kind) found.

(** The group stored under a key of an insertion-ordered dict. *)
Fixpoint alist_get {V : Type} (k : string) (d : list (string * list V))
  : list V :=
  match d with
  | [] => []
  | (k', l) :: d' => if String.eqb k' k then l else alist_get k d'
  end.

(** A mission the grouping loop keeps: it names an entity of the map. *)
Definition groupable {E : Type} (assigned : Mission.t → string)
    (entity_map : gmap string E) (m : Mission.t) : Prop :=
  assigned m ≠ "" ∧ is_Some (entity_map !! assigned m).

#[export] Instance groupable_dec {E : Type} (assigned : Mission.t → string)
    (entity_map : gmap string E) (m : Mission.t)
  : Decision (groupable assigned entity_map m).
Proof. unfold groupable. apply _. Defined.

(** *** Writes to the snapshot *)

(** The invariant can be decided, so it can be checked on a snapshot. *)
#[export] Instance pilot_link_ok_dec s m : Decision (pilot_link_ok s m).
Proof. unfold pilot_link_ok. apply _. Defined.

#[export] Instance drone_link_ok_dec s m : Decision (drone_link_ok s m).
Proof. unfold drone_link_ok. apply _. Defined.

#[export] Instance bidirectional_invariant_dec s :
  Decision (bidirectional_invariant s).
Proof. unfold bidirectional_invariant. apply _. Defined.

(** The invariant of a snapshot given by its three lists. *)
Definition links_ok (ps : list Pilot.t) (ds : list Drone.t)
    (ms : list Mission.t) : Prop :=
  bidirectional_invariant (DataStore.mk ps ds ms).

(** Weakest precondition of a computation that returns. *)
Definition wp {A : Type} (m : Store A) (Φ : DataStore.t → A → Prop)
    (s : DataStore.t) : Prop :=
  ∃ s' a, m s = (s', Returned a) ∧ Φ s' a.

(** The missions keep their ids and their drones. *)
Definition same_drone_side (ms ms' : list Mission.t) : Prop :=
  Forall2 (λ m m', Mission.project_id m' = Mission.project_id m
                   ∧ Mission.assigned_drone m' = Mission.assigned_drone m)
          ms ms'.

(** What a plan must satisfy in a snapshot for its execution to be safe:
    the target mission and the named pilot and drone are there, and the
    only missions that hold the pilot are the target and the mission the
    plan displaces him from, the only one that holds the drone is the
    target. *)
Definition plan_fits (plan : SwapPlan) (s : DataStore.t) : Prop :=
  urgent_mission_id plan ∈ Mission.project_id <$> DataStore.missions s
  ∧ (∀ sp, suggested_pilot plan = Some sp →
       Pilot.pilot_id sp ∈ Pilot.pilot_id <$> DataStore.pilots s
       ∧ ∀ m, m ∈ DataStore.missions s →
              Mission.assigned_pilot m = Pilot.pilot_id sp →
              Mission.assigned_pilot m ≠ "" →
              Mission.project_id m = urgent_mission_id plan
              ∨ (displaced_from_mission plan = Some (Mission.project_id m)
                 ∧ Mission.project_id m ≠ ""))
  ∧ (∀ sd, suggested_drone plan = Some sd →
       Drone.drone_id sd ∈ Drone.drone_id <$> DataStore.drones s
       ∧ ∀ m, m ∈ DataStore.missions s →
              Mission.assigned_drone m = Drone.drone_id sd →
              Mission.assigned_drone m ≠ "" →
              Mission.project_id m = urgent_mission_id plan).

(** *** Plans, rosters, lookups and rows *)

Definition risk_le (x y : SwapPlan) : Prop := risk_score x <= risk_score y.

Definition no_drone_warning : string :=
  "No available drones found. Manual drone assignment needed.".

(** direct plan of phase 1 *)
Definition direct_plan (u : Mission.t) (pc : candidate Pilot.t)
    (dc : candidate Drone.t) : SwapPlan :=
  let '(pilot, p_score, p_bd) := pc in
  let '(drone, d_score, d_bd) := dc in
  mkSwapPlan (Mission.project_id u) (Some pilot) p_score p_bd (Some drone)
    d_score d_bd None None (_compute_risk_score p_score d_score false None)
    ("Available pilot " ++ Pilot.name pilot ++ " and drone "
     ++ Drone.model drone ++ " match the mission requirements.")
    [].

(** swap plan of phase 2 *)
Definition swap_plan (u : Mission.t) (p : Pilot.t)
    (bd : list (candidate Drone.t)) (m : Mission.t) : SwapPlan :=
  let d_score := from_option cand_score 0%Q (head bd) in
  mkSwapPlan (Mission.project_id u) (Some p)
    (score_pilot_for_mission p u).1 (score_pilot_for_mission p u).2
    (cand_entity <$> head bd) d_score (from_option snd [] (head bd))
    (Some (Mission.project_id m)) (Some (Mission.priority m))
    (_compute_risk_score (score_pilot_for_mission p u).1 d_score true
       (Some (Mission.priority m)))
    ("Swap pilot " ++ Pilot.name p ++ " from " ++ Mission.project_id m
     ++ " (Priority: " ++ Mission.priority m ++ ") to urgent mission "
     ++ Mission.project_id u ++ ".")
    ["Mission " ++ Mission.project_id m ++ " (" ++ Mission.client m
     ++ ") will be left without a pilot."].

Definition raises {A} (m : Store A) (s : DataStore.t) : Prop :=
  ∃ s' e, m s = (s', Raised e).

Definition names_missing_pilot (plan : SwapPlan) (s : DataStore.t) : Prop :=
  ∃ sp, suggested_pilot plan = Some sp
        ∧ Pilot.pilot_id sp ∉ Pilot.pilot_id <$> DataStore.pilots s.

Definition names_missing_drone (plan : SwapPlan) (s : DataStore.t) : Prop :=
  ∃ sd, suggested_drone plan = Some sd
        ∧ Drone.drone_id sd ∉ Drone.drone_id <$> DataStore.drones s.

Definition same_pilot_profile (p p' : Pilot.t) : Prop :=
  Pilot.pilot_id p' = Pilot.pilot_id p ∧ Pilot.name p' = Pilot.name p
  ∧ Pilot.skills p' = Pilot.skills p
  ∧ Pilot.certifications p' = Pilot.certifications p
  ∧ Pilot.location p' = Pilot.location p
  ∧ Pilot.available_from p' = Pilot.available_from p.

Definition same_drone_profile (d d' : Drone.t) : Prop :=
  Drone.drone_id d' = Drone.drone_id d ∧ Drone.model d' = Drone.model d
  ∧ Drone.capabilities d' = Drone.capabilities d
  ∧ Drone.location d' = Drone.location d
  ∧ Drone.maintenance_due d' = Drone.maintenance_due d.

Definition same_mission_brief (m m' : Mission.t) : Prop :=
  Mission.project_id m' = Mission.project_id m
  ∧ Mission.client m' = Mission.client m
  ∧ Mission.location m' = Mission.location m
  ∧ Mission.required_skills m' = Mission.required_skills m
  ∧ Mission.required_certs m' = Mission.required_certs m
  ∧ Mission.start_date m' = Mission.start_date m
  ∧ Mission.end_date m' = Mission.end_date m
  ∧ Mission.priority m' = Mission.priority m.

(** Same entities at the same positions; only status and assignment
    fields may differ. *)
Definition same_roster (s s' : DataStore.t) : Prop :=
  Forall2 same_pilot_profile (DataStore.pilots s) (DataStore.pilots s')
  ∧ Forall2 same_drone_profile (DataStore.drones s) (DataStore.drones s')
  ∧ Forall2 same_mission_brief (DataStore.missions s) (DataStore.missions s').

(** Whatever the outcome, the computation keeps the roster. *)
Definition keeps_roster {A} (m : Store A) : Prop :=
  ∀ s, same_roster s (m s).1.

Definition unassigned (m : Mission.t) : Prop :=
  Mission.assigned_pilot m = "" ∧ Mission.assigned_drone m = "".

(** [bd[key]] on a breakdown *)
Definition breakdown_get (key : string) (bd : breakdown) : option Q :=
  snd <$> (snd <$> list_find (λ entry, entry.1 = key) bd).

Definition date_le (a b : date) : Prop := date_leb a b = true.

(** [d] is a day of the mission's date range *)
Definition on_day (m : Mission.t) (d : date) : Prop :=
  ∃ s e, Mission.start_date m = Some s ∧ Mission.end_date m = Some e
         ∧ date_le s d ∧ date_le d e.

(** The key a lookup compares with: [identifier.strip().lower()]. *)
Definition lookup_key (identifier : string) : string := lower (strip identifier).

Definition pilot_matches (key : string) (p : Pilot.t) : Prop :=
  lower (Pilot.pilot_id p) = key ∨ contains key (lower (Pilot.name p)) = true.

Definition drone_matches (key : string) (d : Drone.t) : Prop :=
  lower (Drone.drone_id d) = key ∨ contains key (lower (Drone.model d)) = true.

Definition mission_matches (key : string) (m : Mission.t) : Prop :=
  contains key (lower (Mission.project_id m)) = true
  ∨ contains key (lower (Mission.client m)) = true.

(** Looking an entity up by its own id finds that entity. *)
Definition pilots_resolve (ps : list Pilot.t) : Prop :=
  Forall (λ p, snd <$> find_pilot (Pilot.pilot_id p) ps = Some p) ps.

Definition drones_resolve (ds : list Drone.t) : Prop :=
  Forall (λ d, snd <$> find_drone (Drone.drone_id d) ds = Some d) ds.

Definition missions_resolve (ms : list Mission.t) : Prop :=
  Forall (λ m, snd <$> find_mission (Mission.project_id m) ms = Some m) ms.

(** The ids are unique, the project ids are not empty and every id
    resolves to its own entity. *)
Definition well_keyed (s : DataStore.t) : Prop :=
  NoDup (Pilot.pilot_id <$> DataStore.pilots s)
  ∧ NoDup (Drone.drone_id <$> DataStore.drones s)
  ∧ NoDup (Mission.project_id <$> DataStore.missions s)
  ∧ Forall (λ m, Mission.project_id m ≠ "") (DataStore.missions s)
  ∧ pilots_resolve (DataStore.pilots s)
  ∧ drones_resolve (DataStore.drones s)
  ∧ missions_resolve (DataStore.missions s).

(** What the second half of a release needs from the first. *)
Definition release_ready (ps : list Pilot.t) (ds : list Drone.t)
    (ms : list Mission.t) : Prop :=
  links_ok ps ds ms
  ∧ NoDup (Pilot.pilot_id <$> ps) ∧ NoDup (Drone.drone_id <$> ds)
  ∧ NoDup (Mission.project_id <$> ms)
  ∧ Forall (λ m, Mission.project_id m ≠ "") ms
  ∧ missions_resolve ms.

(** No mission names the pilot (the drone). *)
Definition pilot_unheld (p : Pilot.t) (ms : list Mission.t) : Prop :=
  Forall (λ m, Mission.assigned_pilot m = ""
               ∨ Mission.assigned_pilot m ≠ Pilot.pilot_id p) ms.

Definition drone_unheld (d : Drone.t) (ms : list Mission.t) : Prop :=
  Forall (λ m, Mission.assigned_drone m = ""
               ∨ Mission.assigned_drone m ≠ Drone.drone_id d) ms.

(** No mission other than [m] names pilot [p] or drone [d]. *)
Definition free_for (m : Mission.t) (p : Pilot.t) (d : Drone.t)
    (ms : list Mission.t) : Prop :=
  Forall (λ m2, Mission.project_id m2 = Mission.project_id m
                ∨ ((Mission.assigned_pilot m2 = ""
                    ∨ Mission.assigned_pilot m2 ≠ Pilot.pilot_id p)
                   ∧ (Mission.assigned_drone m2 = ""
                      ∨ Mission.assigned_drone m2 ≠ Drone.drone_id d))) ms.

(** The marks a writer puts where a value is missing. *)
Definition marks : list string := ["–"; "-"; "nan"; "None"].

(** A tag that a comma-separated cell can hold. *)
Definition tag_ok (t : string) : Prop :=
  t ≠ "" ∧ strip t = t ∧ contains "," t = false.

Definition tags_ok (l : list string) : Prop :=
  Forall tag_ok l ∧ join ", " l ∉ marks.

Definition assignment_ok (a : string) : Prop := strip a = a ∧ a ∉ marks.

Definition date_ok (d : option date) : Prop :=
  match d with Some d => valid_date d | None => True end.

Definition pilot_well_formed (p : Pilot.t) : Prop :=
  strip (Pilot.pilot_id p) = Pilot.pilot_id p
  ∧ strip (Pilot.name p) = Pilot.name p
  ∧ tags_ok (Pilot.skills p) ∧ tags_ok (Pilot.certifications p)
  ∧ strip (Pilot.location p) = Pilot.location p
  ∧ strip (Pilot.status p) = Pilot.status p
  ∧ assignment_ok (Pilot.current_assignment p)
  ∧ date_ok (Pilot.available_from p).

Definition drone_well_formed (d : Drone.t) : Prop :=
  strip (Drone.drone_id d) = Drone.drone_id d
  ∧ strip (Drone.model d) = Drone.model d
  ∧ tags_ok (Drone.capabilities d)
  ∧ strip (Drone.status d) = Drone.status d
  ∧ strip (Drone.location d) = Drone.location d
  ∧ assignment_ok (Drone.current_assignment d)
  ∧ date_ok (Drone.maintenance_due d).

Definition mission_well_formed (m : Mission.t) : Prop :=
  strip (Mission.project_id m) = Mission.project_id m
  ∧ strip (Mission.client m) = Mission.client m
  ∧ strip (Mission.location m) = Mission.location m
  ∧ tags_ok (Mission.required_skills m) ∧ tags_ok (Mission.required_certs m)
  ∧ date_ok (Mission.start_date m) ∧ date_ok (Mission.end_date m)
  ∧ strip (Mission.priority m) = Mission.priority m
  ∧ assignment_ok (Mission.assigned_pilot m)
  ∧ assignment_ok (Mission.assigned_drone m).

Definition year_text_ok (y : N) : bool :=
  match zero_pad 4 (pretty y) with
  | String a (String b (String c (String e EmptyString))) =>
      is_digit a && is_digit b && is_digit c && is_digit e
      && (1000 * digit_val a + 100 * digit_val b + 10 * digit_val c
          + digit_val e =? y)%N
  | _ => false
  end.

Definition month_day_text (m d : N) : string :=
  zero_pad 2 (pretty m) ++ "-" ++ zero_pad 2 (pretty d).

Definition month_day_text_ok (m d : N) : bool :=
  bool_decide (match_month_day (month_day_text m d) = Some (m, d, "")
               ∧ rstrip (month_day_text m d) = month_day_text m d
               ∧ month_day_text m d ≠ "").

(** Every character of a text is of a class. *)
Fixpoint all_chars (class : Ascii.ascii → bool) (s : string) : bool :=
  match s with
  | EmptyString => true
  | String c s' => class c && all_chars class s'
  end.

(** An id as the agent reads it off a message: a prefix in upper case and
    one digit or more. *)
Definition id_of (prefixes : list string) (id : string) : Prop :=
  ∃ p digits, p ∈ prefixes ∧ id = upper p ++ digits
    ∧ digits ≠ "" ∧ all_chars is_digit digits = true.

(** *** Scores, rankings and plans in binary64 *)

(** The pilot a mission's [assigned_pilot] stands for: the last pilot of the
    list with that id. *)
Definition pilot_with_id (pilots : list Pilot.t) (pid : string)
  : option Pilot.t :=
  last (filter (λ p, Pilot.pilot_id p = pid) pilots).

Module Binary64Notions.
Import Binary64.

(** A finite number with a value between two bounds. *)
Definition within (lo hi : Q) (x : float) : Prop :=
  ∃ q, x = Finite q ∧ (lo <= q <= hi)%Q.

(** The value of a finite number. *)
Definition value_of (x : float) : Q :=
  match x with Finite q => q | _ => 0%Q end.

(** The base of the risk, [(1.0 - (pilot_score + drone_score) / 2) * 50],
    before it is made an integer. *)
Definition risk_base (pilot_score drone_score : float) : outcome float :=
  half ← fdiv (fadd pilot_score drone_score) (of_int 2);
  mret (fmul (fsub (Finite 1) half) (of_int 50)).

(** The risk as the specification words it: the base is rounded to the
    nearest integer. *)
Definition computeRisk_rounded (pilot_score drone_score : float)
    (is_swap : bool) (displaced_priority : option string) : outcome Z :=
  base ← risk_base pilot_score drone_score;
  rounded ← match base with
            | Finite q => Returned (round_half_even q)
            | Infinity _ => Raised "OverflowError"
            | NaN => Raised "ValueError"
            end;
  mret (clamp_0_100 (rounded + swap_surcharge is_swap displaced_priority)).

(** The scores the risk is defined on: finite, of magnitude 2^1000 at most. *)
Definition moderate (x : float) : Prop := within (- pow2 1000) (pow2 1000) x.

(** The available entities with their scores, in the order of the collection. *)
Definition available_candidates {E : Type} (is_available : E → bool)
    (score : E → float * breakdown) (l : list E) : list (candidate E) :=
  (λ e, (e, (score e).1, (score e).2)) <$> filter (λ e, is_available e = true) l.

Definition score_ge {E : Type} (x y : candidate E) : Prop :=
  fle (cand_score y) (cand_score x) = true.

(** [out] holds the [top_n] best of [cands]: it has the right length, what
    is left out scores no better than what is kept, it is sorted by
    descending score, and candidates with equal scores come in the order of
    [cands], the earliest ones first. *)
Definition ranked_top {E : Type} (cands out : list (candidate E)) (top_n : Z)
  : Prop :=
  length out = Nat.min (Z.to_nat top_n) (length cands)
  ∧ (∃ rest, (out ++ rest)%list ≡ₚ cands
             ∧ ∀ x y, x ∈ out → y ∈ rest → score_ge x y)
  ∧ StronglySorted score_ge out
  ∧ ∀ k : float, filter (λ x, feq (cand_score x) k = true) out
                 `prefix_of` filter (λ x, feq (cand_score x) k = true) cands.

Definition finite_score {E} (c : candidate E) : Prop :=
  ∃ q, cand_score c = Finite q.

(** The order of the scores on their values; it is [score_desc] on finite
    scores. *)
Definition value_desc {E} (x y : candidate E) : bool :=
  Qle_bool (value_of (cand_score y)) (value_of (cand_score x)).

Definition unit_scores {E} (l : list (candidate E)) : Prop :=
  Forall (λ c, within 0 1 (cand_score c)) l.

(** [plan] takes pilot [p] away from mission [m]. *)
Definition displaces (plan : SwapPlan) (m : Mission.t) (p : Pilot.t) : Prop :=
  displaced_from_mission plan = Some (Mission.project_id m)
  ∧ displaced_mission_priority plan = Some (Mission.priority m)
  ∧ suggested_pilot plan = Some p.

(** The floor of phase 2: the score is not below 0.3. *)
Definition clears_floor (urgent_mission : Mission.t) (p : Pilot.t) : Prop :=
  fle (literal (3 # 10)) (score_pilot_for_mission p urgent_mission).1 = true.

(** Mission [m] can give its pilot away: the pilot is in the list and
    clears the floor against the urgent mission. *)
Definition viable_swap (urgent_mission : Mission.t) (pilots : list Pilot.t)
    (m : Mission.t) : Prop :=
  ∃ p, pilot_with_id pilots (Mission.assigned_pilot m) = Some p
       ∧ clears_floor urgent_mission p.

#[export] Instance viable_swap_dec urgent_mission pilots m :
  Decision (viable_swap urgent_mission pilots m).
Proof.
  unfold viable_swap, clears_floor.
  destruct (pilot_with_id pilots (Mission.assigned_pilot m)) as [p|].
  - destruct (fle (literal (3 # 10))
                (score_pilot_for_mission p urgent_mission).1) eqn:Hs.
    + left. exists p. split; reflexivity || exact Hs.
    + right. intros (p' & Hp' & Hs'). injection Hp' as <-. congruence.
  - right. intros (p' & Hp' & _). discriminate.
Defined.

(** The pool of phase 2: the missions with a pilot and priority Low, then
    those with priority Standard, each in the order of the mission list. *)
Definition swap_pool (missions : list Mission.t) : list Mission.t :=
  (filter (λ m, in_swap_pool m ∧ Mission.priority m = "Low") missions
   ++ filter (λ m, in_swap_pool m ∧ Mission.priority m = "Standard")
             missions)%list.

(** The plans in the order they are found, before the closing sort. *)
Definition plans_found (urgent_mission : Mission.t)
    (pilots : list Pilot.t) (drones : list Drone.t)
    (missions : list Mission.t) : outcome (list SwapPlan) :=
  let best_pilots := find_best_pilots pilots urgent_mission 3 in
  let best_drones := find_best_drones drones urgent_mission 3 in
  phase1 ← phase1_plans urgent_mission best_pilots best_drones;
  phase2 ← phase2_plans urgent_mission pilots missions best_pilots best_drones;
  let plans := (phase1 ++ phase2)%list in
  mret match best_drones with
       | [] => no_drone_penalty <$> plans
       | _ :: _ => plans
       end.

(** What the closing loop does to the plans, and what it keeps. *)
Definition closing (best_drones : list (candidate Drone.t))
    (plans : list SwapPlan) : list SwapPlan :=
  match best_drones with
  | [] => no_drone_penalty <$> plans
  | _ :: _ => plans
  end.

End Binary64Notions.

(** *** Tags compared without case and without the blanks around them *)

(** The white space of the ASCII range, by character code: tab, line feed,
    vertical tab, form feed, carriage return, the four separators and the
    space. *)
Definition blank (c : Ascii.ascii) : Prop :=
  Ascii.N_of_ascii c ∈ [9; 10; 11; 12; 13; 28; 29; 30; 31; 32]%N.

(** The same character, or a letter A-Z and its small letter. *)
Definition same_letter (a b : Ascii.ascii) : Prop :=
  a = b
  ∨ ∃ n, (65 ≤ n ≤ 90)%N
         ∧ ((Ascii.N_of_ascii a = n ∧ Ascii.N_of_ascii b = (n + 32)%N)
            ∨ (Ascii.N_of_ascii b = n ∧ Ascii.N_of_ascii a = (n + 32)%N)).

Inductive same_text : string → string → Prop :=
  | same_text_nil : same_text "" ""
  | same_text_cons a b s t :
      same_letter a b → same_text s t → same_text (String a s) (String b t).

Fixpoint every (P : Ascii.ascii → Prop) (s : string) : Prop :=
  match s with
  | EmptyString => True
  | String c s' => P c ∧ every P s'
  end.

(** A text with no blank at either end. *)
Definition unpadded (s : string) : Prop :=
  match s with
  | EmptyString => True
  | String c _ => ¬ blank c
  end
  ∧ match last_char s with
    | Some c => ¬ blank c
    | None => True
    end.

(** [core] is [s] without the blanks around it. *)
Definition trimmed (s core : string) : Prop :=
  ∃ l r, s = l ++ core ++ r ∧ every blank l ∧ every blank r ∧ unpadded core.

(** Two tags are the same once trimmed and read without case. *)
Definition same_tag (a b : string) : Prop :=
  ∃ ca cb, trimmed a ca ∧ trimmed b cb ∧ same_text ca cb.

(** The required tags, one per class of [same_tag], split into those an
    available tag meets and those none meets. *)
Definition tag_classes (required available : gset string)
    (met unmet : list string) : Prop :=
  (∀ r, r ∈ (met ++ unmet)%list → r ∈ required)
  ∧ (∀ t, t ∈ required → ∃ r, r ∈ (met ++ unmet)%list ∧ same_tag t r)
  ∧ (∀ i j r s, (met ++ unmet)%list !! i = Some r →
                (met ++ unmet)%list !! j = Some s → same_tag r s → i = j)
  ∧ (∀ r, r ∈ met → ∃ a, a ∈ available ∧ same_tag r a)
  ∧ (∀ r, r ∈ unmet → ∀ a, a ∈ available → ¬ same_tag r a).

Definition ascii_tags (tags : gset string) : Prop :=
  set_Forall (λ t, all_chars is_ascii t = true) tags.

(** One tag per class, the first of each in the order of the list. *)
Fixpoint first_of_each_class (seen : gset string) (l : list string)
  : list string :=
  match l with
  | [] => []
  | t :: l' =>
      if decide (norm_tag t ∈ seen) then first_of_each_class seen l'
      else t :: first_of_each_class ({[norm_tag t]} ∪ seen) l'
  end.

(** *** Reading the snapshot *)

(** [m] returns [a] in the snapshot [s] and leaves [s] as it is. *)
Definition reads {A : Type} (m : Store A) (s : DataStore.t) (a : A) : Prop :=
  m s = (s, Returned a).

(** The references of a dict built from a list of entities: a later entity
    replaces an earlier one with the same key. *)
Definition refs_by {E : Type} (key : E → string) (l : list E)
  : gmap string nat :=
  foldl (λ acc r, match l !! r with
                  | Some e => <[key e := r]> acc
                  | None => acc
                  end) ∅ (seq 0 (length l)).

(** The missions a group of references stands for. *)
Definition deref_group (missions : list Mission.t) (g : string * list nat)
  : string * list Mission.t :=
  (g.1, omap (missions !!.) g.2).

(* ------------------------------------------------------------------ *)
(** ** Sample data *)

Definition arjun : Pilot.t :=
  Pilot.mk "P001" "Arjun" ["Mapping"; "Thermal"] ["DGCA"] "Bangalore"
    "Assigned" "PRJ001" (Some (mkdate 2024 1 1)).

Definition neha : Pilot.t :=
  Pilot.mk "P002" "Neha" ["Inspection"] ["DGCA"] "Mumbai"
    "Available" "" (Some (mkdate 2024 1 1)).

Definition rohit : Pilot.t :=
  Pilot.mk "P003" "Rohit" ["Mapping"] [] "Bangalore"
    "Available" "" None.

Definition mavic : Drone.t :=
  Drone.mk "D001" "DJI Mavic 3" ["Mapping"; "Thermal"] "Assigned" "Bangalore"
    "PRJ001" (Some (mkdate 2024 3 1)).

Definition matrice : Drone.t :=
  Drone.mk "D002" "DJI M300" ["LiDAR"] "Maintenance" "Mumbai"
    "" (Some (mkdate 2024 1 2)).

Definition prj001 : Mission.t :=
  Mission.mk "PRJ001" "Acme Survey" "Bangalore" ["Mapping"] ["DGCA"]
    (Some (mkdate 2024 1 1)) (Some (mkdate 2024 1 10)) "Low" "P001" "D001".

Definition prj002 : Mission.t :=
  Mission.mk "PRJ002" "Metro Rail" "Bangalore" ["Mapping"; "Thermal"] []
    (Some (mkdate 2024 1 5)) (Some (mkdate 2024 1 15)) "Urgent" "" "".

(** A second mission of the same pilot and drone, overlapping [prj001]. *)
Definition prj003 : Mission.t :=
  Mission.mk "PRJ003" "Coast Guard" "Mumbai" ["Mapping"] []
    (Some (mkdate 2024 1 5)) (Some (mkdate 2024 1 15)) "Standard" "P001" "D001".

Definition sample_pilots : list Pilot.t := [arjun; neha; rohit].
Definition sample_drones : list Drone.t := [mavic; matrice].

(** A snapshot in which every assignment is recorded on both sides. *)
Definition consistent_store : DataStore.t :=
  DataStore.mk sample_pilots sample_drones [prj001; prj002].

(** The same entities with the overlapping second mission recorded. *)
Definition double_booked_missions : list Mission.t := [prj001; prj002; prj003].

(** A plan kept from an earlier suggestion: it takes pilot P009 from PRJ001.
    The pilot list has been reloaded since and no longer has P009. *)
Definition departed : Pilot.t :=
  Pilot.mk "P009" "Kiran" ["Mapping"] ["DGCA"] "Bangalore"
    "Assigned" "PRJ001" None.

Definition stale_plan : SwapPlan :=
  mkSwapPlan "PRJ002" (Some departed) (7 # 10) [] None 0 []
    (Some "PRJ001") (Some "Low") 40
    "Swap pilot Kiran from PRJ001 (Priority: Low) to urgent mission PRJ002."
    ["Mission PRJ001 (Acme Survey) will be left without a pilot."].

Definition reloaded_store : DataStore.t :=
  DataStore.mk [neha; rohit] sample_drones
    [Mission.set_assigned_pilot "P009" prj001; prj002].

(** A plan whose drone D009 has left the drone list in the same way. *)
Definition retired : Drone.t :=
  Drone.mk "D009" "DJI Phantom 4" ["Mapping"] "Available" "Bangalore" "" None.

Definition stale_drone_plan : SwapPlan :=
  mkSwapPlan "PRJ002" (Some neha) (45 # 100) [] (Some retired) (8 # 10) []
    None None 18
    "Available pilot Neha and drone DJI Phantom 4 match the mission requirements."
    [].

(** A consistent snapshot with a free drone, and the first plan suggested
    for PRJ002 in it. *)
Definition free_drone_store : DataStore.t :=
  DataStore.mk sample_pilots [mavic; retired] [prj001; prj002].

Definition first_plan : SwapPlan :=
  hd stale_plan
    (suggest_reassignment prj002 (DataStore.pilots free_drone_store)
       (DataStore.drones free_drone_store)
       (DataStore.missions free_drone_store)).

(** Two pilots for one mission: the first has the skill and the
    certification, the second the skill, the place and the date. *)
Definition asha : Pilot.t :=
  Pilot.mk "P010" "Asha" ["Mapping"] ["DGCA"] "Delhi"
    "Available" "" (Some (mkdate 2024 3 1)).

Definition bala : Pilot.t :=
  Pilot.mk "P011" "Bala" ["Mapping"] [] "Pune"
    "Available" "" (Some (mkdate 2024 1 1)).

Definition survey : Mission.t :=
  Mission.mk "PRJ010" "Survey of India" "Pune" ["Mapping"] ["DGCA"]
    (Some (mkdate 2024 2 1)) (Some (mkdate 2024 2 10)) "High" "" "".

(* ------------------------------------------------------------------ *)
(** ** General facts *)

Lemma truthy_iff s : truthy s = true ↔ s ≠ "".
Proof. destruct s; cbn; split; congruence. Qed.

Lemma filter_none {A} (P : A → Prop) `{!∀ x, Decision (P x)} (l : list A) :
  Forall (λ x, ¬ P x) l → filter P l = [].
Proof.
  induction 1 as [|x l Hx _ IH]; [done|]. by rewrite filter_cons, decide_False.
Qed.

Lemma filter_ext_in {A} (P Q : A → Prop) `{!∀ x, Decision (P x)}
    `{!∀ x, Decision (Q x)} (l : list A) :
  (∀ x, x ∈ l → P x ↔ Q x) → filter P l = filter Q l.
Proof.
  induction l as [|x l IH]; intros Hiff; [done|].
  rewrite !filter_cons, IH by (intros y Hy; apply Hiff; by right).
  destruct (decide (P x)) as [Px|nPx].
  - rewrite decide_True; [done|]. apply Hiff; [by left|done].
  - rewrite decide_False; [done|]. intros Qx. apply nPx, Hiff; [by left|done].
Qed.

Lemma filter_all {A} (P : A → Prop) `{!∀ x, Decision (P x)} (l : list A) :
  Forall P l → filter P l = l.
Proof.
  induction 1 as [|x l Hx _ IH]; [done|].
  by rewrite filter_cons, decide_True, IH.
Qed.

Lemma filter_take_prefix {A} (P : A → Prop) `{!∀ x, Decision (P x)} n (l : list A) :
  filter P (take n l) `prefix_of` filter P l.
Proof.
  rewrite <- (take_drop n l) at 2. rewrite filter_app. by apply prefix_app_r.
Qed.

Lemma slice_to_take {A} (l : list A) n : 0 <= n → slice_to l n = take (Z.to_nat n) l.
Proof. intros. unfold slice_to. destruct (Z.ltb_spec n 0); [lia|done]. Qed.

(** *** The stable sort *)

Section StableSortFacts.
Context {A : Type} (before : A → A → bool).
Hypothesis before_total : ∀ x y, before x y = true ∨ before y x = true.
Hypothesis before_trans :
  ∀ x y z, before x y = true → before y z = true → before x z = true.

Let R (x y : A) : Prop := before x y = true.

Lemma insert_sorted_perm x l : insert_sorted before x l ≡ₚ x :: l.
Proof.
  induction l as [|y l IH]; cbn; [done|].
  destruct (before x y); [done|]. rewrite IH. apply Permutation_swap.
Qed.

Lemma stable_sort_cons x l :
  stable_sort before (x :: l) = insert_sorted before x (stable_sort before l).
Proof. reflexivity. Qed.

Lemma stable_sort_perm l : stable_sort before l ≡ₚ l.
Proof.
  induction l as [|x l IH]; [done|].
  rewrite stable_sort_cons, insert_sorted_perm. by f_equiv.
Qed.

Lemma insert_sorted_sorted x l :
  StronglySorted R l → StronglySorted R (insert_sorted before x l).
Proof.
  induction 1 as [|y l Hl IH Hy]; cbn.
  - repeat constructor.
  - destruct (before x y) eqn:Hxy.
    + constructor; [by constructor|].
      constructor; [done|].
      eapply Forall_impl; [exact Hy|]. intros z Hz. by eapply before_trans.
    + constructor; [done|].
      rewrite insert_sorted_perm. constructor; [|done].
      destruct (before_total x y) as [H|H]; [congruence|done].
Qed.

Lemma stable_sort_sorted l : StronglySorted R (stable_sort before l).
Proof.
  induction l as [|x l IH]; [constructor|].
  rewrite stable_sort_cons. by apply insert_sorted_sorted.
Qed.

(** Stability: a class of elements the order cannot tell apart keeps
    its original order. *)
Lemma insert_sorted_filter (P : A → Prop) `{!∀ x, Decision (P x)} x l :
  (∀ a b, P a → P b → before a b = true) →
  filter P (insert_sorted before x l) = filter P (x :: l).
Proof.
  intros HP. induction l as [|y l IH]; cbn; [done|].
  destruct (before x y) eqn:Hxy; [done|].
  rewrite filter_cons, IH, !filter_cons.
  destruct (decide (P y)) as [Py|]; [|done].
  destruct (decide (P x)) as [Px|]; [|done].
  rewrite HP in Hxy by done. discriminate.
Qed.

Lemma stable_sort_filter (P : A → Prop) `{!∀ x, Decision (P x)} l :
  (∀ a b, P a → P b → before a b = true) →
  filter P (stable_sort before l) = filter P l.
Proof.
  intros HP. induction l as [|x l IH]; [done|].
  rewrite stable_sort_cons, insert_sorted_filter by done.
  by rewrite !filter_cons, IH.
Qed.
End StableSortFacts.

Lemma two_class_sorted {A} (R : relation A) (P Q : A → Prop)
    `{!∀ x, Decision (P x)} `{!∀ x, Decision (Q x)} (l : list A) :
  (∀ x, P x → Q x → False) →
  (∀ x y, Q x → P y → ¬ R x y) →
  StronglySorted R l →
  Forall (λ x, P x ∨ Q x) l →
  l = (filter P l ++ filter Q l)%list.
Proof.
  intros Hex HQP Hs Hall.
  induction Hs as [|x l Hs IH Hx]; [done|].
  apply Forall_cons in Hall as [Hpq Hall]. specialize (IH Hall).
  rewrite !filter_cons.
  destruct (decide (P x)) as [Px|nPx].
  - rewrite decide_False by (intros Qx; by eapply Hex).
    cbn. by rewrite <- IH.
  - destruct Hpq as [?|Qx]; [done|]. rewrite decide_True by done.
    assert (Hnil : filter P l = []).
    { apply filter_none. eapply Forall_impl; [exact Hx|].
      intros y Hxy Py. by eapply HQP. }
    rewrite Hnil in IH |- *. cbn in *. by rewrite <- IH.
Qed.

(* ------------------------------------------------------------------ *)
(** ** Scoring utility *)

Lemma norm_set_nonempty (s : gset string) :
  s ≠ ∅ → (0 < size (norm_set s))%nat.
Proof.
  intros Hne. apply set_choose_L in Hne as [x Hx].
  assert (Hin : norm_tag x ∈ norm_set s) by (apply elem_of_map; eauto).
  destruct (decide (size (norm_set s) = 0%nat)) as [H0|]; [|lia].
  apply size_empty_iff in H0. apply H0 in Hin.
  by apply not_elem_of_empty in Hin.
Qed.

Lemma Zpos_of_nat (n : nat) : (0 < n)%nat → Z.pos (Pos.of_nat n) = Z.of_nat n.
Proof. intros Hn. destruct n; [lia|]. rewrite <- Pos.of_nat_succ. lia. Qed.

(* ------------------------------------------------------------------ *)
(** ** Matching engine *)

Lemma collect_candidates_spec {E} (ia : E → bool) (sc : E → Q * breakdown) l :
  collect_candidates ia sc l = available_candidates ia sc l.
Proof.
  unfold available_candidates. induction l as [|e l IH]; [done|].
  rewrite filter_cons. cbn [collect_candidates].
  destruct (ia e) eqn:He; cbn [negb].
  - rewrite decide_True by done. rewrite fmap_cons, <- IH.
    by destruct (sc e).
  - by rewrite decide_False by congruence.
Qed.

Lemma score_desc_total {E} (x y : candidate E) : score_desc x y = true ∨ score_desc y x = true.
Proof.
  unfold score_desc. rewrite !Qle_bool_iff.
  destruct (Qlt_le_dec (cand_score x) (cand_score y)) as [H|H]; [right|left]; [by apply Qlt_le_weak|done].
Qed.

Lemma score_desc_trans {E} (x y z : candidate E) :
  score_desc x y = true → score_desc y z = true → score_desc x z = true.
Proof. unfold score_desc. rewrite !Qle_bool_iff. intros. by eapply Qle_trans. Qed.

Lemma top_of_sorted_ranked {E} (cands : list (candidate E)) top_n :
  0 <= top_n →
  ranked_top cands (slice_to (stable_sort score_desc cands) top_n) top_n.
Proof.
  intros Hn. rewrite slice_to_take by done.
  set (sorted := stable_sort score_desc cands).
  assert (Hperm : sorted ≡ₚ cands) by apply stable_sort_perm.
  assert (Hsorted : StronglySorted score_ge sorted).
  { pose proof (stable_sort_sorted score_desc score_desc_total
                  score_desc_trans cands) as H.
    apply (StronglySorted_fmap id _ score_ge) in H.
    - by rewrite list_fmap_id in H.
    - intros x y. unfold score_desc, score_ge, id. by rewrite Qle_bool_iff. }
  rewrite <- (take_drop (Z.to_nat top_n) sorted) in Hsorted, Hperm.
  apply StronglySorted_app in Hsorted as (Hcross & Htop & _).
  repeat split.
  - rewrite length_take, <- Hperm, take_drop. done.
  - exists (drop (Z.to_nat top_n) sorted). split; [done|].
    intros x y Hx Hy. by apply Hcross.
  - done.
  - intros k. 
    rewrite <- (stable_sort_filter score_desc (λ x, Qeq_bool (cand_score x) k = true) cands).
    + apply filter_take_prefix.
    + intros a b Ha Hb. unfold score_desc. apply Qle_bool_iff.
      apply Qeq_bool_eq in Ha, Hb. rewrite Ha, Hb. apply Qle_refl.
Qed.

Lemma pilot_is_available_iff p : Pilot.is_available p = true ↔ Pilot.status p = "Available".
Proof. apply String.eqb_eq. Qed.

Lemma drone_is_available_iff d : Drone.is_available d = true ↔ Drone.status d = "Available".
Proof. apply String.eqb_eq. Qed.

Lemma available_candidates_nil {E} (ia : E → bool) sc (l : list E) :
  Forall (λ e, ia e ≠ true) l → available_candidates ia sc l = [].
Proof.
  intros H. unfold available_candidates.
  induction H as [|e l He _ IH]; [done|].
  by rewrite filter_cons, decide_False.
Qed.

Lemma available_candidates_length {E} (ia : E → bool) sc (l : list E) :
  Exists (λ e, ia e = true) l → (0 < length (available_candidates ia sc l))%nat.
Proof.
  intros H. unfold available_candidates. rewrite length_fmap.
  induction H as [e l He | e l _ IH]; rewrite filter_cons.
  - rewrite decide_True by done. cbn. lia.
  - destruct (decide (ia e = true)); cbn; lia.
Qed.

Lemma find_best_pilots_nil pilots mission top_n :
  Forall (λ p, Pilot.status p ≠ "Available") pilots →
  find_best_pilots pilots mission top_n = [].
Proof.
  intros H. unfold find_best_pilots.
  rewrite collect_candidates_spec, available_candidates_nil.
  - unfold slice_to. cbn. by destruct (top_n <? 0); rewrite take_nil.
  - eapply Forall_impl; [exact H|]. intros p Hp. by rewrite pilot_is_available_iff.
Qed.

Lemma find_best_drones_nil drones mission top_n :
  Forall (λ d, Drone.status d ≠ "Available") drones →
  find_best_drones drones mission top_n = [].
Proof.
  intros H. unfold find_best_drones.
  rewrite collect_candidates_spec, available_candidates_nil.
  - unfold slice_to. cbn. by destruct (top_n <? 0); rewrite take_nil.
  - eapply Forall_impl; [exact H|]. intros p Hp. by rewrite drone_is_available_iff.
Qed.

Lemma find_best_pilots_nonempty pilots mission :
  Exists (λ p, Pilot.status p = "Available") pilots →
  find_best_pilots pilots mission 3 ≠ [].
Proof.
  intros H Hnil.
  unfold find_best_pilots in Hnil. rewrite collect_candidates_spec in Hnil.
  destruct (top_of_sorted_ranked
              (available_candidates Pilot.is_available
                 (λ p, score_pilot_for_mission p mission) pilots) 3
              ltac:(lia)) as (Hlen & _).
  rewrite Hnil in Hlen. cbn [length] in Hlen.
  assert (0 < length (available_candidates Pilot.is_available
            (λ p, score_pilot_for_mission p mission) pilots))%nat.
  { apply available_candidates_length. eapply Exists_impl; [exact H|].
    intros p. by rewrite pilot_is_available_iff. }
  lia.
Qed.

(* ------------------------------------------------------------------ *)
(** ** Reassignment engine: risk *)

Lemma int_of_Q_trunc (q : Q) : truncation_of q (int_of_Q q).
Proof.
  unfold truncation_of.
  destruct q as [n d]. unfold int_of_Q. cbn [Qnum Qden].
  pose proof (Z.quot_rem' n (Z.pos d)) as Hqr.
  pose proof (Pos2Z.is_pos d) as Hd.
  set (k := Z.quot n (Z.pos d)) in *. set (r := Z.rem n (Z.pos d)) in *.
  unfold Qle, Qlt, Qabs, inject_Z, Qplus, Qmult; cbn [Qnum Qden Z.abs].
  rewrite ?Z.mul_1_r, ?Pos.mul_1_l.
  destruct (Z.le_gt_cases 0 n) as [Hn | Hn].
  - pose proof (Z.rem_bound_pos n (Z.pos d) Hn Hd) as Hr.
    pose proof (Z.quot_pos n (Z.pos d) Hn Hd) as Hq.
    fold k in Hq. fold r in Hr.
    rewrite !Z.abs_eq by lia. nia.
  - pose proof (Z.rem_bound_pos_neg n (Z.pos d) Hd ltac:(lia)) as Hr.
    pose proof (Z.mul_quot_ge n (Z.pos d) ltac:(lia) ltac:(lia)) as Hq.
    fold k in Hq. fold r in Hr.
    assert (k <= 0) by nia.
    rewrite !Z.abs_neq by lia. nia.
Qed.

Lemma risk_surcharge_unfold ps ds sw dp :
  _compute_risk_score ps ds sw dp
  = clamp_0_100 (int_of_Q (raw_risk ps ds) + swap_surcharge sw dp).
Proof.
  unfold _compute_risk_score, clamp_0_100, swap_surcharge, priority_surcharge,
    raw_risk.
  destruct sw; [|by rewrite Z.add_0_r].
  repeat case_bool_decide; repeat case_decide; cbn [orb];
    first [done | f_equal; f_equal; lia | exfalso; intuition congruence].
Qed.

(* ------------------------------------------------------------------ *)
(** ** Reassignment engine: the plans *)

(** C10: when some pilot is Available and no drone is,
    [suggest_reassignment] returns the empty list: phase 1 needs a drone and
    phase 2 runs only when no pilot is Available. *)
Theorem no_available_drone_no_plan (urgent_mission : Mission.t)
    (pilots : list Pilot.t) (drones : list Drone.t)
    (missions : list Mission.t) :
  Exists (λ p, Pilot.status p = "Available") pilots →
  Forall (λ d, Drone.status d ≠ "Available") drones →
  suggest_reassignment urgent_mission pilots drones missions = [].
Proof.
  intros Hp Hd. unfold suggest_reassignment.
  rewrite (find_best_drones_nil drones urgent_mission 3 Hd).
  pose proof (find_best_pilots_nonempty pilots urgent_mission Hp) as Hne.
  destruct (find_best_pilots pilots urgent_mission 3) as [|c cs]; [done|].
  reflexivity.
Qed.

Lemma no_available_drone_no_plan_witness :
  Exists (λ p, Pilot.status p = "Available") sample_pilots
  ∧ Forall (λ d, Drone.status d ≠ "Available") sample_drones
  ∧ suggest_reassignment prj002 sample_pilots sample_drones [prj001; prj002]
    = [].
Proof.
  assert (Hp : Exists (λ p, Pilot.status p = "Available") sample_pilots).
  { apply Exists_cons_tl, Exists_cons_hd. reflexivity. }
  assert (Hd : Forall (λ d, Drone.status d ≠ "Available") sample_drones).
  { repeat constructor; discriminate. }
  split; [exact Hp|]. split; [exact Hd|].
  exact (no_available_drone_no_plan prj002 sample_pilots sample_drones
           [prj001; prj002] Hp Hd).
Defined.

Lemma reassignable_pool missions :
  reassignable missions
  = (filter (λ m, in_swap_pool m ∧ Mission.priority m = "Low") missions
     ++ filter (λ m, in_swap_pool m ∧ Mission.priority m = "Standard") missions)%list.
Proof.
  unfold reassignable.
  set (pool := filter _ missions).
  set (before := λ x y : Mission.t, Mission.priority_rank y <=? Mission.priority_rank x).
  assert (Htot : ∀ x y, before x y = true ∨ before y x = true).
  { intros x y. unfold before. rewrite !Z.leb_le. lia. }
  assert (Htr : ∀ x y z, before x y = true → before y z = true → before x z = true).
  { intros x y z. unfold before. rewrite !Z.leb_le. lia. }
  assert (Hpool : Forall (λ m, Mission.priority m = "Low" ∨ Mission.priority m = "Standard") pool).
  { apply Forall_forall. intros m Hm. apply list_elem_of_filter in Hm as [[_ H] _]. done. }
  pose proof (stable_sort_sorted before Htot Htr pool) as Hsorted.
  pose proof (stable_sort_perm before pool) as Hperm.
  rewrite (two_class_sorted (λ x y, before x y = true)
             (λ m, Mission.priority m = "Low")
             (λ m, Mission.priority m = "Standard") (stable_sort before pool)).
  - rewrite !(stable_sort_filter before) .
    + unfold pool. rewrite !list_filter_filter. f_equal; apply filter_ext_in; intros m _;
        unfold in_swap_pool; rewrite truthy_iff; tauto.
    + intros a b Ha Hb. unfold before, Mission.priority_rank. by rewrite Ha, Hb.
    + intros a b Ha Hb. unfold before, Mission.priority_rank. by rewrite Ha, Hb.
  - intros x H1 H2. congruence.
  - intros x y Hx Hy. unfold before, Mission.priority_rank. rewrite Hx, Hy. done.
  - done.
  - by rewrite Hperm.
Qed.

Lemma displacement_plan_Some u pm bd m plan :
  displacement_plan u pm bd m = Some plan →
  ∃ p, pm !! Mission.assigned_pilot m = Some p
       ∧ displaces plan m p
       ∧ (3 # 10 <= (score_pilot_for_mission p u).1)%Q.
Proof.
  unfold displacement_plan.
  destruct (pm !! Mission.assigned_pilot m) as [p|]; [|done].
  destruct (score_pilot_for_mission p u) as [s b] eqn:Hs.
  destruct (Qle_bool (3 # 10) s) eqn:Hle; cbn [negb]; [|done].
  intros Heq. apply (inj Some) in Heq. subst plan. exists p. split; [done|]. split; [done|].
  rewrite Hs. by apply Qle_bool_iff.
Qed.

Lemma reassignable_elem m missions :
  m ∈ reassignable missions ↔ m ∈ missions ∧ in_swap_pool m.
Proof.
  rewrite reassignable_pool, elem_of_app, !list_elem_of_filter.
  unfold in_swap_pool. tauto.
Qed.

Lemma suggest_reassignment_elem u ps ds ms plan :
  plan ∈ suggest_reassignment u ps ds ms ↔ plan ∈ unsorted_plans u ps ds ms.
Proof.
  unfold suggest_reassignment. fold (unsorted_plans u ps ds ms).
  by rewrite stable_sort_perm.
Qed.

(* ------------------------------------------------------------------ *)
(** ** Conflict engine *)

Lemma ordered_pairs_length {A} (l : list A) :
  (2 * length (ordered_pairs l) = length l * (length l - 1))%nat.
Proof.
  induction l as [|a r IH]; [done|].
  cbn [ordered_pairs length]. rewrite length_app, length_fmap. nia.
Qed.

Lemma ordered_pairs_choose2 {A} (l : list A) :
  length (ordered_pairs l) = choose2 (length l).
Proof.
  unfold choose2. rewrite <- ordered_pairs_length.
  by rewrite Nat.mul_comm, Nat.div_mul.
Qed.

Section AList.
Context {V : Type}.
Implicit Types (d : list (string * list V)) (k : string) (v : V).

Lemma alist_get_setdefault_eq k v d :
  alist_get k (setdefault_append k v d) = (alist_get k d ++ [v])%list.
Proof.
  induction d as [|[k' l] d IH]; cbn [alist_get setdefault_append fmap list_fmap fst].
  - by rewrite String.eqb_refl.
  - destruct (String.eqb k' k) eqn:E; cbn [alist_get setdefault_append fmap list_fmap fst]; rewrite E; done.
Qed.

Lemma alist_get_setdefault_ne k k' v d :
  k' ≠ k → alist_get k' (setdefault_append k v d) = alist_get k' d.
Proof.
  intros Hne. induction d as [|[k0 l] d IH]; cbn [alist_get setdefault_append fmap list_fmap fst].
  - apply not_eq_sym, String.eqb_neq in Hne. by rewrite Hne.
  - destruct (String.eqb k0 k) eqn:E; cbn [alist_get setdefault_append fmap list_fmap fst].
    + apply String.eqb_eq in E as ->.
      apply not_eq_sym, String.eqb_neq in Hne. by rewrite Hne.
    + by rewrite IH.
Qed.

Lemma setdefault_append_keys k v d :
  (setdefault_append k v d).*1
  = if decide (k ∈ d.*1) then d.*1 else (d.*1 ++ [k])%list.
Proof.
  induction d as [|[k' l] d IH]; [done|]. cbn [alist_get setdefault_append fmap list_fmap fst].
  destruct (String.eqb k' k) eqn:E; cbn [alist_get setdefault_append fmap list_fmap fst].
  - apply String.eqb_eq in E as ->. rewrite decide_True; [done|]. by left.
  - rewrite IH. apply String.eqb_neq in E.
    destruct (decide (k ∈ d.*1)).
    + rewrite decide_True; [done|]. by right.
    + rewrite decide_False; [done|]. 
      intros [?|?]%elem_of_cons; congruence.
Qed.

Lemma setdefault_append_NoDup k v d :
  NoDup d.*1 → NoDup (setdefault_append k v d).*1.
Proof.
  intros Hd. rewrite setdefault_append_keys.
  destruct (decide (k ∈ d.*1)); [done|].
  apply NoDup_app. split; [done|]. split; [|apply NoDup_singleton].
  intros x Hx ->%list_elem_of_singleton. done.
Qed.

Lemma alist_get_not_key k d : k ∉ d.*1 → alist_get k d = [].
Proof.
  induction d as [|[k' l] d IH]; [done|]. cbn [alist_get setdefault_append fmap list_fmap fst].
  intros Hk. apply not_elem_of_cons in Hk as [Hne Hk].
  apply not_eq_sym, String.eqb_neq in Hne. rewrite Hne. auto.
Qed.
End AList.

Section DoubleBookingFacts.
Context {E : Type}.
Variable assigned : Mission.t → string.
Variable entity_map : gmap string E.
Variable conflict_of : string → E → Mission.t → Mission.t → Conflict.
Hypothesis conflict_of_entity :
  ∀ eid e mi mj, entity_id (conflict_of eid e mi mj) = eid.

Lemma group_missions_snoc ms m :
  group_missions assigned entity_map (ms ++ [m])
  = if decide (groupable assigned entity_map m)
    then setdefault_append (assigned m) m (group_missions assigned entity_map ms)
    else group_missions assigned entity_map ms.
Proof.
  unfold group_missions. rewrite foldl_snoc.
  destruct (decide (groupable assigned entity_map m)) as [[H1 H2]|Hn].
  - apply truthy_iff in H1. rewrite H1. by rewrite bool_decide_eq_true_2.
  - destruct (truthy (assigned m)) eqn:Ht; [|done].
    destruct (bool_decide (is_Some (entity_map !! assigned m))) eqn:Hb; [|done].
    apply bool_decide_eq_true in Hb.
    exfalso. apply Hn. split; [by apply truthy_iff|done].
Qed.

Lemma group_missions_NoDup ms :
  NoDup (group_missions assigned entity_map ms).*1.
Proof.
  induction ms as [|m ms IH] using rev_ind; [constructor|].
  rewrite group_missions_snoc. destruct (decide (groupable assigned entity_map m)); [|done].
  by apply setdefault_append_NoDup.
Qed.

Lemma group_missions_get k ms :
  alist_get k (group_missions assigned entity_map ms)
  = filter (λ m, groupable assigned entity_map m ∧ assigned m = k) ms.
Proof.
  induction ms as [|m ms IH] using rev_ind; [done|].
  rewrite group_missions_snoc, filter_app, filter_cons.
  rewrite (filter_nil (λ m, groupable assigned entity_map m ∧ assigned m = k)).
  destruct (decide (groupable assigned entity_map m)) as [Hg|Hn].
  - destruct (decide (assigned m = k)) as [<-|Hne].
    + rewrite alist_get_setdefault_eq, IH. by rewrite decide_True.
    + rewrite alist_get_setdefault_ne by done. rewrite IH.
      rewrite decide_False by tauto. by rewrite app_nil_r.
  - rewrite decide_False by tauto. by rewrite app_nil_r.
Qed.

Lemma booking_body_entity eid mi mj c :
  booking_body entity_map conflict_of eid mi mj = Some c → entity_id c = eid.
Proof.
  unfold booking_body. destruct (Mission.overlaps_with mi mj); [|done].
  destruct (entity_map !! eid); [|done]. intros [= <-]. apply conflict_of_entity.
Qed.

Lemma pair_loop_entity eid l :
  Forall (λ c, entity_id c = eid)
         (pair_loop (booking_body entity_map conflict_of eid) l).
Proof.
  induction l as [|mi rest IH]; [constructor|].
  cbn [pair_loop]. apply Forall_app. split; [|done].
  apply Forall_forall. intros c (mj & _ & Hc)%list_elem_of_omap.
  by eapply booking_body_entity.
Qed.

Lemma scan_by_entity eid d :
  NoDup d.*1 →
  filter (λ c, entity_id c = eid)
    (flat_map (λ '(k, m_list),
                 pair_loop (booking_body entity_map conflict_of k) m_list) d)
  = pair_loop (booking_body entity_map conflict_of eid) (alist_get eid d).
Proof.
  induction d as [|[k l] d IH]; [done|].
  intros [Hk Hd]%NoDup_cons. cbn [flat_map alist_get].
  rewrite filter_app, IH by done.
  destruct (String.eqb k eid) eqn:Heq.
  - apply String.eqb_eq in Heq as ->.
    rewrite filter_all by apply pair_loop_entity.
    rewrite alist_get_not_key by done. cbn. by rewrite app_nil_r.
  - apply String.eqb_neq in Heq.
    rewrite filter_none; [done|].
    eapply Forall_impl; [apply pair_loop_entity|]. cbn. congruence.
Qed.

Lemma pair_loop_pairs eid e l :
  entity_map !! eid = Some e →
  pair_loop (booking_body entity_map conflict_of eid) l
  = (λ ab, conflict_of eid e ab.1 ab.2)
      <$> filter overlapping (ordered_pairs l).
Proof.
  intros He. induction l as [|mi rest IH]; [done|].
  cbn [pair_loop ordered_pairs]. rewrite filter_app, fmap_app, IH. f_equal.
  clear IH. induction rest as [|mj rest IH]; [done|].
  cbn [omap list_omap]. rewrite fmap_cons, filter_cons, IH.
  unfold booking_body at 1. rewrite He.
  destruct (decide (overlapping (mi, mj))) as [Ho|Ho];
    unfold overlapping in Ho; cbn [fst snd] in Ho.
  - by rewrite Ho.
  - apply not_true_is_false in Ho. by rewrite Ho.
Qed.

Lemma scan_once_per_pair eid e missions :
  eid ≠ "" → entity_map !! eid = Some e →
  (∀ mi mj, conflict_type (conflict_of eid e mi mj) = "Double Booking"
            ∧ severity (conflict_of eid e mi mj) = "Critical") →
  once_per_pair (conflict_of eid e) eid
    (filter (λ m, assigned m = eid) missions)
    (scan_double_bookings assigned entity_map conflict_of missions).
Proof.
  intros Hne He Hkind. unfold once_per_pair, scan_double_bookings.
  rewrite scan_by_entity by apply group_missions_NoDup.
  rewrite group_missions_get.
  rewrite (filter_ext_in (λ m, groupable assigned entity_map m ∧ assigned m = eid)
             (λ m, assigned m = eid)).
  2:{ intros m _. unfold groupable. split; [tauto|].
      intros ->. rewrite He. eauto. }
  rewrite (pair_loop_pairs eid e) by done.
  split; [done|]. split.
  - apply Forall_fmap, Forall_forall. intros ab _. apply Hkind.
  - intros Hall. rewrite length_fmap, filter_all by done.
    apply ordered_pairs_choose2.
Qed.
End DoubleBookingFacts.

Lemma pilot_map_of_snoc pilots p :
  pilot_map_of (pilots ++ [p]) = <[Pilot.pilot_id p := p]> (pilot_map_of pilots).
Proof. unfold pilot_map_of. by rewrite foldl_snoc. Qed.

Lemma drone_map_of_snoc drones d :
  drone_map_of (drones ++ [d]) = <[Drone.drone_id d := d]> (drone_map_of drones).
Proof. unfold drone_map_of. by rewrite foldl_snoc. Qed.

(** Every pilot of the list has its id in the map, and the map holds
    pilots of the list under their own ids. *)
Lemma pilot_map_of_known pilots p :
  p ∈ pilots → is_Some (pilot_map_of pilots !! Pilot.pilot_id p).
Proof.
  induction pilots as [|q pilots IH] using rev_ind; [by intros ?%elem_of_nil|].
  rewrite pilot_map_of_snoc, elem_of_app, list_elem_of_singleton.
  intros [Hin| ->]; [|by rewrite lookup_insert_eq].
  destruct (decide (Pilot.pilot_id q = Pilot.pilot_id p)) as [Heq|Hne].
  - by rewrite Heq, lookup_insert_eq.
  - rewrite lookup_insert_ne by done. auto.
Qed.

Lemma pilot_map_of_lookup pilots pid p :
  pilot_map_of pilots !! pid = Some p → p ∈ pilots ∧ Pilot.pilot_id p = pid.
Proof.
  induction pilots as [|q pilots IH] using rev_ind; [done|].
  rewrite pilot_map_of_snoc, elem_of_app, list_elem_of_singleton.
  destruct (decide (Pilot.pilot_id q = pid)) as [Heq|Hne].
  - rewrite <- Heq, lookup_insert_eq. intros [= ->]. auto.
  - rewrite lookup_insert_ne by done. intros [? ?]%IH. auto.
Qed.

(** C5: for a pilot (a drone) of the map, the double-booking scan holds,
    under that entity's id, one conflict per pair of positions i < j of the
    missions assigned to the entity whose date ranges overlap, none twice
    and none missing; each is a Double Booking of severity Critical; when
    all the k missions of the entity overlap pairwise there are C(k,2). *)
Theorem double_booking_once_per_pair (pilots : list Pilot.t)
    (drones : list Drone.t) (missions : list Mission.t)
    (pid : string) (p : Pilot.t) (did : string) (d : Drone.t) :
  pid ≠ "" → pilot_map_of pilots !! pid = Some p →
  did ≠ "" → drone_map_of drones !! did = Some d →
  once_per_pair (pilot_booking_conflict pid p) pid
    (filter (λ m, Mission.assigned_pilot m = pid) missions)
    (detect_double_bookings pilots missions)
  ∧ once_per_pair (drone_booking_conflict did d) did
      (filter (λ m, Mission.assigned_drone m = did) missions)
      (detect_drone_double_bookings drones missions).
Proof.
  intros Hpid Hp Hdid Hd. split.
  - by apply scan_once_per_pair.
  - by apply scan_once_per_pair.
Qed.

Lemma double_booking_once_per_pair_witness :
  "P001" ≠ "" ∧ pilot_map_of sample_pilots !! "P001" = Some arjun
  ∧ "D001" ≠ "" ∧ drone_map_of sample_drones !! "D001" = Some mavic
  ∧ once_per_pair (pilot_booking_conflict "P001" arjun) "P001"
      (filter (λ m, Mission.assigned_pilot m = "P001") double_booked_missions)
      (detect_double_bookings sample_pilots double_booked_missions)
  ∧ once_per_pair (drone_booking_conflict "D001" mavic) "D001"
      (filter (λ m, Mission.assigned_drone m = "D001") double_booked_missions)
      (detect_drone_double_bookings sample_drones double_booked_missions).
Proof.
  assert (H1 : "P001" ≠ "") by discriminate.
  assert (H2 : pilot_map_of sample_pilots !! "P001" = Some arjun)
    by (vm_compute; reflexivity).
  assert (H3 : "D001" ≠ "") by discriminate.
  assert (H4 : drone_map_of sample_drones !! "D001" = Some mavic)
    by (vm_compute; reflexivity).
  split; [exact H1|]. split; [exact H2|]. split; [exact H3|].
  split; [exact H4|].
  exact (double_booking_once_per_pair sample_pilots sample_drones
           double_booked_missions "P001" arjun "D001" mavic H1 H2 H3 H4).
Defined.

(** Scenario B of the specification: two overlapping missions of one pilot
    give one conflict. *)
Example double_booking_scenario :
  detect_double_bookings sample_pilots double_booked_missions
  = [pilot_booking_conflict "P001" arjun prj001 prj003].
Proof. vm_compute. reflexivity. Qed.

Lemma scan_double_bookings_type {E} (assigned : Mission.t → string)
    (entity_map : gmap string E) conflict_of missions :
  (∀ eid e mi mj, conflict_type (conflict_of eid e mi mj) = "Double Booking") →
  of_type "Double Booking"
    (scan_double_bookings assigned entity_map conflict_of missions).
Proof.
  intros Hkind. unfold of_type, scan_double_bookings.
  apply Forall_flat_map, Forall_forall. intros [eid m_list] _.
  induction m_list as [|mi rest IH]; [constructor|].
  cbn [pair_loop]. apply Forall_app. split; [|done].
  apply Forall_forall. intros c (mj & _ & Hc)%list_elem_of_omap.
  unfold booking_body in Hc.
  destruct (Mission.overlaps_with mi mj); [|done].
  destruct (entity_map !! eid); [|done]. injection Hc as <-. apply Hkind.
Qed.

Lemma detect_skill_mismatches_type pilots missions :
  of_type "Skill Mismatch" (detect_skill_mismatches pilots missions).
Proof.
  unfold of_type, detect_skill_mismatches.
  apply Forall_flat_map, Forall_forall. intros m _.
  destruct (negb _); [constructor|].
  destruct (pilot_map_of pilots !! _) as [p|]; [|constructor].
  apply Forall_app. split.
  - destruct (filter _ (Mission.required_skills m)); repeat constructor.
  - destruct (filter _ (Mission.required_certs m)); repeat constructor.
Qed.

Lemma detect_maintenance_conflicts_type drones missions :
  of_type "Maintenance" (detect_maintenance_conflicts drones missions).
Proof.
  unfold of_type, detect_maintenance_conflicts.
  apply Forall_flat_map, Forall_forall. intros m _.
  destruct (negb _); [constructor|].
  destruct (drone_map_of drones !! _) as [d|]; [|constructor].
  destruct (String.eqb _ _); [repeat constructor|].
  destruct (Drone.maintenance_due d); [|constructor].
  destruct (Mission.end_date m); [|constructor].
  destruct (date_leb _ _); repeat constructor.
Qed.

Lemma detect_location_mismatches_type pilots drones missions :
  of_type "Location Mismatch" (detect_location_mismatches pilots drones missions).
Proof.
  unfold of_type, detect_location_mismatches.
  apply Forall_flat_map, Forall_forall. intros m _.
  destruct (negb _); [constructor|].
  apply Forall_app. split.
  - destruct (truthy (Mission.assigned_pilot m)); [|constructor].
    destruct (pilot_map_of pilots !! _) as [p|]; [|constructor].
    destruct (_ && _); repeat constructor.
  - destruct (truthy (Mission.assigned_drone m)); [|constructor].
    destruct (drone_map_of drones !! _) as [d|]; [|constructor].
    destruct (_ && _); repeat constructor.
Qed.

(* ------------------------------------------------------------------ *)
(** ** The code that writes to the snapshot *)

(** *** Rules for computations that return *)

Lemma wp_ret {A} (a : A) Φ s : Φ s a → wp (mret a) Φ s.
Proof. intros H. by exists s, a. Qed.

Lemma wp_bind {A B} (m : Store A) (f : A → Store B) Φ s :
  wp m (λ s' a, wp (f a) Φ s') s → wp (m ≫= f) Φ s.
Proof.
  intros (s' & a & Hm & s'' & b & Hf & HΦ). exists s'', b. split; [|done].
  unfold mbind, Store_bind. by rewrite Hm.
Qed.

Lemma wp_seq {A B} (m : Store A) (f : A → Store B) Ψ Φ s :
  wp m Ψ s → (∀ s' a, Ψ s' a → wp (f a) Φ s') → wp (m ≫= f) Φ s.
Proof.
  intros (s' & a & Hm & HΨ) Hf. apply wp_bind. exists s', a. auto.
Qed.

Lemma wp_gets {A} (f : DataStore.t → A) Φ s : Φ s (f s) → wp (gets f) Φ s.
Proof. intros H. by exists s, (f s). Qed.

Lemma wp_write_mission i f Φ s :
  Φ (DataStore.mk (DataStore.pilots s) (DataStore.drones s)
       (alter f i (DataStore.missions s))) () →
  wp (write_mission i f) Φ s.
Proof. intros H. by eexists _, (). Qed.

Lemma wp_write_pilot i f Φ s :
  Φ (DataStore.mk (alter f i (DataStore.pilots s)) (DataStore.drones s)
       (DataStore.missions s)) () →
  wp (write_pilot i f) Φ s.
Proof. intros H. by eexists _, (). Qed.

Lemma wp_write_drone i f Φ s :
  Φ (DataStore.mk (DataStore.pilots s) (alter f i (DataStore.drones s))
       (DataStore.missions s)) () →
  wp (write_drone i f) Φ s.
Proof. intros H. by eexists _, (). Qed.

(** *** Lookups by id *)

Lemma find_mission_by_id_unique ms j m :
  NoDup (Mission.project_id <$> ms) → ms !! j = Some m →
  find_mission_by_id (Mission.project_id m) ms = Some (j, m).
Proof.
  intros Hnd Hm. unfold find_mission_by_id. apply list_find_Some.
  split; [done|]. split; [done|].
  intros k y Hy Hlt Heq.
  assert (k = j); [|lia].
  eapply NoDup_lookup; [exact Hnd| |].
  - by rewrite list_lookup_fmap, Hy.
  - cbn in Heq. by rewrite list_lookup_fmap, Hm, Heq.
Qed.

Lemma find_mission_by_id_index mid ms j m k m' :
  NoDup (Mission.project_id <$> ms) →
  find_mission_by_id mid ms = Some (j, m) →
  ms !! k = Some m' → Mission.project_id m' = mid → k = j.
Proof.
  intros Hnd Hfind Hk Hid.
  pose proof (find_mission_by_id_unique ms k m' Hnd Hk) as Hfind'.
  rewrite Hid, Hfind in Hfind'. by injection Hfind' as -> _.
Qed.

Lemma list_find_id_Some {A} (ident : A → string) (x : string) (l : list A) :
  x ∈ ident <$> l →
  ∃ i a, list_find (λ a, ident a = x) l = Some (i, a)
         ∧ l !! i = Some a ∧ ident a = x.
Proof.
  intros (a & -> & Ha)%list_elem_of_fmap.
  destruct (list_find_elem_of (λ b, ident b = ident a) l a Ha eq_refl)
    as [[i b] Hfind].
  exists i, b. split; [done|].
  by apply list_find_Some in Hfind as (? & ? & _).
Qed.

Lemma NoDup_ident_inj {A} (ident : A → string) (l : list A) a b :
  NoDup (ident <$> l) → a ∈ l → b ∈ l → ident a = ident b → a = b.
Proof.
  intros Hnd [i Hi]%list_elem_of_lookup [j Hj]%list_elem_of_lookup Heq.
  assert (i = j) as ->; [|congruence].
  eapply NoDup_lookup; [exact Hnd| |].
  - by rewrite list_lookup_fmap, Hi.
  - by rewrite list_lookup_fmap, Hj, Heq.
Qed.

(** *** The three writes of an assignment keep the invariant *)

Lemma links_ok_lookup ps ds ms :
  links_ok ps ds ms ↔
  ∀ j m, ms !! j = Some m →
    pilot_link_ok (DataStore.mk ps ds ms) m ∧ drone_link_ok (DataStore.mk ps ds ms) m.
Proof. unfold links_ok, bidirectional_invariant. cbn. apply Forall_lookup. Qed.

Lemma clear_pilot_keeps_links ps ds ms oi :
  links_ok ps ds ms →
  links_ok ps ds (alter (Mission.set_assigned_pilot "") oi ms).
Proof.
  unfold links_ok, bidirectional_invariant. cbn. intros H.
  apply Forall_alter; [done|].
  intros m _ [_ Hd]. split; [|done]. intros Hne. done.
Qed.

Lemma assign_pilot_keeps_links ps ds ms pi pl ui u :
  links_ok ps ds ms →
  ps !! pi = Some pl → ms !! ui = Some u →
  (∀ j m, ms !! j = Some m → Mission.assigned_pilot m ≠ "" →
          Mission.assigned_pilot m = Pilot.pilot_id pl → j = ui) →
  links_ok
    (alter (Pilot.set_current_assignment (Mission.project_id u)) pi
       (alter (Pilot.set_status "Assigned") pi ps))
    ds
    (alter (Mission.set_assigned_pilot (Pilot.pilot_id pl)) ui ms).
Proof.
  rewrite !links_ok_lookup. intros Hinv Hpl Hu Hfresh j m Hm.
  unfold pilot_link_ok, drone_link_ok in *. cbn [DataStore.pilots DataStore.drones] in *.
  rewrite list_lookup_alter in Hm.
  destruct (decide (ui = j)) as [<-|Hne].
  - rewrite Hu in Hm. injection Hm as <-. cbn.
    split.
    + intros _. apply Exists_exists.
      exists (Pilot.set_current_assignment (Mission.project_id u) (Pilot.set_status "Assigned" pl)).
      split; [|done].
      apply list_elem_of_lookup. exists pi.
      by rewrite !list_lookup_alter_eq, Hpl.
    + by apply (Hinv ui u).
  - destruct (Hinv j m Hm) as [Hp Hd]. split; [|done].
    intros Hassigned. specialize (Hp Hassigned).
    apply Exists_exists in Hp as (p' & Hin & Hid & Hcur & Hst).
    apply list_elem_of_lookup in Hin as [k Hk].
    apply Exists_exists. exists p'. split; [|done].
    apply list_elem_of_lookup. exists k.
    destruct (decide (pi = k)) as [<-|Hk'].
    + exfalso. apply Hne. symmetry. apply (Hfresh j m Hm Hassigned). congruence.
    + by rewrite !list_lookup_alter_ne.
Qed.

Lemma assign_drone_keeps_links ps ds ms di dr ui u :
  links_ok ps ds ms →
  ds !! di = Some dr → ms !! ui = Some u →
  (∀ j m, ms !! j = Some m → Mission.assigned_drone m ≠ "" →
          Mission.assigned_drone m = Drone.drone_id dr → j = ui) →
  links_ok ps
    (alter (Drone.set_current_assignment (Mission.project_id u)) di
       (alter (Drone.set_status "Assigned") di ds))
    (alter (Mission.set_assigned_drone (Drone.drone_id dr)) ui ms).
Proof.
  rewrite !links_ok_lookup. intros Hinv Hdr Hu Hfresh j m Hm.
  unfold pilot_link_ok, drone_link_ok in *. cbn [DataStore.pilots DataStore.drones] in *.
  rewrite list_lookup_alter in Hm.
  destruct (decide (ui = j)) as [<-|Hne].
  - rewrite Hu in Hm. injection Hm as <-. cbn.
    split.
    + by apply (Hinv ui u).
    + intros _. apply Exists_exists.
      exists (Drone.set_current_assignment (Mission.project_id u) (Drone.set_status "Assigned" dr)).
      split; [|done].
      apply list_elem_of_lookup. exists di.
      by rewrite !list_lookup_alter_eq, Hdr.
  - destruct (Hinv j m Hm) as [Hp Hd]. split; [done|].
    intros Hassigned. specialize (Hd Hassigned).
    apply Exists_exists in Hd as (d' & Hin & Hid & Hcur & Hst).
    apply list_elem_of_lookup in Hin as [k Hk].
    apply Exists_exists. exists d'. split; [|done].
    apply list_elem_of_lookup. exists k.
    destruct (decide (di = k)) as [<-|Hk'].
    + exfalso. apply Hne. symmetry. apply (Hfresh j m Hm Hassigned). congruence.
    + by rewrite !list_lookup_alter_ne.
Qed.

Lemma same_drone_side_refl ms : same_drone_side ms ms.
Proof. apply Forall2_same_length_lookup_2; [done|]. intros i x y Hx Hy. by simplify_eq. Qed.

Lemma same_drone_side_set_pilot ms ms' v i :
  same_drone_side ms ms' →
  same_drone_side ms (alter (Mission.set_assigned_pilot v) i ms').
Proof. intros H. apply Forall2_alter_r; [done|]. intros x y _ _ Hxy. done. Qed.

(** Executing a plan that fits the snapshot returns and keeps the
    invariant. *)
Lemma execute_reassignment_keeps_invariant plan s :
  bidirectional_invariant s →
  NoDup (Mission.project_id <$> DataStore.missions s) →
  plan_fits plan s →
  wp (execute_reassignment plan) (λ s' _, bidirectional_invariant s') s.
Proof.
  destruct s as [ps ds ms]. cbn [DataStore.missions DataStore.pilots DataStore.drones].
  intros Hinv Hnd (Hu & Hp & Hd).
  cbn [DataStore.missions DataStore.pilots DataStore.drones] in *.
  apply list_find_id_Some in Hu as (ui & u & Hfind & Hui & Huid).
  fold (find_mission_by_id (urgent_mission_id plan) ms) in Hfind.
  unfold execute_reassignment. apply wp_bind, wp_gets.
  cbn [DataStore.missions]. rewrite Hfind.
  eapply (wp_seq _ _ (λ s1 _,
            bidirectional_invariant s1
            ∧ DataStore.drones s1 = ds
            ∧ same_drone_side ms (DataStore.missions s1))).
  - (* the pilot *)
    destruct (suggested_pilot plan) as [sp|] eqn:Hsp.
    2:{ apply wp_ret. split; [done|]. split; [done|]. apply same_drone_side_refl. }
    destruct (Hp sp eq_refl) as [Hin Hfresh]. clear Hp.
    apply list_find_id_Some in Hin as (pi & pl & Hpfind & Hpi & Hpid).
    assert (Hkeep : ∀ j m, ms !! j = Some m →
              Mission.assigned_pilot m ≠ "" →
              Mission.assigned_pilot m = Pilot.pilot_id sp →
              j = ui ∨ (displaced_from_mission plan = Some (Mission.project_id m)
                        ∧ Mission.project_id m ≠ "")).
    { intros j m Hm Hne Heq.
      destruct (Hfresh m) as [Hid|Hdis]; [by eapply list_elem_of_lookup_2|done|done| |by right].
      left. by eapply find_mission_by_id_index. }
    eapply (wp_seq _ _ (λ s1 _,
       ∃ ms1, s1 = DataStore.mk ps ds ms1 ∧ bidirectional_invariant s1
         ∧ same_drone_side ms ms1
         ∧ (∀ j m, ms1 !! j = Some m → Mission.assigned_pilot m ≠ "" →
                   Mission.assigned_pilot m = Pilot.pilot_id sp → j = ui))).
    + (* the mission the pilot is taken from *)
      destruct (displaced_from_mission plan) as [dm|] eqn:Hdm.
      * destruct (truthy dm) eqn:Htr.
        -- apply wp_bind, wp_gets. cbn [DataStore.missions].
           destruct (find_mission_by_id dm ms) as [[oi om]|] eqn:Hom.
           ++ apply wp_bind, wp_write_mission, wp_ret.
              cbn [DataStore.missions DataStore.pilots DataStore.drones].
              eexists. split; [reflexivity|].
              split; [by apply clear_pilot_keeps_links|].
              split; [apply same_drone_side_set_pilot, same_drone_side_refl|].
              intros j m Hm Hne Heq. rewrite list_lookup_alter in Hm.
              destruct (decide (oi = j)) as [<-|Hoj].
              ** destruct (ms !! oi); [|done]. by simplify_eq/=.
              ** destruct (Hkeep j m Hm Hne Heq) as [?|[Hdis Hne']]; [done|].
                 exfalso. apply Hoj. symmetry.
                 eapply find_mission_by_id_index; [exact Hnd|exact Hom|exact Hm|].
                 congruence.
           ++ apply wp_ret. exists ms.
              split; [done|]. split; [done|]. split; [apply same_drone_side_refl|].
              intros j m Hm Hne Heq.
              destruct (Hkeep j m Hm Hne Heq) as [?|[Hdis Hne']]; [done|].
              exfalso. injection Hdis as ->.
              rewrite (find_mission_by_id_unique ms j m) in Hom by done.
              discriminate.
        -- apply wp_ret. exists ms.
           split; [done|]. split; [done|]. split; [apply same_drone_side_refl|].
           intros j m Hm Hne Heq.
           destruct (Hkeep j m Hm Hne Heq) as [?|[Hdis Hne']]; [done|].
           exfalso. injection Hdis as ->. apply truthy_iff in Hne'. congruence.
      * apply wp_ret. exists ms.
        split; [done|]. split; [done|]. split; [apply same_drone_side_refl|].
        intros j m Hm Hne Heq.
        destruct (Hkeep j m Hm Hne Heq) as [?|[Hdis Hne']]; done.
    + (* the pilot and the target mission *)
      intros s1 changes (ms1 & -> & Hinv1 & Hside1 & Hfresh1).
      apply wp_bind, wp_gets. cbn [DataStore.pilots]. rewrite Hpfind.
      apply wp_bind, wp_write_pilot, wp_bind, wp_write_pilot, wp_bind,
        wp_write_mission, wp_ret.
      cbn [DataStore.missions DataStore.pilots DataStore.drones].
      destruct (Forall2_lookup_l _ _ _ ui u Hside1 Hui) as (u1 & Hu1 & Hu1id & _).
      split; [|split; [done|by apply same_drone_side_set_pilot]].
      rewrite <- Huid, <- Hu1id.
      apply (assign_pilot_keeps_links ps ds ms1 pi pl ui u1); try done.
      intros j m Hm Hne Heq. apply (Hfresh1 j m Hm Hne). congruence.
  - (* the drone *)
    intros [ps1 ds1 ms1] changes (Hinv1 & Hds & Hside).
    cbn [DataStore.missions DataStore.drones] in Hds, Hside. subst ds1.
    eapply (wp_seq _ _ (λ s2 _, bidirectional_invariant s2)).
    + destruct (suggested_drone plan) as [sd|] eqn:Hsd; [|by apply wp_ret].
      destruct (Hd sd eq_refl) as [Hin Hdfresh].
      apply list_find_id_Some in Hin as (di & dr & Hdfind & Hdi & Hdid).
      apply wp_bind, wp_gets. cbn [DataStore.drones]. rewrite Hdfind.
      apply wp_bind, wp_write_drone, wp_bind, wp_write_drone, wp_bind,
        wp_write_mission, wp_ret.
      cbn [DataStore.missions DataStore.pilots DataStore.drones].
      destruct (Forall2_lookup_l _ _ _ ui u Hside Hui) as (u1 & Hu1 & Hu1id & _).
      rewrite <- Huid, <- Hu1id.
      apply (assign_drone_keeps_links ps1 ds ms1 di dr ui u1); try done.
      intros j m Hm Hne Heq.
      destruct (Forall2_lookup_r _ _ _ j m Hside Hm) as (m0 & Hm0 & Hid0 & Hdr0).
      eapply find_mission_by_id_index; [exact Hnd|exact Hfind|exact Hm0|].
      apply Hdfresh; [by eapply list_elem_of_lookup_2|congruence|congruence].
    + intros s2 a Hinv2. by apply wp_ret.
Qed.

(** *** The plans of [suggest_reassignment] fit the snapshot *)

Lemma available_candidates_elem {E} (ia : E → bool) sc (l : list E) c :
  c ∈ available_candidates ia sc l → cand_entity c ∈ l ∧ ia (cand_entity c) = true.
Proof.
  unfold available_candidates.
  intros (e & -> & He)%list_elem_of_fmap.
  by apply list_elem_of_filter in He as [? ?].
Qed.

Lemma top_candidates_elem {E} (ia : E → bool) sc (l : list E) c :
  c ∈ slice_to (stable_sort score_desc (collect_candidates ia sc l)) 3 →
  cand_entity c ∈ l ∧ ia (cand_entity c) = true.
Proof.
  rewrite slice_to_take by lia. intros Hc%subseteq_take.
  rewrite stable_sort_perm, collect_candidates_spec in Hc.
  by apply available_candidates_elem in Hc.
Qed.

Lemma find_best_pilots_elem pilots mission c :
  c ∈ find_best_pilots pilots mission 3 →
  cand_entity c ∈ pilots ∧ Pilot.status (cand_entity c) = "Available".
Proof.
  intros [? ?]%top_candidates_elem. split; [done|].
  by apply pilot_is_available_iff.
Qed.

Lemma find_best_drones_elem drones mission c :
  c ∈ find_best_drones drones mission 3 →
  cand_entity c ∈ drones ∧ Drone.status (cand_entity c) = "Available".
Proof.
  intros [? ?]%top_candidates_elem. split; [done|].
  by apply drone_is_available_iff.
Qed.

(** An Available pilot (drone) is held by no mission of a consistent
    snapshot whose ids are unique. *)
Lemma available_pilot_unheld s p m :
  bidirectional_invariant s → NoDup (Pilot.pilot_id <$> DataStore.pilots s) →
  p ∈ DataStore.pilots s → Pilot.status p = "Available" →
  m ∈ DataStore.missions s → Mission.assigned_pilot m ≠ "" →
  Mission.assigned_pilot m ≠ Pilot.pilot_id p.
Proof.
  intros Hinv Hnd Hp Hst Hm Hne Heq.
  unfold bidirectional_invariant in Hinv. rewrite Forall_forall in Hinv.
  destruct (Hinv m Hm) as [Hlink _]. specialize (Hlink Hne).
  apply Exists_exists in Hlink as (p' & Hp' & Hid & _ & Hst').
  assert (p' = p) as -> by (eapply NoDup_ident_inj; [exact Hnd|done|done|congruence]).
  congruence.
Qed.

Lemma available_drone_unheld s d m :
  bidirectional_invariant s → NoDup (Drone.drone_id <$> DataStore.drones s) →
  d ∈ DataStore.drones s → Drone.status d = "Available" →
  m ∈ DataStore.missions s → Mission.assigned_drone m ≠ "" →
  Mission.assigned_drone m ≠ Drone.drone_id d.
Proof.
  intros Hinv Hnd Hp Hst Hm Hne Heq.
  unfold bidirectional_invariant in Hinv. rewrite Forall_forall in Hinv.
  destruct (Hinv m Hm) as [_ Hlink]. specialize (Hlink Hne).
  apply Exists_exists in Hlink as (p' & Hp' & Hid & _ & Hst').
  assert (p' = d) as -> by (eapply NoDup_ident_inj; [exact Hnd|done|done|congruence]).
  congruence.
Qed.

Lemma displacement_plan_target u pm bd m plan :
  displacement_plan u pm bd m = Some plan →
  urgent_mission_id plan = Mission.project_id u
  ∧ suggested_drone plan = cand_entity <$> head bd.
Proof.
  unfold displacement_plan.
  destruct (pm !! Mission.assigned_pilot m) as [p|]; [|done].
  destruct (score_pilot_for_mission p u) as [sc b].
  destruct (negb (Qle_bool (3 # 10) sc)); [done|].
  intros Heq. apply (inj Some) in Heq. by subst plan.
Qed.

Lemma no_drone_penalty_fits plan s :
  plan_fits plan s → plan_fits (no_drone_penalty plan) s.
Proof. done. Qed.

Lemma suggested_plan_fits u s plan :
  bidirectional_invariant s →
  NoDup (Pilot.pilot_id <$> DataStore.pilots s) →
  NoDup (Drone.drone_id <$> DataStore.drones s) →
  Forall (λ m, Mission.project_id m ≠ "") (DataStore.missions s) →
  u ∈ DataStore.missions s →
  plan ∈ suggest_reassignment u (DataStore.pilots s) (DataStore.drones s)
           (DataStore.missions s) →
  plan_fits plan s.
Proof.
  intros Hinv Hndp Hndd Hids Hu Hplan.
  apply suggest_reassignment_elem in Hplan. unfold unsorted_plans in Hplan.
  set (bp := find_best_pilots (DataStore.pilots s) u 3) in *.
  set (bd := find_best_drones (DataStore.drones s) u 3) in *.
  assert (Hfit : ∀ plan', plan' ∈ (phase1_plans u bp bd ++ phase2_plans u (DataStore.pilots s) (DataStore.missions s) bp bd)%list → plan_fits plan' s).
  2:{ destruct bd; [|by apply Hfit].
      apply list_elem_of_fmap in Hplan as (plan' & -> & Hin).
      by apply no_drone_penalty_fits, Hfit. }
  clear plan Hplan. intros plan [H1|H2]%elem_of_app.
  - (* phase 1 *)
    unfold phase1_plans in H1.
    destruct bp as [|c0 bp'] eqn:Hbp; [by apply elem_of_nil in H1|].
    destruct bd as [|[[d ds] dbd] bd'] eqn:Hbd; [by apply elem_of_nil in H1|].
    apply list_elem_of_fmap in H1 as ([[p psc] pbd] & -> & Hin).
    rewrite slice_to_take in Hin by lia. apply subseteq_take in Hin.
    rewrite <- Hbp in Hin. apply find_best_pilots_elem in Hin as [Hp Hpst].
    assert (Hdin : (d, ds, dbd) ∈ find_best_drones (DataStore.drones s) u 3).
    { fold bd. rewrite Hbd. by left. }
    apply find_best_drones_elem in Hdin as [Hd Hdst].
    cbn [cand_entity fst] in *.
    unfold plan_fits.
    cbn [urgent_mission_id suggested_pilot suggested_drone
         displaced_from_mission].
    split; [by apply list_elem_of_fmap_2|]. split.
    + intros sp [= <-]. split; [by apply list_elem_of_fmap_2|].
      intros m Hm Heq Hne. exfalso.
      by eapply (available_pilot_unheld s p m).
    + intros sd [= <-]. split; [by apply list_elem_of_fmap_2|].
      intros m Hm Heq Hne. exfalso.
      by eapply (available_drone_unheld s d m).
  - (* phase 2 *)
    unfold phase2_plans in H2. destruct bp; [|by apply elem_of_nil in H2].
    apply list_elem_of_omap in H2 as (m & Hm & Hpl).
    apply reassignable_elem in Hm as [Hm Hpool].
    destruct (displacement_plan_target _ _ _ _ _ Hpl) as [Hurg Hdr].
    apply displacement_plan_Some in Hpl as (p & Hp & (Hdis & _ & Hsp) & _).
    apply pilot_map_of_lookup in Hp as [Hp Hpid].
    split; [rewrite Hurg; by apply list_elem_of_fmap_2|].
    split.
    + intros sp Hsp'. rewrite Hsp in Hsp'. injection Hsp' as <-.
      split; [by apply list_elem_of_fmap_2|].
      intros m' Hm' Heq Hne. right. rewrite Forall_forall in Hids.
      split; [|by apply Hids].
      rewrite Hdis. f_equal.
      unfold bidirectional_invariant in Hinv. rewrite Forall_forall in Hinv.
      destruct (Hinv m Hm) as [Hl _], (Hinv m' Hm') as [Hl' _].
      destruct Hpool as [Hne0 _].
      apply Exists_exists in Hl as (q & Hq & Hqid & Hqc & _); [|done].
      apply Exists_exists in Hl' as (q' & Hq' & Hqid' & Hqc' & _); [|done].
      assert (q = q') as ->; [|congruence].
      eapply NoDup_ident_inj; [exact Hndp|done|done|congruence].
    + intros sd Hsd. rewrite Hdr in Hsd.
      destruct (head bd) as [c|] eqn:Hh; [|done].
      injection Hsd as <-.
      apply head_Some_elem_of, find_best_drones_elem in Hh as [Hd Hdst].
      split; [by apply list_elem_of_fmap_2|].
      intros m' Hm' Heq Hne. exfalso.
      by eapply (available_drone_unheld s (cand_entity c) m').
Qed.

(** X11: In a snapshot that satisfies the bidirectional invariant and has
    unique pilot, drone and mission ids, no mission id empty, executing any
    plan that suggest_reassignment returns for a mission of the snapshot
    returns normally and the invariant holds afterwards. *)
Lemma suggested_plan_execution_keeps_invariant (u : Mission.t)
    (s : DataStore.t) (plan : SwapPlan) :
  bidirectional_invariant s →
  NoDup (Pilot.pilot_id <$> DataStore.pilots s) →
  NoDup (Drone.drone_id <$> DataStore.drones s) →
  NoDup (Mission.project_id <$> DataStore.missions s) →
  Forall (λ m, Mission.project_id m ≠ "") (DataStore.missions s) →
  u ∈ DataStore.missions s →
  plan ∈ suggest_reassignment u (DataStore.pilots s) (DataStore.drones s)
           (DataStore.missions s) →
  ∃ s' msg, execute_reassignment plan s = (s', Returned msg)
            ∧ bidirectional_invariant s'.
Proof.
  intros Hinv Hndp Hndd Hndm Hids Hu Hplan.
  apply execute_reassignment_keeps_invariant; [done|done|].
  by eapply suggested_plan_fits.
Qed.

(** *** The claims on the mutators *)

(** A plan for a mission that is not in the list: the call returns the
    message that says so and writes nothing. *)
Lemma execute_reassignment_unknown_mission (plan : SwapPlan) (s : DataStore.t) :
  Forall (λ m, Mission.project_id m ≠ urgent_mission_id plan)
         (DataStore.missions s) →
  execute_reassignment plan s
  = (s, Returned ("❌ Mission " ++ urgent_mission_id plan ++ " not found.")).
Proof.
  intros Hnone. unfold execute_reassignment, mbind, Store_bind, gets.
  assert (Hfind : find_mission_by_id (urgent_mission_id plan)
                    (DataStore.missions s) = None).
  { unfold find_mission_by_id. apply list_find_None.
    eapply Forall_impl; [exact Hnone|]. done. }
  by rewrite Hfind.
Qed.

(** C2: the stale plan names a pilot that is no longer in the list; the
    call clears the pilot of PRJ001 and then raises StopIteration, so the
    snapshot is left with a part of the update. *)
Theorem execute_reassignment_partial_write :
  ∃ s', execute_reassignment stale_plan reloaded_store
        = (s', Raised "StopIteration")
        ∧ DataStore.missions reloaded_store
          = [Mission.set_assigned_pilot "P009" prj001; prj002]
        ∧ DataStore.missions s'
          = [Mission.set_assigned_pilot "" prj001; prj002].
Proof. eexists. split; [vm_compute; reflexivity|]. split; reflexivity. Qed.

(** The same with a drone that has left the list: the pilot is assigned
    and the target mission points at her when the call raises. *)
Example execute_reassignment_partial_write_drone :
  ∃ s', execute_reassignment stale_drone_plan consistent_store
        = (s', Raised "StopIteration")
        ∧ DataStore.pilots s'
          = [arjun;
             Pilot.set_current_assignment "PRJ002"
               (Pilot.set_status "Assigned" neha);
             rohit]
        ∧ DataStore.missions s'
          = [prj001; Mission.set_assigned_pilot "P002" prj002].
Proof. eexists. split; [vm_compute; reflexivity|]. split; reflexivity. Qed.

(** C1: in a snapshot that satisfies the invariant, the request
    `Mark Arjun as On Leave` changes the pilot and leaves mission PRJ001
    pointing at him: the invariant no longer holds. *)
Theorem update_status_breaks_invariant :
  bidirectional_invariant consistent_store
  ∧ ∃ s' msg,
      _handle_update_status (Some "arjun") (Some "On Leave") consistent_store
      = (s', Returned msg)
      ∧ DataStore.missions s' = DataStore.missions consistent_store
      ∧ DataStore.pilots s'
        = [Pilot.set_current_assignment "" (Pilot.set_status "On Leave" arjun);
           neha; rohit]
      ∧ ¬ bidirectional_invariant s'.
Proof.
  split.
  - apply (bool_decide_unpack _). vm_compute. exact I.
  - eexists _, _. split; [vm_compute; reflexivity|].
    split; [reflexivity|]. split; [reflexivity|].
    apply (bool_decide_eq_false_1 _). vm_compute. reflexivity.
Qed.

(** The sibling handlers on the same snapshot: `Unassign P001` and
    `Cancel mission PRJ001` clear the mission side too. *)
Example unassign_keeps_invariant :
  bidirectional_invariant
    (_handle_unassign None (Some "P001") None consistent_store).1
  ∧ Mission.assigned_pilot
      <$> DataStore.missions
            (_handle_unassign None (Some "P001") None consistent_store).1
    = [""; ""].
Proof.
  split; [|vm_compute; reflexivity].
  apply (bool_decide_unpack _). vm_compute. exact I.
Qed.

Example cancel_mission_keeps_invariant :
  bidirectional_invariant
    (_handle_cancel_mission (Some "PRJ001") consistent_store).1.
Proof. apply (bool_decide_unpack _). vm_compute. exact I. Qed.

(** The drone branch of the status update: `Mark D001 as Available` frees
    the drone on its side only. *)
Example update_status_drone_breaks_invariant :
  ∃ s' msg,
    _handle_update_status (Some "d001") (Some "Available") consistent_store
    = (s', Returned msg)
    ∧ DataStore.drones s' = [Drone.set_status "Available" mavic; matrice]
    ∧ DataStore.missions s' = DataStore.missions consistent_store
    ∧ ¬ bidirectional_invariant s'.
Proof.
  eexists _, _. split; [vm_compute; reflexivity|].
  split; [reflexivity|]. split; [reflexivity|].
  apply (bool_decide_eq_false_1 _). vm_compute. reflexivity.
Qed.

(* ------------------------------------------------------------------ *)
(** ** The sample snapshots *)

Lemma consistent_store_invariant : bidirectional_invariant consistent_store.
Proof. apply (bool_decide_unpack _). vm_compute. exact I. Qed.

Lemma consistent_store_well_keyed : well_keyed consistent_store.
Proof.
  unfold well_keyed. split_and!.
  - apply (bool_decide_unpack _). vm_compute. exact I.
  - apply (bool_decide_unpack _). vm_compute. exact I.
  - apply (bool_decide_unpack _). vm_compute. exact I.
  - apply (bool_decide_unpack _). vm_compute. exact I.
  - unfold pilots_resolve. repeat constructor.
  - unfold drones_resolve. repeat constructor.
  - unfold missions_resolve. repeat constructor.
Qed.

Lemma suggested_plan_execution_keeps_invariant_witness :
  bidirectional_invariant free_drone_store
  ∧ prj002 ∈ DataStore.missions free_drone_store
  ∧ first_plan ∈ suggest_reassignment prj002 (DataStore.pilots free_drone_store)
                   (DataStore.drones free_drone_store)
                   (DataStore.missions free_drone_store)
  ∧ ∃ s' msg, execute_reassignment first_plan free_drone_store
              = (s', Returned msg)
              ∧ bidirectional_invariant s'.
Proof.
  assert (H1 : bidirectional_invariant free_drone_store)
    by (apply (bool_decide_unpack _); vm_compute; exact I).
  assert (H2 : NoDup (Pilot.pilot_id <$> DataStore.pilots free_drone_store))
    by (apply (bool_decide_unpack _); vm_compute; exact I).
  assert (H3 : NoDup (Drone.drone_id <$> DataStore.drones free_drone_store))
    by (apply (bool_decide_unpack _); vm_compute; exact I).
  assert (H4 : NoDup (Mission.project_id <$> DataStore.missions free_drone_store))
    by (apply (bool_decide_unpack _); vm_compute; exact I).
  assert (H5 : Forall (λ m, Mission.project_id m ≠ "")
                 (DataStore.missions free_drone_store))
    by (apply (bool_decide_unpack _); vm_compute; exact I).
  assert (H6 : prj002 ∈ DataStore.missions free_drone_store)
    by (unfold free_drone_store; cbn; right; left).
  assert (H7 : first_plan
               ∈ suggest_reassignment prj002 (DataStore.pilots free_drone_store)
                   (DataStore.drones free_drone_store)
                   (DataStore.missions free_drone_store)).
  { unfold first_plan.
    assert (suggest_reassignment prj002 (DataStore.pilots free_drone_store)
              (DataStore.drones free_drone_store)
              (DataStore.missions free_drone_store) ≠ []) as Hne
      by (vm_compute; intros Hnil; discriminate Hnil).
    destruct (suggest_reassignment prj002 _ _ _); [done|]. by left. }
  split; [exact H1|]. split; [exact H6|]. split; [exact H7|].
  exact (suggested_plan_execution_keeps_invariant prj002 free_drone_store
           first_plan H1 H2 H3 H4 H5 H6 H7).
Defined.

(* ------------------------------------------------------------------ *)
(** ** Text: case and white space *)

Lemma lower_char_idemp c : lower_char (lower_char c) = lower_char c.
Proof. by destruct c as [[] [] [] [] [] [] [] []]. Qed.

Lemma is_space_lower_char c : is_space (lower_char c) = is_space c.
Proof. by destruct c as [[] [] [] [] [] [] [] []]. Qed.

Lemma lower_idemp s : lower (lower s) = lower s.
Proof. induction s as [|c s IH]; [done|]. cbn. by rewrite lower_char_idemp, IH. Qed.

Lemma lower_lstrip s : lower (lstrip s) = lstrip (lower s).
Proof.
  induction s as [|c s IH]; [done|]. cbn [lstrip lower].
  rewrite is_space_lower_char. by destruct (is_space c).
Qed.

Lemma lower_rstrip s : lower (rstrip s) = rstrip (lower s).
Proof.
  induction s as [|c s IH]; [done|]. cbn [rstrip lower].
  rewrite <- IH, is_space_lower_char.
  destruct (rstrip s); cbn [lower]; [|done]. by destruct (is_space c).
Qed.

Lemma lower_strip s : lower (strip s) = strip (lower s).
Proof. unfold strip. by rewrite lower_rstrip, lower_lstrip. Qed.

Lemma lstrip_head s :
  lstrip s = "" ∨ ∃ c r, lstrip s = String c r ∧ is_space c = false.
Proof.
  induction s as [|c s IH]; [by left|]. cbn [lstrip].
  destruct (is_space c) eqn:E; [done|]. right. by exists c, s.
Qed.

Lemma rstrip_head c s :
  is_space c = false → ∃ r, rstrip (String c s) = String c r.
Proof.
  intros Hc. cbn [rstrip]. destruct (rstrip s); [|by eexists].
  rewrite Hc. by eexists.
Qed.

Lemma rstrip_idemp s : rstrip (rstrip s) = rstrip s.
Proof.
  induction s as [|c s IH]; [done|]. cbn [rstrip].
  destruct (rstrip s) as [|c' r] eqn:E.
  - destruct (is_space c) eqn:Hc; [done|]. cbn [rstrip]. by rewrite Hc.
  - cbn [rstrip]. cbn [rstrip] in IH. rewrite IH. done.
Qed.

Lemma strip_idemp s : strip (strip s) = strip s.
Proof.
  unfold strip. destruct (lstrip_head s) as [->|(c & r & -> & Hc)]; [done|].
  destruct (rstrip_head c r Hc) as [r' Hr]. rewrite Hr.
  cbn [lstrip]. rewrite Hc, <- Hr. apply rstrip_idemp.
Qed.

Lemma norm_tag_idemp s : norm_tag (norm_tag s) = norm_tag s.
Proof.
  unfold norm_tag. by rewrite lower_strip, lower_idemp, strip_idemp.
Qed.

Lemma norm_tag_lower_strip s : lower (strip s) = norm_tag s.
Proof. apply lower_strip. Qed.

(* ------------------------------------------------------------------ *)
(** ** The overlap ratio and the location score *)

Lemma norm_set_empty_iff (s : gset string) : norm_set s = ∅ ↔ s = ∅.
Proof.
  split; [|by intros ->].
  intros He. destruct (decide (s = ∅)) as [|Hne]; [done|].
  pose proof (norm_set_nonempty s Hne) as Hpos.
  rewrite He, size_empty in Hpos. lia.
Qed.

Lemma norm_set_idemp (s : gset string) : norm_set (norm_set s) = norm_set s.
Proof.
  unfold norm_set. apply set_eq. intros t. rewrite !elem_of_map. split.
  - intros (u & -> & (v & -> & Hv)%elem_of_map). exists v. by rewrite norm_tag_idemp.
  - intros (v & -> & Hv). exists (norm_tag v). rewrite norm_tag_idemp.
    split; [done|]. apply elem_of_map. eauto.
Qed.

Lemma norm_set_mono (s s' : gset string) : s ⊆ s' → norm_set s ⊆ norm_set s'.
Proof.
  intros Hs t. unfold norm_set. rewrite !elem_of_map.
  intros (v & -> & Hv). exists v. auto.
Qed.

Lemma set_overlap_ratio_range (required available : gset string) :
  (0 <= set_overlap_ratio required available <= 1)%Q.
Proof.
  unfold set_overlap_ratio.
  destruct (decide (required = ∅)) as [He | Hne]; [split; discriminate|].
  pose proof (norm_set_nonempty _ Hne) as Hpos.
  assert (Hsub : norm_set required ∩ norm_set available ⊆ norm_set required)
    by (intros t [? _]%elem_of_intersection; done).
  apply subseteq_size in Hsub.
  unfold Qle; cbn [Qnum Qden]. rewrite Zpos_of_nat by done. lia.
Qed.

Lemma set_overlap_ratio_one_iff (required available : gset string) :
  (set_overlap_ratio required available == 1)%Q
  ↔ norm_set required ⊆ norm_set available.
Proof.
  unfold set_overlap_ratio.
  destruct (decide (required = ∅)) as [-> | Hne].
  - split; [|done]. intros _ t. unfold norm_set. rewrite set_map_empty.
    by intros ?%not_elem_of_empty.
  - pose proof (norm_set_nonempty _ Hne) as Hpos.
    unfold Qeq; cbn [Qnum Qden]. rewrite Zpos_of_nat by done.
    split.
    + intros Hsz t Ht.
      assert (Heq : norm_set required ∩ norm_set available = norm_set required).
      { apply set_subseteq_size_eq; [|lia].
        intros u [? _]%elem_of_intersection. done. }
      rewrite <- Heq in Ht. by apply elem_of_intersection in Ht as [_ ?].
    + intros Hsub.
      assert (Heq : norm_set required ∩ norm_set available = norm_set required).
      { apply set_eq. intros t. rewrite elem_of_intersection. split; [tauto|].
        intros Ht. split; [done|]. by apply Hsub. }
      rewrite Heq. lia.
Qed.

Lemma set_overlap_ratio_zero_iff (required available : gset string) :
  (set_overlap_ratio required available == 0)%Q
  ↔ required ≠ ∅ ∧ norm_set required ## norm_set available.
Proof.
  unfold set_overlap_ratio.
  destruct (decide (required = ∅)) as [-> | Hne].
  - split; [discriminate|]. by intros [? _].
  - pose proof (norm_set_nonempty _ Hne) as Hpos.
    unfold Qeq; cbn [Qnum Qden]. rewrite Zpos_of_nat by done.
    split.
    + intros Hsz. split; [done|].
      assert (H0 : size (norm_set required ∩ norm_set available) = 0%nat) by lia.
      apply size_empty_iff in H0. intros t Hr Ha.
      apply (not_elem_of_empty (C:=gset string) t). apply H0.
      by apply elem_of_intersection.
    + intros [_ Hdis].
      assert (Heq : norm_set required ∩ norm_set available = ∅).
      { apply set_eq. intros t. rewrite elem_of_intersection. split.
        - intros [Hr Ha]. exfalso. by apply (Hdis t).
        - by intros ?%not_elem_of_empty. }
      rewrite Heq, size_empty. lia.
Qed.

(** X1: set_overlap_ratio returns 1 exactly when every required tag is among
    the available tags once both are lower-cased and stripped (so also when
    nothing is required), and it returns 0 exactly when something is
    required and no required tag is available in that sense. *)
Theorem set_overlap_ratio_ends (required available : gset string) :
  ((set_overlap_ratio required available == 1)%Q
   ↔ norm_set required ⊆ norm_set available)
  ∧ ((set_overlap_ratio required available == 0)%Q
     ↔ required ≠ ∅ ∧ norm_set required ## norm_set available).
Proof.
  split; [apply set_overlap_ratio_one_iff|apply set_overlap_ratio_zero_iff].
Qed.

(** X2: Making more tags available never lowers set_overlap_ratio for the
    same required tags. *)
Theorem set_overlap_ratio_mono (required available available' : gset string) :
  available ⊆ available' →
  (set_overlap_ratio required available
   <= set_overlap_ratio required available')%Q.
Proof.
  intros Hsub. unfold set_overlap_ratio.
  destruct (decide (required = ∅)) as [|Hne]; [apply Qle_refl|].
  pose proof (norm_set_nonempty _ Hne) as Hpos.
  assert (Hin : norm_set required ∩ norm_set available
                ⊆ norm_set required ∩ norm_set available').
  { intros t [Hr Ha]%elem_of_intersection. apply elem_of_intersection.
    split; [done|]. by apply (norm_set_mono _ _ Hsub). }
  apply subseteq_size in Hin.
  unfold Qle; cbn [Qnum Qden]. nia.
Qed.

Lemma set_overlap_ratio_mono_witness :
  ({["Mapping"]} : gset string) ⊆ {["Mapping"; "Thermal"]}
  ∧ (set_overlap_ratio {["Mapping"; "Thermal"]} {["Mapping"]}
     <= set_overlap_ratio {["Mapping"; "Thermal"]} {["Mapping"; "Thermal"]})%Q.
Proof.
  assert (H : ({["Mapping"]} : gset string) ⊆ {["Mapping"; "Thermal"]})
    by set_solver.
  split; [exact H|].
  exact (set_overlap_ratio_mono {["Mapping"; "Thermal"]} {["Mapping"]}
           {["Mapping"; "Thermal"]} H).
Defined.

(** The ratio depends on the tags through their lower-cased, stripped
    forms only. *)
Lemma set_overlap_ratio_normalised (required available : gset string) :
  set_overlap_ratio (norm_set required) (norm_set available)
  = set_overlap_ratio required available.
Proof.
  unfold set_overlap_ratio. rewrite !norm_set_idemp.
  destruct (decide (required = ∅)) as [He|Hne].
  - rewrite decide_True; [done|]. by apply norm_set_empty_iff.
  - rewrite decide_False; [done|]. by rewrite norm_set_empty_iff.
Qed.

Lemma location_match_score_values a b :
  location_match_score a b = 1%Q ∨ location_match_score a b = 0%Q.
Proof.
  unfold location_match_score.
  destruct (negb (truthy a) || negb (truthy b)); [by right|].
  destruct (String.eqb _ _); auto.
Qed.

Lemma location_match_score_one_iff a b :
  location_match_score a b = 1%Q
  ↔ a ≠ "" ∧ b ≠ "" ∧ norm_tag a = norm_tag b.
Proof.
  unfold location_match_score. rewrite !norm_tag_lower_strip.
  destruct (truthy a) eqn:Ha; cbn [negb orb].
  - destruct (truthy b) eqn:Hb; cbn [negb orb].
    + apply truthy_iff in Ha, Hb.
      destruct (String.eqb (norm_tag a) (norm_tag b)) eqn:E.
      * apply String.eqb_eq in E. tauto.
      * apply String.eqb_neq in E. split; [discriminate|tauto].
    + split; [discriminate|]. intros (_ & Hb' & _). apply truthy_iff in Hb'. congruence.
  - split; [discriminate|]. intros (Ha' & _). apply truthy_iff in Ha'. congruence.
Qed.

Lemma location_match_score_range a b : (0 <= location_match_score a b <= 1)%Q.
Proof. destruct (location_match_score_values a b) as [-> | ->]; split; discriminate. Qed.

(* ------------------------------------------------------------------ *)
(** ** Ranges of the match scores *)

Lemma norm_set_list (l : list string) : norm_set (list_to_set l) = norm_tags l.
Proof.
  unfold norm_set, norm_tags. apply set_eq. intros t.
  rewrite elem_of_map, elem_of_list_to_set, list_elem_of_fmap.
  by setoid_rewrite elem_of_list_to_set.
Qed.

Lemma round_half_even_between (a b : Z) (q : Q) :
  (inject_Z a <= q <= inject_Z b)%Q → a <= round_half_even q <= b.
Proof.
  intros [Ha Hb]. unfold round_half_even.
  pose proof (Qfloor_le q) as Hfl. pose proof (Qlt_floor q) as Hlt.
  assert (Hfa : a <= Qfloor q).
  { rewrite <- (Qfloor_Z a). by apply Qfloor_resp_le. }
  assert (Hfb : Qfloor q <= b).
  { rewrite <- (Qfloor_Z b). by apply Qfloor_resp_le. }
  destruct (Qcompare_spec (q - inject_Z (Qfloor q)) (1 # 2)) as [He|Hl|Hg];
    [destruct (Z.even (Qfloor q))| |]; try lia.
  - destruct (decide (Qfloor q = b)) as [Hfq|]; [|lia].
    rewrite Hfq in He. lra.
  - destruct (decide (Qfloor q = b)) as [Hfq|]; [|lia].
    rewrite Hfq in Hg. lra.
Qed.

Lemma round2_range (q : Q) : (0 <= q <= 1)%Q → (0 <= round2 q <= 1)%Q.
Proof.
  intros Hq. unfold round2.
  destruct (round_half_even_between 0 100 (q * 100)) as [H0 H1].
  { change (inject_Z 0) with 0%Q. change (inject_Z 100) with 100%Q. lra. }
  unfold Qle; cbn [Qnum Qden]. lia.
Qed.

Lemma availability_range (a s : option date) :
  (0 <= match a, s with
        | Some a, Some s => if date_leb a s then 1 else 0
        | _, _ => 1 # 2
        end <= 1)%Q.
Proof. destruct a, s; try destruct (date_leb _ _); split; discriminate. Qed.

Lemma maintenance_range (d e : option date) :
  (0 <= match d, e with
        | Some d, Some e => if date_ltb e d then 1 else 0
        | _, _ => 1 # 2
        end <= 1)%Q.
Proof. destruct d, e; try destruct (date_ltb _ _); split; discriminate. Qed.

Lemma score_pilot_total_range p m : (0 <= (score_pilot_for_mission p m).1 <= 1)%Q.
Proof.
  unfold score_pilot_for_mission, weighted_score. cbn [fst snd default default_weights
    w_skill w_cert w_location w_availability from_option].
  pose proof (set_overlap_ratio_range
                (list_to_set (Mission.required_skills m))
                (list_to_set (Pilot.skills p))) as Hs.
  pose proof (set_overlap_ratio_range
                (list_to_set (Mission.required_certs m))
                (list_to_set (Pilot.certifications p))) as Hc.
  pose proof (location_match_score_range (Pilot.location p)
                (Mission.location m)) as Hl.
  pose proof (availability_range (Pilot.available_from p)
                (Mission.start_date m)) as Ha.
  lra.
Qed.

Lemma score_drone_total_range d m : (0 <= (score_drone_for_mission d m).1 <= 1)%Q.
Proof.
  unfold score_drone_for_mission. cbn [fst snd].
  pose proof (set_overlap_ratio_range
                (list_to_set (Mission.required_skills m))
                (list_to_set (Drone.capabilities d))) as Hs.
  pose proof (location_match_score_range (Drone.location d)
                (Mission.location m)) as Hl.
  pose proof (maintenance_range (Drone.maintenance_due d)
                (Mission.end_date m)) as Ha.
  lra.
Qed.

(** X3: For every pilot, drone and mission, the total that
    score_pilot_for_mission and score_drone_for_mission return and every
    entry of their breakdowns lie between 0 and 1. *)
Theorem match_scores_bounded (pilot : Pilot.t) (drone : Drone.t)
    (mission : Mission.t) :
  ((0 <= (score_pilot_for_mission pilot mission).1 <= 1)%Q
   ∧ Forall (λ entry, (0 <= entry.2 <= 1)%Q)
            (score_pilot_for_mission pilot mission).2)
  ∧ ((0 <= (score_drone_for_mission drone mission).1 <= 1)%Q
     ∧ Forall (λ entry, (0 <= entry.2 <= 1)%Q)
              (score_drone_for_mission drone mission).2).
Proof.
  split.
  - split; [apply score_pilot_total_range|].
    unfold score_pilot_for_mission. cbn [snd].
    repeat constructor; cbn [snd]; apply round2_range;
      first [ apply set_overlap_ratio_range | apply location_match_score_range
            | apply availability_range
            | apply (score_pilot_total_range pilot mission) ].
  - split; [apply score_drone_total_range|].
    unfold score_drone_for_mission. cbn [snd].
    repeat constructor; cbn [snd]; apply round2_range;
      first [ apply set_overlap_ratio_range | apply location_match_score_range
            | apply maintenance_range
            | apply (score_drone_total_range drone mission) ].
Qed.

(** X4: A pilot's total score is 1 exactly when the pilot's skills and
    certifications cover the required ones (case and outer white space
    ignored), the pilot's and the mission's locations are non-empty and
    equal in the same sense, and the pilot's available_from date is known
    and not after the mission's known start date. A drone's total score is 1
    exactly when its capabilities cover the required skills, its location
    matches in the same way and its maintenance date is known and after the
    mission's known end date. *)
Theorem perfect_score_iff (pilot : Pilot.t) (drone : Drone.t) (mission : Mission.t) :
  (((score_pilot_for_mission pilot mission).1 == 1)%Q
   ↔ norm_tags (Mission.required_skills mission) ⊆ norm_tags (Pilot.skills pilot)
     ∧ norm_tags (Mission.required_certs mission)
       ⊆ norm_tags (Pilot.certifications pilot)
     ∧ (Pilot.location pilot ≠ "" ∧ Mission.location mission ≠ ""
        ∧ norm_tag (Pilot.location pilot) = norm_tag (Mission.location mission))
     ∧ ∃ a s, Pilot.available_from pilot = Some a
              ∧ Mission.start_date mission = Some s ∧ date_leb a s = true)
  ∧ (((score_drone_for_mission drone mission).1 == 1)%Q
     ↔ norm_tags (Mission.required_skills mission)
       ⊆ norm_tags (Drone.capabilities drone)
       ∧ (Drone.location drone ≠ "" ∧ Mission.location mission ≠ ""
          ∧ norm_tag (Drone.location drone) = norm_tag (Mission.location mission))
       ∧ ∃ due e, Drone.maintenance_due drone = Some due
                  ∧ Mission.end_date mission = Some e ∧ date_ltb e due = true).
Proof.
  rewrite <- !norm_set_list, <- !set_overlap_ratio_one_iff,
    <- !location_match_score_one_iff.
  unfold score_pilot_for_mission, score_drone_for_mission, weighted_score.
  cbn [fst snd default default_weights
    w_skill w_cert w_location w_availability from_option].
  pose proof (set_overlap_ratio_range
                (list_to_set (Mission.required_skills mission))
                (list_to_set (Pilot.skills pilot))) as Hs.
  pose proof (set_overlap_ratio_range
                (list_to_set (Mission.required_certs mission))
                (list_to_set (Pilot.certifications pilot))) as Hc.
  pose proof (set_overlap_ratio_range
                (list_to_set (Mission.required_skills mission))
                (list_to_set (Drone.capabilities drone))) as Hca.
  pose proof (location_match_score_values (Pilot.location pilot)
                (Mission.location mission)) as Hl.
  pose proof (location_match_score_values (Drone.location drone)
                (Mission.location mission)) as Hdl.
  set (sk := set_overlap_ratio _ (list_to_set (Pilot.skills pilot))) in *.
  set (ce := set_overlap_ratio _ (list_to_set (Pilot.certifications pilot))) in *.
  set (ca := set_overlap_ratio _ (list_to_set (Drone.capabilities drone))) in *.
  set (lo := location_match_score (Pilot.location pilot) _) in *.
  set (dlo := location_match_score (Drone.location drone) _) in *.
  split.
  - destruct (Pilot.available_from pilot) as [a|], (Mission.start_date mission) as [s|];
      try destruct (date_leb a s) eqn:Hle.
    all: split;
      [ intros Htot;
        destruct Hl as [Hl|Hl]; rewrite Hl in Htot |- *;
        (split; [lra|]); (split; [lra|]); (split; [first [reflexivity | lra]|]);
        first [ by eexists _, _ | lra ]
      | intros (Hsk & Hce & Hlo & (a' & s' & Ha' & Hs' & Hle'));
        first [ discriminate
              | rewrite Hlo; injection Ha' as <-; injection Hs' as <-;
                first [ congruence | lra ] ] ].
  - destruct (Drone.maintenance_due drone) as [due|], (Mission.end_date mission) as [e|];
      try destruct (date_ltb e due) eqn:Hlt.
    all: split;
      [ intros Htot;
        destruct Hdl as [Hl'|Hl']; rewrite Hl' in Htot |- *;
        (split; [lra|]); (split; [first [reflexivity | lra]|]);
        first [ by eexists _, _ | lra ]
      | intros (Hca' & Hlo & (a' & s' & Ha' & Hs' & Hle'));
        first [ discriminate
              | rewrite Hlo; injection Ha' as <-; injection Hs' as <-;
                first [ congruence | lra ] ] ].
Qed.

(* ------------------------------------------------------------------ *)
(** ** Rankings and risk *)

Lemma slice_to_slice_to {A} (l : list A) (k n : Z) :
  0 <= k <= n → slice_to (slice_to l n) k = slice_to l k.
Proof.
  intros Hkn. rewrite !slice_to_take by lia. rewrite take_take.
  f_equal. lia.
Qed.

(** X5: For 0 <= k <= n, the ranking find_best_pilots returns for top_n = k
    is the first k entries of the one it returns for top_n = n, and the same
    holds for find_best_drones: a shorter ranking is a prefix of a longer
    one. *)
Theorem find_best_top_prefix (pilots : list Pilot.t) (drones : list Drone.t)
    (mission : Mission.t) (k n : Z) :
  0 <= k <= n →
  slice_to (find_best_pilots pilots mission n) k
  = find_best_pilots pilots mission k
  ∧ slice_to (find_best_drones drones mission n) k
    = find_best_drones drones mission k.
Proof.
  intros Hkn. unfold find_best_pilots, find_best_drones.
  by rewrite !slice_to_slice_to.
Qed.

Lemma find_best_top_prefix_witness :
  0 <= 2 <= 3
  ∧ slice_to (find_best_pilots sample_pilots prj002 3) 2
    = find_best_pilots sample_pilots prj002 2.
Proof.
  split; [lia|].
  exact (proj1 (find_best_top_prefix sample_pilots sample_drones prj002 2 3
                  ltac:(lia))).
Defined.

Lemma ranking_length {E} (ia : E → bool) sc (l : list E) :
  length (stable_sort score_desc (collect_candidates ia sc l))
  = length (filter (λ e, ia e = true) l).
Proof.
  rewrite stable_sort_perm, collect_candidates_spec.
  unfold available_candidates. by rewrite length_fmap.
Qed.

Lemma slice_to_negative {E} (ia : E → bool) sc (l : list E) (n : Z) :
  n < 0 →
  let full := slice_to (stable_sort score_desc (collect_candidates ia sc l))
                (Z.of_nat (length l)) in
  length full = length (filter (λ e, ia e = true) l)
  ∧ slice_to (stable_sort score_desc (collect_candidates ia sc l)) n
    = take (length full - Z.to_nat (- n)) full.
Proof.
  intros Hn. cbn zeta.
  assert (Hfull : slice_to (stable_sort score_desc (collect_candidates ia sc l))
                    (Z.of_nat (length l))
                  = stable_sort score_desc (collect_candidates ia sc l)).
  { rewrite slice_to_take by lia. apply take_ge.
    rewrite ranking_length, Nat2Z.id. apply length_filter. }
  rewrite Hfull. split; [apply ranking_length|].
  unfold slice_to. destruct (Z.ltb_spec n 0); [done|lia].
Qed.

(** A negative [top_n] drops that many entries from the end of the
    ranking, as a Python slice does. *)
Lemma find_best_negative_top_n (pilots : list Pilot.t) (drones : list Drone.t)
    (mission : Mission.t) (top_n : Z) :
  top_n < 0 →
  let all_pilots :=
    find_best_pilots pilots mission (Z.of_nat (length pilots)) in
  let all_drones :=
    find_best_drones drones mission (Z.of_nat (length drones)) in
  length all_pilots
  = length (filter (λ p, Pilot.is_available p = true) pilots)
  ∧ find_best_pilots pilots mission top_n
    = take (length all_pilots - Z.to_nat (- top_n)) all_pilots
  ∧ length all_drones
    = length (filter (λ d, Drone.is_available d = true) drones)
  ∧ find_best_drones drones mission top_n
    = take (length all_drones - Z.to_nat (- top_n)) all_drones.
Proof.
  intros Hn. cbn zeta. unfold find_best_pilots, find_best_drones.
  destruct (slice_to_negative Pilot.is_available
              (λ p, score_pilot_for_mission p mission) pilots top_n Hn)
    as [H1 H2].
  destruct (slice_to_negative Drone.is_available
              (λ d, score_drone_for_mission d mission) drones top_n Hn)
    as [H3 H4].
  done.
Qed.

Lemma int_of_Q_nonneg (q : Q) : (0 <= q)%Q → int_of_Q q = Qfloor q.
Proof.
  destruct q as [n d]. unfold Qle, int_of_Q, Qfloor. cbn [Qnum Qden].
  intros Hn. apply Z.quot_div_nonneg; lia.
Qed.

Lemma int_of_Q_nonpos (q : Q) : (q <= 0)%Q → int_of_Q q = Qceiling q.
Proof.
  destruct q as [n d]. unfold Qle, int_of_Q, Qceiling, Qfloor, Qopp.
  cbn [Qnum Qden]. intros Hn.
  rewrite <- (Z.opp_involutive n) at 1. rewrite Z.quot_opp_l by lia.
  f_equal. apply Z.quot_div_nonneg; lia.
Qed.

Lemma int_of_Q_mono (q q' : Q) : (q <= q')%Q → int_of_Q q <= int_of_Q q'.
Proof.
  intros Hle.
  destruct (Qlt_le_dec q 0) as [Hq|Hq], (Qlt_le_dec q' 0) as [Hq'|Hq'].
  - rewrite !int_of_Q_nonpos by lra. by apply Qceiling_resp_le.
  - rewrite (int_of_Q_nonpos q), (int_of_Q_nonneg q') by lra.
    assert (Qceiling q <= 0).
    { rewrite <- (Qceiling_Z 0). apply Qceiling_resp_le.
      change (inject_Z 0) with 0%Q. lra. }
    assert (0 <= Qfloor q').
    { rewrite <- (Qfloor_Z 0). apply Qfloor_resp_le.
      change (inject_Z 0) with 0%Q. lra. }
    lia.
  - lra.
  - rewrite !int_of_Q_nonneg by lra. by apply Qfloor_resp_le.
Qed.

Lemma raw_risk_linear (p d : Q) : (raw_risk p d == 50 - 25 * (p + d))%Q.
Proof. unfold raw_risk. field. Qed.

(** X6: With the swap flag and the displaced priority fixed, a higher pilot
    score or a higher drone score never gives a higher _compute_risk_score. *)
Theorem compute_risk_antitone (pilot_score pilot_score' drone_score
    drone_score' : Q) (is_swap : bool) (displaced_priority : option string) :
  (pilot_score <= pilot_score')%Q → (drone_score <= drone_score')%Q →
  _compute_risk_score pilot_score' drone_score' is_swap displaced_priority
  <= _compute_risk_score pilot_score drone_score is_swap displaced_priority.
Proof.
  intros Hp Hd. rewrite !risk_surcharge_unfold. unfold clamp_0_100.
  assert (int_of_Q (raw_risk pilot_score' drone_score')
          <= int_of_Q (raw_risk pilot_score drone_score)).
  { apply int_of_Q_mono.
    rewrite (raw_risk_linear pilot_score drone_score),
      (raw_risk_linear pilot_score' drone_score'). lra. }
  lia.
Qed.

Lemma compute_risk_antitone_witness :
  (1 # 4 <= 3 # 4)%Q ∧ (0 <= 1 # 2)%Q
  ∧ _compute_risk_score (3 # 4) (1 # 2) true (Some "Low")
    <= _compute_risk_score (1 # 4) 0 true (Some "Low").
Proof.
  assert (H1 : (1 # 4 <= 3 # 4)%Q) by (unfold Qle; cbn; lia).
  assert (H2 : (0 <= 1 # 2)%Q) by (unfold Qle; cbn; lia).
  split; [exact H1|]. split; [exact H2|].
  exact (compute_risk_antitone (1 # 4) (3 # 4) 0 (1 # 2) true (Some "Low") H1 H2).
Defined.

Lemma base_risk_range (p d : Q) :
  (0 <= p <= 1)%Q → (0 <= d <= 1)%Q →
  0 <= int_of_Q (raw_risk p d) <= 50.
Proof.
  intros Hp Hd.
  assert (Hr : (0 <= raw_risk p d <= 50)%Q)
    by (rewrite (raw_risk_linear p d); lra).
  rewrite int_of_Q_nonneg by lra.
  split.
  - rewrite <- (Qfloor_Z 0). apply Qfloor_resp_le. change (inject_Z 0) with 0%Q. lra.
  - rewrite <- (Qfloor_Z 50). apply Qfloor_resp_le. change (inject_Z 50) with 50%Q. lra.
Qed.

Lemma swap_surcharge_range sw dp : 0 <= swap_surcharge sw dp <= 50.
Proof.
  unfold swap_surcharge, priority_surcharge.
  destruct sw; repeat case_decide; lia.
Qed.

Lemma risk_of_real_scores (p d : Q) (sw : bool) (dp : option string) :
  (0 <= p <= 1)%Q → (0 <= d <= 1)%Q →
  _compute_risk_score p d sw dp
  = int_of_Q (raw_risk p d) + swap_surcharge sw dp.
Proof.
  intros Hp Hd. pose proof (base_risk_range _ _ Hp Hd) as Hb.
  rewrite risk_surcharge_unfold. unfold clamp_0_100.
  pose proof (swap_surcharge_range sw dp). lia.
Qed.

(* ------------------------------------------------------------------ *)
(** ** The suggested plans *)

Lemma phase1_plans_direct u bp bd :
  phase1_plans u bp bd
  = match bp, bd with
    | _ :: _, dc :: _ => (λ pc, direct_plan u pc dc) <$> slice_to bp 2
    | _, _ => []
    end.
Proof.
  unfold phase1_plans. destruct bp as [|c bp]; [done|].
  destruct bd as [|[[d ds] dbd] bd]; [done|].
  apply list_fmap_ext. intros i [[p psc] pbd] _. done.
Qed.

Lemma candidate_scored {E} (ia : E → bool) sc (l : list E) c n :
  c ∈ slice_to (stable_sort score_desc (collect_candidates ia sc l)) n →
  cand_entity c ∈ l ∧ ia (cand_entity c) = true
  ∧ c = (cand_entity c, (sc (cand_entity c)).1, (sc (cand_entity c)).2).
Proof.
  intros Hc.
  assert (Hin : c ∈ available_candidates ia sc l).
  { rewrite <- collect_candidates_spec, <- (stable_sort_perm score_desc).
    unfold slice_to in Hc. destruct (n <? 0); by apply subseteq_take in Hc. }
  unfold available_candidates in Hin.
  apply list_elem_of_fmap in Hin as (e & -> & He).
  apply list_elem_of_filter in He as [? ?]. done.
Qed.

Lemma best_pilot_scored pilots u n c :
  c ∈ find_best_pilots pilots u n →
  cand_entity c ∈ pilots ∧ Pilot.status (cand_entity c) = "Available"
  ∧ c = (cand_entity c, (score_pilot_for_mission (cand_entity c) u).1,
         (score_pilot_for_mission (cand_entity c) u).2).
Proof.
  intros (? & Ha & ?)%candidate_scored. apply pilot_is_available_iff in Ha. done.
Qed.

Lemma best_drone_scored drones u n c :
  c ∈ find_best_drones drones u n →
  cand_entity c ∈ drones ∧ Drone.status (cand_entity c) = "Available"
  ∧ c = (cand_entity c, (score_drone_for_mission (cand_entity c) u).1,
         (score_drone_for_mission (cand_entity c) u).2).
Proof.
  intros (? & Ha & ?)%candidate_scored. apply drone_is_available_iff in Ha. done.
Qed.

Lemma find_best_drones_nonempty drones mission :
  Exists (λ d, Drone.status d = "Available") drones →
  find_best_drones drones mission 3 ≠ [].
Proof.
  intros H Hnil.
  unfold find_best_drones in Hnil. rewrite collect_candidates_spec in Hnil.
  destruct (top_of_sorted_ranked
              (available_candidates Drone.is_available
                 (λ d, score_drone_for_mission d mission) drones) 3
              ltac:(lia)) as (Hlen & _).
  rewrite Hnil in Hlen. cbn [length] in Hlen.
  assert (0 < length (available_candidates Drone.is_available
            (λ d, score_drone_for_mission d mission) drones))%nat.
  { apply available_candidates_length. eapply Exists_impl; [exact H|].
    intros p. by rewrite drone_is_available_iff. }
  lia.
Qed.

Lemma find_best_drones_nil_iff drones mission :
  find_best_drones drones mission 3 = []
  ↔ Forall (λ d, Drone.status d ≠ "Available") drones.
Proof.
  split; [|apply find_best_drones_nil].
  intros Hnil. apply Forall_Exists_neg. intros Hex. apply Exists_exists in Hex as (d & Hd & Hnn).
  apply (find_best_drones_nonempty drones mission); [|done].
  apply Exists_exists. exists d. split; [done|].
  destruct (decide (Drone.status d = "Available")); [done|]. by destruct Hnn.
Qed.

Lemma risk_asc_total x y : risk_asc x y = true ∨ risk_asc y x = true.
Proof. unfold risk_asc. rewrite !Z.leb_le. lia. Qed.

Lemma risk_asc_trans x y z :
  risk_asc x y = true → risk_asc y z = true → risk_asc x z = true.
Proof. unfold risk_asc. rewrite !Z.leb_le. lia. Qed.

Lemma displacement_plan_swap u pm bd m plan :
  displacement_plan u pm bd m = Some plan →
  ∃ p, pm !! Mission.assigned_pilot m = Some p
       ∧ (3 # 10 <= (score_pilot_for_mission p u).1)%Q
       ∧ plan = swap_plan u p bd m.
Proof.
  unfold displacement_plan, swap_plan.
  destruct (pm !! Mission.assigned_pilot m) as [p|]; [|done].
  destruct (score_pilot_for_mission p u) as [s b] eqn:Hs.
  destruct (Qle_bool (3 # 10) s) eqn:Hle; cbn [negb]; [|done].
  intros Heq. apply (inj Some) in Heq. subst plan. exists p.
  rewrite Hs. cbn [fst snd].
  split; [done|]. split; [by apply Qle_bool_iff|done].
Qed.

Lemma unsorted_plan_cases u ps ds ms plan :
  plan ∈ unsorted_plans u ps ds ms →
  (∃ pc dc, pc ∈ slice_to (find_best_pilots ps u 3) 2
            ∧ head (find_best_drones ds u 3) = Some dc
            ∧ plan = direct_plan u pc dc)
  ∨ (find_best_pilots ps u 3 = []
     ∧ ∃ m p, m ∈ reassignable ms
         ∧ pilot_map_of ps !! Mission.assigned_pilot m = Some p
         ∧ (3 # 10 <= (score_pilot_for_mission p u).1)%Q
         ∧ plan = match find_best_drones ds u 3 with
                  | [] => no_drone_penalty
                            (swap_plan u p (find_best_drones ds u 3) m)
                  | _ :: _ => swap_plan u p (find_best_drones ds u 3) m
                  end).
Proof.
  unfold unsorted_plans. rewrite phase1_plans_direct. unfold phase2_plans.
  destruct (find_best_pilots ps u 3) as [|c bp] eqn:Hbp.
  - intros Hin. right. split; [done|].
    cbn [app] in Hin.
    destruct (find_best_drones ds u 3) as [|dc bd] eqn:Hbd.
    + apply list_elem_of_fmap in Hin as (plan' & -> & Hin).
      apply list_elem_of_omap in Hin as (m & Hm & Hpl).
      apply displacement_plan_swap in Hpl as (p & Hp & Hs & ->).
      by exists m, p.
    + apply list_elem_of_omap in Hin as (m & Hm & Hpl).
      apply displacement_plan_swap in Hpl as (p & Hp & Hs & ->).
      by exists m, p.
  - destruct (find_best_drones ds u 3) as [|dc bd] eqn:Hbd.
    + cbn. by intros ?%elem_of_nil.
    + rewrite app_nil_r. intros (pc & -> & Hpc)%list_elem_of_fmap.
      left. by exists pc, dc.
Qed.

(** X7: The list suggest_reassignment returns is in ascending order of
    risk_score, and it is a rearrangement of the plans built before the
    closing sort: the sort drops and adds nothing. *)
Theorem suggest_reassignment_sorted (urgent_mission : Mission.t)
    (pilots : list Pilot.t) (drones : list Drone.t)
    (missions : list Mission.t) :
  StronglySorted risk_le
    (suggest_reassignment urgent_mission pilots drones missions)
  ∧ suggest_reassignment urgent_mission pilots drones missions
    ≡ₚ unsorted_plans urgent_mission pilots drones missions.
Proof.
  unfold suggest_reassignment.
  fold (unsorted_plans urgent_mission pilots drones missions).
  split; [|apply stable_sort_perm].
  pose proof (stable_sort_sorted risk_asc risk_asc_total risk_asc_trans
                (unsorted_plans urgent_mission pilots drones missions)) as H.
  apply (StronglySorted_fmap id _ risk_le) in H.
  - by rewrite list_fmap_id in H.
  - intros x y. unfold risk_asc, risk_le, id. by rewrite Z.leb_le.
Qed.

Lemma compute_risk_range ps ds sw dp : 0 <= _compute_risk_score ps ds sw dp <= 100.
Proof. unfold _compute_risk_score. lia. Qed.

(** X8: Every plan suggest_reassignment returns is for the urgent mission;
    it suggests a pilot of the given list with the score and breakdown
    score_pilot_for_mission gives that pilot; its drone is the first of
    find_best_drones, an Available drone of the given list with its own
    score and breakdown, or there is none, and then the drone score is 0 and
    the plan carries the no-drone warning; its risk score is between 0 and
    100. *)
Theorem suggested_plans_well_formed (urgent_mission : Mission.t)
    (pilots : list Pilot.t) (drones : list Drone.t)
    (missions : list Mission.t) :
  Forall (λ plan,
      urgent_mission_id plan = Mission.project_id urgent_mission
      ∧ (∃ p, suggested_pilot plan = Some p ∧ p ∈ pilots
              ∧ pilot_score plan = (score_pilot_for_mission p urgent_mission).1
              ∧ pilot_breakdown plan
                = (score_pilot_for_mission p urgent_mission).2)
      ∧ suggested_drone plan
        = cand_entity <$> head (find_best_drones drones urgent_mission 3)
      ∧ (∀ d, suggested_drone plan = Some d →
           d ∈ drones ∧ Drone.status d = "Available"
           ∧ drone_score plan = (score_drone_for_mission d urgent_mission).1
           ∧ drone_breakdown plan
             = (score_drone_for_mission d urgent_mission).2)
      ∧ (suggested_drone plan = None →
           drone_score plan = 0%Q ∧ no_drone_warning ∈ warnings plan)
      ∧ 0 <= risk_score plan <= 100)
    (suggest_reassignment urgent_mission pilots drones missions).
Proof.
  apply Forall_forall. intros plan Hin.
  apply suggest_reassignment_elem, unsorted_plan_cases in Hin
    as [(pc & dc & Hpc & Hdc & ->)|(Hbp & m & p & Hm & Hp & Hs & ->)].
  - rewrite slice_to_take in Hpc by lia. apply subseteq_take in Hpc.
    apply best_pilot_scored in Hpc as (Hp & Hpst & Hpc).
    pose proof (head_Some_elem_of _ _ Hdc) as Hd.
    apply best_drone_scored in Hd as (Hd & Hdst & Hdeq).
    rewrite Hdc. rewrite Hpc, Hdeq. cbn.
    split; [done|]. split; [by eexists|]. split; [done|].
    split; [by intros d [= <-]|]. split; [done|]. apply compute_risk_range.
  - apply pilot_map_of_lookup in Hp as [Hp Hpid].
    destruct (find_best_drones drones urgent_mission 3) as [|dc bd] eqn:Hbd.
    + unfold no_drone_penalty, swap_plan.
      cbn [urgent_mission_id suggested_pilot pilot_score pilot_breakdown
           suggested_drone drone_score drone_breakdown warnings risk_score
           head fmap option_fmap option_map from_option].
      split; [done|]. split; [by eexists|]. split; [done|].
      split; [done|]. split.
      * intros _. split; [done|]. unfold no_drone_warning.
        apply elem_of_app. right. by left.
      * pose proof (compute_risk_range
                      (score_pilot_for_mission p urgent_mission).1 0 true
                      (Some (Mission.priority m))). lia.
    + assert (Hd : dc ∈ find_best_drones drones urgent_mission 3)
        by (rewrite Hbd; by left).
      apply best_drone_scored in Hd as (Hd & Hdst & Hdeq).
      unfold swap_plan.
      cbn [urgent_mission_id suggested_pilot pilot_score pilot_breakdown
           suggested_drone drone_score drone_breakdown warnings risk_score
           head fmap option_fmap option_map from_option].
      split; [done|]. split; [by eexists|]. split; [done|].
      split.
      * intros d [= <-]. rewrite Hdeq. done.
      * split; [done|]. apply compute_risk_range.
Qed.

Lemma find_best_length {E} (ia : E → bool) sc (l : list E) (n : Z) :
  0 <= n →
  length (slice_to (stable_sort score_desc (collect_candidates ia sc l)) n)
  = Nat.min (Z.to_nat n) (length (filter (λ e, ia e = true) l)).
Proof.
  intros Hn. rewrite slice_to_take by done.
  by rewrite length_take, ranking_length.
Qed.

(** X9: When some pilot and some drone have status Available,
    suggest_reassignment returns min(2, number of Available pilots) plans,
    at least one; each suggests an Available pilot, has no warnings, and has
    a risk between 0 and 50. *)
Theorem direct_plans_when_available (urgent_mission : Mission.t)
    (pilots : list Pilot.t) (drones : list Drone.t)
    (missions : list Mission.t) :
  Exists (λ p, Pilot.status p = "Available") pilots →
  Exists (λ d, Drone.status d = "Available") drones →
  let out := suggest_reassignment urgent_mission pilots drones missions in
  length out
  = Nat.min 2 (length (filter (λ p, Pilot.is_available p = true) pilots))
  ∧ out ≠ []
  ∧ Forall (λ plan,
        (∃ p, suggested_pilot plan = Some p ∧ Pilot.status p = "Available")
        ∧ warnings plan = []
        ∧ 0 <= risk_score plan <= 50) out.
Proof.
  intros Hp Hd. cbn zeta.
  pose proof (find_best_pilots_nonempty pilots urgent_mission Hp) as Hbp.
  pose proof (find_best_drones_nonempty drones urgent_mission Hd) as Hbd.
  assert (Hlen : length (suggest_reassignment urgent_mission pilots drones missions)
                 = Nat.min 2 (length (filter (λ p, Pilot.is_available p = true)
                                        pilots))).
  { unfold suggest_reassignment.
    fold (unsorted_plans urgent_mission pilots drones missions).
    rewrite stable_sort_perm. unfold unsorted_plans. rewrite phase1_plans_direct. unfold phase2_plans.
    destruct (find_best_pilots pilots urgent_mission 3) as [|c bp] eqn:Ebp; [done|].
    destruct (find_best_drones drones urgent_mission 3) as [|dc bd] eqn:Ebd; [done|].
    rewrite app_nil_r, length_fmap, <- Ebp.
    unfold find_best_pilots. rewrite slice_to_slice_to by lia.
    by rewrite find_best_length by lia. }
  split; [exact Hlen|]. split.
  - intros Hnil. rewrite Hnil in Hlen. cbn [length] in Hlen.
    apply Exists_exists in Hp as (p & Hin & Hst).
    assert (p ∈ filter (λ p, Pilot.is_available p = true) pilots).
    { apply list_elem_of_filter. split; [|done]. by apply pilot_is_available_iff. }
    destruct (filter (λ p, Pilot.is_available p = true) pilots);
      [by apply elem_of_nil in H|]. cbn in Hlen. lia.
  - apply Forall_forall. intros plan Hin.
    apply suggest_reassignment_elem, unsorted_plan_cases in Hin
      as [(pc & dc & Hpc & Hdc & ->)|(Hnil & _)]; [|done].
    rewrite slice_to_take in Hpc by lia. apply subseteq_take in Hpc.
    apply best_pilot_scored in Hpc as (Hpin & Hpst & Hpc).
    pose proof (head_Some_elem_of _ _ Hdc) as Hdin.
    apply best_drone_scored in Hdin as (Hdin & Hdst & Hdeq).
    rewrite Hpc, Hdeq. unfold direct_plan.
    cbn [suggested_pilot warnings risk_score pilot_score drone_score].
    split; [by eexists|]. split; [done|].
    rewrite risk_of_real_scores
      by first [apply score_pilot_total_range | apply score_drone_total_range].
    pose proof (base_risk_range _ _
                  (score_pilot_total_range (cand_entity pc) urgent_mission)
                  (score_drone_total_range (cand_entity dc) urgent_mission)).
    cbn [swap_surcharge]. lia.
Qed.

Lemma direct_plans_when_available_witness :
  Exists (λ p, Pilot.status p = "Available") sample_pilots
  ∧ Exists (λ d, Drone.status d = "Available") [mavic; retired]
  ∧ length (suggest_reassignment prj002 sample_pilots [mavic; retired]
              [prj001; prj002])
    = Nat.min 2 (length (filter (λ p, Pilot.is_available p = true)
                           sample_pilots)).
Proof.
  assert (Hp : Exists (λ p, Pilot.status p = "Available") sample_pilots).
  { apply Exists_cons_tl, Exists_cons_hd. reflexivity. }
  assert (Hd : Exists (λ d, Drone.status d = "Available") [mavic; retired]).
  { apply Exists_cons_tl, Exists_cons_hd. reflexivity. }
  split; [exact Hp|]. split; [exact Hd|].
  exact (proj1 (direct_plans_when_available prj002 sample_pilots
                  [mavic; retired] [prj001; prj002] Hp Hd)).
Defined.

Lemma swap_base_range (p d : Q) :
  (3 # 10 <= p <= 1)%Q → (0 <= d <= 1)%Q →
  0 <= int_of_Q (raw_risk p d) <= 42
  ∧ ((d == 0)%Q → 25 <= int_of_Q (raw_risk p d)).
Proof.
  intros Hp Hd. pose proof (raw_risk_linear p d) as Hlin.
  rewrite int_of_Q_nonneg by lra. split; [split|].
  - rewrite <- (Qfloor_Z 0). apply Qfloor_resp_le. change (inject_Z 0) with 0%Q. lra.
  - assert (Hlt : Qfloor (raw_risk p d) < 43); [|lia].
    rewrite <- (Qfloor_Z 43).
    destruct (Z.lt_ge_cases (Qfloor (raw_risk p d)) (Qfloor (inject_Z 43)))
      as [|Hge]; [done|].
    rewrite Qfloor_Z in Hge. pose proof (Qfloor_le (raw_risk p d)) as Hfl.
    assert ((inject_Z 43 <= inject_Z (Qfloor (raw_risk p d)))%Q)
      by (rewrite <- Zle_Qle; lia).
    change (inject_Z 43) with 43%Q in *. lra.
  - intros H0. rewrite <- (Qfloor_Z 25). apply Qfloor_resp_le.
    change (inject_Z 25) with 25%Q. lra.
Qed.

(** X10: When no pilot has status Available, every plan suggest_reassignment
    returns displaces a mission of priority Low or Standard and has a pilot
    score between 0.3 and 1; if some drone is Available its risk is between
    25 and 67 and it has one warning; if none is, its risk is between 65 and
    82, it suggests no drone and it has two warnings. *)
Theorem displacement_plans_risk (urgent_mission : Mission.t)
    (pilots : list Pilot.t) (drones : list Drone.t)
    (missions : list Mission.t) :
  Forall (λ p, Pilot.status p ≠ "Available") pilots →
  Forall (λ plan,
      (displaced_mission_priority plan = Some "Low"
       ∨ displaced_mission_priority plan = Some "Standard")
      ∧ (3 # 10 <= pilot_score plan <= 1)%Q
      ∧ (Exists (λ d, Drone.status d = "Available") drones →
           25 <= risk_score plan <= 67 ∧ length (warnings plan) = 1%nat)
      ∧ (Forall (λ d, Drone.status d ≠ "Available") drones →
           65 <= risk_score plan <= 82 ∧ suggested_drone plan = None
           ∧ length (warnings plan) = 2%nat))
    (suggest_reassignment urgent_mission pilots drones missions).
Proof.
  intros Hnone. apply Forall_forall. intros plan Hin.
  apply suggest_reassignment_elem, unsorted_plan_cases in Hin
    as [(pc & dc & Hpc & _)|(_ & m & p & Hm & Hp & Hs & ->)].
  { rewrite (find_best_pilots_nil pilots urgent_mission 3 Hnone) in Hpc.
    by apply elem_of_nil in Hpc. }
  apply reassignable_elem in Hm as [_ [_ Hprio]].
  pose proof (score_pilot_total_range p urgent_mission) as Hpr.
  assert (Hsur : swap_surcharge true (Some (Mission.priority m)) = 25).
  { unfold swap_surcharge, priority_surcharge.
    destruct Hprio as [-> | ->]; reflexivity. }
  destruct (find_best_drones drones urgent_mission 3) as [|dc bd] eqn:Hbd.
  - unfold no_drone_penalty, swap_plan.
    cbn [displaced_mission_priority pilot_score risk_score warnings
         suggested_drone head from_option fmap option_fmap option_map].
    split; [destruct Hprio as [-> | ->]; auto|]. split; [lra|].
    split.
    + intros Hex. exfalso.
      by apply (find_best_drones_nonempty drones urgent_mission Hex).
    + intros _.
      rewrite risk_of_real_scores by (try done; lra).
      destruct (swap_base_range (score_pilot_for_mission p urgent_mission).1 0)
        as [Hb H25]; [lra|lra|].
      specialize (H25 ltac:(reflexivity)). rewrite Hsur.
      split; [lia|]. done.
  - assert (Hd : dc ∈ find_best_drones drones urgent_mission 3)
      by (rewrite Hbd; by left).
    apply best_drone_scored in Hd as (Hd & Hdst & Hdeq).
    pose proof (score_drone_total_range (cand_entity dc) urgent_mission) as Hdr.
    unfold swap_plan.
    cbn [displaced_mission_priority pilot_score risk_score warnings
         suggested_drone head from_option fmap option_fmap option_map].
    split; [destruct Hprio as [-> | ->]; auto|]. split; [lra|].
    assert (Hcs : cand_score dc
                  = (score_drone_for_mission (cand_entity dc) urgent_mission).1)
      by (rewrite Hdeq at 1; done).
    rewrite Hcs. split.
    + intros _. rewrite risk_of_real_scores by (try done; lra).
      destruct (swap_base_range (score_pilot_for_mission p urgent_mission).1
                  (score_drone_for_mission (cand_entity dc) urgent_mission).1)
        as [Hb _]; [lra|lra|].
      rewrite Hsur. split; [lia|done].
    + intros Hall. exfalso.
      rewrite (find_best_drones_nil drones urgent_mission 3 Hall) in Hbd.
      discriminate.
Qed.

Lemma displacement_plans_risk_witness :
  Forall (λ p, Pilot.status p ≠ "Available") [arjun]
  ∧ Forall (λ plan, 65 <= risk_score plan <= 82)
      (suggest_reassignment prj002 [arjun] sample_drones double_booked_missions).
Proof.
  assert (Hp : Forall (λ p, Pilot.status p ≠ "Available") [arjun])
    by (repeat constructor; discriminate).
  assert (Hd : Forall (λ d, Drone.status d ≠ "Available") sample_drones)
    by (repeat constructor; discriminate).
  split; [exact Hp|].
  exact (Forall_impl _ _ _
           (displacement_plans_risk prj002 [arjun] sample_drones
              double_booked_missions Hp)
           (λ plan H, proj1 (proj2 (proj2 (proj2 H)) Hd))).
Defined.

(* ------------------------------------------------------------------ *)
(** ** Executing a plan *)

Lemma list_find_id_None {A} (ident : A → string) (x : string) (l : list A) :
  list_find (λ a, ident a = x) l = None ↔ x ∉ ident <$> l.
Proof.
  rewrite list_find_None, Forall_forall, list_elem_of_fmap. split.
  - intros H (a & -> & Ha). by apply (H a).
  - intros H a Ha Heq. apply H. by exists a.
Qed.

Ltac run_store :=
  unfold execute_reassignment, mbind, Store_bind, gets, mret, Store_ret,
    write_mission, write_pilot, write_drone, raise;
  cbn [DataStore.pilots DataStore.drones DataStore.missions].

Ltac crunch :=
  repeat case_match; simplify_eq;
  cbn [DataStore.pilots DataStore.drones DataStore.missions] in *; simplify_eq.

(** X12: execute_reassignment ends with an exception exactly when the plan's
    urgent mission id is in the mission list and the plan suggests a pilot
    whose id is not in the pilot list or a drone whose id is not in the
    drone list. *)
Theorem execute_reassignment_raises_iff (plan : SwapPlan) (s : DataStore.t) :
  raises (execute_reassignment plan) s
  ↔ urgent_mission_id plan ∈ Mission.project_id <$> DataStore.missions s
    ∧ (names_missing_pilot plan s ∨ names_missing_drone plan s).
Proof.
  unfold raises, names_missing_pilot, names_missing_drone.
  destruct s as [ps ds ms]. run_store.
  destruct (find_mission_by_id (urgent_mission_id plan) ms) as [[ui u]|] eqn:Hu.
  2:{ apply list_find_id_None in Hu. split.
      - intros (s' & e & [=]).
      - intros [Hin _]. done. }
  assert (Hin : urgent_mission_id plan ∈ Mission.project_id <$> ms).
  { apply list_find_Some in Hu as (Hl & Hid & _).
    apply list_elem_of_fmap. exists u. split; [done|]. by eapply list_elem_of_lookup_2. }
  destruct (suggested_pilot plan) as [sp|] eqn:Hsp.
  - destruct (list_find (λ p, Pilot.pilot_id p = Pilot.pilot_id sp) ps)
      as [[pi pl]|] eqn:Hp.
    + assert (Hpin : Pilot.pilot_id sp ∈ Pilot.pilot_id <$> ps).
      { destruct (decide (Pilot.pilot_id sp ∈ Pilot.pilot_id <$> ps)); [done|].
        apply list_find_id_None in n. congruence. }
      destruct (suggested_drone plan) as [sd|] eqn:Hsd.
      * destruct (list_find (λ d, Drone.drone_id d = Drone.drone_id sd) ds)
          as [[di dr]|] eqn:Hd.
        -- assert (Hdin : Drone.drone_id sd ∈ Drone.drone_id <$> ds).
           { destruct (decide (Drone.drone_id sd ∈ Drone.drone_id <$> ds)); [done|].
             apply list_find_id_None in n. congruence. }
           split.
           ++ intros (s' & e & Heq). exfalso.
              crunch.
           ++ intros [_ [(? & [= <-] & ?)|(? & [= <-] & ?)]]; done.
        -- pose proof Hd as Hd'. apply list_find_id_None in Hd'. split; [eauto 10|].
           intros _. crunch; eauto.
      * split.
        -- intros (s' & e & Heq). exfalso.
           crunch.
        -- intros [_ [(? & [= <-] & ?)|(? & [=] & ?)]]; done.
    + pose proof Hp as Hp'. apply list_find_id_None in Hp'. split; [eauto 10|].
      intros _. crunch; eauto.
  - destruct (suggested_drone plan) as [sd|] eqn:Hsd.
    + destruct (list_find (λ d, Drone.drone_id d = Drone.drone_id sd) ds)
        as [[di dr]|] eqn:Hd.
      * assert (Hdin : Drone.drone_id sd ∈ Drone.drone_id <$> ds).
        { destruct (decide (Drone.drone_id sd ∈ Drone.drone_id <$> ds)); [done|].
          apply list_find_id_None in n. congruence. }
        split.
        -- intros (s' & e & Heq). exfalso. crunch.
        -- intros [_ [(? & [=] & ?)|(? & [= <-] & ?)]]; done.
      * pose proof Hd as Hd'. apply list_find_id_None in Hd'. split; [eauto 10|].
        intros _. crunch; eauto.
    + split.
      * intros (s' & e & Heq). crunch.
      * intros [_ [(? & [=] & ?)|(? & [=] & ?)]].
Qed.

Lemma alter_lookup_Some {A} (f : A → A) (i : nat) (l : list A) (j : nat) (x : A) :
  l !! j = Some x →
  alter f i l !! j = Some (if decide (i = j) then f x else x).
Proof.
  intros Hx. rewrite list_lookup_alter.
  destruct (decide (i = j)) as [->|]; [by rewrite Hx|done].
Qed.

Ltac solve_lookup := repeat first [eassumption | apply alter_lookup_Some].

Ltac intros_lookups :=
  repeat match goal with
  | H : list_find _ ?l = Some (?i, ?x) |- _ =>
      lazymatch goal with
      | _ : l !! i = Some x |- _ => fail
      | _ => pose proof (proj1 (list_find_Some _ _ _ _) H) as (? & ? & _)
      end
  end.

(** X13: When execute_reassignment returns for a plan whose urgent mission
    is in the list, that mission keeps its id and names the plan's pilot and
    drone (each when the plan has one); the pilot and the drone are in their
    lists with status Assigned and the urgent mission as current assignment;
    and the displaced mission, when the plan has a pilot and names a
    displaced mission that is found and is not the urgent one, is left
    without a pilot. *)
Theorem execute_reassignment_effect (plan : SwapPlan) (s s' : DataStore.t)
    (msg : string) (ui : nat) (u : Mission.t) :
  execute_reassignment plan s = (s', Returned msg) →
  find_mission_by_id (urgent_mission_id plan) (DataStore.missions s)
  = Some (ui, u) →
  ∃ u', DataStore.missions s' !! ui = Some u'
    ∧ Mission.project_id u' = Mission.project_id u
    ∧ (∀ sp, suggested_pilot plan = Some sp →
         Mission.assigned_pilot u' = Pilot.pilot_id sp
         ∧ ∃ pi p', DataStore.pilots s' !! pi = Some p'
             ∧ Pilot.pilot_id p' = Pilot.pilot_id sp
             ∧ Pilot.status p' = "Assigned"
             ∧ Pilot.current_assignment p' = urgent_mission_id plan)
    ∧ (∀ sd, suggested_drone plan = Some sd →
         Mission.assigned_drone u' = Drone.drone_id sd
         ∧ ∃ di d', DataStore.drones s' !! di = Some d'
             ∧ Drone.drone_id d' = Drone.drone_id sd
             ∧ Drone.status d' = "Assigned"
             ∧ Drone.current_assignment d' = urgent_mission_id plan)
    ∧ (∀ dm oi om, is_Some (suggested_pilot plan) →
         displaced_from_mission plan = Some dm → dm ≠ "" →
         find_mission_by_id dm (DataStore.missions s) = Some (oi, om) →
         oi ≠ ui →
         ∃ om', DataStore.missions s' !! oi = Some om'
                ∧ Mission.assigned_pilot om' = "").
Proof.
  destruct s as [ps ds ms]. intros Hrun Hu.
  cbn [DataStore.missions] in Hu.
  pose proof Hu as Hu'. apply list_find_Some in Hu' as (Hui & _ & _).
  revert Hrun. run_store. rewrite Hu.
  intros Hrun. unfold find_mission_by_id in *.
  crunch.
  all: repeat match goal with
       | H : truthy _ = true |- _ => apply truthy_iff in H
       | H : truthy _ = false |- _ =>
           apply not_true_iff_false in H; rewrite truthy_iff in H
       end.
  all: intros_lookups.
  all: cbn beta in *.
  all: eexists; split; [solve_lookup|].
  all: rewrite ?decide_True by done.
  all: split; [by repeat case_decide|].
  all: split; [intros ? ?; simplify_eq;
               try (split; [by repeat case_decide|];
                    eexists _, _; split; [solve_lookup|];
                    rewrite ?decide_True by done; done)|].
  all: split; [intros ? ?; simplify_eq;
               try (split; [by repeat case_decide|];
                    eexists _, _; split; [solve_lookup|];
                    rewrite ?decide_True by done; done)|].
  all: intros dm oi om [? ?] ? ? ? ?; simplify_eq.
  all: intros_lookups.
  all: eexists; split; [solve_lookup|].
  all: repeat case_decide; simplify_eq; done.
Qed.

Lemma execute_reassignment_effect_witness :
  execute_reassignment first_plan free_drone_store
  = ((execute_reassignment first_plan free_drone_store).1,
     Returned ("Assigned pilot Rohit (P003) to PRJ002" ++ newline
               ++ "Assigned drone DJI Phantom 4 (D009) to PRJ002"))
  ∧ find_mission_by_id (urgent_mission_id first_plan)
      (DataStore.missions free_drone_store) = Some (1%nat, prj002)
  ∧ ∃ u', DataStore.missions
            (execute_reassignment first_plan free_drone_store).1 !! 1%nat
          = Some u'
      ∧ Mission.project_id u' = "PRJ002".
Proof.
  assert (H1 : execute_reassignment first_plan free_drone_store
               = ((execute_reassignment first_plan free_drone_store).1,
                  Returned ("Assigned pilot Rohit (P003) to PRJ002" ++ newline
               ++ "Assigned drone DJI Phantom 4 (D009) to PRJ002")))
    by (vm_compute; reflexivity).
  assert (H2 : find_mission_by_id (urgent_mission_id first_plan)
                 (DataStore.missions free_drone_store) = Some (1%nat, prj002))
    by (vm_compute; reflexivity).
  split; [exact H1|]. split; [exact H2|].
  destruct (execute_reassignment_effect first_plan free_drone_store _ _ _ _
              H1 H2) as (u' & Hu & Hid & _).
  exists u'. split; [exact Hu|exact Hid].
Defined.

(* ------------------------------------------------------------------ *)
(** ** What the mutators leave alone *)

Lemma Forall2_refl_on {A} (R : A → A → Prop) (l : list A) :
  (∀ x, R x x) → Forall2 R l l.
Proof. intros HR. induction l; constructor; auto. Qed.

Lemma Forall2_trans_on {A} (R : A → A → Prop) (l1 l2 l3 : list A) :
  (∀ x y z, R x y → R y z → R x z) →
  Forall2 R l1 l2 → Forall2 R l2 l3 → Forall2 R l1 l3.
Proof.
  intros HR H12. revert l3. induction H12 as [|x y l1 l2 Hxy _ IH];
    intros l3 H23; inversion H23; subst; constructor; eauto.
Qed.

Lemma same_roster_refl s : same_roster s s.
Proof.
  repeat split; apply Forall2_refl_on; intros x; by repeat split.
Qed.

Lemma same_roster_trans s1 s2 s3 :
  same_roster s1 s2 → same_roster s2 s3 → same_roster s1 s3.
Proof.
  intros (Hp & Hd & Hm) (Hp' & Hd' & Hm'). repeat split.
  - eapply Forall2_trans_on; [|exact Hp|exact Hp'].
    unfold same_pilot_profile. intros x y z ? ?. intuition congruence.
  - eapply Forall2_trans_on; [|exact Hd|exact Hd'].
    unfold same_drone_profile. intros x y z ? ?. intuition congruence.
  - eapply Forall2_trans_on; [|exact Hm|exact Hm'].
    unfold same_mission_brief. intros x y z ? ?. intuition congruence.
Qed.

Lemma Forall2_alter_same {A} (R : A → A → Prop) (f : A → A) (i : nat) (l : list A) :
  (∀ x, R x x) → (∀ x, R x (f x)) → Forall2 R l (alter f i l).
Proof.
  intros Hrefl Hf. revert i. induction l as [|x l IH]; intros [|i]; cbn;
    constructor; auto. by apply Forall2_refl_on.
Qed.

Lemma keeps_roster_ret {A} (a : A) : keeps_roster (mret a).
Proof. intros s. apply same_roster_refl. Qed.

Lemma keeps_roster_gets {A} (f : DataStore.t → A) : keeps_roster (gets f).
Proof. intros s. apply same_roster_refl. Qed.

Lemma keeps_roster_raise {A} e : keeps_roster (raise (A:=A) e).
Proof. intros s. apply same_roster_refl. Qed.

Lemma keeps_roster_bind {A B} (m : Store A) (f : A → Store B) :
  keeps_roster m → (∀ a, keeps_roster (f a)) → keeps_roster (m ≫= f).
Proof.
  intros Hm Hf s. unfold mbind, Store_bind. specialize (Hm s).
  destruct (m s) as [s' [a|e]]; cbn [fst] in *; [|done].
  eapply same_roster_trans; [exact Hm|apply Hf].
Qed.

Lemma keeps_roster_write_pilot i f :
  (∀ p, same_pilot_profile p (f p)) → keeps_roster (write_pilot i f).
Proof.
  intros Hf s. unfold write_pilot. cbn. split; [|split].
  - apply Forall2_alter_same; [by repeat split|done].
  - apply Forall2_refl_on. by repeat split.
  - apply Forall2_refl_on. by repeat split.
Qed.

Lemma keeps_roster_write_drone i f :
  (∀ d, same_drone_profile d (f d)) → keeps_roster (write_drone i f).
Proof.
  intros Hf s. unfold write_drone. cbn. split; [|split].
  - apply Forall2_refl_on. by repeat split.
  - apply Forall2_alter_same; [by repeat split|done].
  - apply Forall2_refl_on. by repeat split.
Qed.

Lemma keeps_roster_write_mission i f :
  (∀ m, same_mission_brief m (f m)) → keeps_roster (write_mission i f).
Proof.
  intros Hf s. unfold write_mission. cbn. split; [|split].
  - apply Forall2_refl_on. by repeat split.
  - apply Forall2_refl_on. by repeat split.
  - apply Forall2_alter_same; [by repeat split|done].
Qed.

Ltac keeps_roster_step :=
  first
    [ apply keeps_roster_ret
    | apply keeps_roster_gets
    | apply keeps_roster_raise
    | apply keeps_roster_write_pilot; intros ?; by repeat split
    | apply keeps_roster_write_drone; intros ?; by repeat split
    | apply keeps_roster_write_mission; intros ?; by repeat split
    | apply keeps_roster_bind; [|intros ?]
    | case_match ].

Lemma execute_reassignment_keeps_roster plan :
  keeps_roster (execute_reassignment plan).
Proof. unfold execute_reassignment. repeat keeps_roster_step. Qed.

Lemma unassign_pilot_keeps_roster pi p : keeps_roster (unassign_pilot pi p).
Proof. unfold unassign_pilot. repeat keeps_roster_step. Qed.

Lemma unassign_drone_keeps_roster di d : keeps_roster (unassign_drone di d).
Proof. unfold unassign_drone. repeat keeps_roster_step. Qed.

(** X14: execute_reassignment and the handlers of status update, unassign
    and cancel mission, whatever their outcome, keep the three lists at
    their length and order and write status and assignment fields only: ids,
    names, skills, certifications, capabilities, locations, dates, clients,
    requirements and priorities are as before. *)
Theorem mutators_keep_roster (plan : SwapPlan)
    (pilot_name new_status pilot_id drone_id mission_id : option string)
    (s : DataStore.t) :
  same_roster s (execute_reassignment plan s).1
  ∧ same_roster s (_handle_update_status pilot_name new_status s).1
  ∧ same_roster s (_handle_unassign pilot_name pilot_id drone_id s).1
  ∧ same_roster s (_handle_cancel_mission mission_id s).1.
Proof.
  split; [apply execute_reassignment_keeps_roster|].
  split; [|split].
  - revert s. change (keeps_roster (_handle_update_status pilot_name new_status)).
    unfold _handle_update_status. repeat keeps_roster_step.
  - revert s.
    change (keeps_roster (_handle_unassign pilot_name pilot_id drone_id)).
    unfold _handle_unassign. cbn zeta.
    repeat first [ apply unassign_pilot_keeps_roster
                 | apply unassign_drone_keeps_roster | keeps_roster_step ].
  - revert s. change (keeps_roster (_handle_cancel_mission mission_id)).
    unfold _handle_cancel_mission. repeat keeps_roster_step.
Qed.

(* ------------------------------------------------------------------ *)
(** ** The conflict scan and the scores *)

Lemma group_missions_none {E} (assigned : Mission.t → string)
    (entity_map : gmap string E) (ms : list Mission.t) :
  Forall (λ m, assigned m = "") ms → group_missions assigned entity_map ms = [].
Proof.
  induction ms as [|m ms IH] using rev_ind; [done|].
  intros [Hms Hm]%Forall_app. rewrite Forall_singleton in Hm.
  rewrite group_missions_snoc, IH by done.
  rewrite decide_False; [done|]. intros [Hne _]. by apply Hne.
Qed.

Lemma flat_map_nil {A B} (f : A → list B) (l : list A) :
  Forall (λ x, f x = []) l → flat_map f l = [].
Proof. induction 1 as [|x l Hx _ IH]; [done|]. cbn. by rewrite Hx, IH. Qed.

(** X15: When no mission has a pilot or a drone assigned,
    detect_all_conflicts reports nothing, whatever the pilots and drones
    are. *)
Theorem no_assignment_no_conflict (pilots : list Pilot.t)
    (drones : list Drone.t) (missions : list Mission.t) :
  Forall unassigned missions →
  detect_all_conflicts pilots drones missions = [].
Proof.
  intros Hall. unfold detect_all_conflicts. cbn [foldl].
  assert (Hp : Forall (λ m, Mission.assigned_pilot m = "") missions)
    by (eapply Forall_impl; [exact Hall|]; by intros m [? _]).
  assert (Hd : Forall (λ m, Mission.assigned_drone m = "") missions)
    by (eapply Forall_impl; [exact Hall|]; by intros m [_ ?]).
  unfold detect_double_bookings, detect_drone_double_bookings,
    scan_double_bookings.
  rewrite !group_missions_none by done. cbn [flat_map app].
  unfold detect_skill_mismatches, detect_maintenance_conflicts,
    detect_location_mismatches.
  rewrite !flat_map_nil; [done| | |].
  - eapply Forall_impl; [exact Hall|]. intros m [-> ->]. cbn.
    by destruct (negb (truthy (Mission.location m))).
  - eapply Forall_impl; [exact Hd|]. by intros m ->.
  - eapply Forall_impl; [exact Hp|]. by intros m ->.
Qed.

Lemma no_assignment_no_conflict_witness :
  Forall unassigned [prj002]
  ∧ detect_all_conflicts sample_pilots sample_drones [prj002] = [].
Proof.
  assert (H : Forall unassigned [prj002]) by (repeat constructor).
  split; [exact H|].
  exact (no_assignment_no_conflict sample_pilots sample_drones [prj002] H).
Defined.

Lemma filter_nil_iff {A} (P : A → Prop) `{!∀ x, Decision (P x)} (l : list A) :
  filter P l = [] ↔ Forall (λ x, ¬ P x) l.
Proof.
  split; [|apply filter_none].
  intros Hnil. apply Forall_forall. intros x Hx HP.
  assert (Hin : x ∈ filter P l) by (by apply list_elem_of_filter).
  rewrite Hnil in Hin. by apply elem_of_nil in Hin.
Qed.

Lemma no_missing_iff (required available : list string) :
  filter (λ s, norm_tag s ∉ norm_tags available) required = []
  ↔ (set_overlap_ratio (list_to_set required) (list_to_set available) == 1)%Q.
Proof.
  rewrite set_overlap_ratio_one_iff, !norm_set_list, filter_nil_iff,
    Forall_forall.
  unfold norm_tags at 2. split.
  - intros H t (s & -> & Hs)%elem_of_list_to_set%list_elem_of_fmap.
    specialize (H s Hs). by apply dec_stable in H.
  - intros Hsub s Hs Hn. apply Hn, Hsub.
    apply elem_of_list_to_set, list_elem_of_fmap. eauto.
Qed.

Lemma app_nil_iff {A} (l1 l2 : list A) : (l1 ++ l2)%list = [] ↔ l1 = [] ∧ l2 = [].
Proof. split; [apply app_eq_nil|by intros [-> ->]]. Qed.

(** X16: For a mission whose assigned pilot is in the pilot list,
    detect_skill_mismatches reports nothing exactly when set_overlap_ratio
    is 1 both for the required skills against the pilot's skills and for the
    required certifications against the pilot's certifications: the conflict
    scan and the scoring agree on who is qualified. *)
Theorem skill_conflict_iff_partial_score (pilots : list Pilot.t)
    (p : Pilot.t) (m : Mission.t) :
  Mission.assigned_pilot m ≠ "" →
  pilot_map_of pilots !! Mission.assigned_pilot m = Some p →
  detect_skill_mismatches pilots [m] = []
  ↔ (set_overlap_ratio (list_to_set (Mission.required_skills m))
                       (list_to_set (Pilot.skills p)) == 1)%Q
    ∧ (set_overlap_ratio (list_to_set (Mission.required_certs m))
                         (list_to_set (Pilot.certifications p)) == 1)%Q.
Proof.
  intros Hne Hp. apply truthy_iff in Hne.
  unfold detect_skill_mismatches. cbn [flat_map]. rewrite Hne, Hp. cbn [negb].
  rewrite app_nil_r, app_nil_iff, <- !no_missing_iff.
  split.
  - intros [H1 H2]. split.
    + by destruct (filter _ (Mission.required_skills m)).
    + by destruct (filter _ (Mission.required_certs m)).
  - intros [-> ->]. done.
Qed.

Lemma skill_conflict_iff_partial_score_witness :
  Mission.assigned_pilot prj001 ≠ ""
  ∧ pilot_map_of sample_pilots !! Mission.assigned_pilot prj001 = Some arjun
  ∧ (detect_skill_mismatches sample_pilots [prj001] = []
     ↔ (set_overlap_ratio (list_to_set (Mission.required_skills prj001))
                          (list_to_set (Pilot.skills arjun)) == 1)%Q
       ∧ (set_overlap_ratio (list_to_set (Mission.required_certs prj001))
                            (list_to_set (Pilot.certifications arjun)) == 1)%Q).
Proof.
  assert (H1 : Mission.assigned_pilot prj001 ≠ "") by discriminate.
  assert (H2 : pilot_map_of sample_pilots !! Mission.assigned_pilot prj001
               = Some arjun) by (vm_compute; reflexivity).
  split; [exact H1|]. split; [exact H2|].
  exact (skill_conflict_iff_partial_score sample_pilots arjun prj001 H1 H2).
Defined.

(** X17: For a mission whose assigned drone is in the drone list and not in
    status Maintenance, detect_maintenance_conflicts reports nothing exactly
    when the maintenance_safe entry of the drone's score for the mission is
    not 0, and what it reports has severity Warning. *)
Theorem maintenance_conflict_iff_unsafe_score (drones : list Drone.t)
    (d : Drone.t) (m : Mission.t) :
  Mission.assigned_drone m ≠ "" →
  drone_map_of drones !! Mission.assigned_drone m = Some d →
  Drone.status d ≠ "Maintenance" →
  ∃ safe, breakdown_get "maintenance_safe" (score_drone_for_mission d m).2
          = Some safe
    ∧ (detect_maintenance_conflicts drones [m] = [] ↔ ¬ (safe == 0)%Q)
    ∧ Forall (λ c, severity c = "Warning")
             (detect_maintenance_conflicts drones [m]).
Proof.
  intros Hne Hd Hst. apply truthy_iff in Hne. apply String.eqb_neq in Hst.
  unfold detect_maintenance_conflicts. cbn [flat_map]. rewrite Hne, Hd, Hst.
  cbn [negb]. rewrite app_nil_r.
  unfold score_drone_for_mission, breakdown_get, date_ltb. cbn.
  destruct (Drone.maintenance_due d) as [due|], (Mission.end_date m) as [e|];
    try destruct (date_leb due e); cbn [negb];
    eexists; (split; [reflexivity|]); (split; [|repeat constructor]);
    split; first [discriminate | done | intros H; by destruct H].
Qed.

Lemma maintenance_conflict_iff_unsafe_score_witness :
  Mission.assigned_drone prj001 ≠ ""
  ∧ drone_map_of sample_drones !! Mission.assigned_drone prj001 = Some mavic
  ∧ Drone.status mavic ≠ "Maintenance"
  ∧ ∃ safe, breakdown_get "maintenance_safe" (score_drone_for_mission mavic prj001).2
            = Some safe
      ∧ (detect_maintenance_conflicts sample_drones [prj001] = []
         ↔ ¬ (safe == 0)%Q)
      ∧ Forall (λ c, severity c = "Warning")
               (detect_maintenance_conflicts sample_drones [prj001]).
Proof.
  assert (H1 : Mission.assigned_drone prj001 ≠ "") by discriminate.
  assert (H2 : drone_map_of sample_drones !! Mission.assigned_drone prj001
               = Some mavic) by (vm_compute; reflexivity).
  assert (H3 : Drone.status mavic ≠ "Maintenance") by discriminate.
  split; [exact H1|]. split; [exact H2|]. split; [exact H3|].
  exact (maintenance_conflict_iff_unsafe_score sample_drones mavic prj001
           H1 H2 H3).
Defined.

(** X18: For a mission with a location whose assigned pilot and drone are in
    their lists, detect_location_mismatches reports nothing exactly when
    each of the two has no location or has location_match_score 1 against
    the mission's location. *)
Theorem location_conflict_iff_no_location_score (pilots : list Pilot.t)
    (drones : list Drone.t) (p : Pilot.t) (d : Drone.t) (m : Mission.t) :
  Mission.location m ≠ "" →
  Mission.assigned_pilot m ≠ "" →
  pilot_map_of pilots !! Mission.assigned_pilot m = Some p →
  Mission.assigned_drone m ≠ "" →
  drone_map_of drones !! Mission.assigned_drone m = Some d →
  detect_location_mismatches pilots drones [m] = []
  ↔ (Pilot.location p = ""
     ∨ location_match_score (Pilot.location p) (Mission.location m) = 1%Q)
    ∧ (Drone.location d = ""
       ∨ location_match_score (Drone.location d) (Mission.location m) = 1%Q).
Proof.
  intros Hloc Hpa Hp Hda Hd.
  apply truthy_iff in Hloc, Hpa, Hda.
  unfold detect_location_mismatches. cbn [flat_map].
  rewrite Hloc, Hpa, Hda, Hp, Hd. cbn [negb]. rewrite app_nil_r, app_nil_iff.
  unfold location_match_score. rewrite !norm_tag_lower_strip.
  fold (norm_tag (Pilot.location p)) (norm_tag (Drone.location d))
    (norm_tag (Mission.location m)).
  rewrite Hloc. cbn [negb]. rewrite !orb_false_r.
  assert (Hside : ∀ (loc : string) (c : Conflict),
    (if truthy loc && negb (String.eqb (norm_tag loc)
                                       (norm_tag (Mission.location m)))
     then [c] else []) = []
    ↔ loc = ""
      ∨ (if negb (truthy loc) then 0%Q
         else if String.eqb (norm_tag loc) (norm_tag (Mission.location m))
              then 1%Q else 0%Q) = 1%Q).
  { intros loc c. destruct (truthy loc) eqn:Hl; cbn [andb negb].
    - apply truthy_iff in Hl.
      destruct (String.eqb (norm_tag loc) (norm_tag (Mission.location m)));
        cbn [negb]; split; auto; [discriminate|]. by intros [?|?].
    - apply not_true_iff_false in Hl. rewrite truthy_iff in Hl.
      apply dec_stable in Hl. split; auto. }
  by rewrite !Hside.
Qed.

Lemma location_conflict_iff_no_location_score_witness :
  Mission.location prj001 ≠ ""
  ∧ Mission.assigned_pilot prj001 ≠ ""
  ∧ pilot_map_of sample_pilots !! Mission.assigned_pilot prj001 = Some arjun
  ∧ Mission.assigned_drone prj001 ≠ ""
  ∧ drone_map_of sample_drones !! Mission.assigned_drone prj001 = Some mavic
  ∧ (detect_location_mismatches sample_pilots sample_drones [prj001] = []
     ↔ (Pilot.location arjun = ""
        ∨ location_match_score (Pilot.location arjun)
            (Mission.location prj001) = 1%Q)
       ∧ (Drone.location mavic = ""
          ∨ location_match_score (Drone.location mavic)
              (Mission.location prj001) = 1%Q)).
Proof.
  assert (H0 : Mission.location prj001 ≠ "") by discriminate.
  assert (H1 : Mission.assigned_pilot prj001 ≠ "") by discriminate.
  assert (H2 : pilot_map_of sample_pilots !! Mission.assigned_pilot prj001
               = Some arjun) by (vm_compute; reflexivity).
  assert (H3 : Mission.assigned_drone prj001 ≠ "") by discriminate.
  assert (H4 : drone_map_of sample_drones !! Mission.assigned_drone prj001
               = Some mavic) by (vm_compute; reflexivity).
  split; [exact H0|]. split; [exact H1|]. split; [exact H2|].
  split; [exact H3|]. split; [exact H4|].
  exact (location_conflict_iff_no_location_score sample_pilots sample_drones
           arjun mavic prj001 H0 H1 H2 H3 H4).
Defined.

Lemma drone_map_of_lookup drones did d :
  drone_map_of drones !! did = Some d → d ∈ drones ∧ Drone.drone_id d = did.
Proof.
  induction drones as [|q drones IH] using rev_ind; [done|].
  rewrite drone_map_of_snoc, elem_of_app, list_elem_of_singleton.
  destruct (decide (Drone.drone_id q = did)) as [Heq|Hne].
  - rewrite <- Heq, lookup_insert_eq. intros [= ->]. auto.
  - rewrite lookup_insert_ne by done. intros [? ?]%IH. auto.
Qed.

Lemma scan_double_bookings_known {E} (assigned : Mission.t → string)
    (entity_map : gmap string E) conflict_of missions :
  (∀ eid e mi mj, entity_id (conflict_of eid e mi mj) = eid) →
  Forall (λ c, is_Some (entity_map !! entity_id c))
    (scan_double_bookings assigned entity_map conflict_of missions).
Proof.
  intros Hid. unfold scan_double_bookings.
  apply Forall_flat_map, Forall_forall. intros [eid m_list] _.
  induction m_list as [|mi rest IH]; [constructor|].
  cbn [pair_loop]. apply Forall_app. split; [|done].
  apply Forall_forall. intros c (mj & _ & Hc)%list_elem_of_omap.
  unfold booking_body in Hc.
  destruct (Mission.overlaps_with mi mj); [|done].
  destruct (entity_map !! eid) eqn:He; [|done]. injection Hc as <-.
  rewrite Hid, He. eauto.
Qed.

Ltac known :=
  first [apply Forall_nil_2 | apply Forall_singleton; cbn; eauto].

(** X19: Every conflict detect_all_conflicts reports has as entity_id the id
    of a pilot of the pilot list or of a drone of the drone list. *)
Theorem conflicts_name_known_entities (pilots : list Pilot.t)
    (drones : list Drone.t) (missions : list Mission.t) :
  Forall (λ c, entity_id c ∈ Pilot.pilot_id <$> pilots
               ∨ entity_id c ∈ Drone.drone_id <$> drones)
    (detect_all_conflicts pilots drones missions).
Proof.
  assert (Hpk : ∀ pid p, pilot_map_of pilots !! pid = Some p →
            Pilot.pilot_id p ∈ Pilot.pilot_id <$> pilots).
  { intros pid p [Hin _]%pilot_map_of_lookup. by apply list_elem_of_fmap_2. }
  assert (Hdk : ∀ did d, drone_map_of drones !! did = Some d →
            Drone.drone_id d ∈ Drone.drone_id <$> drones).
  { intros did d [Hin _]%drone_map_of_lookup. by apply list_elem_of_fmap_2. }
  unfold detect_all_conflicts. cbn [foldl]. rewrite app_nil_l.
  repeat apply Forall_app_2.
  - eapply Forall_impl;
      [apply (scan_double_bookings_known Mission.assigned_pilot
                (pilot_map_of pilots) pilot_booking_conflict); done|].
    intros c [p Hp]. left. pose proof (Hpk _ _ Hp) as Hin.
    by apply pilot_map_of_lookup in Hp as [_ <-].
  - eapply Forall_impl;
      [apply (scan_double_bookings_known Mission.assigned_drone
                (drone_map_of drones) drone_booking_conflict); done|].
    intros c [d Hd]. right. pose proof (Hdk _ _ Hd) as Hin.
    by apply drone_map_of_lookup in Hd as [_ <-].
  - unfold detect_skill_mismatches.
    apply Forall_flat_map, Forall_forall. intros m _.
    destruct (negb _); [constructor|].
    destruct (pilot_map_of pilots !! _) as [p|] eqn:Hp; [|constructor].
    apply Forall_app. split.
    + destruct (filter _ (Mission.required_skills m)); known.
    + destruct (filter _ (Mission.required_certs m)); known.
  - unfold detect_maintenance_conflicts.
    apply Forall_flat_map, Forall_forall. intros m _.
    destruct (negb _); [constructor|].
    destruct (drone_map_of drones !! _) as [d|] eqn:Hd; [|constructor].
    destruct (String.eqb _ _); [known|].
    destruct (Drone.maintenance_due d); [|constructor].
    destruct (Mission.end_date m); [|constructor].
    destruct (date_leb _ _); known.
  - unfold detect_location_mismatches.
    apply Forall_flat_map, Forall_forall. intros m _.
    destruct (negb _); [constructor|].
    apply Forall_app. split.
    + destruct (truthy (Mission.assigned_pilot m)); [|constructor].
      destruct (pilot_map_of pilots !! _) as [p|] eqn:Hp; [|constructor].
      destruct (_ && _); known.
    + destruct (truthy (Mission.assigned_drone m)); [|constructor].
      destruct (drone_map_of drones !! _) as [d|] eqn:Hd; [|constructor].
      destruct (_ && _); known.
Qed.

(* ------------------------------------------------------------------ *)
(** ** Overlapping missions *)

Lemma date_leb_spec (a b : date) :
  date_leb a b = true
  ↔ (year a < year b
     ∨ (year a = year b
        ∧ (month a < month b ∨ (month a = month b ∧ day a <= day b))))%N.
Proof.
  unfold date_leb.
  rewrite !orb_true_iff, !andb_true_iff, !orb_true_iff, !andb_true_iff,
    !N.ltb_lt, !N.eqb_eq, N.leb_le. tauto.
Qed.

Lemma date_le_refl a : date_le a a.
Proof. apply date_leb_spec. lia. Qed.

Lemma date_le_trans a b c : date_le a b → date_le b c → date_le a c.
Proof. unfold date_le. rewrite !date_leb_spec. lia. Qed.

Lemma date_le_total a b : date_le a b ∨ date_le b a.
Proof. unfold date_le. rewrite !date_leb_spec. lia. Qed.

(** X20: Mission.overlaps_with is symmetric; two missions that have a day in
    common within their date ranges overlap; and two missions that overlap,
    each with at least one day in its range, have a day in common. *)
Theorem overlaps_with_common_day (a b : Mission.t) :
  Mission.overlaps_with a b = Mission.overlaps_with b a
  ∧ ((∃ d, on_day a d ∧ on_day b d) → Mission.overlaps_with a b = true)
  ∧ (Mission.overlaps_with a b = true →
     (∃ d, on_day a d) → (∃ d, on_day b d) → ∃ d, on_day a d ∧ on_day b d).
Proof.
  unfold Mission.overlaps_with, on_day.
  split; [|split].
  - destruct (Mission.start_date a), (Mission.end_date a),
      (Mission.start_date b), (Mission.end_date b); try done.
    apply andb_comm.
  - intros (d & (s1 & e1 & -> & -> & H1 & H2) & (s2 & e2 & -> & -> & H3 & H4)).
    apply andb_true_iff. split.
    + exact (date_le_trans _ _ _ H1 H4).
    + exact (date_le_trans _ _ _ H3 H2).
  - intros Hov (d1 & s1 & e1 & Hs1 & He1 & H1 & H2)
      (d2 & s2 & e2 & Hs2 & He2 & H3 & H4).
    rewrite Hs1, He1, Hs2, He2 in Hov. apply andb_true_iff in Hov as [Ha Hb].
    pose proof (date_le_trans _ _ _ H1 H2) as Hse1.
    pose proof (date_le_trans _ _ _ H3 H4) as Hse2.
    destruct (date_le_total s1 s2) as [Hle|Hle].
    + exists s2. split.
      * exists s1, e1. repeat split; try done.
      * exists s2, e2. repeat split; try done. apply date_le_refl.
    + exists s1. split.
      * exists s1, e1. repeat split; try done. apply date_le_refl.
      * exists s2, e2. repeat split; try done.
Qed.

(* ------------------------------------------------------------------ *)
(** ** Lookups *)

Lemma prefix_refl (s : string) : String.prefix s s = true.
Proof.
  induction s as [|c s IH]; [done|]. cbn. by destruct (Ascii.ascii_dec c c).
Qed.

Lemma contains_refl (s : string) : contains s s = true.
Proof. destruct s; cbn [contains]; by rewrite prefix_refl. Qed.

Lemma lookup_key_idemp ident : lookup_key (lookup_key ident) = lookup_key ident.
Proof.
  unfold lookup_key. by rewrite <- lower_strip, lower_idemp, strip_idemp.
Qed.

Lemma find_pilot_None ident ps :
  find_pilot ident ps = None
  ↔ Forall (λ p, ¬ pilot_matches (lookup_key ident) p) ps.
Proof.
  unfold find_pilot. fold (lookup_key ident).
  destruct (list_find _ ps) as [[i x]|] eqn:He.
  - split; [done|]. intros Hall.
    apply list_find_Some in He as (Hi & Hx & _).
    rewrite Forall_forall in Hall. exfalso.
    apply (Hall x); [by eapply list_elem_of_lookup_2|].
    destruct Hx as [Hx|Hx]; [by left|right].
    rewrite Hx. apply contains_refl.
  - rewrite list_find_None. apply list_find_None in He.
    rewrite !Forall_forall in *. split.
    + intros Hp x Hx [Hm|Hm]; [|by apply (Hp x)].
      apply (He x Hx). by left.
    + intros Hm x Hx Hc. apply (Hm x Hx). by right.
Qed.

Lemma find_pilot_Some ident ps i p :
  find_pilot ident ps = Some (i, p) →
  ps !! i = Some p ∧ pilot_matches (lookup_key ident) p.
Proof.
  unfold find_pilot. fold (lookup_key ident).
  destruct (list_find _ ps) as [r|] eqn:He.
  - intros [= ->]. apply list_find_Some in He as (Hi & Hx & _).
    split; [done|]. destruct Hx as [Hx|Hx]; [by left|right].
    rewrite Hx. apply contains_refl.
  - intros (Hi & Hx & _)%list_find_Some. split; [done|]. by right.
Qed.

Lemma find_drone_None ident ds :
  find_drone ident ds = None
  ↔ Forall (λ d, ¬ drone_matches (lookup_key ident) d) ds.
Proof.
  unfold find_drone. fold (lookup_key ident).
  destruct (list_find _ ds) as [[i x]|] eqn:He.
  - split; [done|]. intros Hall.
    apply list_find_Some in He as (Hi & Hx & _).
    rewrite Forall_forall in Hall. exfalso.
    apply (Hall x); [by eapply list_elem_of_lookup_2|].
    destruct Hx as [Hx|Hx]; [by left|right].
    rewrite Hx. apply contains_refl.
  - rewrite list_find_None. apply list_find_None in He.
    rewrite !Forall_forall in *. split.
    + intros Hp x Hx [Hm|Hm]; [|by apply (Hp x)].
      apply (He x Hx). by left.
    + intros Hm x Hx Hc. apply (Hm x Hx). by right.
Qed.

Lemma find_drone_Some ident ds i d :
  find_drone ident ds = Some (i, d) →
  ds !! i = Some d ∧ drone_matches (lookup_key ident) d.
Proof.
  unfold find_drone. fold (lookup_key ident).
  destruct (list_find _ ds) as [r|] eqn:He.
  - intros [= ->]. apply list_find_Some in He as (Hi & Hx & _).
    split; [done|]. destruct Hx as [Hx|Hx]; [by left|right].
    rewrite Hx. apply contains_refl.
  - intros (Hi & Hx & _)%list_find_Some. split; [done|]. by right.
Qed.

Lemma find_mission_None ident ms :
  find_mission ident ms = None
  ↔ Forall (λ m, ¬ mission_matches (lookup_key ident) m) ms.
Proof.
  unfold find_mission. fold (lookup_key ident).
  destruct (list_find _ ms) as [[i x]|] eqn:He.
  - split; [done|]. intros Hall.
    apply list_find_Some in He as (Hi & Hx & _).
    rewrite Forall_forall in Hall. exfalso.
    apply (Hall x); [by eapply list_elem_of_lookup_2|].
    left. rewrite Hx. apply contains_refl.
  - by rewrite list_find_None.
Qed.

Lemma find_mission_Some ident ms i m :
  find_mission ident ms = Some (i, m) →
  ms !! i = Some m ∧ mission_matches (lookup_key ident) m.
Proof.
  unfold find_mission. fold (lookup_key ident).
  destruct (list_find _ ms) as [r|] eqn:He.
  - intros [= ->]. apply list_find_Some in He as (Hi & Hx & _).
    split; [done|]. left. rewrite Hx. apply contains_refl.
  - intros (Hi & Hx & _)%list_find_Some. auto.
Qed.

(** X21: find_pilot, find_drone and find_mission return None exactly when no
    entity of the list matches the lower-cased, stripped identifier (id
    equal to it or name or model containing it; for a mission, project id or
    client containing it); an entity they return is in the list and matches;
    and the result is the same for an identifier and for its lower-cased,
    stripped form. *)
Theorem lookups_sound_and_complete (identifier : string)
    (pilots : list Pilot.t) (drones : list Drone.t)
    (missions : list Mission.t) :
  let key := lookup_key identifier in
  (find_pilot identifier pilots = None
   ↔ Forall (λ p, ¬ pilot_matches key p) pilots)
  ∧ (∀ i p, find_pilot identifier pilots = Some (i, p) →
       pilots !! i = Some p ∧ pilot_matches key p)
  ∧ (find_drone identifier drones = None
     ↔ Forall (λ d, ¬ drone_matches key d) drones)
  ∧ (∀ i d, find_drone identifier drones = Some (i, d) →
       drones !! i = Some d ∧ drone_matches key d)
  ∧ (find_mission identifier missions = None
     ↔ Forall (λ m, ¬ mission_matches key m) missions)
  ∧ (∀ i m, find_mission identifier missions = Some (i, m) →
       missions !! i = Some m ∧ mission_matches key m)
  ∧ find_pilot key pilots = find_pilot identifier pilots
  ∧ find_drone key drones = find_drone identifier drones
  ∧ find_mission key missions = find_mission identifier missions.
Proof.
  cbn zeta.
  split; [apply find_pilot_None|]. split; [apply find_pilot_Some|].
  split; [apply find_drone_None|]. split; [apply find_drone_Some|].
  split; [apply find_mission_None|]. split; [apply find_mission_Some|].
  unfold find_pilot, find_drone, find_mission.
  fold (lookup_key (lookup_key identifier)) (lookup_key identifier).
  by rewrite lookup_key_idemp.
Qed.

(* ------------------------------------------------------------------ *)
(** ** Unknown targets *)

Ltac run_handler :=
  unfold mbind, Store_bind, gets, mret, Store_ret,
    write_mission, write_pilot, write_drone, raise;
  cbn [DataStore.pilots DataStore.drones DataStore.missions].

Lemma given_Some (param : option string) (n : string) :
  given param = Some n → param = Some n.
Proof.
  destruct param as [x|]; [|done]. cbn. destruct (truthy x); [|done].
  by intros [= ->].
Qed.

(** X22: A request whose target is not found changes nothing: the handlers
    of status update, unassign and cancel mission leave the snapshot as it
    is when no lookup of the given names and ids finds an entity, and
    execute_reassignment returns its not-found message and leaves the
    snapshot as it is when no mission has the plan's urgent mission id. *)
Theorem unknown_target_no_change (pilot_name new_status pilot_id drone_id
    mission_id : option string) (plan : SwapPlan) (s : DataStore.t) :
  ((∀ n, pilot_name = Some n →
      find_pilot n (DataStore.pilots s) = None
      ∧ find_drone n (DataStore.drones s) = None) →
   (_handle_update_status pilot_name new_status s).1 = s)
  ∧ ((∀ n, pilot_name = Some n ∨ pilot_id = Some n ∨ drone_id = Some n →
        find_pilot n (DataStore.pilots s) = None
        ∧ find_drone n (DataStore.drones s) = None) →
     (_handle_unassign pilot_name pilot_id drone_id s).1 = s)
  ∧ ((∀ n, mission_id = Some n →
        find_mission n (DataStore.missions s) = None) →
     (_handle_cancel_mission mission_id s).1 = s)
  ∧ (Forall (λ m, Mission.project_id m ≠ urgent_mission_id plan)
       (DataStore.missions s) →
     execute_reassignment plan s
     = (s, Returned ("❌ Mission " ++ urgent_mission_id plan
                     ++ " not found."))).
Proof.
  split; [|split; [|split]]; [| | |apply execute_reassignment_unknown_mission].
  - intros Hnone. unfold _handle_update_status.
    destruct pilot_name as [n|]; [|done].
    destruct (Hnone n eq_refl) as [Hp Hd].
    destruct n; [done|]. destruct new_status as [[|c st]|]; try done.
    run_handler. by rewrite Hp, Hd.
  - intros Hnone. unfold _handle_unassign. run_handler.
    assert (Hp : ∀ n, given pilot_name = Some n ∨ given pilot_id = Some n
                      ∨ given drone_id = Some n →
                 find_pilot n (DataStore.pilots s) = None
                 ∧ find_drone n (DataStore.drones s) = None).
    { intros n Hn. apply Hnone.
      destruct Hn as [Hn|[Hn|Hn]]; apply given_Some in Hn; auto. }
    clear Hnone.
    destruct (given pilot_id) as [pid|] eqn:Epid,
      (given pilot_name) as [name|] eqn:Ename,
      (given drone_id) as [did|] eqn:Edid;
      repeat match goal with
      | |- context [find_pilot ?n _] =>
          rewrite (proj1 (Hp n ltac:(auto)))
      | |- context [find_drone ?n _] =>
          rewrite (proj2 (Hp n ltac:(auto)))
      end; cbn; try done.
  - intros Hnone. unfold _handle_cancel_mission.
    destruct mission_id as [mid|]; [|done]. cbn [given].
    destruct (truthy mid); [|done]. run_handler.
    by rewrite (Hnone mid eq_refl).
Qed.

(* ------------------------------------------------------------------ *)
(** ** The handlers and the invariant *)

Lemma clear_drone_keeps_links ps ds ms oi :
  links_ok ps ds ms →
  links_ok ps ds (alter (Mission.set_assigned_drone "") oi ms).
Proof.
  unfold links_ok, bidirectional_invariant. cbn. intros H.
  apply Forall_alter; [done|].
  intros m _ [Hp _]. split; [done|]. intros Hne. done.
Qed.

Lemma change_unheld_pilot ps ds ms pi f :
  links_ok ps ds ms →
  (∀ p0 j m, ps !! pi = Some p0 → ms !! j = Some m →
     Mission.assigned_pilot m ≠ "" →
     Mission.assigned_pilot m ≠ Pilot.pilot_id p0) →
  links_ok (alter f pi ps) ds ms.
Proof.
  rewrite !links_ok_lookup. intros Hinv Hfree j m Hm.
  destruct (Hinv j m Hm) as [Hp Hd]. split; [|done].
  unfold pilot_link_ok in *. cbn [DataStore.pilots] in *.
  intros Hne. specialize (Hp Hne).
  apply Exists_exists in Hp as (q & Hin & Hid & Hcur & Hst).
  apply list_elem_of_lookup in Hin as [k Hk].
  apply Exists_exists. exists q. split; [|done].
  apply list_elem_of_lookup. exists k.
  destruct (decide (pi = k)) as [<-|Hk']; [|by rewrite list_lookup_alter_ne].
  exfalso. by apply (Hfree q j m Hk Hm Hne).
Qed.

Lemma change_unheld_drone ps ds ms di f :
  links_ok ps ds ms →
  (∀ d0 j m, ds !! di = Some d0 → ms !! j = Some m →
     Mission.assigned_drone m ≠ "" →
     Mission.assigned_drone m ≠ Drone.drone_id d0) →
  links_ok ps (alter f di ds) ms.
Proof.
  rewrite !links_ok_lookup. intros Hinv Hfree j m Hm.
  destruct (Hinv j m Hm) as [Hp Hd]. split; [done|].
  unfold drone_link_ok in *. cbn [DataStore.drones] in *.
  intros Hne. specialize (Hd Hne).
  apply Exists_exists in Hd as (q & Hin & Hid & Hcur & Hst).
  apply list_elem_of_lookup in Hin as [k Hk].
  apply Exists_exists. exists q. split; [|done].
  apply list_elem_of_lookup. exists k.
  destruct (decide (di = k)) as [<-|Hk']; [|by rewrite list_lookup_alter_ne].
  exfalso. by apply (Hfree q j m Hk Hm Hne).
Qed.

(** In a consistent snapshot a pilot is held by the mission his
    [current_assignment] names, and by no other. *)
Lemma holder_of_pilot ps ds ms j m k p :
  links_ok ps ds ms → NoDup (Pilot.pilot_id <$> ps) →
  ms !! j = Some m → ps !! k = Some p →
  Mission.assigned_pilot m ≠ "" →
  Mission.assigned_pilot m = Pilot.pilot_id p →
  Pilot.current_assignment p = Mission.project_id m
  ∧ Pilot.status p = "Assigned".
Proof.
  intros Hinv Hnd Hm Hp Hne Heq.
  rewrite links_ok_lookup in Hinv. destruct (Hinv j m Hm) as [Hl _].
  specialize (Hl Hne). cbn in Hl.
  apply Exists_exists in Hl as (q & Hq & Hid & Hcur & Hst).
  assert (q = p) as ->; [|done].
  eapply NoDup_ident_inj; [exact Hnd|done|by eapply list_elem_of_lookup_2|].
  congruence.
Qed.

Lemma holder_of_drone ps ds ms j m k d :
  links_ok ps ds ms → NoDup (Drone.drone_id <$> ds) →
  ms !! j = Some m → ds !! k = Some d →
  Mission.assigned_drone m ≠ "" →
  Mission.assigned_drone m = Drone.drone_id d →
  Drone.current_assignment d = Mission.project_id m
  ∧ Drone.status d = "Assigned".
Proof.
  intros Hinv Hnd Hm Hp Hne Heq.
  rewrite links_ok_lookup in Hinv. destruct (Hinv j m Hm) as [_ Hl].
  specialize (Hl Hne). cbn in Hl.
  apply Exists_exists in Hl as (q & Hq & Hid & Hcur & Hst).
  assert (q = d) as ->; [|done].
  eapply NoDup_ident_inj; [exact Hnd|done|by eapply list_elem_of_lookup_2|].
  congruence.
Qed.

Lemma NoDup_project_id_index ms j k m m' :
  NoDup (Mission.project_id <$> ms) →
  ms !! j = Some m → ms !! k = Some m' →
  Mission.project_id m = Mission.project_id m' → j = k.
Proof.
  intros Hnd Hj Hk Heq. eapply NoDup_lookup; [exact Hnd| |].
  - by rewrite list_lookup_fmap, Hj.
  - by rewrite list_lookup_fmap, Hk, Heq.
Qed.

(** Releasing the pilot of mission [mi] on both sides. *)
Lemma release_pilot_keeps_links ps ds ms mi m pi p f :
  links_ok ps ds ms → NoDup (Pilot.pilot_id <$> ps) →
  NoDup (Mission.project_id <$> ms) →
  ms !! mi = Some m → ps !! pi = Some p →
  Mission.assigned_pilot m = Pilot.pilot_id p →
  links_ok (alter f pi ps) ds (alter (Mission.set_assigned_pilot "") mi ms).
Proof.
  intros Hinv Hndp Hndm Hm Hp Heq.
  apply change_unheld_pilot; [by apply clear_pilot_keeps_links|].
  intros p0 j m' Hp0 Hm' Hne Href. simplify_eq.
  rewrite list_lookup_alter in Hm'.
  destruct (decide (mi = j)) as [<-|Hj].
  - rewrite Hm in Hm'. by simplify_eq/=.
  - assert (Hne0 : Mission.assigned_pilot m ≠ "") by congruence.
    destruct (holder_of_pilot ps ds ms mi m pi p) as [Hc1 _]; try done.
    destruct (holder_of_pilot ps ds ms j m' pi p) as [Hc2 _]; try done.
    apply Hj. eapply NoDup_project_id_index; [exact Hndm|done|done|congruence].
Qed.

Lemma release_drone_keeps_links ps ds ms mi m di d f :
  links_ok ps ds ms → NoDup (Drone.drone_id <$> ds) →
  NoDup (Mission.project_id <$> ms) →
  ms !! mi = Some m → ds !! di = Some d →
  Mission.assigned_drone m = Drone.drone_id d →
  links_ok ps (alter f di ds) (alter (Mission.set_assigned_drone "") mi ms).
Proof.
  intros Hinv Hndp Hndm Hm Hp Heq.
  apply change_unheld_drone; [by apply clear_drone_keeps_links|].
  intros p0 j m' Hp0 Hm' Hne Href. simplify_eq.
  rewrite list_lookup_alter in Hm'.
  destruct (decide (mi = j)) as [<-|Hj].
  - rewrite Hm in Hm'. by simplify_eq/=.
  - assert (Hne0 : Mission.assigned_drone m ≠ "") by congruence.
    destruct (holder_of_drone ps ds ms mi m di d) as [Hc1 _]; try done.
    destruct (holder_of_drone ps ds ms j m' di d) as [Hc2 _]; try done.
    apply Hj. eapply NoDup_project_id_index; [exact Hndm|done|done|congruence].
Qed.

(** The pilot (drone) a mission names is the one the lookup finds. *)
Lemma find_assigned_pilot ps ds ms j m :
  links_ok ps ds ms → pilots_resolve ps →
  ms !! j = Some m → Mission.assigned_pilot m ≠ "" →
  ∃ pi p, find_pilot (Mission.assigned_pilot m) ps = Some (pi, p)
          ∧ ps !! pi = Some p ∧ Pilot.pilot_id p = Mission.assigned_pilot m.
Proof.
  intros Hinv Hres Hm Hne.
  rewrite links_ok_lookup in Hinv. destruct (Hinv j m Hm) as [Hl _].
  specialize (Hl Hne). cbn in Hl.
  apply Exists_exists in Hl as (q & Hq & Hid & _).
  unfold pilots_resolve in Hres. rewrite Forall_forall in Hres.
  specialize (Hres q Hq). rewrite Hid in Hres.
  destruct (find_pilot (Mission.assigned_pilot m) ps) as [[pi p]|] eqn:Hf;
    [|done].
  cbn in Hres. simplify_eq. exists pi, q. split; [done|].
  by apply find_pilot_Some in Hf as [? _].
Qed.

Lemma find_assigned_drone ps ds ms j m :
  links_ok ps ds ms → drones_resolve ds →
  ms !! j = Some m → Mission.assigned_drone m ≠ "" →
  ∃ di d, find_drone (Mission.assigned_drone m) ds = Some (di, d)
          ∧ ds !! di = Some d ∧ Drone.drone_id d = Mission.assigned_drone m.
Proof.
  intros Hinv Hres Hm Hne.
  rewrite links_ok_lookup in Hinv. destruct (Hinv j m Hm) as [_ Hl].
  specialize (Hl Hne). cbn in Hl.
  apply Exists_exists in Hl as (q & Hq & Hid & _).
  unfold drones_resolve in Hres. rewrite Forall_forall in Hres.
  specialize (Hres q Hq). rewrite Hid in Hres.
  destruct (find_drone (Mission.assigned_drone m) ds) as [[di d]|] eqn:Hf;
    [|done].
  cbn in Hres. simplify_eq. exists di, q. split; [done|].
  by apply find_drone_Some in Hf as [? _].
Qed.

Lemma alter_alter_same {A} (f g : A → A) (i : nat) (l : list A) :
  alter f i (alter g i l) = alter (f ∘ g) i l.
Proof. apply list_alter_alter_eq. Qed.

Lemma project_ids_alter (f : Mission.t → Mission.t) (i : nat)
    (ms : list Mission.t) :
  (∀ m, Mission.project_id (f m) = Mission.project_id m) →
  Mission.project_id <$> alter f i ms = Mission.project_id <$> ms.
Proof.
  intros Hf.
  apply list_eq. intros j. rewrite !list_lookup_fmap, list_lookup_alter.
  destruct (decide (i = j)) as [->|]; [|done].
  destruct (ms !! j); cbn; by rewrite ?Hf.
Qed.

(** X23: In a snapshot that satisfies the bidirectional invariant, with
    unique ids, no empty mission id and every id resolving to its own
    entity, _handle_cancel_mission returns and the invariant holds
    afterwards, whatever mission id is asked for. *)
Theorem cancel_mission_preserves_invariant (mission_id : option string)
    (s : DataStore.t) :
  bidirectional_invariant s → well_keyed s →
  ∃ s' reply, _handle_cancel_mission mission_id s = (s', Returned reply)
              ∧ bidirectional_invariant s'.
Proof.
  destruct s as [ps ds ms].
  intros Hinv (Hndp & Hndd & Hndm & Hids & Hrp & Hrd & Hrm).
  cbn [DataStore.pilots DataStore.drones DataStore.missions] in *.
  change (links_ok ps ds ms) in Hinv.
  unfold _handle_cancel_mission.
  destruct (given mission_id) as [mid|]; [|by eexists _, _].
  run_handler.
  destruct (find_mission mid ms) as [[mi m]|] eqn:Hfm; [|by eexists _, _].
  apply find_mission_Some in Hfm as [Hm _].
  (* the pilot *)
  destruct (truthy (Mission.assigned_pilot m)) eqn:Htp.
  - apply truthy_iff in Htp.
    cbn [DataStore.pilots DataStore.drones DataStore.missions].
    destruct (find_assigned_pilot ps ds ms mi m Hinv Hrp Hm Htp)
      as (pi & p & -> & Hp & Hpid).
    cbn [DataStore.pilots DataStore.drones DataStore.missions].
    rewrite alter_alter_same.
    set (ps1 := alter _ pi ps).
    set (ms1 := alter (Mission.set_assigned_pilot "") mi ms).
    assert (Hinv1 : links_ok ps1 ds ms1)
      by (eapply release_pilot_keeps_links; done).
    assert (Hm1 : ms1 !! mi = Some (Mission.set_assigned_pilot "" m))
      by (unfold ms1; by rewrite list_lookup_alter_eq, Hm).
    assert (Hndm1 : NoDup (Mission.project_id <$> ms1))
      by (unfold ms1; by rewrite project_ids_alter).
    destruct (truthy (Mission.assigned_drone m)) eqn:Htd.
    + apply truthy_iff in Htd.
      cbn [DataStore.pilots DataStore.drones DataStore.missions].
      destruct (find_assigned_drone ps ds ms mi m Hinv Hrd Hm Htd)
        as (di & d & -> & Hd & Hdid).
      cbn [DataStore.pilots DataStore.drones DataStore.missions].
      rewrite alter_alter_same.
      eexists _, _. split; [reflexivity|].
      change (links_ok ps1 (alter (Drone.set_current_assignment ""
                                   ∘ Drone.set_status "Available") di ds)
                (alter (Mission.set_assigned_drone "") mi ms1)).
      eapply release_drone_keeps_links; done.
    + eexists _, _. split; [reflexivity|]. exact Hinv1.
  - destruct (truthy (Mission.assigned_drone m)) eqn:Htd.
    + apply truthy_iff in Htd.
      cbn [DataStore.pilots DataStore.drones DataStore.missions].
      destruct (find_assigned_drone ps ds ms mi m Hinv Hrd Hm Htd)
        as (di & d & -> & Hd & Hdid).
      cbn [DataStore.pilots DataStore.drones DataStore.missions].
      rewrite alter_alter_same.
      eexists _, _. split; [reflexivity|].
      change (links_ok ps (alter (Drone.set_current_assignment ""
                                  ∘ Drone.set_status "Available") di ds)
                (alter (Mission.set_assigned_drone "") mi ms)).
      eapply release_drone_keeps_links; done.
    + eexists _, _. split; [reflexivity|]. exact Hinv.
Qed.

Lemma cancel_mission_preserves_invariant_witness :
  bidirectional_invariant consistent_store ∧ well_keyed consistent_store
  ∧ ∃ s' reply, _handle_cancel_mission (Some "PRJ001") consistent_store
                = (s', Returned reply)
                ∧ bidirectional_invariant s'.
Proof.
  pose proof consistent_store_invariant as H1.
  pose proof consistent_store_well_keyed as H2.
  split; [exact H1|]. split; [exact H2|].
  exact (cancel_mission_preserves_invariant (Some "PRJ001") consistent_store
           H1 H2).
Defined.

Lemma list_find_alter_Some {A} (P : A → Prop) `{!∀ x, Decision (P x)}
    (f : A → A) (i : nat) (l : list A) (j : nat) (x : A) :
  (∀ y, P (f y) ↔ P y) →
  list_find P l = Some (j, x) →
  list_find P (alter f i l) = Some (j, if decide (i = j) then f x else x).
Proof.
  intros Hf (Hj & Hx & Hlt)%list_find_Some. apply list_find_Some.
  split; [by apply alter_lookup_Some|]. split.
  - destruct (decide (i = j)); [by apply Hf|done].
  - intros k y Hk Hkj. rewrite list_lookup_alter in Hk.
    destruct (decide (i = k)) as [->|].
    + destruct (l !! k) as [y0|] eqn:Hy0; [|done]. cbn in Hk. simplify_eq.
      rewrite Hf. by eapply Hlt.
    + by eapply Hlt.
Qed.

Lemma list_find_alter_None {A} (P : A → Prop) `{!∀ x, Decision (P x)}
    (f : A → A) (i : nat) (l : list A) :
  (∀ y, P (f y) ↔ P y) →
  list_find P l = None → list_find P (alter f i l) = None.
Proof.
  intros Hf. rewrite !list_find_None, !Forall_lookup.
  intros Hall k y Hk. rewrite list_lookup_alter in Hk.
  destruct (decide (i = k)) as [->|]; [|by eapply Hall].
  destruct (l !! k) as [y0|] eqn:Hy0; [|done]. cbn in Hk. simplify_eq.
  rewrite Hf. by eapply Hall.
Qed.

Lemma find_mission_alter (f : Mission.t → Mission.t) (i : nat)
    (ms : list Mission.t) ident j m :
  (∀ x, Mission.project_id (f x) = Mission.project_id x) →
  (∀ x, Mission.client (f x) = Mission.client x) →
  find_mission ident ms = Some (j, m) →
  find_mission ident (alter f i ms)
  = Some (j, if decide (i = j) then f m else m).
Proof.
  intros Hid Hcl. unfold find_mission.
  destruct (list_find _ ms) as [r|] eqn:He.
  - intros [= ->]. erewrite list_find_alter_Some; [done| |exact He].
    intros y. cbn. by rewrite Hid.
  - intros Hpart. rewrite list_find_alter_None; [|intros y; by rewrite Hid|done].
    apply list_find_alter_Some; [|done].
    intros y. cbn. by rewrite Hid, Hcl.
Qed.

Lemma missions_resolve_alter (f : Mission.t → Mission.t) (i : nat)
    (ms : list Mission.t) :
  (∀ x, Mission.project_id (f x) = Mission.project_id x) →
  (∀ x, Mission.client (f x) = Mission.client x) →
  NoDup (Mission.project_id <$> ms) →
  missions_resolve ms → missions_resolve (alter f i ms).
Proof.
  intros Hid Hcl Hnd Hres. unfold missions_resolve in *.
  rewrite Forall_lookup in *. intros k m1 Hk.
  rewrite list_lookup_alter in Hk.
  assert (∃ m, ms !! k = Some m ∧ m1 = if decide (i = k) then f m else m)
    as (m & Hm & ->).
  { destruct (decide (i = k)) as [->|]; [|eauto].
    destruct (ms !! k) as [m|]; [|done]. cbn in Hk. simplify_eq. eauto. }
  specialize (Hres k m Hm).
  destruct (find_mission (Mission.project_id m) ms) as [[j m']|] eqn:Hf;
    [|done].
  cbn in Hres. simplify_eq.
  pose proof (proj1 (find_mission_Some _ _ _ _ Hf)) as Hj.
  assert (j = k) as -> by (by eapply NoDup_project_id_index).
  assert (Hpid : Mission.project_id (if decide (i = k) then f m else m)
                 = Mission.project_id m)
    by (destruct (decide (i = k)); by rewrite ?Hid).
  rewrite Hpid. by erewrite find_mission_alter.
Qed.

(** The mission that holds a pilot is the one [find_mission] returns for
    the pilot's [current_assignment]. *)
Lemma holder_found_pilot ps ds ms pi p j m0 :
  links_ok ps ds ms → NoDup (Pilot.pilot_id <$> ps) →
  NoDup (Mission.project_id <$> ms) →
  Forall (λ m, Mission.project_id m ≠ "") ms → missions_resolve ms →
  ps !! pi = Some p → ms !! j = Some m0 →
  Mission.assigned_pilot m0 ≠ "" →
  Mission.assigned_pilot m0 = Pilot.pilot_id p →
  truthy (Pilot.current_assignment p) = true
  ∧ find_mission (Pilot.current_assignment p) ms = Some (j, m0).
Proof.
  intros Hinv Hndp Hndm Hids Hres Hp Hm0 Hne Heq.
  destruct (holder_of_pilot ps ds ms j m0 pi p) as [Hcur _]; try done.
  rewrite Hcur. rewrite Forall_lookup in Hids. split.
  - apply truthy_iff. by eapply Hids.
  - unfold missions_resolve in Hres. rewrite Forall_lookup in Hres.
    specialize (Hres j m0 Hm0).
    destruct (find_mission (Mission.project_id m0) ms) as [[j' m']|] eqn:Hf;
      [|done].
    cbn in Hres. simplify_eq.
    pose proof (proj1 (find_mission_Some _ _ _ _ Hf)) as Hj.
    by assert (j' = j) as -> by (by eapply NoDup_project_id_index).
Qed.

Lemma holder_found_drone ps ds ms di d j m0 :
  links_ok ps ds ms → NoDup (Drone.drone_id <$> ds) →
  NoDup (Mission.project_id <$> ms) →
  Forall (λ m, Mission.project_id m ≠ "") ms → missions_resolve ms →
  ds !! di = Some d → ms !! j = Some m0 →
  Mission.assigned_drone m0 ≠ "" →
  Mission.assigned_drone m0 = Drone.drone_id d →
  truthy (Drone.current_assignment d) = true
  ∧ find_mission (Drone.current_assignment d) ms = Some (j, m0).
Proof.
  intros Hinv Hndp Hndm Hids Hres Hp Hm0 Hne Heq.
  destruct (holder_of_drone ps ds ms j m0 di d) as [Hcur _]; try done.
  rewrite Hcur. rewrite Forall_lookup in Hids. split.
  - apply truthy_iff. by eapply Hids.
  - unfold missions_resolve in Hres. rewrite Forall_lookup in Hres.
    specialize (Hres j m0 Hm0).
    destruct (find_mission (Mission.project_id m0) ms) as [[j' m']|] eqn:Hf;
      [|done].
    cbn in Hres. simplify_eq.
    pose proof (proj1 (find_mission_Some _ _ _ _ Hf)) as Hj.
    by assert (j' = j) as -> by (by eapply NoDup_project_id_index).
Qed.

Lemma project_ids_nonempty_alter (f : Mission.t → Mission.t) (i : nat)
    (ms : list Mission.t) :
  (∀ x, Mission.project_id (f x) = Mission.project_id x) →
  Forall (λ m, Mission.project_id m ≠ "") ms →
  Forall (λ m, Mission.project_id m ≠ "") (alter f i ms).
Proof.
  intros Hf H. apply Forall_alter; [done|]. intros m _ Hm. by rewrite Hf.
Qed.

Lemma pilot_ids_alter (f : Pilot.t → Pilot.t) (i : nat) (ps : list Pilot.t) :
  (∀ p, Pilot.pilot_id (f p) = Pilot.pilot_id p) →
  Pilot.pilot_id <$> alter f i ps = Pilot.pilot_id <$> ps.
Proof.
  intros Hf.
  apply list_eq. intros j. rewrite !list_lookup_fmap, list_lookup_alter.
  destruct (decide (i = j)) as [->|]; [|done].
  destruct (ps !! j); cbn; by rewrite ?Hf.
Qed.

Lemma drone_ids_alter (f : Drone.t → Drone.t) (i : nat) (ds : list Drone.t) :
  (∀ d, Drone.drone_id (f d) = Drone.drone_id d) →
  Drone.drone_id <$> alter f i ds = Drone.drone_id <$> ds.
Proof.
  intros Hf.
  apply list_eq. intros j. rewrite !list_lookup_fmap, list_lookup_alter.
  destruct (decide (i = j)) as [->|]; [|done].
  destruct (ds !! j); cbn; by rewrite ?Hf.
Qed.

Lemma unassign_pilot_ready ps ds ms pi p :
  release_ready ps ds ms → ps !! pi = Some p →
  ∃ ps1 ms1 r, unassign_pilot pi p (DataStore.mk ps ds ms)
               = (DataStore.mk ps1 ds ms1, Returned r)
               ∧ release_ready ps1 ds ms1.
Proof.
  intros (Hinv & Hndp & Hndd & Hndm & Hids & Hres) Hp.
  unfold unassign_pilot.
  destruct (String.eqb (Pilot.status p) "Assigned"
            || truthy (Pilot.current_assignment p)) eqn:Hcond.
  2:{ eexists ps, ms, _. split; [reflexivity|]. by repeat split. }
  run_handler.
  set (free := alter (Pilot.set_current_assignment "") pi
                 (alter (Pilot.set_status "Available") pi ps)).
  assert (Hfree_ids : Pilot.pilot_id <$> free = Pilot.pilot_id <$> ps).
  { unfold free. by rewrite !pilot_ids_alter. }
  assert (Hholder := holder_found_pilot ps ds ms pi p).
  assert (Hready : ∀ ms1,
    links_ok ps ds ms1 →
    (ms1 = ms ∨ ∃ mj, ms1 = alter (Mission.set_assigned_pilot "") mj ms) →
    (∀ j m', ms1 !! j = Some m' → Mission.assigned_pilot m' ≠ "" →
             Mission.assigned_pilot m' ≠ Pilot.pilot_id p) →
    release_ready free ds ms1).
  { intros ms1 Hinv1 Hms1 Hno. split.
    - unfold free. rewrite alter_alter_same.
      apply change_unheld_pilot; [done|].
      intros p0 j m' Hp0 Hm'. simplify_eq. by eapply Hno.
    - rewrite Hfree_ids. split; [done|]. split; [done|].
      destruct Hms1 as [->|[mj ->]]; [done|].
      split; [by rewrite project_ids_alter|].
      split; [by apply project_ids_nonempty_alter|].
      by apply missions_resolve_alter. }
  destruct (truthy (Pilot.current_assignment p)) eqn:Hold.
  - cbn [DataStore.pilots DataStore.drones DataStore.missions].
    destruct (find_mission (Pilot.current_assignment p) ms)
      as [[mj mission]|] eqn:Hfm.
    + destruct (String.eqb (Mission.assigned_pilot mission) (Pilot.pilot_id p))
        eqn:Heqb.
      * cbn [DataStore.pilots DataStore.drones DataStore.missions].
        eexists _, _, _. split; [reflexivity|].
        apply Hready; [by apply clear_pilot_keeps_links|eauto|].
        intros j m' Hm' Hne Href.
        rewrite list_lookup_alter in Hm'.
        destruct (decide (mj = j)) as [<-|Hj].
        -- destruct (ms !! mj); [|done]. by simplify_eq/=.
        -- destruct (Hholder j m') as [_ Hf]; try done.
           try rewrite Hfm in Hf. by simplify_eq.
      * cbn [DataStore.pilots DataStore.drones DataStore.missions].
        eexists _, _, _. split; [reflexivity|].
        apply Hready; [done|by left|].
        intros j m' Hm' Hne Href.
        destruct (Hholder j m') as [_ Hf]; try done.
        try rewrite Hfm in Hf. simplify_eq.
        apply String.eqb_neq in Heqb. done.
    + cbn [DataStore.pilots DataStore.drones DataStore.missions].
      eexists _, _, _. split; [reflexivity|].
      apply Hready; [done|by left|].
      intros j m' Hm' Hne Href.
      destruct (Hholder j m') as [_ Hf]; done.
  - cbn [DataStore.pilots DataStore.drones DataStore.missions].
    eexists _, _, _. split; [reflexivity|].
    apply Hready; [done|by left|].
    intros j m' Hm' Hne Href.
    destruct (Hholder j m') as [Ht _]; done.
Qed.

Lemma unassign_drone_ready ps ds ms di d :
  release_ready ps ds ms → ds !! di = Some d →
  ∃ ds1 ms1 r, unassign_drone di d (DataStore.mk ps ds ms)
               = (DataStore.mk ps ds1 ms1, Returned r)
               ∧ release_ready ps ds1 ms1.
Proof.
  intros (Hinv & Hndp & Hndd & Hndm & Hids & Hres) Hd.
  unfold unassign_drone.
  destruct (String.eqb (Drone.status d) "Assigned"
            || truthy (Drone.current_assignment d)) eqn:Hcond.
  2:{ eexists ds, ms, _. split; [reflexivity|]. by repeat split. }
  run_handler.
  set (free := alter (Drone.set_current_assignment "") di
                 (alter (Drone.set_status "Available") di ds)).
  assert (Hfree_ids : Drone.drone_id <$> free = Drone.drone_id <$> ds).
  { unfold free. by rewrite !drone_ids_alter. }
  assert (Hholder := holder_found_drone ps ds ms di d).
  assert (Hready : ∀ ms1,
    links_ok ps ds ms1 →
    (ms1 = ms ∨ ∃ mj, ms1 = alter (Mission.set_assigned_drone "") mj ms) →
    (∀ j m', ms1 !! j = Some m' → Mission.assigned_drone m' ≠ "" →
             Mission.assigned_drone m' ≠ Drone.drone_id d) →
    release_ready ps free ms1).
  { intros ms1 Hinv1 Hms1 Hno. split.
    - unfold free. rewrite alter_alter_same.
      apply change_unheld_drone; [done|].
      intros p0 j m' Hp0 Hm'. simplify_eq. by eapply Hno.
    - rewrite Hfree_ids. split; [done|]. split; [done|].
      destruct Hms1 as [->|[mj ->]]; [done|].
      split; [by rewrite project_ids_alter|].
      split; [by apply project_ids_nonempty_alter|].
      by apply missions_resolve_alter. }
  destruct (truthy (Drone.current_assignment d)) eqn:Hold.
  - cbn [DataStore.pilots DataStore.drones DataStore.missions].
    destruct (find_mission (Drone.current_assignment d) ms)
      as [[mj mission]|] eqn:Hfm.
    + destruct (String.eqb (Mission.assigned_drone mission) (Drone.drone_id d))
        eqn:Heqb.
      * cbn [DataStore.pilots DataStore.drones DataStore.missions].
        eexists _, _, _. split; [reflexivity|].
        apply Hready; [by apply clear_drone_keeps_links|eauto|].
        intros j m' Hm' Hne Href.
        rewrite list_lookup_alter in Hm'.
        destruct (decide (mj = j)) as [<-|Hj].
        -- destruct (ms !! mj); [|done]. by simplify_eq/=.
        -- destruct (Hholder j m') as [_ Hf]; try done.
           try rewrite Hfm in Hf. by simplify_eq.
      * cbn [DataStore.pilots DataStore.drones DataStore.missions].
        eexists _, _, _. split; [reflexivity|].
        apply Hready; [done|by left|].
        intros j m' Hm' Hne Href.
        destruct (Hholder j m') as [_ Hf]; try done.
        try rewrite Hfm in Hf. simplify_eq.
        apply String.eqb_neq in Heqb. done.
    + cbn [DataStore.pilots DataStore.drones DataStore.missions].
      eexists _, _, _. split; [reflexivity|].
      apply Hready; [done|by left|].
      intros j m' Hm' Hne Href.
      destruct (Hholder j m') as [_ Hf]; done.
  - cbn [DataStore.pilots DataStore.drones DataStore.missions].
    eexists _, _, _. split; [reflexivity|].
    apply Hready; [done|by left|].
    intros j m' Hm' Hne Href.
    destruct (Hholder j m') as [Ht _]; done.
Qed.

Lemma well_keyed_ready s :
  bidirectional_invariant s → well_keyed s →
  release_ready (DataStore.pilots s) (DataStore.drones s) (DataStore.missions s).
Proof.
  destruct s as [ps ds ms].
  intros Hinv (Hndp & Hndd & Hndm & Hids & Hrp & Hrd & Hrm).
  by repeat split.
Qed.

(** X24: In a snapshot that satisfies the bidirectional invariant, with
    unique ids, no empty mission id and every id resolving to its own
    entity, _handle_unassign returns and the invariant holds afterwards,
    whatever names and ids are asked for. *)
Theorem unassign_preserves_invariant (pilot_name pilot_id drone_id
    : option string) (s : DataStore.t) :
  bidirectional_invariant s → well_keyed s →
  ∃ s' reply, _handle_unassign pilot_name pilot_id drone_id s
              = (s', Returned reply)
              ∧ bidirectional_invariant s'.
Proof.
  intros Hinv Hkeys. pose proof (well_keyed_ready s Hinv Hkeys) as Hready.
  clear Hinv Hkeys. destruct s as [ps ds ms].
  cbn [DataStore.pilots DataStore.drones DataStore.missions] in Hready.
  unfold _handle_unassign. cbn zeta.
  unfold mbind at 1, Store_bind at 1, gets at 1.
  cbn [DataStore.pilots].
  set (pilot := match given pilot_id, given pilot_name with
                | Some pid, _ => find_pilot pid ps
                | None, Some name => find_pilot name ps
                | None, None => None
                end).
  assert (Hpilot : ∀ pi p, pilot = Some (pi, p) → ps !! pi = Some p).
  { intros pi p. unfold pilot.
    destruct (given pilot_id), (given pilot_name); try done;
      by intros [? _]%find_pilot_Some. }
  unfold mbind at 1, Store_bind at 1.
  assert (Hpart : ∃ ps1 ms1 part,
    (match pilot return Store (list string + string) with
     | Some (pi, p) => unassign_pilot pi p
     | None => mret (inl [])
     end) (DataStore.mk ps ds ms) = (DataStore.mk ps1 ds ms1, Returned part)
    ∧ release_ready ps1 ds ms1).
  { destruct pilot as [[pi p]|] eqn:Hp.
    - apply unassign_pilot_ready; [done|]. by apply Hpilot.
    - by eexists ps, ms, _. }
  destruct Hpart as (ps1 & ms1 & part & -> & Hready1).
  destruct part as [pilot_changes|reply].
  2:{ eexists _, _. split; [reflexivity|]. apply Hready1. }
  unfold mbind at 1, Store_bind at 1, gets at 1.
  cbn [DataStore.drones].
  set (drone := match given drone_id, pilot, given pilot_name with
                | Some did, _, _ => find_drone did ds
                | None, None, Some name => find_drone name ds
                | None, _, _ => None
                end).
  assert (Hdrone : ∀ di d, drone = Some (di, d) → ds !! di = Some d).
  { intros di d. unfold drone.
    destruct (given drone_id), pilot, (given pilot_name); try done;
      by intros [? _]%find_drone_Some. }
  unfold mbind at 1, Store_bind at 1.
  assert (Hpart : ∃ ds2 ms2 part,
    (match drone return Store (list string + string) with
     | Some (di, d) => unassign_drone di d
     | None => mret (inl [])
     end) (DataStore.mk ps1 ds ms1) = (DataStore.mk ps1 ds2 ms2, Returned part)
    ∧ release_ready ps1 ds2 ms2).
  { destruct drone as [[di d]|] eqn:Hd.
    - apply unassign_drone_ready; [done|]. by apply Hdrone.
    - by eexists ds, ms1, _. }
  destruct Hpart as (ds2 & ms2 & part & -> & Hready2).
  destruct part as [drone_changes|reply].
  2:{ eexists _, _. split; [reflexivity|]. apply Hready2. }
  destruct (pilot_changes ++ drone_changes)%list;
    eexists _, _; (split; [reflexivity|]); apply Hready2.
Qed.

Lemma unassign_preserves_invariant_witness :
  bidirectional_invariant consistent_store ∧ well_keyed consistent_store
  ∧ ∃ s' reply, _handle_unassign (Some "Arjun") None None consistent_store
                = (s', Returned reply)
                ∧ bidirectional_invariant s'.
Proof.
  pose proof consistent_store_invariant as H1.
  pose proof consistent_store_well_keyed as H2.
  split; [exact H1|]. split; [exact H2|].
  exact (unassign_preserves_invariant (Some "Arjun") None None
           consistent_store H1 H2).
Defined.

Lemma status_change_pilot_links ps ds ms pi p f st :
  links_ok ps ds ms → NoDup (Pilot.pilot_id <$> ps) → ps !! pi = Some p →
  (∀ q, Pilot.pilot_id (f q) = Pilot.pilot_id q) →
  (∀ q, Pilot.status (f q) = st) →
  (st = "Assigned" → ∀ q, Pilot.current_assignment (f q)
                          = Pilot.current_assignment q) →
  links_ok (alter f pi ps) ds ms ↔ st = "Assigned" ∨ pilot_unheld p ms.
Proof.
  intros Hinv Hnd Hp Hid Hst Hcur. split.
  - intros Hinv'.
    destruct (decide (st = "Assigned")) as [|Hne]; [by left|right].
    apply Forall_lookup. intros j m Hm.
    destruct (decide (Mission.assigned_pilot m = "")) as [|Hne0]; [by left|right].
    intros Href. rewrite links_ok_lookup in Hinv'.
    destruct (Hinv' j m Hm) as [Hl _]. specialize (Hl Hne0). cbn in Hl.
    apply Exists_exists in Hl as (q' & Hq' & Hqid & _ & Hqst).
    apply list_elem_of_lookup in Hq' as [k Hk].
    rewrite list_lookup_alter in Hk.
    destruct (decide (pi = k)) as [<-|Hpk].
    + rewrite Hp in Hk. cbn in Hk. simplify_eq. rewrite Hst in Hqst. done.
    + apply Hpk. eapply NoDup_lookup; [exact Hnd| |].
      * by rewrite list_lookup_fmap, Hp.
      * rewrite list_lookup_fmap, Hk. cbn. congruence.
  - intros [->|Hun].
    + rewrite !links_ok_lookup in *. intros j m Hm.
      destruct (Hinv j m Hm) as [Hl Hd]. split; [|done].
      unfold pilot_link_ok in *. cbn [DataStore.pilots] in *.
      intros Hne. specialize (Hl Hne).
      apply Exists_exists in Hl as (q & Hin & Hqid & Hqcur & Hqst).
      apply list_elem_of_lookup in Hin as [k Hk].
      apply Exists_exists.
      destruct (decide (pi = k)) as [<-|Hk'].
      * exists (f q). split.
        -- apply list_elem_of_lookup. exists pi.
           by rewrite list_lookup_alter_eq, Hk.
        -- by rewrite Hid, Hst, Hcur.
      * exists q. split; [|done]. apply list_elem_of_lookup. exists k.
        by rewrite list_lookup_alter_ne.
    + apply change_unheld_pilot; [done|].
      intros p0 j m Hp0 Hm Hne. simplify_eq.
      unfold pilot_unheld in Hun. rewrite Forall_lookup in Hun.
      by destruct (Hun j m Hm).
Qed.

Lemma status_change_drone_links ps ds ms di d f st :
  links_ok ps ds ms → NoDup (Drone.drone_id <$> ds) → ds !! di = Some d →
  (∀ q, Drone.drone_id (f q) = Drone.drone_id q) →
  (∀ q, Drone.status (f q) = st) →
  (∀ q, Drone.current_assignment (f q) = Drone.current_assignment q) →
  links_ok ps (alter f di ds) ms ↔ st = "Assigned" ∨ drone_unheld d ms.
Proof.
  intros Hinv Hnd Hp Hid Hst Hcur. split.
  - intros Hinv'.
    destruct (decide (st = "Assigned")) as [|Hne]; [by left|right].
    apply Forall_lookup. intros j m Hm.
    destruct (decide (Mission.assigned_drone m = "")) as [|Hne0]; [by left|right].
    intros Href. rewrite links_ok_lookup in Hinv'.
    destruct (Hinv' j m Hm) as [_ Hl]. specialize (Hl Hne0). cbn in Hl.
    apply Exists_exists in Hl as (q' & Hq' & Hqid & _ & Hqst).
    apply list_elem_of_lookup in Hq' as [k Hk].
    rewrite list_lookup_alter in Hk.
    destruct (decide (di = k)) as [<-|Hpk].
    + rewrite Hp in Hk. cbn in Hk. simplify_eq. rewrite Hst in Hqst. done.
    + apply Hpk. eapply NoDup_lookup; [exact Hnd| |].
      * by rewrite list_lookup_fmap, Hp.
      * rewrite list_lookup_fmap, Hk. cbn. congruence.
  - intros [->|Hun].
    + rewrite !links_ok_lookup in *. intros j m Hm.
      destruct (Hinv j m Hm) as [Hl Hd]. split; [done|].
      unfold drone_link_ok in *. cbn [DataStore.drones] in *.
      intros Hne. specialize (Hd Hne).
      apply Exists_exists in Hd as (q & Hin & Hqid & Hqcur & Hqst).
      apply list_elem_of_lookup in Hin as [k Hk].
      apply Exists_exists.
      destruct (decide (di = k)) as [<-|Hk'].
      * exists (f q). split.
        -- apply list_elem_of_lookup. exists di.
           by rewrite list_lookup_alter_eq, Hk.
        -- by rewrite Hid, Hst, Hcur.
      * exists q. split; [|done]. apply list_elem_of_lookup. exists k.
        by rewrite list_lookup_alter_ne.
    + apply change_unheld_drone; [done|].
      intros p0 j m Hp0 Hm Hne. simplify_eq.
      unfold drone_unheld in Hun. rewrite Forall_lookup in Hun.
      by destruct (Hun j m Hm).
Qed.

(** X25: In a snapshot that satisfies the bidirectional invariant and has
    unique pilot and drone ids, after _handle_update_status sets a non-empty
    status on the pilot its lookup finds the invariant holds exactly when
    the new status is Assigned or no mission names that pilot; the same
    holds for the drone found when no pilot matches. *)
Theorem update_status_invariant_iff (name new_status : string)
    (s : DataStore.t) :
  bidirectional_invariant s →
  NoDup (Pilot.pilot_id <$> DataStore.pilots s) →
  NoDup (Drone.drone_id <$> DataStore.drones s) →
  name ≠ "" → new_status ≠ "" →
  let s' := (_handle_update_status (Some name) (Some new_status) s).1 in
  (∀ pi p, find_pilot name (DataStore.pilots s) = Some (pi, p) →
     (bidirectional_invariant s'
      ↔ new_status = "Assigned" ∨ pilot_unheld p (DataStore.missions s)))
  ∧ (∀ di d, find_pilot name (DataStore.pilots s) = None →
       find_drone name (DataStore.drones s) = Some (di, d) →
       (bidirectional_invariant s'
        ↔ new_status = "Assigned" ∨ drone_unheld d (DataStore.missions s))).
Proof.
  destruct s as [ps ds ms]. cbn [DataStore.pilots DataStore.drones DataStore.missions].
  intros Hinv Hndp Hndd Hname Hst. change (links_ok ps ds ms) in Hinv.
  unfold _handle_update_status.
  destruct name as [|c name]; [done|]. destruct new_status as [|c' st]; [done|].
  run_handler. split.
  - intros pi p Hf. rewrite Hf.
    apply find_pilot_Some in Hf as [Hp _].
    destruct (bool_decide (String c' st = "On Leave")
              || bool_decide (String c' st = "Available")) eqn:Hclr.
    + cbn [fst DataStore.pilots DataStore.drones DataStore.missions].
      rewrite alter_alter_same.
      apply (status_change_pilot_links ps ds ms pi p _ (String c' st));
        try done.
      intros Heq. rewrite Heq in Hclr. done.
    + cbn [fst DataStore.pilots DataStore.drones DataStore.missions].
      by apply (status_change_pilot_links ps ds ms pi p _ (String c' st)).
  - intros di d Hnone Hf. rewrite Hnone.
    cbn [DataStore.pilots DataStore.drones DataStore.missions]. rewrite Hf.
    apply find_drone_Some in Hf as [Hd _].
    cbn [fst DataStore.pilots DataStore.drones DataStore.missions].
    by apply (status_change_drone_links ps ds ms di d _ (String c' st)).
Qed.

Lemma update_status_invariant_iff_witness :
  bidirectional_invariant consistent_store
  ∧ NoDup (Pilot.pilot_id <$> DataStore.pilots consistent_store)
  ∧ NoDup (Drone.drone_id <$> DataStore.drones consistent_store)
  ∧ "neha" ≠ "" ∧ "On Leave" ≠ ""
  ∧ (bidirectional_invariant
       (_handle_update_status (Some "neha") (Some "On Leave")
          consistent_store).1
     ↔ "On Leave" = "Assigned"
       ∨ pilot_unheld neha (DataStore.missions consistent_store)).
Proof.
  pose proof consistent_store_invariant as H1.
  pose proof consistent_store_well_keyed as (H2 & H3 & _).
  assert (H4 : "neha" ≠ "") by discriminate.
  assert (H5 : "On Leave" ≠ "") by discriminate.
  split; [exact H1|]. split; [exact H2|]. split; [exact H3|].
  split; [exact H4|]. split; [exact H5|].
  exact (proj1 (update_status_invariant_iff "neha" "On Leave" consistent_store
                  H1 H2 H3 H4 H5) 1%nat neha ltac:(vm_compute; reflexivity)).
Defined.

(* ------------------------------------------------------------------ *)
(** ** Intent detection *)

Lemma prefix_app_l (a b s : string) :
  String.prefix (a ++ b) s = true → String.prefix a s = true.
Proof.
  revert s. induction a as [|c a IH]; intros s; [by destruct s|].
  destruct s as [|c' s]; [done|].
  change (String c a ++ b) with (String c (a ++ b)). cbn [String.prefix].
  destruct (Ascii.ascii_dec c c'); [apply IH|done].
Qed.

Lemma contains_app_l (a b s : string) :
  contains (a ++ b) s = true → contains a s = true.
Proof.
  induction s as [|c s IH]; cbn [contains].
  - rewrite !orb_false_r. apply prefix_app_l.
  - rewrite !orb_true_iff. intros [H|H]; [left; by eapply prefix_app_l|right; auto].
Qed.

Lemma first_in_Some l msg x :
  first_in l msg = Some x → x ∈ l ∧ contains x msg = true.
Proof.
  unfold first_in. destruct (list_find _ l) as [[i y]|] eqn:Hf; [|done].
  intros [= <-]. apply list_find_Some in Hf as (Hi & Hc & _).
  split; [by eapply list_elem_of_lookup_2|done].
Qed.

Lemma any_in_false l msg x :
  any_in l msg = false → x ∈ l → contains x msg = false.
Proof.
  unfold any_in. intros Hn Hx.
  destruct (contains x msg) eqn:Hc; [|done].
  assert (existsb (λ kw, contains kw msg) l = true); [|congruence].
  apply existsb_exists. exists x. split; [|done].
  by apply list_elem_of_In.
Qed.

Lemma no_assign_no_assigned msg :
  any_in ["assign"; "match"; "best pilot"; "best drone"; "recommend"] msg = false →
  contains "assigned" msg = false.
Proof.
  intros Hn. destruct (contains "assigned" msg) eqn:Hc; [|done].
  apply (contains_app_l "assign" "ed") in Hc.
  rewrite (any_in_false _ msg "assign" Hn) in Hc; [done|]. by left.
Qed.

Lemma title_assigned_only (l : list string) msg :
  Forall (λ x, title x = "Assigned" → x = "assigned") l →
  contains "assigned" msg = false →
  title <$> first_in l msg ≠ Some "Assigned".
Proof.
  intros Hl Hc. destruct (first_in l msg) as [x|] eqn:Hf; [|done].
  apply first_in_Some in Hf as [Hx Hcx].
  rewrite Forall_forall in Hl. cbn. intros [= Ht].
  apply Hl in Ht; [|done]. subst x. congruence.
Qed.

Lemma lower_msg_idemp message :
  lower (strip (lower message)) = strip (lower message).
Proof. by rewrite lower_strip, lower_idemp. Qed.

(** X26: For every message, the new_status that detect_intent extracts is
    never Assigned, and neither is the status filter it extracts for a
    query. *)
Theorem detect_intent_never_assigned (message : string) :
  Params.new_status (detect_intent message).2 ≠ Some "Assigned"
  ∧ ∀ f, Params.filters (detect_intent message).2 = Some f →
         Filters.status f ≠ Some "Assigned".
Proof.
  unfold detect_intent. cbn zeta.
  set (msg := strip (lower message)).
  assert (Hstatus : ∀ f,
    any_in ["assign"; "match"; "best pilot"; "best drone"; "recommend"] msg
    = false →
    Some (_extract_query_filters msg) = Some f →
    Filters.status f ≠ Some "Assigned").
  { intros f Hn [= <-]. unfold _extract_query_filters. cbn [Filters.status].
    unfold msg. rewrite lower_msg_idemp. fold msg.
    apply title_assigned_only; [|by apply no_assign_no_assigned].
    repeat constructor; by vm_compute. }
  repeat match goal with
  | |- context [if any_in ?l msg then _ else _] =>
      destruct (any_in l msg) eqn:?
  end; cbn [snd Params.new_status Params.filters Params.of_raw];
    (split; [try done|try done]); try (intros f; by apply Hstatus).
  apply title_assigned_only; [|by apply no_assign_no_assigned].
  repeat constructor; by vm_compute.
Qed.

(* ------------------------------------------------------------------ *)
(** ** Confirming an assignment *)

Lemma assigned_pair_links ps ds ms pi p di d mi m :
  links_ok ps ds ms →
  NoDup (Pilot.pilot_id <$> ps) → NoDup (Drone.drone_id <$> ds) →
  NoDup (Mission.project_id <$> ms) →
  ps !! pi = Some p → ds !! di = Some d → ms !! mi = Some m →
  links_ok
    (alter (Pilot.set_current_assignment (Mission.project_id m)) pi
       (alter (Pilot.set_status "Assigned") pi ps))
    (alter (Drone.set_current_assignment (Mission.project_id m)) di
       (alter (Drone.set_status "Assigned") di ds))
    (alter (Mission.set_assigned_drone (Drone.drone_id d)) mi
       (alter (Mission.set_assigned_pilot (Pilot.pilot_id p)) mi ms))
  ↔ free_for m p d ms.
Proof.
  intros Hinv Hndp Hndd Hndm Hp Hd Hm. unfold free_for. split.
  - intros Hinv'. apply Forall_lookup. intros j m2 Hm2.
    destruct (decide (Mission.project_id m2 = Mission.project_id m))
      as [|Hid]; [by left|right].
    assert (Hj : mi ≠ j) by (intros <-; by simplify_eq).
    rewrite links_ok_lookup in Hinv'.
    destruct (Hinv' j m2) as [Hlp Hld].
    { by rewrite !list_lookup_alter_ne. }
    split.
    + destruct (decide (Mission.assigned_pilot m2 = "")) as [|Hne]; [by left|].
      right. intros Href. specialize (Hlp Hne). cbn in Hlp.
      apply Exists_exists in Hlp as (q & Hq & Hqid & Hqcur & _).
      apply list_elem_of_lookup in Hq as [k Hk].
      rewrite list_alter_alter_eq, list_lookup_alter in Hk.
      destruct (decide (pi = k)) as [<-|Hpk].
      * rewrite Hp in Hk; cbn in Hk; simplify_eq/=; congruence.
      * apply Hpk. eapply NoDup_lookup; [exact Hndp| |].
        -- by rewrite list_lookup_fmap, Hp.
        -- rewrite list_lookup_fmap, Hk. cbn. congruence.
    + destruct (decide (Mission.assigned_drone m2 = "")) as [|Hne]; [by left|].
      right. intros Href. specialize (Hld Hne). cbn in Hld.
      apply Exists_exists in Hld as (q & Hq & Hqid & Hqcur & _).
      apply list_elem_of_lookup in Hq as [k Hk].
      rewrite list_alter_alter_eq, list_lookup_alter in Hk.
      destruct (decide (di = k)) as [<-|Hpk].
      * rewrite Hd in Hk; cbn in Hk; simplify_eq/=; congruence.
      * apply Hpk. eapply NoDup_lookup; [exact Hndd| |].
        -- by rewrite list_lookup_fmap, Hd.
        -- rewrite list_lookup_fmap, Hk. cbn. congruence.
  - intros Hfree. rewrite Forall_lookup in Hfree.
    assert (Hother : ∀ j m2, ms !! j = Some m2 → j ≠ mi →
              Mission.project_id m2 ≠ Mission.project_id m).
    { intros j m2 Hm2 Hj Heq. apply Hj.
      by eapply NoDup_project_id_index. }
    pose proof (assign_pilot_keeps_links ps ds ms pi p mi m Hinv Hp Hm) as H1.
    assert (Hinv1 : links_ok
      (alter (Pilot.set_current_assignment (Mission.project_id m)) pi
         (alter (Pilot.set_status "Assigned") pi ps)) ds
      (alter (Mission.set_assigned_pilot (Pilot.pilot_id p)) mi ms)).
    { apply H1. intros j m2 Hm2 Hne Href.
      destruct (decide (j = mi)) as [|Hj]; [done|]. exfalso.
      destruct (Hfree j m2 Hm2) as [Heq|[[?|?] _]]; try done.
      by apply (Hother j m2). }
    set (ms1 := alter (Mission.set_assigned_pilot (Pilot.pilot_id p)) mi ms)
      in *.
    assert (Hm1 : ms1 !! mi = Some (Mission.set_assigned_pilot (Pilot.pilot_id p) m))
      by (unfold ms1; by rewrite list_lookup_alter_eq, Hm).
    apply (assign_drone_keeps_links _ ds ms1 di d mi _ Hinv1 Hd Hm1).
    intros j m2 Hm2 Hne Href.
    destruct (decide (j = mi)) as [|Hj]; [done|]. exfalso.
    unfold ms1 in Hm2. rewrite list_lookup_alter_ne in Hm2 by done.
    destruct (Hfree j m2 Hm2) as [Heq|[_ [?|?]]]; try done.
    by apply (Hother j m2).
Qed.

(** X29: In a snapshot that satisfies the bidirectional invariant and has
    unique ids, for a message that starts with confirm assign and whose
    first three ids resolve to a pilot, a drone and a mission,
    handle_confirm_assign returns a reply, the mission then names that pilot
    and that drone, and the invariant holds afterwards exactly when no
    mission with another id names the pilot or the drone. *)
Theorem confirm_assign_invariant_iff (message : string) (s : DataStore.t)
    (id0 id1 id2 : string) (more : list string)
    (pi : nat) (p : Pilot.t) (di : nat) (d : Drone.t)
    (mi : nat) (m : Mission.t) :
  bidirectional_invariant s →
  NoDup (Pilot.pilot_id <$> DataStore.pilots s) →
  NoDup (Drone.drone_id <$> DataStore.drones s) →
  NoDup (Mission.project_id <$> DataStore.missions s) →
  String.prefix "confirm assign" (strip (lower message)) = true →
  findall_ids 0 None (strip (lower message)) = id0 :: id1 :: id2 :: more →
  find_pilot (upper id0) (DataStore.pilots s) = Some (pi, p) →
  find_drone (upper id1) (DataStore.drones s) = Some (di, d) →
  find_mission (upper id2) (DataStore.missions s) = Some (mi, m) →
  ∃ s' reply,
    handle_confirm_assign message s = (s', Returned (Some reply))
    ∧ Mission.assigned_pilot <$> DataStore.missions s' !! mi
      = Some (Pilot.pilot_id p)
    ∧ Mission.assigned_drone <$> DataStore.missions s' !! mi
      = Some (Drone.drone_id d)
    ∧ (bidirectional_invariant s' ↔ free_for m p d (DataStore.missions s)).
Proof.
  destruct s as [ps ds ms].
  cbn [DataStore.pilots DataStore.drones DataStore.missions].
  intros Hinv Hndp Hndd Hndm Hpre Hids Hfp Hfd Hfm.
  unfold handle_confirm_assign. cbn zeta. rewrite Hpre, Hids. cbn [negb].
  run_handler. rewrite Hfp, Hfd, Hfm.
  apply find_pilot_Some in Hfp as [Hp _].
  apply find_drone_Some in Hfd as [Hd _].
  apply find_mission_Some in Hfm as [Hm _].
  eexists _, _. split; [reflexivity|].
  cbn [DataStore.pilots DataStore.drones DataStore.missions].
  split; [by rewrite !list_lookup_alter_eq, Hm|].
  split; [by rewrite !list_lookup_alter_eq, Hm|].
  by apply assigned_pair_links.
Qed.

Lemma confirm_assign_invariant_iff_witness :
  bidirectional_invariant consistent_store
  ∧ String.prefix "confirm assign"
      (strip (lower "Confirm assign P002 D002 PRJ002")) = true
  ∧ findall_ids 0 None (strip (lower "Confirm assign P002 D002 PRJ002"))
    = ["p002"; "d002"; "prj002"]
  ∧ find_pilot (upper "p002") (DataStore.pilots consistent_store)
    = Some (1%nat, neha)
  ∧ find_drone (upper "d002") (DataStore.drones consistent_store)
    = Some (1%nat, matrice)
  ∧ find_mission (upper "prj002") (DataStore.missions consistent_store)
    = Some (1%nat, prj002)
  ∧ ∃ s' reply,
      handle_confirm_assign "Confirm assign P002 D002 PRJ002" consistent_store
      = (s', Returned (Some reply))
      ∧ Mission.assigned_pilot <$> DataStore.missions s' !! 1%nat = Some "P002"
      ∧ Mission.assigned_drone <$> DataStore.missions s' !! 1%nat = Some "D002"
      ∧ (bidirectional_invariant s'
         ↔ free_for prj002 neha matrice (DataStore.missions consistent_store)).
Proof.
  pose proof consistent_store_invariant as H1.
  pose proof consistent_store_well_keyed as (H2 & H3 & H4 & _).
  assert (H5 : String.prefix "confirm assign"
                 (strip (lower "Confirm assign P002 D002 PRJ002")) = true)
    by (vm_compute; reflexivity).
  assert (H6 : findall_ids 0 None
                 (strip (lower "Confirm assign P002 D002 PRJ002"))
               = ["p002"; "d002"; "prj002"]) by (vm_compute; reflexivity).
  assert (H7 : find_pilot (upper "p002") (DataStore.pilots consistent_store)
               = Some (1%nat, neha)) by (vm_compute; reflexivity).
  assert (H8 : find_drone (upper "d002") (DataStore.drones consistent_store)
               = Some (1%nat, matrice)) by (vm_compute; reflexivity).
  assert (H9 : find_mission (upper "prj002")
                 (DataStore.missions consistent_store)
               = Some (1%nat, prj002)) by (vm_compute; reflexivity).
  split; [exact H1|]. split; [exact H5|]. split; [exact H6|].
  split; [exact H7|]. split; [exact H8|]. split; [exact H9|].
  exact (confirm_assign_invariant_iff "Confirm assign P002 D002 PRJ002"
           consistent_store "p002" "d002" "prj002" [] 1%nat neha 1%nat matrice
           1%nat prj002 H1 H2 H3 H4 H5 H6 H7 H8 H9).
Defined.

(* ------------------------------------------------------------------ *)
(** ** Rows *)

Lemma lstrip_length s : (String.length (lstrip s) ≤ String.length s)%nat.
Proof.
  induction s as [|c s IH]; [done|]. cbn [lstrip].
  destruct (is_space c); cbn [String.length]; lia.
Qed.

Lemma rstrip_length s : (String.length (rstrip s) ≤ String.length s)%nat.
Proof.
  induction s as [|c s IH]; [done|]. cbn [rstrip].
  destruct (rstrip s); [destruct (is_space c)|];
    cbn [String.length] in *; lia.
Qed.

Lemma lstrip_fix s :
  String.length (lstrip s) = String.length s → lstrip s = s.
Proof.
  destruct s as [|c s]; [done|]. cbn [lstrip].
  destruct (is_space c); [|done]. pose proof (lstrip_length s).
  cbn [String.length]. lia.
Qed.

Lemma strip_fix s : strip s = s → lstrip s = s ∧ rstrip s = s.
Proof.
  intros Hs. assert (lstrip s = s) as Hl.
  { apply lstrip_fix. pose proof (lstrip_length s).
    pose proof (rstrip_length (lstrip s)). unfold strip in Hs.
    rewrite Hs in *. lia. }
  split; [done|]. unfold strip in Hs. by rewrite Hl in Hs.
Qed.

Lemma lstrip_fix_app t x : t ≠ "" → lstrip t = t → lstrip (t ++ x) = t ++ x.
Proof.
  destruct t as [|c t]; [done|]. intros _.
  change (String c t ++ x) with (String c (t ++ x)). cbn [lstrip].
  destruct (is_space c); [|done]. intros Hl. pose proof (lstrip_length t) as Hlen.
  rewrite Hl in Hlen. cbn [String.length] in Hlen. lia.
Qed.

Lemma rstrip_app a b : rstrip b ≠ "" → rstrip (a ++ b) = a ++ rstrip b.
Proof.
  intros Hb. induction a as [|c a IH]; [done|].
  change (String c a ++ b) with (String c (a ++ b)).
  change (String c a ++ rstrip b) with (String c (a ++ rstrip b)).
  cbn [rstrip]. rewrite IH. destruct (a ++ rstrip b) eqn:E; [|done].
  destruct a; [|done]. by cbn in E.
Qed.

Lemma append_nonempty_l a b : a ≠ "" → a ++ b ≠ "".
Proof. by destruct a. Qed.

Lemma join_nonempty sep t l : t ≠ "" → join sep (t :: l) ≠ "".
Proof.
  intros Ht. destruct l; [done|]. by apply append_nonempty_l.
Qed.

Lemma strip_join l :
  Forall tag_ok l → strip (join ", " l) = join ", " l.
Proof.
  intros Hl. assert (rstrip (join ", " l) = join ", " l) as Hr.
  { induction Hl as [|t l (Ht & [_ Hs]%strip_fix & _) Hl IH]; [done|].
    destruct l as [|u l]; [done|].
    change (join ", " (t :: u :: l)) with (t ++ ", " ++ join ", " (u :: l)).
    assert (rstrip (", " ++ join ", " (u :: l)) = ", " ++ join ", " (u :: l))
      as Hc.
    { rewrite rstrip_app; rewrite IH; [done|].
      apply join_nonempty. by apply Forall_cons_1 in Hl as [(? & _) _]. }
    rewrite rstrip_app; rewrite Hc; done. }
  unfold strip. destruct Hl as [|t l (Ht & [Hs _]%strip_fix & _) Hl]; [done|].
  assert (lstrip (join ", " (t :: l)) = join ", " (t :: l)) as ->; [|done].
  destruct l; [done|]. by apply lstrip_fix_app.
Qed.

Lemma contains_comma_cons c s :
  contains "," (String c s) = Ascii.eqb c comma || contains "," s.
Proof.
  cbn [contains String.prefix]. unfold comma.
  destruct (Ascii.ascii_dec _ c) as [<-|Hne]; [by destruct s|].
  destruct (Ascii.eqb_spec c (Ascii.ascii_of_N 44)); [|done].
  subst c. by destruct Hne.
Qed.

Lemma contains_comma_app a b :
  contains "," (a ++ b) = contains "," a || contains "," b.
Proof.
  induction a as [|c a IH]; [done|].
  change (String c a ++ b) with (String c (a ++ b)).
  rewrite !contains_comma_cons, IH. by rewrite orb_assoc.
Qed.

Lemma split_on_nonempty sep s : split_on sep s ≠ [].
Proof.
  destruct s as [|c s]; [done|]. cbn [split_on].
  destruct (Ascii.eqb c sep); [done|]. by destruct (split_on sep s).
Qed.

Lemma split_on_free t :
  contains "," t = false → split_on comma t = [t].
Proof.
  induction t as [|c t IH]; [done|]. rewrite contains_comma_cons.
  intros [Hc Ht]%orb_false_elim. cbn [split_on]. rewrite Hc.
  by rewrite (IH Ht).
Qed.

Lemma split_on_app t rest :
  contains "," t = false →
  split_on comma (t ++ String comma rest) = t :: split_on comma rest.
Proof.
  induction t as [|c t IH]; [done|]. rewrite contains_comma_cons.
  intros [Hc Ht]%orb_false_elim.
  change (String c t ++ String comma rest)
    with (String c (t ++ String comma rest)).
  cbn [split_on]. rewrite Hc. by rewrite (IH Ht).
Qed.

Lemma split_on_join t l :
  Forall tag_ok (t :: l) →
  split_on comma (join ", " (t :: l)) = t :: ((λ x, " " ++ x) <$> l).
Proof.
  revert t. induction l as [|u l IH]; intros t Hl.
  - apply Forall_singleton in Hl as (_ & _ & Ht). by apply split_on_free.
  - apply Forall_cons_1 in Hl as [(_ & _ & Ht) Hl].
    change (join ", " (t :: u :: l))
      with (t ++ String comma (" " ++ join ", " (u :: l))).
    rewrite (split_on_app _ _ Ht). f_equal.
    change (split_on comma (" " ++ join ", " (u :: l)))
      with (match split_on comma (join ", " (u :: l)) with
            | x :: r => (" " ++ x) :: r
            | [] => [" "]
            end).
    rewrite (IH u Hl). done.
Qed.

Lemma split_on_free_elem s x : x ∈ split_on comma s → contains "," x = false.
Proof.
  revert x. induction s as [|c s IH]; intros x.
  - cbn. by intros ->%list_elem_of_singleton.
  - cbn [split_on]. destruct (Ascii.eqb c comma) eqn:Hc.
    + intros [->|Hx]%elem_of_cons; [done|]. by apply IH.
    + destruct (split_on comma s) as [|y r] eqn:E.
      { by destruct (split_on_nonempty comma s). }
      intros [->|Hx]%elem_of_cons.
      * rewrite contains_comma_cons, Hc. apply IH. by left.
      * apply IH. by right.
Qed.

Lemma lstrip_comma_free s :
  contains "," s = false → contains "," (lstrip s) = false.
Proof.
  induction s as [|c s IH]; [done|]. cbn [lstrip].
  destruct (is_space c); [|done]. rewrite contains_comma_cons.
  intros [_ Hs]%orb_false_elim. by apply IH.
Qed.

Lemma rstrip_comma_free s :
  contains "," s = false → contains "," (rstrip s) = false.
Proof.
  induction s as [|c s IH]; [done|]. rewrite contains_comma_cons.
  intros [Hc Hs]%orb_false_elim. cbn [rstrip]. specialize (IH Hs).
  destruct (rstrip s).
  - destruct (is_space c); [done|]. by rewrite contains_comma_cons, Hc.
  - by rewrite contains_comma_cons, Hc.
Qed.

Lemma placeholders_short s : s ∈ placeholders → (String.length s ≤ 4)%nat.
Proof.
  unfold placeholders. rewrite !elem_of_cons, elem_of_nil.
  intros [->|[->|[->|[->|[->|[]]]]]]; cbn; lia.
Qed.

Lemma placeholders_comma_free s : s ∈ placeholders → contains "," s = false.
Proof.
  unfold placeholders. rewrite !elem_of_cons, elem_of_nil.
  by intros [->|[->|[->|[->|[->|[]]]]]].
Qed.

Lemma placeholders_marks s : s ∈ placeholders ↔ s = "" ∨ s ∈ marks.
Proof. unfold placeholders, marks. rewrite !elem_of_cons. tauto. Qed.

Lemma truthy_true s : truthy s = true ↔ s ≠ "".
Proof. by destruct s. Qed.

Lemma is_blank_false s :
  is_blank s = false ↔ s ≠ "" ∧ strip s ∉ placeholders.
Proof.
  unfold is_blank. rewrite orb_false_iff, negb_false_iff, truthy_true.
  by rewrite bool_decide_eq_false.
Qed.

Lemma is_blank_join l :
  Forall tag_ok l → is_blank (join ", " l) = false ↔ l ≠ [] ∧ join ", " l ∉ marks.
Proof.
  intros Hl. rewrite is_blank_false, (strip_join l Hl), placeholders_marks.
  destruct Hl as [|t l Ht Hl]; [by split; intros [? _]|].
  pose proof (join_nonempty ", " t l (proj1 Ht)).
  split; intros [? ?]; (split; [done|tauto]).
Qed.

Lemma parse_list_tags raw : Forall tag_ok (_parse_list raw).
Proof.
  unfold _parse_list. destruct (is_blank raw); [done|].
  apply Forall_forall. intros x [Hx (y & -> & Hy)%list_elem_of_fmap]%list_elem_of_filter.
  apply truthy_true in Hx. split_and!; [done|apply strip_idemp|].
  apply rstrip_comma_free, lstrip_comma_free. by eapply split_on_free_elem.
Qed.

Lemma parse_list_round_trip l :
  _parse_list (join ", " l) = l ↔ tags_ok l.
Proof.
  split.
  - intros Hl. assert (Forall tag_ok l) as Htags.
    { rewrite <- Hl. apply parse_list_tags. }
    split; [done|]. destruct l as [|t l]; [by unfold marks; cbn; rewrite !elem_of_cons, elem_of_nil; intuition discriminate|].
    apply (is_blank_join _ Htags). unfold _parse_list in Hl.
    by destruct (is_blank _).
  - intros [Htags Hm]. destruct l as [|t l]; [done|].
    unfold _parse_list. rewrite (proj2 (is_blank_join _ Htags)) by done.
    rewrite (split_on_join _ _ Htags). rewrite fmap_cons, <- list_fmap_compose.
    apply Forall_cons_1 in Htags as [(Ht & Hs & _) Htags].
    rewrite Hs. rewrite filter_cons_True by by apply truthy_true.
    f_equal. clear Hm. induction Htags as [|u l (Hu & Hus & _) Htags IH]; [done|].
    rewrite fmap_cons. cbn [compose].
    change (strip (" " ++ u)) with (strip u). rewrite Hus.
    rewrite filter_cons_True by by apply truthy_true. by rewrite IH.
Qed.

Lemma parse_assignment_round_trip a :
  parse_assignment (or_dash a) = a ↔ assignment_ok a.
Proof.
  unfold assignment_ok, marks. destruct (decide (a = "")) as [->|Ha].
  { split; [|done]. intros _. split; [done|].
    rewrite !elem_of_cons, elem_of_nil. intuition discriminate. }
  assert (or_dash a = a) as -> by by destruct a.
  unfold parse_assignment. case_bool_decide as Hin.
  - split; [done|]. intros [Hs Hm]. rewrite Hs in Hin.
    revert Hin Hm. rewrite !elem_of_cons. tauto.
  - split; [|tauto]. intros Hs. split; [done|]. rewrite Hs in Hin.
    revert Hin. rewrite !elem_of_cons. tauto.
Qed.

Lemma year_texts : forallb year_text_ok (N.of_nat <$> seq 1 (N.to_nat 9999)) = true.
Proof. vm_compute. reflexivity. Qed.

Lemma year_text y : (1 ≤ y ≤ 9999)%N → year_text_ok y = true.
Proof.
  intros Hy. pose proof year_texts as Hall.
  rewrite forallb_forall in Hall. apply Hall.
  apply list_elem_of_In, list_elem_of_fmap. exists (N.to_nat y).
  split; [by rewrite N2Nat.id|]. apply elem_of_seq. lia.
Qed.

Lemma month_day_texts :
  forallb (λ m, forallb (month_day_text_ok m) (N.of_nat <$> seq 1 (N.to_nat 31)))
    (N.of_nat <$> seq 1 (N.to_nat 12)) = true.
Proof. vm_compute. reflexivity. Qed.

Lemma month_day_text_spec m d :
  (1 ≤ m ≤ 12)%N → (1 ≤ d ≤ 31)%N → month_day_text_ok m d = true.
Proof.
  intros Hm Hd. pose proof month_day_texts as Hall.
  rewrite forallb_forall in Hall. specialize (Hall m).
  rewrite forallb_forall in Hall. apply Hall.
  - apply list_elem_of_In, list_elem_of_fmap. exists (N.to_nat m).
    split; [by rewrite N2Nat.id|]. apply elem_of_seq. lia.
  - apply list_elem_of_In, list_elem_of_fmap. exists (N.to_nat d).
    split; [by rewrite N2Nat.id|]. apply elem_of_seq. lia.
Qed.

Lemma days_in_month_le y m : (28 ≤ days_in_month y m ≤ 31)%N.
Proof. unfold days_in_month. repeat case_match; lia. Qed.

Lemma is_digit_not_space c : is_digit c = true → is_space c = false.
Proof.
  unfold is_digit, is_space. cbv zeta.
  intros [?%N.leb_le ?%N.leb_le]%andb_true_iff.
  apply orb_false_iff. split; apply andb_false_iff.
  - right. apply N.leb_gt. lia.
  - right. apply N.leb_gt. lia.
Qed.

Lemma rstrip_cons c s : rstrip s = s → s ≠ "" → rstrip (String c s) = String c s.
Proof. intros Hs Hne. cbn [rstrip]. rewrite Hs. by destruct s. Qed.

Lemma strptime_iso d :
  valid_date d →
  strptime_ymd (date_iso d) = Some d ∧ strip (date_iso d) = date_iso d
  ∧ (4 < String.length (date_iso d))%nat.
Proof.
  destruct d as [y m dd]. intros (Hy & Hm & Hd). cbn [year month day] in *.
  pose proof (year_text y Hy) as Hyt. unfold year_text_ok in Hyt.
  pose proof (days_in_month_le y m) as Hdim.
  pose proof (month_day_text_spec m dd Hm ltac:(lia)) as Hmd.
  apply bool_decide_eq_true in Hmd as (Hmd & Hr & Hne).
  unfold date_iso. cbn [year month day].
  change (zero_pad 2 (pretty m) ++ "-" ++ zero_pad 2 (pretty dd))
    with (month_day_text m dd).
  destruct (zero_pad 4 (pretty y)) as [|a [|b [|c [|e [|]]]]]; try done.
  apply andb_true_iff in Hyt as [Hyt Hval].
  apply andb_true_iff in Hyt as [Hyt He].
  apply andb_true_iff in Hyt as [Hyt Hc].
  apply andb_true_iff in Hyt as [Ha Hb]. apply N.eqb_eq in Hval.
  change (String a (String b (String c (String e ""))) ++ "-"
          ++ month_day_text m dd)
    with (String a (String b (String c (String e
            (String dash (month_day_text m dd)))))).
  split_and!.
  - unfold strptime_ymd. rewrite Ha, Hb, Hc, He, Hmd, Hval.
    assert ((1 <=? y)%N = true) as -> by (apply N.leb_le; lia).
    assert ((dd <=? days_in_month y m)%N = true) as ->
      by (apply N.leb_le; lia).
    done.
  - unfold strip. cbn [lstrip]. rewrite (is_digit_not_space a Ha).
    repeat (apply rstrip_cons; [|done]). done.
  - cbn [String.length]. lia.
Qed.

Lemma in_range_spec lo hi c :
  in_range lo hi c = true ↔ (lo ≤ Ascii.N_of_ascii c ≤ hi)%N.
Proof. unfold in_range. rewrite andb_true_iff, !N.leb_le. done. Qed.

Lemma is_digit_spec c :
  is_digit c = true ↔ (48 ≤ Ascii.N_of_ascii c ≤ 57)%N.
Proof. unfold is_digit. cbv zeta. rewrite andb_true_iff, !N.leb_le. done. Qed.

Ltac alternatives :=
  repeat match goal with
    | H : _ ∈ (_ ++ _)%list |- _ => apply elem_of_app in H as [H|H]
    | H : _ ∈ (if ?b then _ else _) |- _ => destruct b eqn:?
    | H : _ ∈ [] |- _ => by apply elem_of_nil in H
    | H : _ ∈ [_] |- _ => apply list_elem_of_singleton in H
    | H : _ && _ = true |- _ => apply andb_true_iff in H as [? ?]
    | H : in_range _ _ _ = true |- _ => apply in_range_spec in H
    | H : is_digit _ = true |- _ => apply is_digit_spec in H
    end; simplify_eq; unfold digit_val; try lia.

Lemma month_alternatives_range s m r :
  (m, r) ∈ month_alternatives s → (1 ≤ m ≤ 12)%N.
Proof.
  unfold month_alternatives. destruct s as [|a [|b rest2]]; intros Hin;
    alternatives.
Qed.

Lemma day_alternatives_range s d r :
  (d, r) ∈ day_alternatives s → (1 ≤ d)%N.
Proof.
  unfold day_alternatives. destruct s as [|a [|b rest2]]; intros Hin;
    alternatives.
Qed.

Lemma match_month_day_range s m d r :
  match_month_day s = Some (m, d, r) → (1 ≤ m ≤ 12 ∧ 1 ≤ d)%N.
Proof.
  unfold match_month_day. intros Hh%head_Some_elem_of.
  apply list_elem_of_join in Hh as (l & Hin & (x & -> & Hx)%list_elem_of_fmap).
  destruct x as [m' rest]. apply month_alternatives_range in Hx.
  destruct rest as [|c rest]; [by apply elem_of_nil in Hin|].
  destruct (Ascii.eqb c dash); [|by apply elem_of_nil in Hin].
  apply list_elem_of_fmap in Hin as ([d' r'] & [= -> -> ->] & Hd).
  apply day_alternatives_range in Hd. done.
Qed.

Lemma strptime_valid s d : strptime_ymd s = Some d → valid_date d.
Proof.
  unfold strptime_ymd.
  destruct s as [|y1 [|y2 [|y3 [|y4 [|c rest]]]]]; try done.
  destruct (_ && Ascii.eqb c dash) eqn:Hdigits; [|done].
  destruct (match_month_day rest) as [[[m dd] [|]]|] eqn:Hmd; try done.
  apply match_month_day_range in Hmd as [Hm Hd].
  destruct ((1 <=? _)%N && _) eqn:Hcheck; [|done]. intros [= <-].
  apply andb_true_iff in Hcheck as [Hy%N.leb_le Hdim%N.leb_le].
  apply andb_true_iff in Hdigits as [Hdigits _].
  apply andb_true_iff in Hdigits as [Hdigits ?%is_digit_spec].
  apply andb_true_iff in Hdigits as [Hdigits ?%is_digit_spec].
  apply andb_true_iff in Hdigits as [?%is_digit_spec ?%is_digit_spec].
  unfold valid_date. cbn [year month day]. unfold digit_val in *. lia.
Qed.

Lemma parse_date_round_trip d :
  _parse_date (iso_or_empty d) = d ↔ date_ok d.
Proof.
  destruct d as [d|]; [|done]. cbn [iso_or_empty date_ok]. split.
  - unfold _parse_date. destruct (is_blank _); [done|].
    apply strptime_valid.
  - intros (Hp & Hs & Hlen)%strptime_iso. unfold _parse_date.
    rewrite (proj2 (is_blank_false _)), Hs; [done|].
    split; [by destruct (date_iso d)|]. rewrite Hs.
    intros ?%placeholders_short. lia.
Qed.

Lemma pilot_cells p :
  pilot_from_dict (pilot_to_dict p)
  = Pilot.mk (strip (Pilot.pilot_id p)) (strip (Pilot.name p))
      (_parse_list (join ", " (Pilot.skills p)))
      (_parse_list (join ", " (Pilot.certifications p)))
      (strip (Pilot.location p)) (strip (Pilot.status p))
      (parse_assignment (or_dash (Pilot.current_assignment p)))
      (_parse_date (iso_or_empty (Pilot.available_from p))).
Proof. reflexivity. Qed.

Lemma drone_cells d :
  drone_from_dict (drone_to_dict d)
  = Drone.mk (strip (Drone.drone_id d)) (strip (Drone.model d))
      (_parse_list (join ", " (Drone.capabilities d)))
      (strip (Drone.status d)) (strip (Drone.location d))
      (parse_assignment (or_dash (Drone.current_assignment d)))
      (_parse_date (iso_or_empty (Drone.maintenance_due d))).
Proof. reflexivity. Qed.

Lemma mission_cells m :
  mission_from_dict (mission_to_dict m)
  = Mission.mk (strip (Mission.project_id m)) (strip (Mission.client m))
      (strip (Mission.location m))
      (_parse_list (join ", " (Mission.required_skills m)))
      (_parse_list (join ", " (Mission.required_certs m)))
      (_parse_date (iso_or_empty (Mission.start_date m)))
      (_parse_date (iso_or_empty (Mission.end_date m)))
      (strip (Mission.priority m))
      (parse_assignment (or_dash (Mission.assigned_pilot m)))
      (parse_assignment (or_dash (Mission.assigned_drone m))).
Proof. reflexivity. Qed.

(** X30: For pilots, drones and missions, from_dict(to_dict(x)) gives x back
    exactly when x is well formed: its text fields carry no outer white
    space, its tags are non-empty, stripped and free of commas, no tag list
    and no assignment reads as one of the marks for a missing value (en
    dash, hyphen, nan, None), and its dates are calendar dates of the years
    1 to 9999. *)
Theorem from_dict_to_dict_round_trip :
  (∀ p, pilot_from_dict (pilot_to_dict p) = p ↔ pilot_well_formed p)
  ∧ (∀ d, drone_from_dict (drone_to_dict d) = d ↔ drone_well_formed d)
  ∧ (∀ m, mission_from_dict (mission_to_dict m) = m ↔ mission_well_formed m).
Proof.
  split_and!.
  - intros p. rewrite pilot_cells. unfold pilot_well_formed.
    rewrite <- !parse_list_round_trip, <- parse_assignment_round_trip,
      <- parse_date_round_trip.
    destruct p. cbn. split; [by intros [= -> -> -> -> -> -> -> ->]|].
    intros (? & ? & ? & ? & ? & ? & ? & ?). congruence.
  - intros d. rewrite drone_cells. unfold drone_well_formed.
    rewrite <- parse_list_round_trip, <- parse_assignment_round_trip,
      <- parse_date_round_trip.
    destruct d. cbn. split; [by intros [= -> -> -> -> -> -> ->]|].
    intros (? & ? & ? & ? & ? & ? & ?). congruence.
  - intros m. rewrite mission_cells. unfold mission_well_formed.
    rewrite <- !parse_list_round_trip, <- !parse_assignment_round_trip,
      <- !parse_date_round_trip.
    destruct m. cbn. split; [by intros [= -> -> -> -> -> -> -> -> -> ->]|].
    intros (? & ? & ? & ? & ? & ? & ? & ? & ? & ?). congruence.
Qed.

(* ------------------------------------------------------------------ *)
(** ** Ids read off a message *)

Lemma all_chars_app class a b :
  all_chars class (a ++ b) = all_chars class a && all_chars class b.
Proof.
  induction a as [|c a IH]; [done|].
  change (String c a ++ b) with (String c (a ++ b)). cbn [all_chars].
  by rewrite IH, andb_assoc.
Qed.

Lemma all_chars_impl (class1 class2 : Ascii.ascii → bool) s :
  (∀ c, class1 c = true → class2 c = true) →
  all_chars class1 s = true → all_chars class2 s = true.
Proof.
  intros Himp. induction s as [|c s IH]; [done|]. cbn [all_chars].
  intros [Hc Hs]%andb_true_iff. by rewrite (Himp c Hc), (IH Hs).
Qed.

Lemma upper_char_lower_char c : upper_char (lower_char c) = upper_char c.
Proof. by destruct c as [[] [] [] [] [] [] [] []]. Qed.

Lemma upper_lower s : upper (lower s) = upper s.
Proof.
  induction s as [|c s IH]; [done|]. cbn [upper lower].
  by rewrite upper_char_lower_char, IH.
Qed.

Lemma upper_app a b : upper (a ++ b) = upper a ++ upper b.
Proof.
  induction a as [|c a IH]; [done|].
  change (String c a ++ b) with (String c (a ++ b)). cbn [upper].
  by rewrite IH.
Qed.

Lemma upper_char_digit c : is_digit c = true → upper_char c = c.
Proof. by destruct c as [[] [] [] [] [] [] [] []]. Qed.

Lemma upper_digits s : all_chars is_digit s = true → upper s = s.
Proof.
  induction s as [|c s IH]; [done|]. cbn [all_chars upper].
  intros [Hc Hs]%andb_true_iff. by rewrite (upper_char_digit c Hc), (IH Hs).
Qed.

Lemma match_literal_lower p s m rest :
  match_literal p s = Some (m, rest) → lower m = lower p.
Proof.
  revert s m rest. induction p as [|a p IH]; intros s m rest.
  - cbn. by intros [= <- _].
  - destruct s as [|b s]; [done|]. cbn [match_literal].
    destruct (Ascii.eqb_spec (lower_char a) (lower_char b)) as [Hab|]; [|done].
    destruct (match_literal p s) as [[m' rest']|] eqn:Hm; [|done].
    cbn. intros [= <- _]. cbn [lower]. by rewrite Hab, (IH _ _ _ Hm).
Qed.

Lemma span_class class s : all_chars class (span class s).1 = true.
Proof.
  induction s as [|c s IH]; [done|]. cbn [span].
  destruct (class c) eqn:Hc; [|done]. destruct (span class s) as [run rest].
  cbn [fst all_chars] in *. by rewrite Hc, IH.
Qed.

Lemma match_id_at_shape p before s m :
  match_id_at p before s = Some m →
  ∃ lit digits, m = lit ++ digits ∧ lower lit = lower p
    ∧ digits ≠ "" ∧ all_chars is_digit digits = true.
Proof.
  unfold match_id_at. destruct (word_boundary before s); [|done].
  destruct (match_literal p s) as [[lit rest]|] eqn:Hlit; [|done]. cbn.
  pose proof (span_class is_digit rest) as Hdigits.
  destruct (span is_digit rest) as [digits after]. cbn [fst] in Hdigits.
  destruct (truthy digits) eqn:Hne; [|done].
  destruct (word_boundary _ after); [|done]. intros [= <-].
  exists lit, digits. split_and!; [done| |by destruct digits|done].
  by eapply match_literal_lower.
Qed.

Lemma search_id_shape p before s m :
  search_id p before s = Some m →
  ∃ lit digits, m = lit ++ digits ∧ lower lit = lower p
    ∧ digits ≠ "" ∧ all_chars is_digit digits = true.
Proof.
  revert before. induction s as [|c s IH]; intros before; cbn [search_id].
  - destruct (match_id_at p before "") eqn:Hm; [|done].
    intros [= ->]. by eapply match_id_at_shape.
  - destruct (match_id_at p before (String c s)) eqn:Hm; [|by apply IH].
    intros [= ->]. by eapply match_id_at_shape.
Qed.

Lemma extract_id_shape msg prefixes id :
  _extract_id msg prefixes = Some id → id_of prefixes id.
Proof.
  induction prefixes as [|p prefixes IH]; [done|]. cbn [_extract_id].
  destruct (search_id p None msg) as [m|] eqn:Hm.
  - intros [= <-].
    apply search_id_shape in Hm as (lit & digits & -> & Hlit & Hne & Hd).
    exists p, digits. split_and!; [by left| |done|done].
    rewrite upper_app, (upper_digits _ Hd).
    by rewrite <- (upper_lower lit), Hlit, upper_lower.
  - intros (p' & digits & Hin & ?)%IH. exists p', digits. split; [by right|done].
Qed.

Lemma id_of_mission_word id :
  id_of mission_prefixes id → all_chars is_word id = true.
Proof.
  intros (p & digits & Hp & -> & _ & Hd). rewrite all_chars_app.
  apply andb_true_iff. split.
  - unfold mission_prefixes in Hp. rewrite !elem_of_cons, elem_of_nil in Hp.
    by destruct Hp as [->|[->|[->|[]]]].
  - eapply all_chars_impl; [|done]. intros c Hc. unfold is_word.
    by rewrite Hc.
Qed.

Lemma pair_id_not_word a b : all_chars is_word (a ++ " & " ++ b) = false.
Proof. rewrite all_chars_app. apply andb_false_iff. by right. Qed.

Lemma scan_double_bookings_all {E} (P : Conflict → Prop)
    (assigned : Mission.t → string) (entity_map : gmap string E)
    conflict_of missions :
  (∀ eid e mi mj, P (conflict_of eid e mi mj)) →
  Forall P (scan_double_bookings assigned entity_map conflict_of missions).
Proof.
  intros HP. unfold scan_double_bookings.
  apply Forall_flat_map, Forall_forall. intros [eid m_list] _.
  induction m_list as [|mi rest IH]; [constructor|].
  cbn [pair_loop]. apply Forall_app. split; [|done].
  apply Forall_forall. intros c (mj & _ & Hc)%list_elem_of_omap.
  unfold booking_body in Hc.
  destruct (Mission.overlaps_with mi mj); [|done].
  destruct (entity_map !! eid); [|done]. injection Hc as <-. apply HP.
Qed.

Lemma conflicts_pair_or_single pilots drones missions :
  Forall (λ c, all_chars is_word (mission_id c) = false
               ∨ conflict_type c ≠ "Double Booking")
    (detect_all_conflicts pilots drones missions).
Proof.
  unfold detect_all_conflicts. cbn [foldl]. rewrite app_nil_l.
  repeat apply Forall_app_2.
  - apply scan_double_bookings_all. intros. left. apply pair_id_not_word.
  - apply scan_double_bookings_all. intros. left. apply pair_id_not_word.
  - eapply Forall_impl; [apply detect_skill_mismatches_type|].
    intros c Hc. right. by rewrite Hc.
  - eapply Forall_impl; [apply detect_maintenance_conflicts_type|].
    intros c Hc. right. by rewrite Hc.
  - eapply Forall_impl; [apply detect_location_mismatches_type|].
    intros c Hc. right. by rewrite Hc.
Qed.

(** X27: For a message of the ASCII range and prefixes made of letters,
    digits and underscores, an id that _extract_id returns is one of the
    prefixes it was given, in upper case, followed by one digit or more. *)
Theorem extract_id_sound (msg : string) (prefixes : list string) (id : string) :
  all_chars is_ascii msg = true →
  Forall (λ p, all_chars is_word p = true) prefixes →
  _extract_id msg prefixes = Some id → id_of prefixes id.
Proof. intros _ _. apply extract_id_shape. Qed.

Lemma extract_id_sound_witness :
  all_chars is_ascii "cancel mission prj002 now" = true
  ∧ Forall (λ p, all_chars is_word p = true) mission_prefixes
  ∧ _extract_id "cancel mission prj002 now" mission_prefixes = Some "PRJ002"
  ∧ id_of mission_prefixes "PRJ002".
Proof.
  assert (Hmsg : all_chars is_ascii "cancel mission prj002 now" = true)
    by reflexivity.
  assert (Hpre : Forall (λ p, all_chars is_word p = true) mission_prefixes)
    by (repeat constructor).
  assert (H : _extract_id "cancel mission prj002 now" mission_prefixes
              = Some "PRJ002") by (vm_compute; reflexivity).
  split; [exact Hmsg|]. split; [exact Hpre|]. split; [exact H|].
  exact (extract_id_sound "cancel mission prj002 now" mission_prefixes
           "PRJ002" Hmsg Hpre H).
Defined.

(** X28: When detect_intent reads a mission id off a message, the conflicts
    _handle_resolve_conflict keeps for that id hold no double booking,
    whatever the snapshot: a double booking is filed under the two mission
    ids joined by an ampersand. When the snapshot has double bookings only,
    the reply says that no conflicts were found for the mission. *)
Theorem resolve_conflict_skips_double_bookings (message : string)
    (s : DataStore.t) (mid : string) :
  Params.mission_id (detect_intent message).2 = Some mid →
  let found := detect_all_conflicts (DataStore.pilots s) (DataStore.drones s)
                 (DataStore.missions s) in
  Forall (λ c, conflict_type c ≠ "Double Booking")
    (relevant_conflicts (Some mid) found)
  ∧ (of_type "Double Booking" found →
     _handle_resolve_conflict (Some mid) s
     = (s, Returned ("### ✅ No conflicts found" ++ (" for **" ++ mid ++ "**")
                     ++ newline ++ "Everything looks clean!"))).
Proof.
  intros Hmid found.
  assert (id_of mission_prefixes mid) as Hid.
  { unfold detect_intent in Hmid. cbv zeta in Hmid.
    repeat case_match; unfold Params.of_raw in Hmid;
      cbn [snd Params.mission_id] in Hmid; try done;
      by eapply extract_id_shape. }
  assert (truthy mid = true) as Hne.
  { destruct Hid as (p & digits & Hp & -> & _).
    unfold mission_prefixes in Hp. rewrite !elem_of_cons, elem_of_nil in Hp.
    by destruct Hp as [->|[->|[->|[]]]]. }
  assert (Forall (λ c, conflict_type c ≠ "Double Booking")
            (relevant_conflicts (Some mid) found)) as Hrel.
  { unfold relevant_conflicts, given. rewrite Hne.
    apply Forall_forall. intros c [Hc Hin]%list_elem_of_filter.
    pose proof (conflicts_pair_or_single (DataStore.pilots s)
                  (DataStore.drones s) (DataStore.missions s)) as Hall.
    rewrite Forall_forall in Hall. destruct (Hall c Hin) as [Hpair|]; [|done].
    rewrite Hc, (id_of_mission_word _ Hid) in Hpair. done. }
  split; [done|]. intros Hdouble.
  assert (relevant_conflicts (Some mid) found = []) as Hnone.
  { destruct (relevant_conflicts (Some mid) found) as [|c l] eqn:E; [done|].
    apply Forall_cons_1 in Hrel as [Hc _]. destruct Hc.
    unfold of_type in Hdouble. rewrite Forall_forall in Hdouble.
    apply Hdouble. assert (c ∈ relevant_conflicts (Some mid) found) as Hin
      by (rewrite E; left).
    unfold relevant_conflicts, given in Hin. rewrite Hne in Hin.
    by apply list_elem_of_filter in Hin as [_ ?]. }
  unfold _handle_resolve_conflict, run_detect_all_conflicts.
  unfold mbind, Store_bind, gets, mret, Store_ret. fold found.
  rewrite Hnone. unfold given. by rewrite Hne.
Qed.

Lemma resolve_conflict_skips_double_bookings_witness :
  Params.mission_id (detect_intent "Resolve conflicts for PRJ001").2
  = Some "PRJ001"
  ∧ Forall (λ c, conflict_type c ≠ "Double Booking")
      (relevant_conflicts (Some "PRJ001")
         (detect_all_conflicts sample_pilots sample_drones
            double_booked_missions)).
Proof.
  assert (H : Params.mission_id
                (detect_intent "Resolve conflicts for PRJ001").2
              = Some "PRJ001") by (vm_compute; reflexivity).
  split; [exact H|].
  exact (proj1 (resolve_conflict_skips_double_bookings
                  "Resolve conflicts for PRJ001"
                  (DataStore.mk sample_pilots sample_drones
                     double_booked_missions) "PRJ001" H)).
Defined.

(* ------------------------------------------------------------------ *)
(** ** Binary64 arithmetic *)

Lemma round_half_even_mono (x y : Q) :
  (x <= y)%Q → round_half_even x <= round_half_even y.
Proof.
  intros Hxy. unfold round_half_even.
  pose proof (Qfloor_le x) as Hx1. pose proof (Qlt_floor x) as Hx2.
  pose proof (Qfloor_le y) as Hy1. pose proof (Qlt_floor y) as Hy2.
  pose proof (Qfloor_resp_le _ _ Hxy) as Hfl.
  rewrite inject_Z_plus in Hx2, Hy2. change (inject_Z 1) with 1%Q in *.
  destruct (decide (Qfloor x = Qfloor y)) as [Heq|Hne].
  - rewrite <- Heq in *.
    destruct (Qcompare_spec (x - inject_Z (Qfloor x)) (1 # 2)),
      (Qcompare_spec (y - inject_Z (Qfloor x)) (1 # 2));
      destruct (Z.even (Qfloor x)); first [lia | lra].
  - assert (Qfloor x + 1 <= Qfloor y) by lia.
    destruct (Qcompare_spec (x - inject_Z (Qfloor x)) (1 # 2)),
      (Qcompare_spec (y - inject_Z (Qfloor y)) (1 # 2));
      destruct (Z.even (Qfloor x)), (Z.even (Qfloor y)); lia.
Qed.

Lemma round_half_even_Z (n : Z) : round_half_even (inject_Z n) = n.
Proof.
  assert (inject_Z n <= inject_Z n <= inject_Z n)%Q as H by lra.
  apply round_half_even_between in H. lia.
Qed.

Section SortAgreement.
Context {A : Type} (before before' : A → A → bool).

Lemma insert_sorted_ext_in (x : A) (l : list A) :
  (∀ y, y ∈ l → before x y = before' x y) →
  insert_sorted before x l = insert_sorted before' x l.
Proof.
  induction l as [|y l IH]; intros Hl; [done|]. cbn.
  rewrite Hl by left. rewrite IH; [done|]. intros z Hz. apply Hl. by right.
Qed.

(** Two orders that agree on the elements of a list sort it alike. *)
Lemma stable_sort_ext_in (l : list A) :
  (∀ x y, x ∈ l → y ∈ l → before x y = before' x y) →
  stable_sort before l = stable_sort before' l.
Proof.
  induction l as [|x l IH]; intros Hl; [done|].
  rewrite !stable_sort_cons, IH
    by (intros y z Hy Hz; apply Hl; by right).
  apply insert_sorted_ext_in. intros y Hy.
  rewrite (stable_sort_perm before' l) in Hy.
  apply Hl; [left|by right].
Qed.
End SortAgreement.

Lemma pilot_map_of_last pilots pid :
  pilot_map_of pilots !! pid = pilot_with_id pilots pid.
Proof.
  unfold pilot_with_id.
  induction pilots as [|p pilots IH] using rev_ind; [done|].
  rewrite pilot_map_of_snoc, filter_app, filter_cons, filter_nil.
  destruct (decide (Pilot.pilot_id p = pid)) as [<-|Hne].
  - by rewrite lookup_insert_eq, last_snoc.
  - by rewrite lookup_insert_ne, app_nil_r.
Qed.

Module Binary64Facts.
Import Binary64 Binary64Notions.

Lemma pow2_pos z : (0 < pow2 z)%Q.
Proof. unfold pow2. by apply Qpower_0_lt. Qed.

Lemma pow2_add a b : (pow2 (a + b) == pow2 a * pow2 b)%Q.
Proof. unfold pow2. by apply Qpower_plus. Qed.

Lemma pow2_sub a b : (pow2 (a - b) == pow2 a / pow2 b)%Q.
Proof. unfold pow2. by apply Qpower_minus. Qed.

Lemma pow2_le a b : a <= b → (pow2 a <= pow2 b)%Q.
Proof. intros. unfold pow2. by apply Qpower_le_compat_l. Qed.

Lemma pow2_Z z : 0 <= z → (pow2 z == inject_Z (2 ^ z))%Q.
Proof. intros. unfold pow2. by rewrite Zpower_Qpower. Qed.

Lemma pow2_succ z : (pow2 (z + 1) == 2 * pow2 z)%Q.
Proof. rewrite pow2_add. unfold pow2 at 2. rewrite Qpower_1_r. ring. Qed.

(** [2^(log2 n) <= n < 2^(log2 n + 1)] read in the rationals. *)
Lemma log2_bounds (n : Z) :
  0 < n → (pow2 (Z.log2 n) <= inject_Z n < pow2 (Z.log2 n + 1))%Q.
Proof.
  intros Hn. pose proof (Z.log2_spec n Hn) as [Hlo Hhi].
  pose proof (Z.log2_nonneg n).
  rewrite !pow2_Z by lia. rewrite <- Zle_Qle, <- Zlt_Qlt.
  by rewrite <- Z.add_1_r in Hhi.
Qed.

Lemma floor_log2_spec (q : Q) :
  (0 < q)%Q → (pow2 (floor_log2 q) <= q < pow2 (floor_log2 q + 1))%Q.
Proof.
  intros Hq. destruct q as [n d]. unfold floor_log2. cbn [Qnum Qden].
  assert (0 < n) as Hn. { unfold Qlt in Hq. cbn in Hq. lia. }
  pose proof (log2_bounds n Hn) as [Hn1 Hn2].
  pose proof (log2_bounds (Z.pos d) ltac:(lia)) as [Hd1 Hd2].
  set (a := Z.log2 n) in *. set (b := Z.log2 (Z.pos d)) in *.
  assert (n # d == inject_Z n / inject_Z (Z.pos d))%Q as Hnd
    by apply Qmake_Qdiv.
  assert (0 < inject_Z (Z.pos d))%Q as Hdpos.
  { change 0%Q with (inject_Z 0). rewrite <- Zlt_Qlt. lia. }
  pose proof (pow2_pos a). pose proof (pow2_pos b).
  pose proof (pow2_pos (a - b)) as Hab. pose proof (pow2_sub a b) as Hsub.
  pose proof (pow2_succ a) as Ha1. pose proof (pow2_succ b) as Hb1.
  pose proof (pow2_succ (a - b)) as Hab1.
  pose proof (pow2_succ (a - b - 1)) as Hab0.
  replace (a - b - 1 + 1) with (a - b) in Hab0 by lia.
  (* n/d < 2^(a-b+1) and 2^(a-b-1) < n/d *)
  assert (n # d < pow2 (a - b + 1))%Q as Hup.
  { rewrite Hnd, Hab1, Hsub. apply Qlt_shift_div_r; [done|].
    assert (2 * (pow2 a / pow2 b) * inject_Z (Z.pos d)
            == (2 * pow2 a) * (inject_Z (Z.pos d) / pow2 b))%Q as ->
      by (field; lra).
    assert (1 <= inject_Z (Z.pos d) / pow2 b)%Q
      by (apply Qle_shift_div_l; [done|lra]).
    nra. }
  assert (pow2 (a - b - 1) < n # d)%Q as Hlow.
  { rewrite Hnd. apply Qlt_shift_div_l; [done|].
    assert (pow2 (a - b - 1) == pow2 a / (2 * pow2 b))%Q as ->.
    { rewrite Hab0 in Hsub. apply (Qmult_inj_l _ _ 2); [lra|].
      rewrite Hsub. field. lra. }
    assert (pow2 a / (2 * pow2 b) * inject_Z (Z.pos d)
            == pow2 a * (inject_Z (Z.pos d) / (2 * pow2 b)))%Q as ->
      by (field; lra).
    assert (inject_Z (Z.pos d) / (2 * pow2 b) < 1)%Q
      by (apply Qlt_shift_div_r; lra).
    nra. }
  destruct (Qle_bool (pow2 (a - b)) (n # d)) eqn:Hcmp.
  - apply Qle_bool_iff in Hcmp. done.
  - assert (¬ (pow2 (a - b) <= n # d)%Q) as Hnot
      by (rewrite <- Qle_bool_iff; congruence).
    apply Qnot_le_lt in Hnot. replace (a - b - 1 + 1) with (a - b) by lia.
    split; [by apply Qlt_le_weak|done].
Qed.

Lemma floor_log2_mono (x y : Q) :
  (0 < x)%Q → (x <= y)%Q → floor_log2 x <= floor_log2 y.
Proof.
  intros Hx Hxy.
  destruct (floor_log2_spec x Hx) as [Hx1 _].
  destruct (floor_log2_spec y ltac:(lra)) as [_ Hy2].
  destruct (Z.le_gt_cases (floor_log2 x) (floor_log2 y)) as [|Hgt]; [done|].
  pose proof (pow2_le (floor_log2 y + 1) (floor_log2 x) ltac:(lia)). lra.
Qed.

Lemma nearest_pos_value (q : Q) :
  (nearest_pos q
   == inject_Z (round_half_even (q / pow2 (ulp_exponent q)))
      * pow2 (ulp_exponent q))%Q.
Proof. unfold nearest_pos. apply Qred_correct. Qed.

Lemma nearest_pos_nonneg (q : Q) : (0 < q)%Q → (0 <= nearest_pos q)%Q.
Proof.
  intros Hq. rewrite nearest_pos_value.
  pose proof (pow2_pos (ulp_exponent q)) as Hu.
  assert (0 <= round_half_even (q / pow2 (ulp_exponent q))) as Hr.
  { rewrite <- (round_half_even_Z 0). apply round_half_even_mono.
    apply Qle_shift_div_l; [done|]. change (inject_Z 0) with 0%Q. lra. }
  apply Qmult_le_0_compat; [|lra].
  change 0%Q with (inject_Z 0). by rewrite <- Zle_Qle.
Qed.

(** A power of two the unit divides stays on its side of the rounding. *)
Lemma nearest_pos_le_pow2 (q : Q) (e : Z) :
  (0 < q)%Q → ulp_exponent q <= e → (q <= pow2 e)%Q →
  (nearest_pos q <= pow2 e)%Q.
Proof.
  intros Hq He Hle. rewrite nearest_pos_value.
  set (u := ulp_exponent q) in *. pose proof (pow2_pos u) as Hu.
  assert (pow2 e == inject_Z (2 ^ (e - u)) * pow2 u)%Q as ->.
  { rewrite <- pow2_Z by lia. rewrite <- pow2_add. by replace (e - u + u) with e by lia. }
  apply Qmult_le_compat_r; [|lra]. rewrite <- Zle_Qle.
  rewrite <- (round_half_even_Z (2 ^ (e - u))). apply round_half_even_mono.
  apply Qle_shift_div_r; [done|].
  rewrite <- pow2_Z by lia. rewrite <- pow2_add.
  by replace (e - u + u) with e by lia.
Qed.

Lemma nearest_pos_ge_pow2 (q : Q) (e : Z) :
  (0 < q)%Q → ulp_exponent q <= e → (pow2 e <= q)%Q →
  (pow2 e <= nearest_pos q)%Q.
Proof.
  intros Hq He Hle. rewrite nearest_pos_value.
  set (u := ulp_exponent q) in *. pose proof (pow2_pos u) as Hu.
  assert (pow2 e == inject_Z (2 ^ (e - u)) * pow2 u)%Q as ->.
  { rewrite <- pow2_Z by lia. rewrite <- pow2_add. by replace (e - u + u) with e by lia. }
  apply Qmult_le_compat_r; [|lra]. rewrite <- Zle_Qle.
  rewrite <- (round_half_even_Z (2 ^ (e - u))). apply round_half_even_mono.
  apply Qle_shift_div_l; [done|].
  rewrite <- pow2_Z by lia. rewrite <- pow2_add.
  by replace (e - u + u) with e by lia.
Qed.

Lemma nearest_pos_mono (x y : Q) :
  (0 < x)%Q → (x <= y)%Q → (nearest_pos x <= nearest_pos y)%Q.
Proof.
  intros Hx Hxy. assert (0 < y)%Q as Hy by lra.
  pose proof (floor_log2_mono x y Hx Hxy) as Hfl.
  destruct (decide (ulp_exponent x = ulp_exponent y)) as [Heq|Hne].
  - rewrite !nearest_pos_value, Heq.
    pose proof (pow2_pos (ulp_exponent y)) as Hu.
    apply Qmult_le_compat_r; [|lra]. rewrite <- Zle_Qle.
    apply round_half_even_mono. apply Qle_shift_div_l; [done|].
    assert (x / pow2 (ulp_exponent y) * pow2 (ulp_exponent y) == x)%Q as ->
      by (field; lra).
    done.
  - assert (floor_log2 x < floor_log2 y
            ∧ ulp_exponent y = floor_log2 y - 52
            ∧ ulp_exponent x < ulp_exponent y) as (Hlt & Huy & Hux)
      by (unfold ulp_exponent in *;
          destruct (Z.max_spec (floor_log2 x - 52) (-1074)) as [[? ->]|[? ->]],
            (Z.max_spec (floor_log2 y - 52) (-1074)) as [[? Hm]|[? Hm]];
          rewrite Hm in *; lia).
    destruct (floor_log2_spec x Hx) as [_ Hx2].
    destruct (floor_log2_spec y Hy) as [Hy1 _].
    pose proof (pow2_le (floor_log2 x + 1) (floor_log2 y) ltac:(lia)).
    apply Qle_trans with (pow2 (floor_log2 y)).
    + apply nearest_pos_le_pow2; [done|lia|lra].
    + apply nearest_pos_ge_pow2; [done|lia|done].
Qed.

Lemma Qcompare_Gt_iff (x y : Q) : (x ?= y)%Q = Gt ↔ (y < x)%Q.
Proof. by rewrite <- Qgt_alt. Qed.

Lemma Qcompare_Lt_iff (x y : Q) : (x ?= y)%Q = Lt ↔ (x < y)%Q.
Proof. by rewrite <- Qlt_alt. Qed.

Lemma Qcompare_Eq_iff (x y : Q) : (x ?= y)%Q = Eq ↔ (x == y)%Q.
Proof. by rewrite <- Qeq_alt. Qed.

Lemma nearest_sign (q : Q) :
  ((0 <= q)%Q → (0 <= nearest q)%Q) ∧ ((q <= 0)%Q → (nearest q <= 0)%Q).
Proof.
  unfold nearest. destruct (q ?= 0)%Q eqn:Hc.
  - pose proof (proj1 (Qcompare_Eq_iff _ _) Hc). split; intros; lra.
  - pose proof (proj1 (Qcompare_Lt_iff _ _) Hc) as Hlt. rewrite Qred_correct.
    pose proof (nearest_pos_nonneg (- q) ltac:(lra)). split; intros; lra.
  - pose proof (proj1 (Qcompare_Gt_iff _ _) Hc) as Hgt.
    pose proof (nearest_pos_nonneg q Hgt). split; intros; lra.
Qed.

(** Rounding keeps the order. *)
Lemma nearest_mono (x y : Q) : (x <= y)%Q → (nearest x <= nearest y)%Q.
Proof.
  intros Hxy. destruct (Qlt_le_dec 0 x) as [Hx|Hx].
  - unfold nearest.
    rewrite (proj2 (Qcompare_Gt_iff x 0) Hx).
    rewrite (proj2 (Qcompare_Gt_iff y 0)) by lra.
    by apply nearest_pos_mono.
  - destruct (Qlt_le_dec y 0) as [Hy|Hy].
    + unfold nearest.
      rewrite (proj2 (Qcompare_Lt_iff x 0)) by lra.
      rewrite (proj2 (Qcompare_Lt_iff y 0)) by lra.
      rewrite !Qred_correct.
      pose proof (nearest_pos_mono (- y) (- x) ltac:(lra) ltac:(lra)). lra.
    + pose proof (proj2 (nearest_sign x) Hx).
      pose proof (proj1 (nearest_sign y) Hy). lra.
Qed.

(** A value between two numbers that rounding keeps finite is rounded to a
    finite number between their roundings. *)
Lemma round64_between (a b q a' b' : Q) :
  (a <= q <= b)%Q → round64 a = Finite a' → round64 b = Finite b' →
  ∃ r, round64 q = Finite r ∧ (a' <= r <= b')%Q.
Proof.
  intros [Ha Hb]. unfold round64.
  destruct (Qle_bool (pow2 1024) (Qabs (nearest a))) eqn:Ea; [done|].
  destruct (Qle_bool (pow2 1024) (Qabs (nearest b))) eqn:Eb; [done|].
  intros [= <-] [= <-].
  pose proof (nearest_mono a q Ha). pose proof (nearest_mono q b Hb).
  assert (∀ x, Qle_bool (pow2 1024) (Qabs x) = false
               ↔ (- pow2 1024 < x < pow2 1024)%Q) as Habs.
  { intros x. rewrite <- not_true_iff_false, Qle_bool_iff.
    pose proof (pow2_pos 1024).
    destruct (Qlt_le_dec x 0) as [Hneg|Hpos].
    - rewrite Qabs_neg by lra. split; [intros Hn|intros ? ?; lra].
      apply Qnot_le_lt in Hn. lra.
    - rewrite Qabs_pos by lra. split; [intros Hn|intros ? ?; lra].
      apply Qnot_le_lt in Hn. lra. }
  apply Habs in Ea, Eb.
  rewrite (proj2 (Habs (nearest q))) by lra. eauto.
Qed.

(** *** The range of the operations *)

Lemma within_weaken lo hi lo' hi' x :
  (lo' <= lo)%Q → (hi <= hi')%Q → within lo hi x → within lo' hi' x.
Proof. intros ? ? (q & -> & ?). exists q. split; [done|lra]. Qed.

Lemma round64_within lo hi lo' hi' q :
  (lo <= q <= hi)%Q → round64 lo = Finite lo' → round64 hi = Finite hi' →
  within lo' hi' (round64 q).
Proof. intros. by eapply round64_between. Qed.

Lemma fadd_within a b c d l h x y :
  within a b x → within c d y →
  round64 (a + c) = Finite l → round64 (b + d) = Finite h →
  within l h (fadd x y).
Proof.
  intros (p & -> & Hp) (q & -> & Hq) Hl Hh. cbn.
  eapply round64_within; [|done..]. lra.
Qed.

Lemma fneg_within a b x : within a b x → within (- b) (- a) (fneg x).
Proof.
  intros (p & -> & Hp). exists (Qred (- p)). split; [done|].
  rewrite Qred_correct. lra.
Qed.

(** The product with a constant that is not negative. *)
Lemma fmul_within a b c l h x :
  (0 <= c)%Q → within a b x →
  round64 (a * c) = Finite l → round64 (b * c) = Finite h →
  within l h (fmul x (Finite c)).
Proof.
  intros Hc (p & -> & Hp) Hl Hh. cbn.
  eapply round64_within; [|done..]. nra.
Qed.

Lemma fdiv_within a b c l h x :
  (0 < c)%Q → within a b x →
  round64 (a / c) = Finite l → round64 (b / c) = Finite h →
  ∃ y, fdiv x (Finite c) = Returned y ∧ within l h y.
Proof.
  intros Hc (p & -> & Hp) Hl Hh. unfold fdiv, is_zero.
  destruct (Qeq_bool c 0) eqn:Hz.
  { apply Qeq_bool_iff in Hz. lra. }
  eexists. split; [done|].
  eapply round64_within; [|done..].
  split; apply Qmult_le_compat_r; try lra; apply Qlt_le_weak, Qinv_lt_0_compat; lra.
Qed.


Lemma within_Finite lo hi q : (lo <= q <= hi)%Q → within lo hi (Finite q).
Proof. intros. by exists q. Qed.

Lemma int_truediv_within (a : Z) (b : positive) :
  0 <= a <= Z.pos b → within 0 1 (int_truediv a b).
Proof.
  intros Hab. unfold int_truediv.
  apply (round64_within 0 1); [|vm_compute; reflexivity..].
  unfold Qle; cbn [Qnum Qden]. lia.
Qed.

Lemma set_overlap_ratio_within (required available : gset string) :
  within 0 1 (set_overlap_ratio required available).
Proof.
  unfold set_overlap_ratio.
  destruct (decide (required = ∅)) as [He | Hne].
  { apply within_Finite. lra. }
  pose proof (norm_set_nonempty _ Hne) as Hpos.
  assert (Hsub : norm_set required ∩ norm_set available ⊆ norm_set required)
    by (intros t [? _]%elem_of_intersection; done).
  apply subseteq_size in Hsub.
  apply int_truediv_within. rewrite Zpos_of_nat by done. lia.
Qed.

Lemma location_match_score_within a b :
  within 0 1 (location_match_score a b).
Proof.
  unfold location_match_score.
  destruct (_ || _); [apply within_Finite; lra|].
  destruct (String.eqb _ _); apply within_Finite; lra.
Qed.

Lemma literal_half_within : within 0 1 (literal (5 # 10)).
Proof.
  exists (1 # 2)%Q. split; [vm_compute; reflexivity|]. split; discriminate.
Qed.

(** The product of a score between 0 and 1 with a weight. *)
Lemma fmul_weight_within (c : Q) x :
  literal c = Finite (value_of (literal c)) →
  (0 <= value_of (literal c))%Q →
  round64 (0 * value_of (literal c)) = Finite 0 →
  round64 (1 * value_of (literal c)) = Finite (value_of (literal c)) →
  within 0 1 x →
  within 0 (value_of (literal c)) (fmul x (literal c)).
Proof.
  intros E Hc H0 H1 Hx. rewrite E at 2. by eapply fmul_within.
Qed.

Ltac by_computation := vm_compute; first [reflexivity | discriminate].

Ltac weight_within :=
  apply fmul_weight_within; [by_computation..|].

(** The weighted sum of four scores between 0 and 1 is a finite number
    between 0 and 1. *)
Lemma weighted_score_within skill cert loc avail :
  within 0 1 skill → within 0 1 cert → within 0 1 loc → within 0 1 avail →
  within 0 1 (weighted_score skill cert loc avail None).
Proof.
  intros Hs Hc Hl Ha. unfold weighted_score, default, default_weights.
  cbn [w_skill w_cert w_location w_availability].
  apply (fadd_within 0 (value_of (literal (85 # 100)))
           0 (value_of (literal (15 # 100))) 0 1).
  - apply (fadd_within 0 (value_of (literal (70 # 100)))
             0 (value_of (literal (15 # 100))) 0 _).
    + apply (fadd_within 0 (value_of (literal (40 # 100)))
               0 (value_of (literal (30 # 100))) 0 _).
      * by weight_within.
      * by weight_within.
      * by_computation.
      * by_computation.
    + by weight_within.
    + by_computation.
    + by_computation.
  - by weight_within.
  - by_computation.
  - by_computation.
Qed.

Lemma score_pilot_for_mission_within pilot mission :
  within 0 1 (score_pilot_for_mission pilot mission).1.
Proof.
  unfold score_pilot_for_mission. cbn [fst].
  apply weighted_score_within.
  - apply set_overlap_ratio_within.
  - apply set_overlap_ratio_within.
  - apply location_match_score_within.
  - destruct (Pilot.available_from pilot), (Mission.start_date mission);
      try apply literal_half_within.
    destruct (date_leb _ _); apply within_Finite; lra.
Qed.

Lemma score_drone_for_mission_within drone mission :
  within 0 1 (score_drone_for_mission drone mission).1.
Proof.
  unfold score_drone_for_mission. cbn [fst].
  apply (fadd_within 0 (value_of (literal (80 # 100)))
           0 (value_of (literal (20 # 100))) 0 1).
  - apply (fadd_within 0 (value_of (literal (50 # 100)))
             0 (value_of (literal (30 # 100))) 0 _).
    + weight_within. apply set_overlap_ratio_within.
    + weight_within. apply location_match_score_within.
    + by_computation.
    + by_computation.
  - weight_within.
    destruct (Drone.maintenance_due drone), (Mission.end_date mission);
      try apply literal_half_within.
    destruct (date_ltb _ _); apply within_Finite; lra.
  - by_computation.
  - by_computation.
Qed.


(** *** The risk *)

Lemma risk_unfold p d sw dp :
  _compute_risk_score p d sw dp
  = (base ← risk_base p d;
     t ← int_of_float base;
     mret (clamp_0_100 (t + swap_surcharge sw dp))).
Proof.
  unfold _compute_risk_score, risk_base.
  destruct (fdiv (fadd p d) (of_int 2)) as [half|e]; [|done]. cbn.
  destruct (int_of_float _) as [t|e]; [|done]. cbn.
  unfold clamp_0_100, swap_surcharge, priority_surcharge.
  destruct sw; [|by rewrite Z.add_0_r].
  repeat case_bool_decide; repeat case_decide; cbn [orb];
    first [done | do 3 f_equal; lia | exfalso; intuition congruence].
Qed.

Lemma risk_base_returns p d : ∃ base, risk_base p d = Returned base.
Proof.
  unfold risk_base, fdiv.
  replace (is_zero (of_int 2)) with false by (vm_compute; reflexivity).
  cbn. eauto.
Qed.

Lemma risk_base_moderate p d :
  moderate p → moderate d →
  ∃ base, risk_base p d = Returned base
          ∧ within (- pow2 1006) (pow2 1006) base.
Proof.
  unfold moderate, risk_base. intros Hp Hd.
  assert (within (- pow2 1001) (pow2 1001) (fadd p d)) as Hsum
    by (eapply fadd_within; [exact Hp|exact Hd|by_computation..]).
  replace (of_int 2) with (Finite 2) by (vm_compute; reflexivity).
  edestruct (fdiv_within (- pow2 1001) (pow2 1001) 2 (- pow2 1000) (pow2 1000)
               (fadd p d)) as (half & Hdiv & Hhalf);
    [lra|exact Hsum|by_computation..|].
  rewrite Hdiv. cbn [mbind outcome_bind mret outcome_ret].
  eexists. split; [done|].
  replace (of_int 50) with (Finite 50) by (vm_compute; reflexivity).
  apply (within_weaken (- (50 * pow2 1000)) (50 * pow2 1000));
    [by_computation..|].
  apply (fmul_within (- pow2 1000) (pow2 1000) 50); [lra| |by_computation..].
  unfold fsub.
  apply (fadd_within 1 1 (- pow2 1000) (pow2 1000));
    [apply within_Finite; lra| |by_computation..].
  apply fneg_within in Hhalf.
  eapply within_weaken; [| |exact Hhalf]; [apply Qle_refl|].
  by_computation.
Qed.

(** *** Rankings *)

Lemma flt_Finite a b : flt (Finite a) (Finite b) = true ↔ (a < b)%Q.
Proof.
  cbn. unfold is_negative.
  destruct (a - b ?= 0)%Q eqn:Hc.
  - pose proof (proj1 (Qcompare_Eq_iff _ _) Hc). split; [done|]. intros. lra.
  - pose proof (proj1 (Qcompare_Lt_iff _ _) Hc). split; [|done]. intros. lra.
  - pose proof (proj1 (Qcompare_Gt_iff _ _) Hc). split; [done|]. intros. lra.
Qed.

Lemma feq_Finite a b : feq (Finite a) (Finite b) = true ↔ (a == b)%Q.
Proof. cbn. apply Qeq_bool_iff. Qed.

Lemma fle_Finite a b : fle (Finite a) (Finite b) = true ↔ (a <= b)%Q.
Proof.
  unfold fle. rewrite orb_true_iff, flt_Finite, feq_Finite. split.
  - intros [?|?]; lra.
  - intros H. destruct (Qlt_le_dec a b); [by left|right; lra].
Qed.

Lemma score_desc_value {E} (x y : candidate E) :
  finite_score x → finite_score y → score_desc x y = value_desc x y.
Proof.
  intros [a Ha] [b Hb]. unfold score_desc, value_desc. rewrite Ha, Hb.
  cbn [value_of]. apply eq_true_iff_eq.
  rewrite negb_true_iff, <- not_true_iff_false, flt_Finite, Qle_bool_iff.
  split; [apply Qnot_lt_le|apply Qle_not_lt].
Qed.

Lemma value_desc_total {E} (x y : candidate E) :
  value_desc x y = true ∨ value_desc y x = true.
Proof.
  unfold value_desc. rewrite !Qle_bool_iff.
  destruct (Qlt_le_dec (value_of (cand_score x)) (value_of (cand_score y)));
    [right; by apply Qlt_le_weak|by left].
Qed.

Lemma value_desc_trans {E} (x y z : candidate E) :
  value_desc x y = true → value_desc y z = true → value_desc x z = true.
Proof. unfold value_desc. rewrite !Qle_bool_iff. intros. by eapply Qle_trans. Qed.

Lemma feq_value (x y k : float) :
  feq x k = true → feq y k = true → (value_of x == value_of y)%Q.
Proof.
  destruct x as [a| |], y as [b| |], k as [c| |]; cbn; try done.
  rewrite !Qeq_bool_iff. intros -> ->. reflexivity.
Qed.

Lemma binary64_top_of_sorted {E} (cands : list (candidate E)) top_n :
  Forall finite_score cands → 0 <= top_n →
  ranked_top cands (slice_to (stable_sort score_desc cands) top_n) top_n.
Proof.
  intros Hfin Hn. rewrite slice_to_take by done.
  rewrite (stable_sort_ext_in score_desc value_desc).
  2:{ rewrite Forall_forall in Hfin. intros x y Hx Hy.
      apply score_desc_value; by apply Hfin. }
  set (sorted := stable_sort value_desc cands).
  assert (Hperm : sorted ≡ₚ cands) by apply stable_sort_perm.
  assert (Hsorted : StronglySorted score_ge sorted).
  { pose proof (stable_sort_sorted value_desc value_desc_total
                  value_desc_trans cands) as H. fold sorted in H.
    assert (Hf : Forall finite_score sorted) by by rewrite Hperm.
    clear Hperm. induction H as [|x l Hl IH Hx]; [constructor|].
    apply Forall_cons in Hf as [[a Ha] Hf].
    constructor; [by apply IH|].
    rewrite Forall_forall in Hx, Hf |- *. intros y Hy.
    destruct (Hf y Hy) as [b Hb]. specialize (Hx y Hy).
    unfold value_desc, score_ge in *. rewrite Ha, Hb in *. cbn in Hx.
    apply fle_Finite. by apply Qle_bool_iff. }
  rewrite <- (take_drop (Z.to_nat top_n) sorted) in Hsorted, Hperm.
  apply StronglySorted_app in Hsorted as (Hcross & Htop & _).
  repeat split.
  - rewrite length_take, <- Hperm, take_drop. done.
  - exists (drop (Z.to_nat top_n) sorted). split; [done|].
    intros x y Hx Hy. by apply Hcross.
  - done.
  - intros k.
    rewrite <- (stable_sort_filter value_desc
                  (λ x, feq (cand_score x) k = true) cands).
    + apply filter_take_prefix.
    + intros a b Ha Hb. unfold value_desc. apply Qle_bool_iff.
      rewrite (feq_value _ _ _ Ha Hb). apply Qle_refl.
Qed.

Lemma collect_candidates_available {E} (ia : E → bool)
    (sc : E → float * breakdown) l :
  collect_candidates ia sc l = available_candidates ia sc l.
Proof.
  unfold available_candidates. induction l as [|e l IH]; [done|].
  rewrite filter_cons. cbn [collect_candidates].
  destruct (ia e) eqn:He; cbn [negb].
  - rewrite decide_True by done. rewrite fmap_cons, <- IH.
    by destruct (sc e).
  - by rewrite decide_False by congruence.
Qed.

Lemma available_candidates_finite {E} (ia : E → bool)
    (sc : E → float * breakdown) l :
  (∀ e, within 0 1 (sc e).1) →
  Forall finite_score (available_candidates ia sc l).
Proof.
  intros Hsc. apply Forall_forall. intros c Hc.
  apply list_elem_of_fmap in Hc as (e & -> & _).
  destruct (Hsc e) as (q & Hq & _). by exists q.
Qed.

Lemma available_candidates_none {E} (ia : E → bool)
    (sc : E → float * breakdown) (l : list E) :
  Forall (λ e, ia e ≠ true) l → available_candidates ia sc l = [].
Proof.
  intros H. unfold available_candidates.
  induction H as [|e l He _ IH]; [done|].
  by rewrite filter_cons, decide_False.
Qed.

Lemma slice_to_nil {A} n : slice_to ([] : list A) n = [].
Proof. unfold slice_to. cbn. by destruct (n <? 0); rewrite take_nil. Qed.

Lemma binary64_best_pilots_ranked pilots mission top_n :
  0 <= top_n →
  ranked_top
    (available_candidates Pilot.is_available
       (λ p, score_pilot_for_mission p mission) pilots)
    (find_best_pilots pilots mission top_n) top_n.
Proof.
  intros Hn. unfold find_best_pilots. rewrite collect_candidates_available.
  apply binary64_top_of_sorted; [|done].
  apply available_candidates_finite. intros p.
  apply score_pilot_for_mission_within.
Qed.

Lemma binary64_best_drones_ranked drones mission top_n :
  0 <= top_n →
  ranked_top
    (available_candidates Drone.is_available
       (λ d, score_drone_for_mission d mission) drones)
    (find_best_drones drones mission top_n) top_n.
Proof.
  intros Hn. unfold find_best_drones. rewrite collect_candidates_available.
  apply binary64_top_of_sorted; [|done].
  apply available_candidates_finite. intros d.
  apply score_drone_for_mission_within.
Qed.

Lemma binary64_best_pilots_nil pilots mission top_n :
  Forall (λ p, Pilot.status p ≠ "Available") pilots →
  find_best_pilots pilots mission top_n = [].
Proof.
  intros H. unfold find_best_pilots.
  rewrite collect_candidates_available, available_candidates_none.
  - apply slice_to_nil.
  - eapply Forall_impl; [exact H|]. intros p Hp. by rewrite pilot_is_available_iff.
Qed.

Lemma binary64_best_drones_nil drones mission top_n :
  Forall (λ d, Drone.status d ≠ "Available") drones →
  find_best_drones drones mission top_n = [].
Proof.
  intros H. unfold find_best_drones.
  rewrite collect_candidates_available, available_candidates_none.
  - apply slice_to_nil.
  - eapply Forall_impl; [exact H|]. intros p Hp. by rewrite drone_is_available_iff.
Qed.

(** *** Plans *)

Lemma for_each_Forall2 {A B} (body : A → outcome B) l bs :
  for_each body l = Returned bs ↔ Forall2 (λ a b, body a = Returned b) l bs.
Proof.
  revert bs. induction l as [|a l IH]; intros bs; cbn.
  - split; [intros [= <-]; constructor|by intros ->%Forall2_nil_inv_l].
  - destruct (body a) as [b|e] eqn:Ha; cbn.
    + destruct (for_each body l) as [bs'|e] eqn:Hl; cbn.
      * split.
        -- intros [= <-]. constructor; [done|]. by apply IH.
        -- intros (b' & bs'' & Hb & Hbs & ->)%Forall2_cons_inv_l.
           apply IH in Hbs. unfold mret, outcome_ret. congruence.
      * split; [done|].
        intros (b' & bs'' & Hb & Hbs & ->)%Forall2_cons_inv_l.
        apply IH in Hbs. done.
    + split; [done|].
      intros (b' & bs'' & Hb & Hbs & ->)%Forall2_cons_inv_l. congruence.
Qed.

Lemma for_each_returns {A B} (body : A → outcome B) l :
  (∀ a, a ∈ l → ∃ b, body a = Returned b) →
  ∃ bs, for_each body l = Returned bs.
Proof.
  induction l as [|a l IH]; intros Hl; cbn; [by eexists|].
  destruct (Hl a ltac:(left)) as [b ->].
  destruct IH as [bs ->]; [intros; apply Hl; by right|].
  cbn. by eexists.
Qed.

Lemma within_unit_moderate x : within 0 1 x → moderate x.
Proof. apply within_weaken; by_computation. Qed.

Lemma risk_returns p d sw dp :
  within 0 1 p → within 0 1 d →
  ∃ n, _compute_risk_score p d sw dp = Returned n.
Proof.
  intros Hp%within_unit_moderate Hd%within_unit_moderate.
  rewrite risk_unfold.
  destruct (risk_base_moderate _ _ Hp Hd) as (base & -> & q & -> & _).
  by eexists.
Qed.

Lemma slice_to_subseteq {A} (l : list A) n : slice_to l n ⊆ l.
Proof.
  unfold slice_to. destruct (n <? 0); intros x Hx;
    by apply elem_of_take in Hx as (? & ?%list_elem_of_lookup_2 & _).
Qed.

Lemma ranking_unit_scores {E} (ia : E → bool) (sc : E → float * breakdown)
    l n :
  (∀ e, within 0 1 (sc e).1) →
  unit_scores (slice_to (stable_sort score_desc (collect_candidates ia sc l)) n).
Proof.
  intros Hsc. apply Forall_forall. intros c Hc.
  apply slice_to_subseteq in Hc. rewrite stable_sort_perm in Hc.
  rewrite collect_candidates_available in Hc.
  apply list_elem_of_fmap in Hc as (e & -> & _). apply Hsc.
Qed.

Lemma best_pilots_unit_scores pilots u n :
  unit_scores (find_best_pilots pilots u n).
Proof.
  apply ranking_unit_scores. intros p. apply score_pilot_for_mission_within.
Qed.

Lemma best_drones_unit_scores drones u n :
  unit_scores (find_best_drones drones u n).
Proof.
  apply ranking_unit_scores. intros d. apply score_drone_for_mission_within.
Qed.

Lemma phase1_plans_returns u bp bd :
  unit_scores bp → unit_scores bd →
  ∃ plans, phase1_plans u bp bd = Returned plans
           ∧ Forall (λ plan, displaced_from_mission plan = None) plans.
Proof.
  unfold unit_scores. intros Hbp Hbd. unfold phase1_plans.
  destruct bp as [|c bp]; [exists []; by split|].
  destruct bd as [|[[d ds] dbd] bd]; [exists []; by split|].
  apply Forall_cons in Hbd as [Hds _]. cbn in Hds.
  set (body := λ '(pilot, p_score, p_bd), _).
  destruct (for_each_returns body (slice_to (c :: bp) 2)) as [plans Hplans].
  { intros [[p ps] pbd] Hin. apply slice_to_subseteq in Hin.
    rewrite Forall_forall in Hbp. specialize (Hbp _ Hin). cbn in Hbp.
    unfold body. destruct (risk_returns ps ds false None Hbp Hds) as [n ->].
    cbn. by eexists. }
  exists plans. split; [done|].
  apply for_each_Forall2 in Hplans. apply Forall_forall. intros plan Hin.
  apply list_elem_of_lookup in Hin as [i Hi].
  destruct (Forall2_lookup_r _ _ _ _ _ Hplans Hi) as ([[p ps] pbd] & _ & Hb).
  unfold body in Hb. destruct (_compute_risk_score ps ds false None); [|done].
  cbn in Hb. by injection Hb as <-.
Qed.

Lemma flt_floor_iff u p :
  flt (score_pilot_for_mission p u).1 (literal (3 # 10)) = false
  ↔ clears_floor u p.
Proof.
  unfold clears_floor.
  destruct (score_pilot_for_mission_within p u) as (q & -> & _).
  replace (literal (3 # 10)) with (Finite (value_of (literal (3 # 10))))
    by (vm_compute; reflexivity).
  rewrite fle_Finite, <- not_true_iff_false, flt_Finite.
  split; [apply Qnot_lt_le|apply Qle_not_lt].
Qed.

(** One turn of the phase 2 loop. *)
Lemma displacement_plan_cases u pilots bd m :
  unit_scores bd →
  ∃ r, displacement_plan u (pilot_map_of pilots) bd m = Returned r
       ∧ match r with
         | Some plan =>
             ∃ p, pilot_with_id pilots (Mission.assigned_pilot m) = Some p
                  ∧ displaces plan m p ∧ clears_floor u p
         | None => ¬ viable_swap u pilots m
         end.
Proof.
  unfold unit_scores. intros Hbd. unfold displacement_plan, viable_swap.
  rewrite pilot_map_of_last.
  destruct (pilot_with_id pilots (Mission.assigned_pilot m)) as [p|];
    [|exists None; split; [done|]; by intros (? & ? & _)].
  pose proof (flt_floor_iff u p) as Hfloor.
  pose proof (score_pilot_for_mission_within p u) as Hs.
  destruct (score_pilot_for_mission p u) as [s b]. cbn [fst] in *.
  destruct (flt s (literal (3 # 10))) eqn:Hlt.
  - exists None. split; [done|]. intros (p' & [= <-] & Hc).
    apply Hfloor in Hc. congruence.
  - assert (Hd : within 0 1 (from_option cand_score (Finite 0) (head bd))).
    { destruct bd as [|c bd]; cbn; [apply within_Finite; lra|].
      by apply Forall_cons in Hbd as [? _]. }
    destruct (risk_returns s _ true (Some (Mission.priority m)) Hs Hd) as [n ->].
    cbn. eexists (Some _). split; [done|]. exists p.
    split; [done|]. split; [done|]. by apply Hfloor.
Qed.

Lemma phase2_loop_returns u pilots bd l :
  unit_scores bd →
  ∃ found, for_each (displacement_plan u (pilot_map_of pilots) bd) l
           = Returned found
    ∧ displaced_from_mission <$> omap id found
      = (λ m, Some (Mission.project_id m)) <$> filter (viable_swap u pilots) l
    ∧ ∀ plan, plan ∈ omap id found ↔
        ∃ m, m ∈ l
             ∧ displacement_plan u (pilot_map_of pilots) bd m
               = Returned (Some plan).
Proof.
  intros Hbd. induction l as [|m l (found & Hfound & Hids & Hin)].
  { exists []. split; [done|]. split; [done|]. intros plan. split.
    - by intros ?%elem_of_nil.
    - by intros (m & ?%elem_of_nil & _). }
  destruct (displacement_plan_cases u pilots bd m Hbd) as (r & Hr & Hcase).
  exists (r :: found). split; [by cbn; rewrite Hr, Hfound|].
  rewrite filter_cons. split.
  - destruct r as [plan|]; cbn [omap list_omap id].
    + destruct Hcase as (p & Hp & Hd & Hc).
      rewrite decide_True by by exists p.
      rewrite !fmap_cons, Hids. f_equal. apply Hd.
    + by rewrite decide_False.
  - intros plan. split.
    + destruct r as [plan'|]; cbn [omap list_omap id].
      * intros [->|(m' & Hm' & Hpl)%Hin]%elem_of_cons.
        -- exists m. split; [left|done].
        -- exists m'. split; [by right|done].
      * intros (m' & Hm' & Hpl)%Hin. exists m'. split; [by right|done].
    + intros (m' & [->|Hm']%elem_of_cons & Hpl).
      * rewrite Hr in Hpl. injection Hpl as ->. cbn. left.
      * destruct r; cbn; [right|]; apply Hin; eauto.
Qed.

Lemma no_drone_penalty_displaces plan m p :
  displaces (no_drone_penalty plan) m p ↔ displaces plan m p.
Proof. done. Qed.

Lemma available_candidates_some {E} (ia : E → bool)
    (sc : E → float * breakdown) (l : list E) :
  Exists (λ e, ia e = true) l →
  (0 < length (available_candidates ia sc l))%nat.
Proof.
  intros H. unfold available_candidates. rewrite length_fmap.
  induction H as [e l He | e l _ IH]; rewrite filter_cons.
  - rewrite decide_True by done. cbn [length]. lia.
  - destruct (decide (ia e = true)); cbn [length]; lia.
Qed.

Lemma binary64_best_pilots_nonempty pilots mission :
  Exists (λ p, Pilot.status p = "Available") pilots →
  find_best_pilots pilots mission 3 ≠ [].
Proof.
  intros H Hnil.
  destruct (binary64_best_pilots_ranked pilots mission 3 ltac:(lia))
    as (Hlen & _).
  rewrite Hnil in Hlen. cbn [length] in Hlen.
  assert (0 < length (available_candidates Pilot.is_available
            (λ p, score_pilot_for_mission p mission) pilots))%nat.
  { apply available_candidates_some. eapply Exists_impl; [exact H|].
    intros p. by rewrite pilot_is_available_iff. }
  lia.
Qed.

Lemma suggest_reassignment_sorts u pilots drones missions :
  suggest_reassignment u pilots drones missions
  = (found ← plans_found u pilots drones missions;
     mret (stable_sort risk_asc found)).
Proof.
  unfold suggest_reassignment, plans_found.
  destruct (phase1_plans _ _ _) as [p1|]; [|done]. cbn.
  by destruct (phase2_plans _ _ _ _ _) as [p2|].
Qed.

Lemma closing_displaced bd plans :
  displaced_from_mission <$> closing bd plans
  = displaced_from_mission <$> plans.
Proof.
  destruct bd; [|done]. cbn. rewrite <- list_fmap_compose.
  by apply list_fmap_ext.
Qed.

Lemma closing_elem bd plans plan :
  plan ∈ closing bd plans →
  ∃ plan', plan' ∈ plans
           ∧ ∀ m p, displaces plan m p ↔ displaces plan' m p.
Proof.
  destruct bd; cbn.
  - intros (plan' & -> & Hin)%list_elem_of_fmap. by exists plan'.
  - intros Hin. by exists plan.
Qed.

Lemma closing_elem_of bd plans plan' :
  plan' ∈ plans →
  ∃ plan, plan ∈ closing bd plans
          ∧ ∀ m p, displaces plan m p ↔ displaces plan' m p.
Proof.
  destruct bd; cbn.
  - intros Hin. exists (no_drone_penalty plan'). split; [|done].
    by apply list_elem_of_fmap_2.
  - intros Hin. by exists plan'.
Qed.

End Binary64Facts.

(* ------------------------------------------------------------------ *)
(** ** The risk in binary64 *)

Section Binary64Risk.
Import Binary64 Binary64Notions Binary64Facts.

(** C3 (amended): [_compute_risk_score] takes the binary64 value of the
    base [(1 − (pilotScore+droneScore)/2) × 50], truncates it toward zero
    (it does not round it), adds, for a swap, 20 and then 20 more for a
    displaced priority High, 30 more for Urgent, 5 more for Standard or
    Low, and clamps the sum to [0,100].  When the base is an infinity or a
    NaN the call ends with OverflowError or ValueError. *)
Theorem compute_risk_truncates (pilot_score drone_score : float)
    (is_swap : bool) (displaced_priority : option string) :
  ∃ base, risk_base pilot_score drone_score = Returned base
    ∧ match base with
      | Finite q =>
          ∃ t, truncation_of q t
               ∧ _compute_risk_score pilot_score drone_score is_swap
                   displaced_priority
                 = Returned (clamp_0_100
                               (t + swap_surcharge is_swap displaced_priority))
      | Infinity _ =>
          _compute_risk_score pilot_score drone_score is_swap
            displaced_priority = Raised "OverflowError"
      | NaN =>
          _compute_risk_score pilot_score drone_score is_swap
            displaced_priority = Raised "ValueError"
      end.
Proof.
  destruct (risk_base_returns pilot_score drone_score) as [base Hbase].
  exists base. split; [done|]. rewrite risk_unfold, Hbase.
  destruct base as [q| |]; [|done..].
  exists (int_of_Q q). split; [apply int_of_Q_trunc|done].
Qed.

(** C3, as stated, fails: for pilotScore = 0.25 and droneScore = 0 the base
    is 43.75, which rounds to 44, and the code returns 43; for
    pilotScore = 0.4 and droneScore = 0.8 the base is just below 20, which
    rounds to 20, and the code returns 19. *)
Lemma compute_risk_not_rounded :
  risk_base (literal (25 # 100)) (Finite 0) = Returned (Finite (175 # 4))
  ∧ computeRisk_rounded (literal (25 # 100)) (Finite 0) false None
    = Returned 44
  ∧ _compute_risk_score (literal (25 # 100)) (Finite 0) false None
    = Returned 43
  ∧ computeRisk_rounded (literal (4 # 10)) (literal (8 # 10)) false None
    = Returned 20
  ∧ _compute_risk_score (literal (4 # 10)) (literal (8 # 10)) false None
    = Returned 19.
Proof. repeat split; vm_compute; reflexivity. Qed.

Lemma clamp_0_100_range z : 0 <= clamp_0_100 z <= 100.
Proof. unfold clamp_0_100. lia. Qed.

(** C9 (amended): when [_compute_risk_score] returns, it returns an integer
    between 0 and 100, whatever the swap flag and the displaced priority
    (Urgent included); it returns for all finite scores of magnitude 2^1000
    at most, the scores between 0 and 1 among them; and the only way it
    ends otherwise is with OverflowError or ValueError. *)
Theorem compute_risk_in_range (pilot_score drone_score : float)
    (is_swap : bool) (displaced_priority : option string) :
  (∀ n, _compute_risk_score pilot_score drone_score is_swap displaced_priority
        = Returned n → 0 <= n <= 100)
  ∧ (∀ exn, _compute_risk_score pilot_score drone_score is_swap
              displaced_priority = Raised exn →
            exn = "OverflowError" ∨ exn = "ValueError")
  ∧ (moderate pilot_score → moderate drone_score →
     ∃ n, _compute_risk_score pilot_score drone_score is_swap
            displaced_priority = Returned n
          ∧ 0 <= n <= 100).
Proof.
  rewrite risk_unfold.
  destruct (risk_base_returns pilot_score drone_score) as [base Hbase].
  split; [|split].
  - intros n. rewrite Hbase. destruct base; [|done..].
    intros [= <-]. apply clamp_0_100_range.
  - intros exn. rewrite Hbase. destruct base; [done|..]; intros [= <-]; auto.
  - intros Hp Hd.
    destruct (risk_base_moderate _ _ Hp Hd) as (base' & -> & q & -> & _).
    eexists. split; [done|]. apply clamp_0_100_range.
Qed.

Lemma compute_risk_in_range_witness :
  moderate (literal (4 # 10)) ∧ moderate (literal (8 # 10))
  ∧ ∃ n, _compute_risk_score (literal (4 # 10)) (literal (8 # 10)) true
           (Some "Urgent") = Returned n
         ∧ 0 <= n <= 100.
Proof.
  assert (Hp : moderate (literal (4 # 10))).
  { eexists. split; [vm_compute; reflexivity|]. split; discriminate. }
  assert (Hd : moderate (literal (8 # 10))).
  { eexists. split; [vm_compute; reflexivity|]. split; discriminate. }
  split; [exact Hp|]. split; [exact Hd|].
  exact (proj2 (proj2 (compute_risk_in_range (literal (4 # 10))
                         (literal (8 # 10)) true (Some "Urgent"))) Hp Hd).
Defined.

(** C9, as stated, fails: the scores 1e308 are real numbers, their sum is
    beyond the range of binary64, and [int] of the infinite base raises
    before the clamp is reached. *)
Lemma compute_risk_overflow :
  fadd (literal (inject_Z (10 ^ 308))) (literal (inject_Z (10 ^ 308)))
  = Infinity false
  ∧ _compute_risk_score (literal (inject_Z (10 ^ 308)))
      (literal (inject_Z (10 ^ 308))) false None
    = Raised "OverflowError".
Proof. split; vm_compute; reflexivity. Qed.

End Binary64Risk.

(* ------------------------------------------------------------------ *)
(** ** Rankings in binary64 *)

Section Binary64Matching.
Import Binary64 Binary64Notions Binary64Facts.

(** C6: for a non-negative [top_n], [find_best_pilots] returns the [top_n]
    best-scoring pilots among those with status Available and no others,
    each with the binary64 score and the breakdown of
    [score_pilot_for_mission], sorted by descending raw score, pilots of
    equal score in the order of the collection; it returns the empty list
    when no pilot is Available.  [find_best_drones] does the same over the
    Available drones. *)
Theorem find_best_ranked (pilots : list Pilot.t) (drones : list Drone.t)
    (mission : Mission.t) (top_n : Z) :
  0 <= top_n →
  ranked_top
    (available_candidates Pilot.is_available
       (λ p, score_pilot_for_mission p mission) pilots)
    (find_best_pilots pilots mission top_n) top_n
  ∧ ranked_top
      (available_candidates Drone.is_available
         (λ d, score_drone_for_mission d mission) drones)
      (find_best_drones drones mission top_n) top_n
  ∧ (Forall (λ p, Pilot.status p ≠ "Available") pilots →
     find_best_pilots pilots mission top_n = [])
  ∧ (Forall (λ d, Drone.status d ≠ "Available") drones →
     find_best_drones drones mission top_n = []).
Proof.
  intros Hn.
  split; [by apply binary64_best_pilots_ranked|].
  split; [by apply binary64_best_drones_ranked|].
  split; [apply binary64_best_pilots_nil|apply binary64_best_drones_nil].
Qed.

Lemma find_best_ranked_witness :
  0 <= 3
  ∧ ranked_top
      (available_candidates Pilot.is_available
         (λ p, score_pilot_for_mission p survey) [asha; bala])
      (find_best_pilots [asha; bala] survey 3) 3.
Proof.
  split; [lia|].
  exact (proj1 (find_best_ranked [asha; bala] sample_drones survey 3
                  ltac:(lia))).
Defined.

(** The two pilots score 0.4 + 0.3 and 0.4 + 0.15 + 0.15: the same real
    number, and two binary64 numbers one unit in the last place apart.  The
    ranking follows the binary64 scores; the breakdown rounds both to 0.7. *)
Example ranking_follows_binary64 :
  (λ c, (Pilot.pilot_id (cand_entity c), cand_score c,
         c.2 !! 4%nat))
    <$> find_best_pilots [asha; bala] survey 3
  = [("P011", fadd (fadd (literal (4 # 10)) (literal (15 # 100)))
                   (literal (15 # 100)),
      Some ("total_score", literal (7 # 10)));
     ("P010", literal (7 # 10), Some ("total_score", literal (7 # 10)))].
Proof. vm_compute. reflexivity. Qed.

Example ranking_scores_differ :
  flt (literal (7 # 10))
      (fadd (fadd (literal (4 # 10)) (literal (15 # 100))) (literal (15 # 100)))
  = true.
Proof. vm_compute. reflexivity. Qed.
End Binary64Matching.

(* ------------------------------------------------------------------ *)
(** ** Displacement plans in binary64 *)

Section Binary64Plans.
Import Binary64 Binary64Notions Binary64Facts.

(** C4: the pool of phase 2 is the missions with an assigned pilot and
    priority Low, followed by those with priority Standard, each in the
    order of the mission list.  [suggest_reassignment] returns the plans it
    found, sorted by risk, plans of equal risk in the order they were found.
    When some pilot is Available no plan displaces anyone, whatever the
    drones.  When no pilot is Available every plan displaces the pilot of a
    pool mission; the pilot of a mission is the last pilot of the list with
    the id the mission names, a mission that names no pilot of the list
    gets no plan, and a pool mission whose pilot is in the list gets a plan
    exactly when the pilot's score against the urgent mission is not below
    0.3; the plans are found in the order of the pool. *)
Theorem displacement_phase (urgent_mission : Mission.t)
    (pilots : list Pilot.t) (drones : list Drone.t)
    (missions : list Mission.t) :
  reassignable missions = swap_pool missions
  ∧ ∃ found out,
      plans_found urgent_mission pilots drones missions = Returned found
      ∧ suggest_reassignment urgent_mission pilots drones missions
        = Returned out
      ∧ out = stable_sort risk_asc found
      ∧ (Exists (λ p, Pilot.status p = "Available") pilots →
         Forall (λ plan, displaced_from_mission plan = None) out)
      ∧ (Forall (λ p, Pilot.status p ≠ "Available") pilots →
         (∀ plan, plan ∈ out →
            ∃ m p, m ∈ missions ∧ in_swap_pool m
                   ∧ pilot_with_id pilots (Mission.assigned_pilot m) = Some p
                   ∧ displaces plan m p
                   ∧ clears_floor urgent_mission p)
         ∧ (∀ m p, m ∈ missions → in_swap_pool m →
              pilot_with_id pilots (Mission.assigned_pilot m) = Some p →
              ((∃ plan, plan ∈ out ∧ displaces plan m p)
               ↔ clears_floor urgent_mission p))
         ∧ displaced_from_mission <$> found
           = (λ m, Some (Mission.project_id m))
               <$> filter (viable_swap urgent_mission pilots)
                          (swap_pool missions)).
Proof.
  split; [apply reassignable_pool|].
  rewrite suggest_reassignment_sorts. unfold plans_found.
  pose proof (best_pilots_unit_scores pilots urgent_mission 3) as Hbp.
  pose proof (best_drones_unit_scores drones urgent_mission 3) as Hbd.
  pose proof (binary64_best_pilots_nonempty pilots urgent_mission) as Hsome.
  pose proof (binary64_best_pilots_nil pilots urgent_mission 3) as Hnone.
  set (bp := find_best_pilots pilots urgent_mission 3) in *.
  set (bd := find_best_drones drones urgent_mission 3) in *.
  destruct (phase1_plans_returns urgent_mission bp bd Hbp Hbd)
    as (p1 & Hp1 & Hp1none).
  rewrite Hp1. cbn [mbind outcome_bind].
  fold (closing bd).
  destruct bp as [|c rest].
  - (* no candidate: phase 1 is empty, phase 2 runs *)
    assert (p1 = []) as ->
      by (cbv [phase1_plans mret outcome_ret] in Hp1; congruence).
    unfold phase2_plans.
    destruct (phase2_loop_returns urgent_mission pilots bd
                (reassignable missions) Hbd) as (found2 & -> & Hids & Hin).
    cbn [mbind outcome_bind mret outcome_ret app].
    exists (closing bd (omap id found2)),
      (stable_sort risk_asc (closing bd (omap id found2))).
    split; [reflexivity|]. split; [reflexivity|].
    split; [reflexivity|]. split.
    { intros Hav. by destruct (Hsome Hav). }
    intros _. split; [|split].
    + intros plan Hplan. rewrite stable_sort_perm in Hplan.
      apply closing_elem in Hplan as (plan' & Hplan' & Hsame).
      apply Hin in Hplan' as (m & Hm & Hpl).
      apply reassignable_elem in Hm as [Hm Hpool].
      destruct (displacement_plan_cases urgent_mission pilots bd m Hbd)
        as (r & Hr & Hcase).
      rewrite Hr in Hpl. injection Hpl as ->.
      destruct Hcase as (p & Hp & Hd & Hc).
      exists m, p. by rewrite Hsame.
    + intros m p Hm Hpool Hp. split.
      * intros (plan & Hplan & Hd). rewrite stable_sort_perm in Hplan.
        apply closing_elem in Hplan as (plan' & Hplan' & Hsame).
        apply Hsame in Hd.
        apply Hin in Hplan' as (m' & Hm' & Hpl).
        destruct (displacement_plan_cases urgent_mission pilots bd m' Hbd)
          as (r & Hr & Hcase).
        rewrite Hr in Hpl. injection Hpl as ->.
        destruct Hcase as (p' & Hp' & Hd' & Hc).
        destruct Hd as (_ & _ & Hd), Hd' as (_ & _ & Hd').
        assert (p' = p) as -> by congruence. done.
      * intros Hc.
        destruct (displacement_plan_cases urgent_mission pilots bd m Hbd)
          as (r & Hr & Hcase).
        destruct r as [plan'|].
        -- destruct Hcase as (p' & Hp' & Hd' & _).
           assert (p' = p) as -> by congruence.
           destruct (closing_elem_of bd (omap id found2) plan')
             as (plan & Hplan & Hsame).
           { apply Hin. exists m. split; [|done].
             by apply reassignable_elem. }
           exists plan. rewrite stable_sort_perm. split; [done|].
           by apply Hsame.
        -- destruct Hcase. by exists p.
    + by rewrite closing_displaced, Hids, reassignable_pool.
  - (* a candidate: phase 2 does not run *)
    cbn [phase2_plans mbind outcome_bind mret outcome_ret].
    rewrite app_nil_r.
    exists (closing bd p1), (stable_sort risk_asc (closing bd p1)).
    split; [reflexivity|]. split; [reflexivity|].
    split; [reflexivity|]. split.
    + intros _. apply Forall_forall. intros plan Hplan.
      rewrite stable_sort_perm in Hplan.
      assert (Hd : displaced_from_mission plan
                   ∈ displaced_from_mission <$> closing bd p1)
        by by apply list_elem_of_fmap_2.
      rewrite closing_displaced in Hd.
      apply list_elem_of_fmap in Hd as (plan' & -> & Hplan').
      rewrite Forall_forall in Hp1none. by apply Hp1none.
    + intros Hnav. by specialize (Hnone Hnav).
Qed.

Lemma displacement_phase_witness :
  Forall (λ p, Pilot.status p ≠ "Available") [arjun]
  ∧ ∃ found,
      plans_found prj002 [arjun] sample_drones double_booked_missions
      = Returned found
      ∧ displaced_from_mission <$> found = [Some "PRJ001"; Some "PRJ003"].
Proof.
  assert (Hnone : Forall (λ p, Pilot.status p ≠ "Available") [arjun])
    by (repeat constructor; discriminate).
  split; [exact Hnone|].
  destruct (displacement_phase prj002 [arjun] sample_drones
              double_booked_missions)
    as (_ & found & out & Hfound & _ & _ & _ & Hphase2).
  exists found. split; [exact Hfound|].
  rewrite (proj2 (proj2 (Hphase2 Hnone))). vm_compute. reflexivity.
Defined.

(** Scenario C of the specification, with no drone at hand: the only pilot
    is busy on a Low and on a Standard mission; both plans displace him,
    the Low mission first, with risk 25 + 20 + 5 + 15. *)
Example displacement_scenario :
  match suggest_reassignment prj002 [arjun] sample_drones
          double_booked_missions with
  | Returned out =>
      (λ plan, (displaced_from_mission plan, pilot_score plan,
                risk_score plan)) <$> out
  | Raised _ => []
  end
  = [(Some "PRJ001", Finite 1, 65); (Some "PRJ003", Finite 1, 65)].
Proof. vm_compute. reflexivity. Qed.

(** Two pilots under one id: the mission's pilot is the one that comes last
    in the list. *)
Example displaced_pilot_is_last_with_id :
  match suggest_reassignment prj002
          [Pilot.set_status "On Leave" rohit; arjun;
           Pilot.mk "P001" "Arjun K" ["Thermal"] [] "Delhi" "Assigned"
             "PRJ001" None]
          sample_drones [prj001; prj002] with
  | Returned out =>
      (λ plan, (Pilot.name <$> suggested_pilot plan,
                displaced_from_mission plan)) <$> out
  | Raised _ => []
  end
  = [(Some "Arjun K", Some "PRJ001")].
Proof. vm_compute. reflexivity. Qed.
End Binary64Plans.

(* ------------------------------------------------------------------ *)
(** ** The overlap ratio on classes of tags *)

Lemma is_space_blank c : is_space c = true ↔ blank c.
Proof.
  unfold is_space, blank. cbv zeta.
  rewrite orb_true_iff, !andb_true_iff, !N.leb_le.
  rewrite !elem_of_cons, elem_of_nil. lia.
Qed.

Lemma N_of_ascii_lt c : (Ascii.N_of_ascii c < 256)%N.
Proof. apply Ascii.N_ascii_bounded. Qed.

Lemma is_upper_spec c : is_upper c = true ↔ (65 ≤ Ascii.N_of_ascii c ≤ 90)%N.
Proof. unfold is_upper. cbv zeta. by rewrite andb_true_iff, !N.leb_le. Qed.

Lemma lower_char_code c :
  Ascii.N_of_ascii (lower_char c)
  = if is_upper c then (Ascii.N_of_ascii c + 32)%N else Ascii.N_of_ascii c.
Proof.
  unfold lower_char. destruct (is_upper c) eqn:Hu; [|done].
  apply is_upper_spec in Hu. apply Ascii.N_ascii_embedding. lia.
Qed.

Lemma N_of_ascii_inj a b : Ascii.N_of_ascii a = Ascii.N_of_ascii b → a = b.
Proof.
  intros H. by rewrite <- (Ascii.ascii_N_embedding a), H, Ascii.ascii_N_embedding.
Qed.

Lemma lower_char_same_letter a b :
  lower_char a = lower_char b ↔ same_letter a b.
Proof.
  unfold same_letter. split.
  - intros H. apply (f_equal Ascii.N_of_ascii) in H.
    rewrite !lower_char_code in H.
    destruct (is_upper a) eqn:Ha, (is_upper b) eqn:Hb.
    + left. apply N_of_ascii_inj. lia.
    + right. apply is_upper_spec in Ha. exists (Ascii.N_of_ascii a).
      split; [done|]. left. by split.
    + right. apply is_upper_spec in Hb. exists (Ascii.N_of_ascii b).
      split; [done|]. right. by split.
    + left. by apply N_of_ascii_inj.
  - intros [->|(n & Hn & [[Ha Hb]|[Hb Ha]])]; [done|..];
      apply N_of_ascii_inj; rewrite !lower_char_code.
    + rewrite (proj2 (is_upper_spec a)) by lia.
      destruct (is_upper b) eqn:Hu; [apply is_upper_spec in Hu|]; lia.
    + rewrite (proj2 (is_upper_spec b)) by lia.
      destruct (is_upper a) eqn:Hu; [apply is_upper_spec in Hu|]; lia.
Qed.

Lemma lower_same_text s t : lower s = lower t ↔ same_text s t.
Proof.
  split.
  - revert t. induction s as [|a s IH]; intros [|b t]; cbn [lower]; try done.
    + constructor.
    + intros [= Hab Hst]. constructor; [by apply lower_char_same_letter|].
      by apply IH.
  - induction 1 as [|a b s t Hab _ IH]; [done|]. cbn [lower].
    by rewrite (proj2 (lower_char_same_letter a b) Hab), IH.
Qed.

Lemma app_String c s t : String c s ++ t = String c (s ++ t).
Proof. reflexivity. Qed.

Lemma app_empty_r s : s ++ "" = s.
Proof. induction s as [|c s IH]; [done|]. by rewrite app_String, IH. Qed.

Lemma lstrip_blanks l x : every blank l → lstrip (l ++ x) = lstrip x.
Proof.
  induction l as [|c l IH]; [done|]. intros [Hc Hl].
  rewrite app_String. cbn [lstrip].
  by rewrite (proj2 (is_space_blank c) Hc), IH.
Qed.

Lemma lstrip_split s : ∃ l, s = l ++ lstrip s ∧ every blank l.
Proof.
  induction s as [|c s (l & Hs & Hl)]; [by exists ""|]. cbn [lstrip].
  destruct (is_space c) eqn:Hc.
  - exists (String c l). rewrite app_String, <- Hs. split; [done|].
    split; [by apply is_space_blank|done].
  - by exists "".
Qed.

Lemma rstrip_blanks r : every blank r → rstrip r = "".
Proof.
  induction r as [|c r IH]; [done|]. intros [Hc Hr]. cbn [rstrip].
  by rewrite IH, (proj2 (is_space_blank c) Hc).
Qed.

Lemma rstrip_split s : ∃ r, s = rstrip s ++ r ∧ every blank r.
Proof.
  induction s as [|c s (r & Hs & Hr)]; [by exists ""|]. cbn [rstrip].
  destruct (rstrip s) as [|c' s'] eqn:E.
  - destruct (is_space c) eqn:Hc.
    + exists (String c s). split; [done|]. rewrite Hs.
      change ("" ++ r) with r.
      split; [by apply is_space_blank|done].
    + exists r. by rewrite app_String, <- Hs.
  - exists r. by rewrite app_String, <- Hs.
Qed.

Lemma rstrip_last s :
  match last_char (rstrip s) with Some c => ¬ blank c | None => True end.
Proof.
  induction s as [|c s IH]; [done|]. cbn [rstrip].
  destruct (rstrip s) as [|c' s'] eqn:E.
  - destruct (is_space c) eqn:Hc; [done|]. cbn.
    rewrite <- is_space_blank. congruence.
  - exact IH.
Qed.

Lemma rstrip_unpadded c :
  match last_char c with Some x => ¬ blank x | None => True end →
  rstrip c = c.
Proof.
  induction c as [|x c IH]; [done|]. cbn [last_char rstrip].
  destruct c as [|y c].
  - intros Hx. cbn. rewrite <- is_space_blank in Hx.
    by destruct (is_space x).
  - intros Hl. rewrite IH by done. done.
Qed.

Lemma rstrip_app_blanks c r : every blank r → rstrip (c ++ r) = rstrip c.
Proof.
  intros Hr. induction c as [|x c IH].
  - change ("" ++ r) with r. by rewrite rstrip_blanks.
  - rewrite app_String. cbn [rstrip]. by rewrite IH.
Qed.

Lemma trimmed_strip s core : trimmed s core ↔ core = strip s.
Proof.
  unfold strip. split.
  - intros (l & r & -> & Hl & Hr & Hfirst & Hlast).
    rewrite lstrip_blanks by done.
    destruct core as [|x core].
    + change ("" ++ r) with r.
      assert (lstrip r = "") as ->; [|done].
      induction r as [|c r IH]; [done|].
      destruct Hr as [Hc Hr]. cbn [lstrip].
      rewrite (proj2 (is_space_blank c) Hc). by apply IH.
    + rewrite app_String. cbn [lstrip].
      rewrite <- is_space_blank in Hfirst.
      destruct (is_space x); [done|].
      rewrite <- app_String, rstrip_app_blanks by done.
      by rewrite rstrip_unpadded.
  - intros ->. destruct (lstrip_split s) as (l & Hs & Hl).
    destruct (rstrip_split (lstrip s)) as (r & Hx & Hr).
    exists l, r. split; [by rewrite <- Hx|]. split; [done|]. split; [done|].
    split; [|apply rstrip_last].
    destruct (lstrip_head s) as [->|(c & x & -> & Hc)]; [done|].
    destruct (rstrip_head c x Hc) as [x' ->].
    rewrite <- is_space_blank. congruence.
Qed.

(** The normal form of the program tells the classes of [same_tag] apart. *)
Lemma norm_tag_same_tag a b : norm_tag a = norm_tag b ↔ same_tag a b.
Proof.
  unfold norm_tag, same_tag. rewrite <- !lower_strip, lower_same_text. split.
  - intros H. exists (strip a), (strip b). by rewrite !trimmed_strip.
  - intros (ca & cb & ->%trimmed_strip & ->%trimmed_strip & H). done.
Qed.

Lemma norm_tags_NoDup (l : list string) :
  (∀ i j r s, l !! i = Some r → l !! j = Some s → same_tag r s → i = j) →
  NoDup (norm_tag <$> l).
Proof.
  intros Hl. apply NoDup_alt. intros i j x Hi Hj.
  apply list_lookup_fmap_Some in Hi as (r & -> & Hi).
  apply list_lookup_fmap_Some in Hj as (s & Heq & Hj).
  apply (Hl i j r s Hi Hj). by apply norm_tag_same_tag.
Qed.

(** The classes are counted by the normal forms. *)
Lemma tag_classes_count required available met unmet :
  tag_classes required available met unmet →
  length (met ++ unmet)%list = size (norm_set required)
  ∧ length met = size (norm_set required ∩ norm_set available).
Proof.
  intros (Hin & Hcover & Hdistinct & Hmet & Hunmet).
  pose proof (norm_tags_NoDup _ Hdistinct) as Hnd.
  split.
  - rewrite <- (length_fmap norm_tag), <- (size_list_to_set (C:=gset string)) by done.
    f_equal. apply set_eq. intros t.
    rewrite elem_of_list_to_set, list_elem_of_fmap. unfold norm_set.
    rewrite elem_of_map. split.
    + intros (r & -> & Hr). exists r. split; [done|]. by apply Hin.
    + intros (x & -> & Hx). destruct (Hcover x Hx) as (r & Hr & Hsame).
      exists r. split; [|done]. by apply norm_tag_same_tag.
  - rewrite fmap_app in Hnd. apply NoDup_app in Hnd as (Hndm & Hsep & _).
    rewrite <- (length_fmap norm_tag), <- (size_list_to_set (C:=gset string)) by done.
    f_equal. apply set_eq. intros t.
    rewrite elem_of_list_to_set, list_elem_of_fmap, elem_of_intersection.
    unfold norm_set. rewrite !elem_of_map. split.
    + intros (r & -> & Hr). split.
      * exists r. split; [done|]. apply Hin, elem_of_app. by left.
      * destruct (Hmet r Hr) as (a & Ha & Hsame). exists a.
        split; [|done]. by apply norm_tag_same_tag.
    + intros [(x & -> & Hx) (a & Heq & Ha)].
      destruct (Hcover x Hx) as (r & Hr & Hsame).
      apply norm_tag_same_tag in Hsame.
      apply elem_of_app in Hr as [Hr|Hr]; [by exists r|].
      destruct (Hunmet r Hr a Ha). apply norm_tag_same_tag. congruence.
Qed.

Lemma first_of_each_class_elem seen l r :
  r ∈ first_of_each_class seen l → r ∈ l ∧ norm_tag r ∉ seen.
Proof.
  revert seen. induction l as [|t l IH]; intros seen; cbn [first_of_each_class].
  - by intros ?%elem_of_nil.
  - destruct (decide (norm_tag t ∈ seen)) as [Hs|Hs].
    + intros [? ?]%IH. split; [by right|done].
    + intros [->|[? Hr]%IH]%elem_of_cons; [split; [left|done]|].
      split; [by right|]. intros ?. apply Hr. apply elem_of_union. by right.
Qed.

Lemma first_of_each_class_cover seen l t :
  t ∈ l →
  norm_tag t ∈ seen
  ∨ ∃ r, r ∈ first_of_each_class seen l ∧ norm_tag r = norm_tag t.
Proof.
  revert seen. induction l as [|x l IH]; intros seen; [by intros ?%elem_of_nil|].
  cbn [first_of_each_class]. intros [->|Ht]%elem_of_cons.
  - destruct (decide (norm_tag x ∈ seen)); [by left|].
    right. exists x. split; [left|done].
  - destruct (decide (norm_tag x ∈ seen)) as [Hs|Hs]; [by apply IH|].
    destruct (IH ({[norm_tag x]} ∪ seen) Ht) as [Hin|(r & Hr & Heq)].
    + apply elem_of_union in Hin as [->%elem_of_singleton|Hin]; [|by left].
      right. exists x. split; [left|done].
    + right. exists r. split; [by right|done].
Qed.

Lemma first_of_each_class_NoDup seen l :
  NoDup (norm_tag <$> first_of_each_class seen l).
Proof.
  revert seen. induction l as [|x l IH]; intros seen; cbn [first_of_each_class].
  - constructor.
  - destruct (decide (norm_tag x ∈ seen)); [apply IH|].
    rewrite fmap_cons. constructor; [|apply IH].
    intros (r & Heq & Hr)%list_elem_of_fmap.
    apply first_of_each_class_elem in Hr as [_ Hr]. apply Hr.
    rewrite <- Heq. apply elem_of_union. left. by apply elem_of_singleton.
Qed.

(** There is always such a choice of required tags. *)
Lemma tag_classes_exist required available :
  ∃ met unmet, tag_classes required available met unmet.
Proof.
  set (reps := first_of_each_class ∅ (elements required)).
  set (is_met := λ r, norm_tag r ∈ norm_set available).
  exists (filter is_met reps), (filter (λ r, ¬ is_met r) reps).
  assert (Hperm : (filter is_met reps ++ filter (λ r, ¬ is_met r) reps)%list
                  ≡ₚ reps) by apply filter_app_complement.
  split_and!.
  - intros r Hr. rewrite Hperm in Hr.
    apply first_of_each_class_elem in Hr as [Hr _]. by apply elem_of_elements.
  - intros t Ht. apply elem_of_elements in Ht.
    destruct (first_of_each_class_cover ∅ _ t Ht) as [?%not_elem_of_empty|
      (r & Hr & Heq)]; [done|].
    exists r. rewrite Hperm. split; [done|]. by apply norm_tag_same_tag.
  - pose proof (first_of_each_class_NoDup ∅ (elements required)) as Hnd.
    fold reps in Hnd. rewrite <- Hperm in Hnd.
    intros i j r s Hi Hj Hsame%norm_tag_same_tag.
    eapply NoDup_alt; [exact Hnd|..]; rewrite list_lookup_fmap.
    + by rewrite Hi.
    + rewrite Hj. cbn. by rewrite Hsame.
  - intros r [Hr _]%list_elem_of_filter. unfold is_met, norm_set in Hr.
    apply elem_of_map in Hr as (a & Heq & Ha). exists a. split; [done|].
    by apply norm_tag_same_tag.
  - intros r [Hr _]%list_elem_of_filter a Ha Hsame%norm_tag_same_tag.
    apply Hr. unfold is_met, norm_set. apply elem_of_map. by exists a.
Qed.

(** C7: on tags of the ASCII range, [set_overlap_ratio required available]
    is 1.0 when [required] is empty.  Otherwise, take one required tag per
    class of tags that are the same once trimmed and read without case; the
    ratio is the number of those that an available tag meets in that sense
    divided by their number, as the nearest binary64 number.  The result is
    a finite number between 0 and 1. *)
Theorem set_overlap_ratio_correct (required available : gset string) :
  ascii_tags required → ascii_tags available →
  (required = ∅ →
   Binary64.set_overlap_ratio required available = Binary64.Finite 1)
  ∧ (required ≠ ∅ →
     (∃ met unmet, tag_classes required available met unmet)
     ∧ ∀ met unmet, tag_classes required available met unmet →
         (0 < length (met ++ unmet))%nat
         ∧ Binary64.set_overlap_ratio required available
           = Binary64.round64
               (Z.of_nat (length met)
                # Pos.of_nat (length (met ++ unmet)%list)))
  ∧ Binary64Notions.within 0 1
      (Binary64.set_overlap_ratio required available).
Proof.
  intros _ _. split; [|split].
  - intros ->. unfold Binary64.set_overlap_ratio. by rewrite decide_True.
  - intros Hne. split; [apply tag_classes_exist|].
    intros met unmet [Hall Hmet]%tag_classes_count.
    pose proof (norm_set_nonempty _ Hne) as Hpos.
    split; [lia|].
    unfold Binary64.set_overlap_ratio, Binary64.int_truediv.
    rewrite decide_False by done. by rewrite Hall, Hmet.
  - apply Binary64Facts.set_overlap_ratio_within.
Qed.

Lemma set_overlap_ratio_correct_witness :
  ascii_tags {["Mapping"; " thermal "; "MAPPING"]}
  ∧ ascii_tags {["mapping "; "LiDAR"]}
  ∧ Binary64Notions.within 0 1
      (Binary64.set_overlap_ratio {["Mapping"; " thermal "; "MAPPING"]}
         {["mapping "; "LiDAR"]}).
Proof.
  assert (H1 : ascii_tags {["Mapping"; " thermal "; "MAPPING"]}).
  { intros t Ht. rewrite !elem_of_union, !elem_of_singleton in Ht.
    by destruct Ht as [[->| ->]| ->]. }
  assert (H2 : ascii_tags {["mapping "; "LiDAR"]}).
  { intros t Ht. rewrite !elem_of_union, !elem_of_singleton in Ht.
    by destruct Ht as [->| ->]. }
  split; [exact H1|]. split; [exact H2|].
  exact (proj2 (proj2 (set_overlap_ratio_correct _ _ H1 H2))).
Defined.

(** The three required tags of the witness fall into two classes, one of
    them met: the ratio is one half. *)
Example overlap_of_classes :
  Binary64.set_overlap_ratio {["Mapping"; " thermal "; "MAPPING"]}
    {["mapping "; "LiDAR"]}
  = Binary64.literal (1 # 2).
Proof. vm_compute. reflexivity. Qed.

(* ------------------------------------------------------------------ *)
(** ** The conflict scan on the snapshot *)

Section ScanFacts.
Variable s : DataStore.t.

Lemma reads_ret {A} (a : A) : reads (mret a) s a.
Proof. done. Qed.

Lemma reads_bind {A B} (m : Store A) (f : A → Store B) a b :
  reads m s a → reads (f a) s b → reads (m ≫= f) s b.
Proof. unfold reads, mbind, Store_bind. by intros -> ->. Qed.

Lemma reads_gets {A} (f : DataStore.t → A) : reads (gets f) s (f s).
Proof. done. Qed.

Lemma reads_pilot_at r p :
  DataStore.pilots s !! r = Some p → reads (Scan.pilot_at r) s p.
Proof. unfold reads, Scan.pilot_at. by intros ->. Qed.

Lemma reads_drone_at r d :
  DataStore.drones s !! r = Some d → reads (Scan.drone_at r) s d.
Proof. unfold reads, Scan.drone_at. by intros ->. Qed.

Lemma reads_mission_at r m :
  DataStore.missions s !! r = Some m → reads (Scan.mission_at r) s m.
Proof. unfold reads, Scan.mission_at. by intros ->. Qed.

Lemma reads_for_each {A B} (l : list A) (body : A → Store (list B))
    (f : A → list B) :
  (∀ a, a ∈ l → reads (body a) s (f a)) →
  reads (Scan.for_each l body) s (flat_map f l).
Proof.
  induction l as [|a l IH]; intros Hl; [done|]. cbn [Scan.for_each flat_map].
  eapply reads_bind; [apply Hl; left|].
  eapply reads_bind; [apply IH; intros; apply Hl; by right|done].
Qed.

Lemma reads_fold_each {A S} (l : list A) (body : S → A → Store S)
    (f : S → A → S) (acc : S) :
  (∀ acc a, a ∈ l → reads (body acc a) s (f acc a)) →
  reads (Scan.fold_each l body acc) s (foldl f acc l).
Proof.
  revert acc. induction l as [|a l IH]; intros acc Hl; [done|].
  cbn [Scan.fold_each foldl].
  eapply reads_bind; [apply Hl; left|].
  apply IH. intros; apply Hl; by right.
Qed.

End ScanFacts.

(** *** References and the objects they stand for *)

Lemma seq_snoc_0 n : seq 0 (S n) = (seq 0 n ++ [n])%list.
Proof. by rewrite seq_S. Qed.

Lemma flat_map_ext_elem {A B} (f g : A → list B) (l : list A) :
  (∀ a, a ∈ l → f a = g a) → flat_map f l = flat_map g l.
Proof.
  induction l as [|a l IH]; intros Hl; [done|]. cbn [flat_map].
  rewrite Hl by left. rewrite IH; [done|]. intros; apply Hl; by right.
Qed.

Lemma foldl_ext_elem {A S} (f g : S → A → S) (l : list A) (acc : S) :
  (∀ acc a, a ∈ l → f acc a = g acc a) → foldl f acc l = foldl g acc l.
Proof.
  revert acc. induction l as [|a l IH]; intros acc Hl; [done|]. cbn [foldl].
  rewrite Hl by left. apply IH. intros; apply Hl; by right.
Qed.

Lemma flat_map_lookup {A B} (g : A → list B) (l : list A) :
  flat_map (λ r, from_option g [] (l !! r)) (seq 0 (length l)) = flat_map g l.
Proof.
  induction l as [|a l IH] using rev_ind; [done|].
  rewrite length_app, Nat.add_1_r, seq_snoc_0, !flat_map_app. cbn [flat_map].
  rewrite lookup_app_r, Nat.sub_diag by lia. cbn. f_equal.
  rewrite <- IH. apply flat_map_ext_elem. intros r Hr%elem_of_seq.
  by rewrite lookup_app_l by lia.
Qed.

Lemma refs_by_snoc {E} (key : E → string) (l : list E) (e : E) :
  refs_by key (l ++ [e]) = <[key e := length l]> (refs_by key l).
Proof.
  unfold refs_by. rewrite length_app, Nat.add_1_r, seq_snoc_0, foldl_snoc.
  rewrite lookup_app_r, Nat.sub_diag by lia. cbn. f_equal.
  apply foldl_ext_elem. intros acc r Hr%elem_of_seq.
  by rewrite lookup_app_l by lia.
Qed.

Lemma refs_by_lookup {E} (key : E → string) (l : list E) (id : string) :
  match refs_by key l !! id with
  | Some r => ∃ e, l !! r = Some e
                   ∧ foldl (λ acc e, <[key e := e]> acc)
                       (∅ : gmap string E) l !! id = Some e
  | None => foldl (λ acc e, <[key e := e]> acc)
              (∅ : gmap string E) l !! id = None
  end.
Proof.
  induction l as [|e l IH] using rev_ind; [done|].
  rewrite refs_by_snoc, foldl_snoc.
  destruct (decide (key e = id)) as [<-|Hne].
  - rewrite !lookup_insert_eq. exists e. split; [|done].
    by rewrite lookup_app_r, Nat.sub_diag by lia.
  - rewrite !lookup_insert_ne by done.
    destruct (refs_by key l !! id) as [r|]; [|done].
    destruct IH as (e' & Hr & He'). exists e'. split; [|done].
    by apply lookup_app_l_Some.
Qed.

Lemma reads_pilot_map s :
  reads Scan.pilot_map s (refs_by Pilot.pilot_id (DataStore.pilots s)).
Proof.
  unfold Scan.pilot_map. eapply reads_bind; [apply reads_gets|].
  apply reads_fold_each. intros acc r Hr%elem_of_seq.
  destruct (lookup_lt_is_Some_2 (DataStore.pilots s) r ltac:(lia)) as [p Hp].
  rewrite Hp. eapply reads_bind; [by apply reads_pilot_at|done].
Qed.

Lemma reads_drone_map s :
  reads Scan.drone_map s (refs_by Drone.drone_id (DataStore.drones s)).
Proof.
  unfold Scan.drone_map. eapply reads_bind; [apply reads_gets|].
  apply reads_fold_each. intros acc r Hr%elem_of_seq.
  destruct (lookup_lt_is_Some_2 (DataStore.drones s) r ltac:(lia)) as [d Hd].
  rewrite Hd. eapply reads_bind; [by apply reads_drone_at|done].
Qed.

(** A loop over the missions that reads each of them. *)
Lemma reads_for_missions s (body : nat → Store (list Conflict))
    (g : Mission.t → list Conflict) :
  (∀ r m, DataStore.missions s !! r = Some m → reads (body r) s (g m)) →
  reads (refs ← Scan.mission_refs; Scan.for_each refs body) s
        (flat_map g (DataStore.missions s)).
Proof.
  intros Hbody. eapply reads_bind; [apply reads_gets|].
  rewrite <- flat_map_lookup. apply reads_for_each.
  intros r Hr%elem_of_seq.
  destruct (lookup_lt_is_Some_2 (DataStore.missions s) r ltac:(lia)) as [m Hm].
  rewrite Hm. by apply Hbody.
Qed.

Lemma reads_detect_skill_mismatches s :
  reads Scan.detect_skill_mismatches s
    (detect_skill_mismatches (DataStore.pilots s) (DataStore.missions s)).
Proof.
  unfold Scan.detect_skill_mismatches.
  eapply reads_bind; [apply reads_pilot_map|].
  apply reads_for_missions. intros r m Hm.
  eapply reads_bind; [by apply reads_mission_at|].
  destruct (negb _); [done|].
  pose proof (refs_by_lookup Pilot.pilot_id (DataStore.pilots s)
                (Mission.assigned_pilot m)) as Href.
  fold (pilot_map_of (DataStore.pilots s)) in Href.
  destruct (refs_by _ _ !! _) as [rp|].
  - destruct Href as (p & Hp & ->).
    eapply reads_bind; [by apply reads_pilot_at|done].
  - by rewrite Href.
Qed.

Lemma reads_detect_maintenance_conflicts s :
  reads Scan.detect_maintenance_conflicts s
    (detect_maintenance_conflicts (DataStore.drones s) (DataStore.missions s)).
Proof.
  unfold Scan.detect_maintenance_conflicts.
  eapply reads_bind; [apply reads_drone_map|].
  apply reads_for_missions. intros r m Hm.
  eapply reads_bind; [by apply reads_mission_at|].
  destruct (negb _); [done|].
  pose proof (refs_by_lookup Drone.drone_id (DataStore.drones s)
                (Mission.assigned_drone m)) as Href.
  fold (drone_map_of (DataStore.drones s)) in Href.
  destruct (refs_by _ _ !! _) as [rd|].
  - destruct Href as (d & Hd & ->).
    eapply reads_bind; [by apply reads_drone_at|done].
  - by rewrite Href.
Qed.

Lemma reads_detect_location_mismatches s :
  reads Scan.detect_location_mismatches s
    (detect_location_mismatches (DataStore.pilots s) (DataStore.drones s)
       (DataStore.missions s)).
Proof.
  unfold Scan.detect_location_mismatches.
  eapply reads_bind; [apply reads_pilot_map|].
  eapply reads_bind; [apply reads_drone_map|].
  apply reads_for_missions. intros r m Hm.
  eapply reads_bind; [by apply reads_mission_at|].
  destruct (negb _); [done|].
  pose proof (refs_by_lookup Pilot.pilot_id (DataStore.pilots s)
                (Mission.assigned_pilot m)) as Hp.
  fold (pilot_map_of (DataStore.pilots s)) in Hp.
  pose proof (refs_by_lookup Drone.drone_id (DataStore.drones s)
                (Mission.assigned_drone m)) as Hd.
  fold (drone_map_of (DataStore.drones s)) in Hd.
  eapply (reads_bind _ _ _
            (if truthy (Mission.assigned_pilot m) then
               match pilot_map_of (DataStore.pilots s)
                     !! Mission.assigned_pilot m with
               | Some p => Scan.pilot_location_conflicts p m
               | None => []
               end
             else [])).
  { destruct (truthy (Mission.assigned_pilot m)); [|apply reads_ret].
    destruct (refs_by Pilot.pilot_id _ !! _) as [rp|].
    - destruct Hp as (p & Hp & ->).
      eapply reads_bind; [by apply reads_pilot_at|apply reads_ret].
    - rewrite Hp. apply reads_ret. }
  eapply (reads_bind _ _ _
            (if truthy (Mission.assigned_drone m) then
               match drone_map_of (DataStore.drones s)
                     !! Mission.assigned_drone m with
               | Some d => Scan.drone_location_conflicts d m
               | None => []
               end
             else [])).
  { destruct (truthy (Mission.assigned_drone m)); [|apply reads_ret].
    destruct (refs_by Drone.drone_id _ !! _) as [rd|].
    - destruct Hd as (d & Hd & ->).
      eapply reads_bind; [by apply reads_drone_at|apply reads_ret].
    - rewrite Hd. apply reads_ret. }
  reflexivity.
Qed.

Lemma setdefault_append_deref (missions : list Mission.t) k r m d :
  missions !! r = Some m →
  deref_group missions <$> setdefault_append k r d
  = setdefault_append k m (deref_group missions <$> d).
Proof.
  intros Hr. induction d as [|[k' l] d IH]; cbn [setdefault_append fmap list_fmap].
  - unfold deref_group. cbn. by rewrite Hr.
  - change (deref_group missions (k', l)).1 with k'. cbn [deref_group fst snd].
    destruct (String.eqb k' k).
    + cbn [fmap list_fmap]. unfold deref_group at 1. cbn [fst snd].
      rewrite omap_app. cbn. by rewrite Hr.
    + cbn [fmap list_fmap]. by rewrite <- IH.
Qed.

Lemma setdefault_append_Forall {V} (P : string * list V → Prop) k (v : V) d :
  P (k, [v]) → (∀ l, P (k, l) → P (k, (l ++ [v])%list)) →
  Forall P d → Forall P (setdefault_append k v d).
Proof.
  intros Hnew Hold. induction 1 as [|[k' l] d Hg Hd IH]; cbn [setdefault_append].
  - by constructor.
  - destruct (String.eqb_spec k' k) as [->|]; constructor; auto.
Qed.

Section BookingScan.
Context {E : Type}.
Variable s : DataStore.t.
Variable assigned : Mission.t → string.
Variable key : E → string.
Variable entities : list E.
Variable entity_at : nat → Store E.
Variable conflict_of : string → E → Mission.t → Mission.t → Conflict.
Hypothesis entity_at_reads :
  ∀ r e, entities !! r = Some e → reads (entity_at r) s e.

Abbreviation missions := (DataStore.missions s).
Abbreviation entity_map :=
  (foldl (λ acc e, <[key e := e]> acc) (∅ : gmap string E) entities).
Abbreviation refs := (refs_by key entities).
Abbreviation valid_group :=
  (λ g : string * list nat,
     is_Some (refs !! g.1) ∧ Forall (λ r, is_Some (missions !! r)) g.2).
Abbreviation step :=
  (λ (acc : list (string * list nat)) (r : nat),
     match missions !! r with
     | Some m =>
         if truthy (assigned m) && bool_decide (is_Some (refs !! assigned m))
         then setdefault_append (assigned m) r acc
         else acc
     | None => acc
     end).

Lemma refs_known id : is_Some (refs !! id) ↔ is_Some (entity_map !! id).
Proof.
  pose proof (refs_by_lookup key entities id) as H.
  destruct (refs !! id) as [r|].
  - destruct H as (e & _ & ->). by split.
  - rewrite H. by split.
Qed.

Lemma groups_of_prefix k :
  (k ≤ length missions)%nat →
  deref_group missions <$> foldl step [] (seq 0 k)
  = group_missions assigned entity_map (take k missions)
  ∧ Forall valid_group (foldl step [] (seq 0 k)).
Proof.
  induction k as [|k IH]; intros Hk; [by split|].
  destruct IH as [IH Hvalid]; [lia|].
  destruct (lookup_lt_is_Some_2 missions k ltac:(lia)) as [m Hm].
  rewrite seq_snoc_0, foldl_snoc, (take_S_r _ _ _ Hm).
  unfold group_missions. rewrite foldl_snoc.
  fold (group_missions assigned entity_map (take k missions)).
  rewrite Hm, <- IH.
  rewrite (bool_decide_ext _ _ (refs_known (assigned m))).
  destruct (truthy (assigned m) && bool_decide _) eqn:Hcond; [|by split].
  split; [by apply setdefault_append_deref|].
  apply andb_true_iff in Hcond as [_ Hknown%bool_decide_eq_true].
  apply refs_known in Hknown.
  apply setdefault_append_Forall; [| |done].
  - split; [done|]. by repeat constructor.
  - intros l [? Hl]. split; [done|]. apply Forall_app. split; [done|].
    by repeat constructor.
Qed.

Lemma reads_group_missions :
  reads (Scan.group_missions assigned refs) s
        (foldl step [] (seq 0 (length missions))).
Proof.
  unfold Scan.group_missions. eapply reads_bind; [apply reads_gets|].
  apply reads_fold_each. intros acc r Hr%elem_of_seq.
  destruct (lookup_lt_is_Some_2 missions r ltac:(lia)) as [m Hm].
  rewrite Hm. eapply reads_bind; [by apply reads_mission_at|].
  by destruct (_ && _).
Qed.

Lemma reads_booking_body eid ri rj mi mj :
  is_Some (refs !! eid) →
  missions !! ri = Some mi → missions !! rj = Some mj →
  reads (Scan.booking_body entity_at refs conflict_of eid ri rj) s
        (option_list (booking_body entity_map conflict_of eid mi mj)).
Proof.
  intros Hknown Hi Hj. unfold Scan.booking_body, booking_body.
  eapply reads_bind; [by apply reads_mission_at|].
  eapply reads_bind; [by apply reads_mission_at|].
  destruct (Mission.overlaps_with mi mj); [|done].
  pose proof (refs_by_lookup key entities eid) as H.
  destruct (refs !! eid) as [r|]; [|by destruct Hknown].
  destruct H as (e & He & ->).
  eapply reads_bind; [by apply entity_at_reads|done].
Qed.

Lemma reads_pair_loop eid (m_list : list nat) :
  is_Some (refs !! eid) →
  Forall (λ r, is_Some (missions !! r)) m_list →
  reads (Scan.pair_loop (Scan.booking_body entity_at refs conflict_of eid)
           m_list) s
        (pair_loop (booking_body entity_map conflict_of eid)
           (omap (missions !!.) m_list)).
Proof.
  intros Hknown. induction 1 as [|ri rest [mi Hi] Hrest IH]; [done|].
  cbn [Scan.pair_loop omap list_omap]. rewrite Hi. cbn [pair_loop].
  eapply reads_bind; [|eapply reads_bind; [exact IH|done]].
  assert (omap (booking_body entity_map conflict_of eid mi)
            (omap (missions !!.) rest)
          = flat_map (λ rj, from_option
                (λ mj, option_list
                   (booking_body entity_map conflict_of eid mi mj))
                [] (missions !! rj)) rest) as ->.
  { clear IH. induction Hrest as [|rj rest [mj Hj] _ IH]; [done|].
    cbn [omap list_omap flat_map]. rewrite Hj, <- IH. cbn.
    by destruct (booking_body _ _ _ _ _). }
  apply reads_for_each. intros rj Hrj.
  rewrite Forall_forall in Hrest. destruct (Hrest rj Hrj) as [mj Hj].
  rewrite Hj. by apply reads_booking_body.
Qed.

Lemma reads_scan_double_bookings :
  reads (Scan.scan_double_bookings assigned entity_at refs conflict_of) s
        (scan_double_bookings assigned entity_map conflict_of missions).
Proof.
  unfold Scan.scan_double_bookings, scan_double_bookings.
  eapply reads_bind; [apply reads_group_missions|].
  destruct (groups_of_prefix (length missions) ltac:(lia)) as [Hgroups Hvalid].
  rewrite take_ge in Hgroups by lia. rewrite <- Hgroups.
  set (groups := foldl step [] (seq 0 (length missions))) in *.
  assert (flat_map (λ '(eid, m_list),
              pair_loop (booking_body entity_map conflict_of eid) m_list)
            (deref_group missions <$> groups)
          = flat_map (λ g, pair_loop
                             (booking_body entity_map conflict_of g.1)
                             (omap (missions !!.) g.2)) groups) as ->.
  { clear. induction groups as [|[eid l] groups IH]; [done|].
    cbn [fmap list_fmap flat_map]. by rewrite IH. }
  apply reads_for_each. intros [eid l] Hg.
  rewrite Forall_forall in Hvalid. destruct (Hvalid _ Hg) as [Hknown Hl].
  by apply reads_pair_loop.
Qed.
End BookingScan.

Lemma reads_detect_double_bookings s :
  reads Scan.detect_double_bookings s
    (detect_double_bookings (DataStore.pilots s) (DataStore.missions s)).
Proof.
  unfold Scan.detect_double_bookings.
  eapply reads_bind; [apply reads_pilot_map|].
  apply reads_scan_double_bookings. apply reads_pilot_at.
Qed.

Lemma reads_detect_drone_double_bookings s :
  reads Scan.detect_drone_double_bookings s
    (detect_drone_double_bookings (DataStore.drones s) (DataStore.missions s)).
Proof.
  unfold Scan.detect_drone_double_bookings.
  eapply reads_bind; [apply reads_drone_map|].
  apply reads_scan_double_bookings. apply reads_drone_at.
Qed.

Lemma reads_detect_all_conflicts s :
  reads Scan.detect_all_conflicts s
    (detect_all_conflicts (DataStore.pilots s) (DataStore.drones s)
       (DataStore.missions s)).
Proof.
  unfold Scan.detect_all_conflicts, detect_all_conflicts.
  cbn [Scan.fold_each foldl].
  eapply reads_bind;
    [eapply reads_bind; [apply reads_detect_double_bookings|done]|].
  eapply reads_bind;
    [eapply reads_bind; [apply reads_detect_drone_double_bookings|done]|].
  eapply reads_bind;
    [eapply reads_bind; [apply reads_detect_skill_mismatches|done]|].
  eapply reads_bind;
    [eapply reads_bind; [apply reads_detect_maintenance_conflicts|done]|].
  eapply reads_bind;
    [eapply reads_bind; [apply reads_detect_location_mismatches|done]|].
  done.
Qed.

Lemma run_detect_all_conflicts_scan s :
  run_detect_all_conflicts s = Scan.detect_all_conflicts s.
Proof. symmetry. apply reads_detect_all_conflicts. Qed.

(** C8: the conflict scan, run on the snapshot, returns and leaves every
    pilot, drone and mission as it found them; a second scan of the snapshot
    returns the same list as the first; and the list is what the five scans
    return on that snapshot, appended in the order pilot double booking,
    drone double booking, skill or certification mismatch, maintenance,
    location mismatch, each scan giving conflicts of its own type only. *)
Theorem detect_all_conflicts_read_only (s : DataStore.t) :
  ∃ bookings drone_bookings skills maintenance locations,
    Scan.detect_double_bookings s = (s, Returned bookings)
    ∧ Scan.detect_drone_double_bookings s = (s, Returned drone_bookings)
    ∧ Scan.detect_skill_mismatches s = (s, Returned skills)
    ∧ Scan.detect_maintenance_conflicts s = (s, Returned maintenance)
    ∧ Scan.detect_location_mismatches s = (s, Returned locations)
    ∧ of_type "Double Booking" bookings
    ∧ of_type "Double Booking" drone_bookings
    ∧ of_type "Skill Mismatch" skills
    ∧ of_type "Maintenance" maintenance
    ∧ of_type "Location Mismatch" locations
    ∧ let found := (bookings ++ drone_bookings ++ skills ++ maintenance
                    ++ locations)%list in
      Scan.detect_all_conflicts s = (s, Returned found)
      ∧ (first ← Scan.detect_all_conflicts;
         second ← Scan.detect_all_conflicts;
         mret (first, second)) s
        = (s, Returned (found, found)).
Proof.
  exists (detect_double_bookings (DataStore.pilots s) (DataStore.missions s)),
    (detect_drone_double_bookings (DataStore.drones s) (DataStore.missions s)),
    (detect_skill_mismatches (DataStore.pilots s) (DataStore.missions s)),
    (detect_maintenance_conflicts (DataStore.drones s) (DataStore.missions s)),
    (detect_location_mismatches (DataStore.pilots s) (DataStore.drones s)
       (DataStore.missions s)).
  split; [apply reads_detect_double_bookings|].
  split; [apply reads_detect_drone_double_bookings|].
  split; [apply reads_detect_skill_mismatches|].
  split; [apply reads_detect_maintenance_conflicts|].
  split; [apply reads_detect_location_mismatches|].
  split; [by apply scan_double_bookings_type|].
  split; [by apply scan_double_bookings_type|].
  split; [apply detect_skill_mismatches_type|].
  split; [apply detect_maintenance_conflicts_type|].
  split; [apply detect_location_mismatches_type|].
  cbn zeta.
  assert (Hall : reads Scan.detect_all_conflicts s
            (detect_double_bookings (DataStore.pilots s) (DataStore.missions s)
             ++ detect_drone_double_bookings (DataStore.drones s)
                  (DataStore.missions s)
             ++ detect_skill_mismatches (DataStore.pilots s)
                  (DataStore.missions s)
             ++ detect_maintenance_conflicts (DataStore.drones s)
                  (DataStore.missions s)
             ++ detect_location_mismatches (DataStore.pilots s)
                  (DataStore.drones s) (DataStore.missions s))%list).
  { pose proof (reads_detect_all_conflicts s) as H.
    unfold detect_all_conflicts in H. cbn [foldl] in H.
    by rewrite app_nil_l, <- !app_assoc in H. }
  split; [exact Hall|].
  eapply reads_bind; [exact Hall|].
  eapply reads_bind; [exact Hall|done].
Qed.

(** The scan of the snapshot in which the pilot and the drone of PRJ001 are
    booked on the overlapping PRJ003 too. *)
Example scan_of_double_booking :
  match (Scan.detect_all_conflicts
           (DataStore.mk sample_pilots sample_drones double_booked_missions)).2
  with
  | Returned found =>
      (λ c, (conflict_type c, entity_id c, mission_id c)) <$> found
  | Raised _ => []
  end
  = [("Double Booking", "P001", "PRJ001 & PRJ003");
     ("Double Booking", "D001", "PRJ001 & PRJ003");
     ("Location Mismatch", "P001", "PRJ003");
     ("Location Mismatch", "D001", "PRJ003")].
Proof. vm_compute. reflexivity. Qed.
